(* ===== verification/_CoqProject ===== *)
-Q . S2P
Prelude.v
Mem.v
Layout.v
MkBitmap.v
MkCache.v
MkFs.v
Kernel.v
InodeTab.v
Alloc.v
KBitmap.v
Itree.v
Tree.v
TreeEdit.v
Trunc.v
Truncate.v
Files.v
FileSys.v
TreeDemo.v
Page.v
Super.v
Slab.v
Mount.v
Vfs.v
Dir.v
DirSlots.v
DirEdit.v
DirOps.v
DirSpec.v
DirRead.v
DirMap.v
DirTree.v
Namei.v
NameBase.v
NameSpec.v
NameTree.v
