(* ===== verification/Prelude.v ===== *)
(** * GAS file system: a model of the kernel module and of its file-system maker

    The repository holds two programs. [mkfs] (src/src/makefs) writes an empty file system
    to an image file; the kernel module (src/src/kern) mounts such an image and provides
    files, directories and the allocation of blocks and inodes. This library models
    both, function by function, and proves what they do. The definitions keep the names
    of the code. A w-bit integer is a [Z] with its wrap-around written out ([u32], [s32],
    ... below); memory is a list of bytes, and an access outside a buffer, a null
    pointer or a second unlock of a page is [None]: a theorem that says a computation
    returns says that no such access happens.

    ** The parts and the files that model them

    - On-disk layout (kern/gas.h): Layout.v, over the byte memory of Mem.v.
    - The maker's bitmap library (makefs/bitmap.c): MkBitmap.v. [word] and [set_word] are the
      accesses through [uint64_t *].
    - The maker's block cache and [main] (makefs/mkfs.c): MkCache.v (the cache, as a list
      of entries over the image) and MkFs.v (allocators, root directory, [main]).
    - State, monad and kernel interface of the module (kern/gas.h): Kernel.v. [kst] is the
      state the module's functions share, [K] the computations on it, [kwp] their total
      correctness. The kernel functions called are the class [KernelApi] with the laws
      [KernelLaws].
    - The inode table (kern/gas_inode.c): InodeTab.v.
    - The allocation maps (kern/bitmap.c): KBitmap.v, an instance of the interface
      [BlockAllocator] of Alloc.v, which is all the block tree knows of them.
    - The block tree (kern/gas_itree.c; [gas_truncate] and [gas_evict_inode] of
      gas_inode.c): the code in Itree.v; lookup in Tree.v, growth in TreeEdit.v, truncation in
      Trunc.v and Truncate.v. Files.v and FileSys.v put the trees of all inodes in memory and the
      allocators together; TreeDemo.v is the concrete file system of the witnesses.
    - Reading and writing files (kern/gas_page.c): Page.v.
    - The super block (kern/gas_super.c): Super.v; the cache of inodes and the loading of the
      module, a state machine of its own, in Slab.v. Mount.v joins the two programs: what
      [main] writes, [gas_fill_super] mounts.
    - Directories (kern/gas_dir.c): the page cache and the caches of inodes and dentries
      in Vfs.v ([vfs], [P], [pwp]; classes [PageApi] and [PageLaws]), the code in Dir.v.
      DirSlots.v reads a directory as a list of slots, DirEdit.v has the steps that
      change a page and the interface [BlockMapper] to the block tree, DirOps.v and DirRead.v
      the operations, DirSpec.v what they promise, DirMap.v the refinement of a directory to a
      finite map; DirTree.v shows that [gas_get_block] implements [BlockMapper].
    - The name space (kern/gas_namei.c): the code in Namei.v; NameBase.v has the invariant, the
      frame of an operation and the interface [InodeManager] to the inode allocator and
      eviction; NameSpec.v the specifications; NameTree.v the instance.

    The interfaces follow the calls: gas_namei.c uses directories and, through [InodeManager],
    inodes; gas_dir.c uses the block tree through [BlockMapper]; the block tree uses bitmap.c
    through [BlockAllocator]. Theorems about a client are proved against the interface and
    hold for this module through the instances [gas_allocator], [gas_allocator_with],
    [get_block_mapper] and [gas_inode_manager].

    ** What the theorems show

    - The maker: [main] formats every image of 1 MiB to 16 GiB (main_formats), its bitmap
      allocator is first fit, its cache refines a flat store of blocks, and its image
      mounts (mkfs_mounts). Only the first of the blocks it reserves for the root is reachable.
    - Blocks and inodes: the allocators refine a set of free blocks, and on every branch
      do what they promise; an inode written and read back is the same, and a synchronous
      write that fails is reported and leaves the block as the device has it.
    - Files: [gas_get_block] maps a block or leaves everything as it was, a lookup is
      linearizable under interference by other tasks in every read, failing ones included,
      truncation frees exactly what leaves the tree. fs_reachable is the invariant of the whole: whatever sequence of
      operations runs, no block belongs to two files, and the next operation returns.
    - Reading and writing: a write that fails or falls short leaves no block mapped after
      the end of the file; [gas_bmap] answers the block the tree has.
    - Directories and names: a directory of at most fifteen slots refines a finite map from
      names to inode numbers, under the operations as the kernel composes them, each after a
      lookup (in a larger one the lookup reads past a page). The operations of gas_namei.c
      are specified by slots, link counts, references and dentries. An entry is added or
      removed unless the search or preparing its page fails: [link_outcome] and
      [unlink_outcome] tie every answer to its reason, and in a directory with the dirsync
      option the answer can be a failed write although the slot has changed. What failing
      operations leave behind (an inode with a link, an entry of an inode that is gone) is
      stated as it is.
    - Mounting: every failing branch of [gas_fill_super] with the buffers it releases or keeps.
    - The module: while it is loaded every pending RCU callback frees its inode to the cache it
      comes from; the cache outlives the module, and so can a callback.

    Hypotheses name the behaviour of code outside src/: the laws of the classes above, and
    that [truncate_inode_pages], [clear_inode] and similar calls change nothing the
    module keeps. Each property with hypotheses has a witness, a closed lemma that applies
    it to a concrete state.

    ** Bounds and fuel

    - The loops of makefs/bitmap.c carry fuel; the callers pass more than the number of words of
      the range or of positions left, and the theorems show that the result is never [None].
    - [gas_new_block] and [gas_new_inode] scan each map block once: the fuel is the number of
      map blocks plus one.
    - [gas_get_block] reads the chain again when another task changed it; the fuel bounds the
      number of rounds. For a lookup any positive fuel is enough, since it does not retry;
      for a mapping without interference one round is.
    - [free_branches] recurses on the depth of the tree, at most three.
    - [s_nblocks <= max_blocks] bounds the device by what [block_to_path] can address; with
      blocks of 512 bytes a larger device exists and is a finding.

    ** Not modelled

    - printf, printk, pr_debug and [dump_inode] only print.
    - Concurrency: a section under [bitmap_lock] or [pointers_lock] is atomic. What other tasks do
      while one sleeps is a parameter of the block tree; lookups are proved under any
      interference that keeps trees well formed, the other operations without
      interference. The inode mutex keeps other tasks out of a directory.
    - The sizes in the page cache: the page cache shows what was last written; when the kernel
      writes pages back is not part of the state.
    - [generic_fillattr] is reduced to the size; [page_symlink] is a parameter. [gas_symlink]
      is defined but not specified, and neither are renames of directories, whose entry [..]
      keeps pointing to the old parent ([gas_set_link] stores no number).
    - def.c only fills tables of function pointers; which table an inode gets is part of
      [gas_set_inode]. [gas_mount] hands [gas_fill_super] to the kernel. *)

From stdpp Require Export base numbers list gmap option.
From Stdlib Require Export ZArith Lia.

#[export] Set Default Goal Selector "!".

Declare Scope gas_scope.
Delimit Scope gas_scope with gas.
#[global] Open Scope Z_scope.

(** ** Machine integers

    A w-bit C integer is a [Z]; the conversions below are the wrap-around the C
    code performs when it stores a wider value in a narrower type. *)

Definition u8 (x : Z) : Z := x mod 2 ^ 8.
Definition u16 (x : Z) : Z := x mod 2 ^ 16.
Definition u32 (x : Z) : Z := x mod 2 ^ 32.
Definition u64 (x : Z) : Z := x mod 2 ^ 64.
(** Conversion to a signed 32-bit [int]. *)
Definition s32 (x : Z) : Z := (x + 2 ^ 31) mod 2 ^ 32 - 2 ^ 31.

(** The [-Exxx] codes the kernel module returns; [0] is the absence of one. *)
Inductive errno : Set :=
| ENOENT | EIO | EAGAIN | ENOMEM | EEXIST | EINVAL | ENOSPC | ENAMETOOLONG | ENOTEMPTY.

#[export] Instance errno_eq_dec : EqDecision errno.
Proof. solve_decision. Defined.

(** ** Tactics *)

(** [lia] after the euclidean equations of [/], [mod], [Z.quot] and [Z.rem]. *)
Ltac dlia := Z.to_euclidean_division_equations; lia.

(** Unfold the integer conversions and close an arithmetic goal. *)
Ltac mlia := unfold u8, u16, u32, u64, s32 in *; dlia.

(** Turn the boolean comparisons of the code into propositions. *)
Ltac bools :=
  repeat match goal with
  | H : (_ <? _) = true |- _ => apply Z.ltb_lt in H
  | H : (_ <? _) = false |- _ => apply Z.ltb_ge in H
  | H : (_ <=? _) = true |- _ => apply Z.leb_le in H
  | H : (_ <=? _) = false |- _ => apply Z.leb_gt in H
  | H : (_ =? _) = true |- _ => apply Z.eqb_eq in H
  | H : (_ =? _) = false |- _ => apply Z.eqb_neq in H
  | H : (_ && _)%bool = true |- _ => apply andb_true_iff in H as [? ?]
  | H : (_ || _)%bool = false |- _ => apply orb_false_iff in H as [? ?]
  | H : negb _ = true |- _ => apply negb_true_iff in H
  | H : negb _ = false |- _ => apply negb_false_iff in H
  end.

(** Case analysis on the first comparison of the goal. *)
Ltac cmp :=
  match goal with
  | |- context [?a <? ?b] => destruct (Z.ltb_spec a b)
  | |- context [?a <=? ?b] => destruct (Z.leb_spec a b)
  | |- context [?a =? ?b] => destruct (Z.eqb_spec a b)
  end.

(** ** Arithmetic of the conversions *)

Lemma u16_small x : 0 <= x < 2 ^ 16 -> u16 x = x.
Proof. apply Z.mod_small. Qed.

Lemma u32_small x : 0 <= x < 2 ^ 32 -> u32 x = x.
Proof. apply Z.mod_small. Qed.

Lemma u64_small x : 0 <= x < 2 ^ 64 -> u64 x = x.
Proof. apply Z.mod_small. Qed.

Lemma s32_small x : - 2 ^ 31 <= x < 2 ^ 31 -> s32 x = x.
Proof. intros H. unfold s32. rewrite Z.mod_small; lia. Qed.

Lemma u32_range x : 0 <= u32 x < 2 ^ 32.
Proof. apply Z.mod_pos_bound. lia. Qed.

Lemma u64_range x : 0 <= u64 x < 2 ^ 64.
Proof. apply Z.mod_pos_bound. lia. Qed.

Lemma testbit_u64 x i :
  0 <= i -> Z.testbit (u64 x) i = (i <? 64) && Z.testbit x i.
Proof.
  intros Hi. unfold u64. cmp.
  - by rewrite Z.mod_pow2_bits_low by lia.
  - by rewrite Z.mod_pow2_bits_high by lia.
Qed.

Lemma testbit_above w n i : 0 <= w < 2 ^ n -> 0 <= n <= i -> Z.testbit w i = false.
Proof.
  intros Hw Hi. rewrite <- (Z.mod_small w (2 ^ n)) by done.
  by apply Z.mod_pow2_bits_high.
Qed.

Lemma land_pow2_mul x k : 0 <= k -> Z.land x (Z.lnot (Z.ones k)) = 2 ^ k * (x / 2 ^ k).
Proof.
  intros Hk. rewrite <- Z.ldiff_land, Z.ldiff_ones_r by done.
  rewrite Z.shiftr_div_pow2, Z.shiftl_mul_pow2 by done. lia.
Qed.

(** ** The first index with a property

    [is_first p lo hi r]: [r] is the least index of [\[lo, hi)] at which [p]
    holds, and [hi] when there is none. It is the specification of every search
    loop of the program. *)

Definition is_first (p : Z -> bool) (lo hi r : Z) : Prop :=
  lo <= r <= hi /\ (forall j, lo <= j < r -> p j = false) /\ (r < hi -> p r = true).

Fixpoint scan (p : Z -> bool) (i : Z) (n : nat) : Z :=
  match n with
  | O => i
  | S n => if p i then i else scan p (i + 1) n
  end.

Lemma is_first_unique p lo hi r1 r2 :
  is_first p lo hi r1 -> is_first p lo hi r2 -> r1 = r2.
Proof.
  intros (H1 & L1 & T1) (H2 & L2 & T2).
  destruct (Z.lt_trichotomy r1 r2) as [?|[?|?]]; [|done|].
  - specialize (L2 r1 ltac:(lia)). rewrite T1 in L2 by lia. done.
  - specialize (L1 r2 ltac:(lia)). rewrite T2 in L1 by lia. done.
Qed.

Lemma scan_first p i n : is_first p i (i + Z.of_nat n) (scan p i n).
Proof.
  revert i. induction n as [|n IH]; intros i; simpl.
  - split; [lia|]. split; [intros; lia|lia].
  - destruct (p i) eqn:E.
    + split; [lia|]. split; [intros; lia|done].
    + destruct (IH (i + 1)) as (H & L & T).
      split; [lia|]. split.
      * intros j Hj. destruct (Z.eq_dec j i) as [->|]; [done|]. apply L. lia.
      * intros ?. apply T. lia.
Qed.

Lemma is_first_ext p q lo hi r :
  (forall i, lo <= i < hi -> p i = q i) -> is_first p lo hi r -> is_first q lo hi r.
Proof.
  intros E (H & L & T). split; [done|]. split.
  - intros j Hj. rewrite <- E by lia. by apply L.
  - intros ?. rewrite <- E by lia. by apply T.
Qed.

(** Extend a search to the left over indices without the property. *)
Lemma is_first_skip p lo mid hi r :
  lo <= mid -> (forall j, lo <= j < mid -> p j = false) ->
  is_first p mid hi r -> is_first p lo hi r.
Proof.
  intros ? Hn (H & L & T). split; [lia|]. split; [|done].
  intros j Hj. destruct (Z_lt_le_dec j mid); [apply Hn|apply L]; lia.
Qed.

(** A search that succeeds before [mid] succeeds for a longer range too. *)
Lemma is_first_extend p lo mid hi r :
  r < mid -> mid <= hi -> is_first p lo mid r -> is_first p lo hi r.
Proof.
  intros ?? (H & L & T). split; [lia|]. split; [done|]. intros _. by apply T.
Qed.

Create HintDb gas.
#[export] Hint Resolve u32_range u64_range : gas.
Create Rewrite HintDb gas.
#[export] Hint Rewrite u16_small u32_small u64_small s32_small using lia : gas.

(** Signed [int] arithmetic: overflow is undefined behaviour in C, hence [None]. *)
Definition int32 (x : Z) : option Z :=
  if (- 2 ^ 31 <=? x) && (x <? 2 ^ 31) then Some x else None.

Lemma int32_Some x : - 2 ^ 31 <= x < 2 ^ 31 -> int32 x = Some x.
Proof.
  intros ?. unfold int32. rewrite (proj2 (Z.leb_le _ _)) by lia.
  by rewrite (proj2 (Z.ltb_lt _ _)) by lia.
Qed.

Lemma land_range n a b : 0 <= n -> 0 <= a < 2 ^ n -> 0 <= Z.land a b < 2 ^ n.
Proof.
  intros Hn Ha. rewrite <- (Z.mod_small a (2 ^ n)) by done.
  rewrite <- Z.land_ones, <- Z.land_assoc, (Z.land_comm (Z.ones n)), Z.land_assoc,
    Z.land_ones by done.
  apply Z.mod_pos_bound. lia.
Qed.

Lemma lor_range n a b : 0 <= n -> 0 <= a < 2 ^ n -> 0 <= b < 2 ^ n -> 0 <= Z.lor a b < 2 ^ n.
Proof.
  intros Hn Ha Hb. rewrite <- (Z.mod_small a (2 ^ n)), <- (Z.mod_small b (2 ^ n)) by done.
  rewrite <- !Z.land_ones, <- Z.land_lor_distr_l, Z.land_ones by done.
  apply Z.mod_pos_bound. lia.
Qed.

(** Membership and inclusion goals over unions and singletons, on a clean context. *)
Ltac sets := simpl; clear; set_solver.

Lemma elem_take {A} (x : A) n l : x ∈ take n l -> x ∈ l.
Proof. intros Hx. rewrite <- (take_drop n l). apply elem_of_app. by left. Qed.

Lemma Forall_in {A} (P : A -> Prop) l x : Forall P l -> x ∈ l -> P x.
Proof. intros HF Hx. rewrite List.Forall_forall in HF. by apply HF, list_elem_of_In. Qed.

Lemma bind_ext_in {A B} (f g : A -> list B) l : (forall x, x ∈ l -> f x = g x) -> l ≫= f = l ≫= g.
Proof.
  induction l as [|x l IH]; intros E; [done|]. rewrite !bind_cons. rewrite E by left. f_equal.
  apply IH. intros y Hy. apply E. by right.
Qed.
