(* ===== verification/Mem.v ===== *)
(** * Byte memory

    Blocks, pages and buffers are lists of bytes. [load] and [store] are the
    little-endian accesses the C code makes through casted pointers
    (a word of a bitmap, [di->i_size], [*p->p]); an access that leaves the buffer is
    undefined behaviour in C and is [None] here, so that a theorem whose
    conclusion is [Some _] includes memory safety. [bit] reads a buffer as a
    bitmap. *)

From S2P Require Import Prelude.
From coqutil Require Export Byte Word.LittleEndianList.

Abbreviation bytes := (list Byte.byte).

(** Length of a buffer, as an integer. *)
Definition blen (m : bytes) : Z := Z.of_nat (length m).

Definition zeroes (n : Z) : bytes := replicate (Z.to_nat n) Byte.x00.

(** [memset(p, c, n)] on a fresh buffer. *)
Definition memset_buf (c : Byte.byte) (n : Z) : bytes := replicate (Z.to_nat n) c.

(** The [n] bytes at [off]. *)
Definition sub_bytes (n : nat) (m : bytes) (off : Z) : bytes :=
  take n (drop (Z.to_nat off) m).

(** Replace the bytes at [off] by [bs]. *)
Definition splice (m : bytes) (off : Z) (bs : bytes) : bytes :=
  take (Z.to_nat off) m ++ bs ++ drop (Z.to_nat off + length bs) m.

Definition in_range (m : bytes) (off n : Z) : bool :=
  (0 <=? off) && (off + n <=? blen m).

(** Little-endian load and store of [n] bytes. *)
Definition load (n : nat) (m : bytes) (off : Z) : option Z :=
  if in_range m off (Z.of_nat n) then Some (le_combine (sub_bytes n m off)) else None.

Definition store (n : nat) (m : bytes) (off v : Z) : option bytes :=
  if in_range m off (Z.of_nat n) then Some (splice m off (le_split n v)) else None.

(** Copy of a byte string into a buffer. *)
Definition store_bytes (m : bytes) (off : Z) (bs : bytes) : option bytes :=
  if in_range m off (blen bs) then Some (splice m off bs) else None.

(** Bit [i] of a buffer: bit [i mod 8] of byte [i / 8]. *)
Definition bit (m : bytes) (i : Z) : bool :=
  Z.testbit (byte.unsigned (nth (Z.to_nat (i / 8)) m Byte.x00)) (i mod 8).

(** ** Lengths *)

Lemma blen_nonneg m : 0 <= blen m.
Proof. unfold blen. lia. Qed.

Lemma blen_zeroes n : 0 <= n -> blen (zeroes n) = n.
Proof. intros. unfold blen, zeroes. rewrite length_replicate. lia. Qed.

Lemma blen_memset c n : 0 <= n -> blen (memset_buf c n) = n.
Proof. intros. unfold blen, memset_buf. rewrite length_replicate. lia. Qed.

Lemma in_range_spec m off n : in_range m off n = true <-> 0 <= off /\ off + n <= blen m.
Proof. unfold in_range. rewrite andb_true_iff, !Z.leb_le. done. Qed.

Lemma length_splice m off bs :
  in_range m off (blen bs) = true -> length (splice m off bs) = length m.
Proof.
  rewrite in_range_spec. unfold splice, blen. intros [? ?].
  rewrite !length_app, length_take, length_drop. lia.
Qed.

Lemma blen_splice m off bs :
  in_range m off (blen bs) = true -> blen (splice m off bs) = blen m.
Proof. intros. unfold blen. by rewrite length_splice. Qed.

Lemma blen_le_split n v : blen (le_split n v) = Z.of_nat n.
Proof. unfold blen. by rewrite length_le_split. Qed.

(** ** Bytes of a buffer, by index *)

Lemma nth_sub_bytes n m off i :
  nth i (sub_bytes n m off) Byte.x00 =
  if (i <? n)%nat then nth (Z.to_nat off + i) m Byte.x00 else Byte.x00.
Proof.
  unfold sub_bytes. destruct (Nat.ltb_spec i n).
  - rewrite nth_firstn. replace (i <? n)%nat with true by (symmetry; by apply Nat.ltb_lt).
    by rewrite nth_skipn.
  - apply nth_overflow. rewrite length_take. lia.
Qed.

Lemma nth_splice m off bs i :
  in_range m off (blen bs) = true ->
  nth i (splice m off bs) Byte.x00 =
  if (Z.to_nat off <=? i)%nat && (i <? Z.to_nat off + length bs)%nat
  then nth (i - Z.to_nat off) bs Byte.x00 else nth i m Byte.x00.
Proof.
  rewrite in_range_spec. unfold blen. intros [? ?]. unfold splice.
  assert (Hl : length (take (Z.to_nat off) m) = Z.to_nat off)
    by (rewrite length_take; lia).
  destruct (Nat.leb_spec (Z.to_nat off) i); simpl.
  - rewrite app_nth2 by lia. rewrite Hl.
    destruct (Nat.ltb_spec i (Z.to_nat off + length bs)).
    + by rewrite app_nth1 by lia.
    + rewrite app_nth2 by lia. rewrite nth_skipn. f_equal. lia.
  - rewrite app_nth1 by lia. rewrite nth_firstn.
    by replace (i <? Z.to_nat off)%nat with true by (symmetry; apply Nat.ltb_lt; lia).
Qed.

Lemma nth_le_split n v i :
  nth i (le_split n v) Byte.x00 =
  if (i <? n)%nat then byte.of_Z (Z.shiftr v (8 * Z.of_nat i)) else Byte.x00.
Proof.
  destruct (Nat.ltb_spec i n).
  - rewrite <- nth_default_eq. by rewrite nth_default_le_split.
  - apply nth_overflow. rewrite length_le_split. lia.
Qed.

Lemma sub_bytes_length n m off :
  in_range m off (Z.of_nat n) = true -> length (sub_bytes n m off) = n.
Proof.
  rewrite in_range_spec. unfold sub_bytes, blen. intros [? ?].
  rewrite length_take, length_drop. lia.
Qed.

Lemma bytes_ext (l1 l2 : bytes) :
  length l1 = length l2 ->
  (forall i, nth i l1 Byte.x00 = nth i l2 Byte.x00) -> l1 = l2.
Proof. intros Hl H. by apply (nth_ext l1 l2 Byte.x00 Byte.x00). Qed.

Lemma sub_bytes_splice_same m off bs :
  in_range m off (blen bs) = true -> sub_bytes (length bs) (splice m off bs) off = bs.
Proof.
  intros Hr. assert (Hr' := Hr). apply in_range_spec in Hr' as [? ?]. unfold blen in *.
  apply bytes_ext.
  { apply sub_bytes_length. apply in_range_spec.
    rewrite blen_splice by done. unfold blen. lia. }
  intros i. rewrite nth_sub_bytes, nth_splice by done.
  destruct (Nat.ltb_spec i (length bs)).
  - rewrite (proj2 (Nat.leb_le _ _)) by lia. rewrite (proj2 (Nat.ltb_lt _ _)) by lia.
    simpl. f_equal. lia.
  - symmetry. by apply nth_overflow.
Qed.

Lemma sub_bytes_splice_other n m off bs off' :
  in_range m off (blen bs) = true -> 0 <= off' ->
  off' + Z.of_nat n <= off \/ off + blen bs <= off' ->
  sub_bytes n (splice m off bs) off' = sub_bytes n m off'.
Proof.
  intros Hr ? Hd. assert (Hr' := Hr). apply in_range_spec in Hr' as [? ?]. unfold blen in *.
  apply bytes_ext.
  { unfold sub_bytes. rewrite !length_take, !length_drop, length_splice by done. done. }
  intros i. rewrite !nth_sub_bytes, nth_splice by done.
  destruct (Nat.ltb_spec i n); [|done].
  destruct (Nat.leb_spec (Z.to_nat off) (Z.to_nat off' + i)); simpl; [|done].
  destruct (Nat.ltb_spec (Z.to_nat off' + i) (Z.to_nat off + length bs)); [lia|done].
Qed.

(** ** Load and store *)

Lemma load_in_range n m off :
  in_range m off (Z.of_nat n) = true -> load n m off = Some (le_combine (sub_bytes n m off)).
Proof. unfold load. by intros ->. Qed.

Lemma load_Some n m off v : load n m off = Some v -> in_range m off (Z.of_nat n) = true.
Proof. unfold load. by destruct (in_range _ _ _). Qed.

Lemma load_range n m off v : load n m off = Some v -> 0 <= v < 2 ^ (8 * Z.of_nat n).
Proof.
  intros H. assert (Hr := load_Some _ _ _ _ H). unfold load in H. rewrite Hr in H.
  simplify_eq. rewrite <- (sub_bytes_length n m off Hr) at 3. apply le_combine_bound.
Qed.

Lemma store_in_range n m off v :
  in_range m off (Z.of_nat n) = true -> store n m off v = Some (splice m off (le_split n v)).
Proof. unfold store. by intros ->. Qed.

Lemma store_Some n m off v m' :
  store n m off v = Some m' ->
  in_range m off (Z.of_nat n) = true /\ m' = splice m off (le_split n v).
Proof. unfold store. destruct (in_range _ _ _); by intros [= <-]. Qed.

Lemma store_blen n m off v m' : store n m off v = Some m' -> blen m' = blen m.
Proof.
  intros [? ->]%store_Some. apply blen_splice. by rewrite blen_le_split.
Qed.

Lemma load_store_same n m off v m' :
  store n m off v = Some m' -> load n m' off = Some (v mod 2 ^ (8 * Z.of_nat n)).
Proof.
  intros H. assert (Hl := store_blen _ _ _ _ _ H).
  apply store_Some in H as [Hr ->]. rewrite load_in_range.
  - f_equal. rewrite <- (length_le_split n v) at 1.
    rewrite sub_bytes_splice_same by (by rewrite blen_le_split).
    rewrite le_combine_split. f_equal. f_equal. lia.
  - unfold in_range in *. by rewrite Hl.
Qed.

Lemma load_store_other n k m off off' v m' :
  store n m off v = Some m' ->
  off' + Z.of_nat k <= off \/ off + Z.of_nat n <= off' ->
  load k m' off' = load k m off'.
Proof.
  intros H Hd. assert (Hl := store_blen _ _ _ _ _ H). apply store_Some in H as [Hr ->].
  unfold load. replace (in_range (splice _ _ _) off' _) with (in_range m off' (Z.of_nat k))
    by (unfold in_range; by rewrite Hl).
  destruct (in_range m off' _) eqn:E; [|done]. apply in_range_spec in E.
  f_equal. f_equal. apply sub_bytes_splice_other; [|lia|].
  - by rewrite blen_le_split.
  - by rewrite blen_le_split.
Qed.

(** ** Bits *)

Lemma bit_le_combine m i : 0 <= i -> Z.testbit (le_combine m) i = bit m i.
Proof.
  revert i. induction m as [|b m IH]; intros i Hi.
  - unfold bit. destruct (Z.to_nat (i / 8)); simpl; by rewrite !Z.testbit_0_l.
  - change (le_combine (b :: m)) with (Z.lor (byte.unsigned b) (Z.shiftl (le_combine m) 8)).
    rewrite Z.lor_spec, Z.shiftl_spec by done. unfold bit.
    pose proof (byte.unsigned_range b). destruct (Z.ltb_spec i 8).
    + rewrite (Z.testbit_neg_r _ (i - 8)) by lia. rewrite orb_false_r.
      replace (i / 8) with 0 by dlia. by rewrite Z.mod_small by lia.
    + rewrite (testbit_above _ 8) by lia. rewrite IH by lia. unfold bit. simpl.
      replace (Z.to_nat (i / 8)) with (S (Z.to_nat ((i - 8) / 8))) by dlia.
      replace (i mod 8) with ((i - 8) mod 8) by dlia. done.
Qed.

Lemma bit_sub_bytes n m off i :
  0 <= off -> 0 <= i ->
  bit (sub_bytes n m off) i = (i <? 8 * Z.of_nat n) && bit m (8 * off + i).
Proof.
  intros Ho Hi. unfold bit. rewrite nth_sub_bytes.
  replace (Z.to_nat (i / 8) <? n)%nat with (i <? 8 * Z.of_nat n).
  - cmp; simpl; [|by rewrite Z.testbit_0_l].
    replace ((8 * off + i) mod 8) with (i mod 8) by dlia.
    f_equal. f_equal. f_equal. rewrite <- Z2Nat.inj_add by dlia. f_equal. dlia.
  - cmp; symmetry; [apply Nat.ltb_lt|apply Nat.ltb_ge]; dlia.
Qed.

Lemma testbit_load n m off v i :
  load n m off = Some v -> 0 <= i < 8 * Z.of_nat n -> Z.testbit v i = bit m (8 * off + i).
Proof.
  intros H Hi. assert (Hr := load_Some _ _ _ _ H).
  unfold load in H. rewrite Hr in H. simplify_eq. apply in_range_spec in Hr.
  rewrite bit_le_combine, bit_sub_bytes by lia. by rewrite (proj2 (Z.ltb_lt _ _)) by lia.
Qed.

Lemma bit_splice m off bs i :
  in_range m off (blen bs) = true -> 0 <= i ->
  bit (splice m off bs) i =
  if (8 * off <=? i) && (i <? 8 * (off + blen bs)) then bit bs (i - 8 * off) else bit m i.
Proof.
  intros Hr Hi. assert (Hr' := Hr). apply in_range_spec in Hr'. unfold bit.
  rewrite nth_splice by done. unfold blen in *.
  replace ((Z.to_nat off <=? Z.to_nat (i / 8))%nat) with (8 * off <=? i)
    by (cmp; symmetry; [apply Nat.leb_le|apply Nat.leb_gt]; dlia).
  replace ((Z.to_nat (i / 8) <? Z.to_nat off + length bs)%nat)
    with (i <? 8 * (off + Z.of_nat (length bs)))
    by (cmp; symmetry; [apply Nat.ltb_lt|apply Nat.ltb_ge]; dlia).
  destruct (Z.leb_spec (8 * off) i); simpl; [|done].
  destruct (Z.ltb_spec i (8 * (off + Z.of_nat (length bs)))); [|done].
  replace ((i - 8 * off) mod 8) with (i mod 8) by dlia.
  f_equal. f_equal. f_equal. rewrite <- Z2Nat.inj_sub by lia. f_equal. dlia.
Qed.

Lemma bit_le_split n v i :
  0 <= i < 8 * Z.of_nat n -> bit (le_split n v) i = Z.testbit v i.
Proof.
  intros Hi. rewrite <- bit_le_combine by lia. rewrite le_combine_split.
  apply Z.mod_pow2_bits_low. lia.
Qed.

Lemma bit_store n m off v m' i :
  store n m off v = Some m' -> 0 <= i ->
  bit m' i = if (8 * off <=? i) && (i <? 8 * (off + Z.of_nat n))
             then Z.testbit v (i - 8 * off) else bit m i.
Proof.
  intros [Hr ->]%store_Some Hi. rewrite bit_splice, blen_le_split;
    [|by rewrite blen_le_split|done].
  destruct (_ && _) eqn:E; [|done]. bools. by rewrite bit_le_split by lia.
Qed.

Lemma bit_memset c n i :
  0 <= i -> bit (memset_buf c n) i = (i <? 8 * n) && Z.testbit (byte.unsigned c) (i mod 8).
Proof.
  intros Hi. unfold bit, memset_buf. cmp; simpl.
  - rewrite (nth_lookup_Some _ _ _ c); [done|]. apply lookup_replicate. split; [done|dlia].
  - rewrite nth_overflow by (rewrite length_replicate; dlia). apply Z.testbit_0_l.
Qed.

Lemma bit_zeroes n i : 0 <= i -> bit (zeroes n) i = false.
Proof.
  intros. change (zeroes n) with (memset_buf Byte.x00 n). rewrite bit_memset by done.
  change (byte.unsigned Byte.x00) with 0. rewrite Z.testbit_0_l. apply andb_false_r.
Qed.

Lemma bit_ones n i : 0 <= i -> bit (memset_buf Byte.xff n) i = (i <? 8 * n).
Proof.
  intros. rewrite bit_memset by done. change (byte.unsigned Byte.xff) with (Z.ones 8).
  rewrite Z.ones_spec_low by dlia. apply andb_true_r.
Qed.

#[export] Hint Rewrite blen_zeroes blen_memset using lia : gas.
#[export] Hint Resolve blen_nonneg : gas.

(** Two buffers of the same length with the same bits are equal. *)
Lemma bit_ext (m1 m2 : bytes) :
  length m1 = length m2 -> (forall i, 0 <= i -> bit m1 i = bit m2 i) -> m1 = m2.
Proof.
  intros Hl H. apply le_combine_inj; [done|]. apply Z.bits_inj'. intros i Hi.
  rewrite !bit_le_combine by done. by apply H.
Qed.

Lemma bit_above m i : 8 * blen m <= i -> bit m i = false.
Proof.
  intros Hi. unfold bit. rewrite nth_overflow; [apply Z.testbit_0_l|].
  unfold blen in Hi. dlia.
Qed.

(** ** Ranges *)

Lemma sub_bytes_app n k m off :
  0 <= off -> sub_bytes (n + k) m off = sub_bytes n m off ++ sub_bytes k m (off + Z.of_nat n).
Proof.
  intros ?. unfold sub_bytes. rewrite Z2Nat.inj_add, Nat2Z.id by lia.
  by rewrite <- drop_drop, take_take_drop.
Qed.

Lemma sub_bytes_store_other n k m off v m' off' :
  store n m off v = Some m' -> 0 <= off' ->
  off' + Z.of_nat k <= off \/ off + Z.of_nat n <= off' ->
  sub_bytes k m' off' = sub_bytes k m off'.
Proof.
  intros [Hr ->]%store_Some ? ?.
  apply sub_bytes_splice_other; [by rewrite blen_le_split|done|by rewrite blen_le_split].
Qed.

Lemma sub_bytes_store_same n m off v m' :
  store n m off v = Some m' -> sub_bytes n m' off = le_split n v.
Proof.
  intros [Hr ->]%store_Some. rewrite <- (length_le_split n v) at 1.
  apply sub_bytes_splice_same. by rewrite blen_le_split.
Qed.

Lemma store_bytes_Some m off bs m' :
  store_bytes m off bs = Some m' ->
  in_range m off (blen bs) = true /\ m' = splice m off bs /\ blen m' = blen m.
Proof.
  unfold store_bytes. destruct (in_range _ _ _) eqn:E; [|done].
  intros [= <-]. split; [done|]. split; [done|by apply blen_splice].
Qed.

Lemma store_bytes_fits m off bs :
  0 <= off -> off + blen bs <= blen m ->
  exists m', store_bytes m off bs = Some m' /\ blen m' = blen m.
Proof.
  intros. unfold store_bytes. rewrite (proj2 (in_range_spec _ _ _)) by done.
  eexists. split; [done|]. apply blen_splice. by apply in_range_spec.
Qed.

Lemma store_fits n m off v :
  0 <= off -> off + Z.of_nat n <= blen m -> exists m', store n m off v = Some m' /\ blen m' = blen m.
Proof.
  intros. unfold store. rewrite (proj2 (in_range_spec _ _ _)) by done.
  eexists. split; [done|]. apply blen_splice. rewrite blen_le_split. by apply in_range_spec.
Qed.

Lemma load_store_bytes_other k m off bs m' off' :
  store_bytes m off bs = Some m' ->
  off' + Z.of_nat k <= off \/ off + blen bs <= off' -> load k m' off' = load k m off'.
Proof.
  intros (Hr & -> & Hl)%store_bytes_Some Hd. unfold load.
  replace (in_range (splice _ _ _) off' _) with (in_range m off' (Z.of_nat k))
    by (unfold in_range; by rewrite Hl).
  destruct (in_range m off' _) eqn:E; [|done]. apply in_range_spec in E.
  f_equal. f_equal. apply sub_bytes_splice_other; [done|lia|done].
Qed.

Lemma load_zeroes n off N : 0 <= off -> off + Z.of_nat n <= N -> load n (zeroes N) off = Some 0.
Proof.
  intros H0 H1. rewrite load_in_range by (apply in_range_spec; rewrite blen_zeroes; lia).
  f_equal. apply Z.bits_inj'. intros i Hi. rewrite bit_le_combine, Z.testbit_0_l by done.
  rewrite bit_sub_bytes, bit_zeroes by lia. apply andb_false_r.
Qed.
