(* ===== verification/Layout.v ===== *)
(** * On-disk layout (kern/gas.h)

    The constants of the file system and the byte layout of its three on-disk
    structures. A structure is accessed where the code accesses it, through a
    pointer into a block buffer: [f_get] and [f_set] read and write one
    little-endian field at an offset. The offsets are those of the C structures,
    which have no padding: [struct gas_inode] is 64 bytes, [struct gas_dir_entry]
    260 bytes. *)

From S2P Require Import Prelude Mem.

Definition GAS_MAX_NAME_LEN : Z := 256.
Definition GAS_BLOCK_SIZE : Z := 4096.
Definition MAGIC_NUMBER : Z := 0x6A5000F5.
Definition BITS_PER_BLOCK : Z := 8 * GAS_BLOCK_SIZE.
Definition SUPER_BLOCK_NO : Z := 0.
Definition GAS_BAD_INO : Z := 0.
Definition GAS_ROOT_INO : Z := 1.
Definition GAS_LINK_MAX : Z := 32000.

(** A field of a structure: its offset and its size in bytes. *)
Record field := Field { f_off : Z; f_size : nat }.

Definition f_get (m : bytes) (base : Z) (f : field) : option Z :=
  load (f_size f) m (base + f_off f).
Definition f_set (m : bytes) (base : Z) (f : field) (v : Z) : option bytes :=
  store (f_size f) m (base + f_off f) v.

(** [struct gas_super_block] *)
Module SB.
Definition s_magic : field := Field 0 4.
Definition s_blocksize : field := Field 4 4.
Definition s_bam_blocks : field := Field 8 4.
Definition s_iam_blocks : field := Field 12 4.
Definition s_inode_blocks : field := Field 16 4.
Definition s_nblocks : field := Field 20 4.
Definition s_ninodes : field := Field 24 4.
End SB.

(** [struct gas_inode] *)
Module DI.
Definition i_mode : field := Field 0 2.
Definition i_nlink : field := Field 2 2.
Definition i_uid : field := Field 4 4.
Definition i_gid : field := Field 8 4.
Definition i_size : field := Field 12 4.
Definition i_atime : field := Field 16 4.
Definition i_mtime : field := Field 20 4.
Definition i_ctime : field := Field 24 4.
Definition i_blkaddr (k : Z) : field := Field (28 + 4 * k) 4.
Definition sizeof : Z := 64.
End DI.

(** [struct gas_dir_entry] *)
Module DE.
Definition de_name : Z := 0.
Definition de_inode : field := Field 256 4.
Definition sizeof : Z := 260.
End DE.

(** File types in [i_mode], from the C library. *)
Definition S_IFMT : Z := 0xF000.
Definition S_IFDIR : Z := 0x4000.
Definition S_IFREG : Z := 0x8000.
Definition S_IFLNK : Z := 0xA000.
Definition S_IFCHR : Z := 0x2000.
Definition S_IFBLK : Z := 0x6000.
Definition S_ISDIR (mode : Z) : bool := Z.land mode S_IFMT =? S_IFDIR.
Definition S_ISREG (mode : Z) : bool := Z.land mode S_IFMT =? S_IFREG.
Definition S_ISLNK (mode : Z) : bool := Z.land mode S_IFMT =? S_IFLNK.
Definition S_ISCHR (mode : Z) : bool := Z.land mode S_IFMT =? S_IFCHR.
Definition S_ISBLK (mode : Z) : bool := Z.land mode S_IFMT =? S_IFBLK.

(** The C string functions on names; a name is its bytes without the NUL. *)

(** The [n] bytes [strncpy(dst, src, n)] writes: the string, cut or padded. *)
Definition strncpy_bytes (src : bytes) (n : nat) : bytes :=
  take n src ++ replicate (n - length src) Byte.x00.

(** The C string that starts at [off] in a buffer of [n] bytes. *)
Fixpoint cstring (n : nat) (m : bytes) : bytes :=
  match n, m with
  | S n, b :: m => if byte.unsigned b =? 0 then [] else b :: cstring n m
  | _, _ => []
  end.

(** ** Lemmas on fields *)

(** Two fields of the same structure that do not overlap. *)
Definition f_disjoint (f g : field) : Prop :=
  f_off f + Z.of_nat (f_size f) <= f_off g \/ f_off g + Z.of_nat (f_size g) <= f_off f.

Definition f_fits (m : bytes) (base : Z) (f : field) : Prop :=
  0 <= base + f_off f /\ base + f_off f + Z.of_nat (f_size f) <= blen m.

Lemma f_set_fits m base f v :
  f_fits m base f -> exists m', f_set m base f v = Some m' /\ blen m' = blen m.
Proof.
  intros [? ?]. unfold f_set. eexists.
  rewrite store_in_range by (apply in_range_spec; lia). split; [done|].
  apply blen_splice. rewrite blen_le_split. apply in_range_spec. lia.
Qed.

Lemma f_get_fits m base f : f_fits m base f -> exists v, f_get m base f = Some v.
Proof.
  intros [? ?]. eexists. apply load_in_range. apply in_range_spec. lia.
Qed.

Lemma f_get_set_same m base f v m' :
  f_set m base f v = Some m' -> f_get m' base f = Some (v mod 2 ^ (8 * Z.of_nat (f_size f))).
Proof. apply load_store_same. Qed.

Lemma f_get_set_other m base base' f g v m' :
  f_set m base f v = Some m' ->
  base + f_off f + Z.of_nat (f_size f) <= base' + f_off g \/
  base' + f_off g + Z.of_nat (f_size g) <= base + f_off f ->
  f_get m' base' g = f_get m base' g.
Proof. intros H ?. apply (load_store_other _ _ _ _ _ _ _ H). lia. Qed.

Lemma f_set_blen m base f v m' : f_set m base f v = Some m' -> blen m' = blen m.
Proof. apply store_blen. Qed.

(** ** Directory entries

    [dirent_at blk off name ino]: the entry at offset [off] holds [name], padded
    with NULs, and the inode number [ino]. [dirent_write] is the sequence of writes
    by which both the file-system maker and the kernel fill an entry: [strncpy] of
    255 bytes, the final NUL, the inode number. *)

Definition name_field (name : bytes) : bytes :=
  strncpy_bytes name (Z.to_nat (GAS_MAX_NAME_LEN - 1)) ++ [Byte.x00].

Definition dirent_at (blk : bytes) (off : Z) (name : bytes) (ino : Z) : Prop :=
  sub_bytes 256 blk off = name_field name /\ f_get blk off DE.de_inode = Some ino.

Definition dirent_write (blk : bytes) (off : Z) (name : bytes) (ino : Z) : option bytes :=
  blk ← store_bytes blk (off + DE.de_name)
          (strncpy_bytes name (Z.to_nat (GAS_MAX_NAME_LEN - 1)));
  blk ← store 1 blk (off + DE.de_name + GAS_MAX_NAME_LEN - 1) 0;
  f_set blk off DE.de_inode ino.

Lemma length_strncpy_bytes src n : length (strncpy_bytes src n) = n.
Proof. unfold strncpy_bytes. rewrite length_app, length_take, length_replicate. lia. Qed.

Lemma blen_strncpy_255 name :
  blen (strncpy_bytes name (Z.to_nat (GAS_MAX_NAME_LEN - 1))) = 255.
Proof. unfold blen. by rewrite length_strncpy_bytes. Qed.

Lemma dirent_write_fits blk off name ino :
  0 <= off -> off + DE.sizeof <= blen blk ->
  exists blk', dirent_write blk off name ino = Some blk'.
Proof.
  unfold dirent_write, DE.de_name, DE.sizeof, GAS_MAX_NAME_LEN. intros H0 H1.
  destruct (store_bytes_fits blk (off + 0) (strncpy_bytes name (Z.to_nat (256 - 1))))
    as (b1 & -> & L1); [lia|rewrite blen_strncpy_255; lia|]. cbn [mbind option_bind].
  destruct (store_fits 1 b1 (off + 0 + 256 - 1) 0) as (b2 & -> & L2); [lia|lia|].
  cbn [mbind option_bind].
  destruct (f_set_fits b2 off DE.de_inode ino) as (b3 & -> & L3); [|by eexists].
  split; simpl; lia.
Qed.

(** The three writes behind [dirent_write]. *)
Lemma dirent_write_inv blk off name ino blk' :
  dirent_write blk off name ino = Some blk' ->
  exists b1 b2, store_bytes blk off (strncpy_bytes name 255) = Some b1 /\
  store 1 b1 (off + 255) 0 = Some b2 /\ f_set b2 off DE.de_inode ino = Some blk' /\ 0 <= off.
Proof.
  unfold dirent_write, DE.de_name, GAS_MAX_NAME_LEN. change (Z.to_nat (256 - 1)) with 255%nat.
  rewrite Z.add_0_r. destruct (store_bytes _ _ _) as [b1|] eqn:E1; [|done]. cbn [mbind option_bind].
  replace (off + 256 - 1) with (off + 255) by lia.
  destruct (store 1 b1 _ _) as [b2|] eqn:E2; [|done]. cbn [mbind option_bind].
  intros H. exists b1, b2. apply store_bytes_Some in E1 as E1'.
  destruct E1' as [[? ?]%in_range_spec _]. done.
Qed.

Lemma dirent_write_blen blk off name ino blk' :
  dirent_write blk off name ino = Some blk' -> blen blk' = blen blk.
Proof.
  intros (b1 & b2 & H1 & H2 & H3 & _)%dirent_write_inv.
  rewrite (f_set_blen _ _ _ _ _ H3), (store_blen _ _ _ _ _ H2).
  by apply store_bytes_Some in H1 as (_ & _ & ->).
Qed.

Lemma dirent_write_at blk off name ino blk' :
  dirent_write blk off name ino = Some blk' -> dirent_at blk' off name (u32 ino).
Proof.
  intros (b1 & b2 & H1 & H2 & H3 & H0)%dirent_write_inv. split.
  - rewrite (sub_bytes_app 255 1) by done. unfold name_field.
    change (Z.to_nat (GAS_MAX_NAME_LEN - 1)) with 255%nat.
    rewrite !(sub_bytes_store_other _ _ _ _ _ _ _ H3) by (simpl; lia). f_equal.
    + rewrite (sub_bytes_store_other _ _ _ _ _ _ _ H2) by lia.
      apply store_bytes_Some in H1 as (Hr & -> & _).
      rewrite <- (length_strncpy_bytes name 255) at 1. by apply sub_bytes_splice_same.
    + change (Z.of_nat 255) with 255. by rewrite (sub_bytes_store_same _ _ _ _ _ H2).
  - by rewrite (f_get_set_same _ _ _ _ _ H3).
Qed.

(** Loads and ranges outside the entry written are unchanged. *)
Lemma dirent_write_load blk off name ino blk' k off' :
  dirent_write blk off name ino = Some blk' ->
  off' + Z.of_nat k <= off \/ off + DE.sizeof <= off' -> load k blk' off' = load k blk off'.
Proof.
  intros (b1 & b2 & H1 & H2 & H3 & H0)%dirent_write_inv Hd. unfold DE.sizeof in Hd.
  rewrite (load_store_other _ _ _ _ _ _ _ H3) by (simpl; lia).
  rewrite (load_store_other _ _ _ _ _ _ _ H2) by lia.
  apply (load_store_bytes_other _ _ _ _ _ _ H1). unfold blen. rewrite length_strncpy_bytes. lia.
Qed.

Lemma dirent_write_sub blk off name ino blk' k off' :
  dirent_write blk off name ino = Some blk' -> 0 <= off' ->
  off' + Z.of_nat k <= off \/ off + DE.sizeof <= off' ->
  sub_bytes k blk' off' = sub_bytes k blk off'.
Proof.
  intros (b1 & b2 & H1 & H2 & H3 & H0)%dirent_write_inv ? Hd. unfold DE.sizeof in Hd.
  rewrite (sub_bytes_store_other _ _ _ _ _ _ _ H3) by (simpl; lia).
  rewrite (sub_bytes_store_other _ _ _ _ _ _ _ H2) by lia.
  apply store_bytes_Some in H1 as (Hr & -> & _).
  apply sub_bytes_splice_other; [done|done|]. unfold blen. rewrite length_strncpy_bytes. lia.
Qed.

Lemma dirent_write_other blk off name ino blk' off' name' ino' :
  dirent_write blk off name ino = Some blk' -> 0 <= off' ->
  off' + DE.sizeof <= off \/ off + DE.sizeof <= off' ->
  dirent_at blk off' name' ino' -> dirent_at blk' off' name' ino'.
Proof.
  intros H ? Hd [Hn Hi]. unfold DE.sizeof in Hd. split.
  - rewrite (dirent_write_sub _ _ _ _ _ _ _ H); [done|done|unfold DE.sizeof; lia].
  - unfold f_get in *. simpl in *.
    rewrite (dirent_write_load _ _ _ _ _ _ _ H); [done|unfold DE.sizeof; lia].
Qed.

(** ** Frames

    [only_in lo hi m m']: [m'] differs from [m] at most in the bytes of [\[lo, hi)]. *)

Definition only_in (lo hi : Z) (m m' : bytes) : Prop :=
  blen m' = blen m /\
  forall n o, o + Z.of_nat n <= lo \/ hi <= o -> load n m' o = load n m o.

Lemma only_in_refl lo hi m : only_in lo hi m m.
Proof. done. Qed.

Lemma only_in_trans lo hi m1 m2 m3 :
  only_in lo hi m1 m2 -> only_in lo hi m2 m3 -> only_in lo hi m1 m3.
Proof.
  intros [L1 H1] [L2 H2]. split; [congruence|]. intros n o Ho. by rewrite H2, H1.
Qed.

Lemma only_in_weaken lo hi lo' hi' m m' :
  only_in lo hi m m' -> lo' <= lo -> hi <= hi' -> only_in lo' hi' m m'.
Proof. intros [L H] ??. split; [done|]. intros n o Ho. apply H. lia. Qed.

Lemma only_in_f_set m base f v m' :
  f_set m base f v = Some m' ->
  only_in (base + f_off f) (base + f_off f + Z.of_nat (f_size f)) m m'.
Proof.
  intros H. split; [by apply f_set_blen in H|]. intros n o Ho.
  by apply (load_store_other _ _ _ _ _ _ _ H).
Qed.

Lemma only_in_get lo hi m m' base f :
  only_in lo hi m m' -> base + f_off f + Z.of_nat (f_size f) <= lo \/ hi <= base + f_off f ->
  f_get m' base f = f_get m base f.
Proof. intros [_ H] Ho. apply H. lia. Qed.
