(* ===== verification/MkBitmap.v ===== *)
(** * The bitmap library of the file-system maker (makefs/bitmap.c, bitmap.h)

    A bitmap is a buffer of 64-bit words; [word] and [set_word] are the accesses
    through [uint64_t *]. Every function that reads or writes the map is an
    [option]: [None] is an access outside the buffer or a signed overflow. The
    loops carry a fuel argument; the theorems show that the fuel the callers pass
    is enough, so that no result is ever [None] on the inputs described. *)

From S2P Require Import Prelude Mem.

Definition BITS_PER_LONG : Z := 64.
(** [~0UL] *)
Definition ULONG_MAX : Z := Z.ones 64.
(** [~x] on a 64-bit word *)
Definition not64 (x : Z) : Z := u64 (Z.lnot x).

Definition BIT_WORD (nr : Z) : Z := nr / BITS_PER_LONG.

Definition BITMAP_FIRST_WORD_MASK (start : Z) : Z :=
  u64 (Z.shiftl ULONG_MAX (start mod BITS_PER_LONG)).

Definition BITMAP_LAST_WORD_MASK (nbits : Z) : Z :=
  if negb (nbits mod BITS_PER_LONG =? 0)
  then u64 (Z.shiftl 1 (nbits mod BITS_PER_LONG)) - 1
  else ULONG_MAX.

Definition __ALIGN_MASK (x mask : Z) : Z := Z.land (u64 (x + mask)) (not64 mask).

Definition INVALID_NO : Z := 0.

(** [*p] and [*p = v] for [uint64_t *p = map + w]. *)
Definition word (map : bytes) (w : Z) : option Z := load 8 map (8 * w).
Definition set_word (map : bytes) (w v : Z) : option bytes := store 8 map (8 * w) v.

(** One halving step of [__ffs]: skip [k] low bits when they are all zero. *)
Definition ffs_step (k : Z) (s : Z * Z) : Z * Z :=
  let '(word, num) := s in
  if Z.land word (Z.ones k) =? 0 then (Z.shiftr word k, num + k) else (word, num).

Definition __ffs (word : Z) : Z :=
  let '(word, num) :=
    ffs_step 2 (ffs_step 4 (ffs_step 8 (ffs_step 16 (ffs_step 32 (word, 0))))) in
  if Z.land word 1 =? 0 then num + 1 else num.

Definition ffz (x : Z) : Z := __ffs (not64 x).

(** [find_next_bit]: labels [found_first] and [found_middle], then the word loop. *)
Definition fnb_found_middle (tmp result : Z) : Z := u64 (result + __ffs tmp).

Definition fnb_found_first (tmp result size : Z) : Z :=
  let tmp := Z.land tmp (Z.shiftr ULONG_MAX (BITS_PER_LONG - size)) in
  if tmp =? 0 then u64 (result + size) else fnb_found_middle tmp result.

Fixpoint find_next_bit_loop (fuel : nat) (addr : bytes) (p result size : Z) : option Z :=
  match fuel with
  | O => None
  | S fuel =>
      if negb (Z.land size (not64 (BITS_PER_LONG - 1)) =? 0) then
        tmp ← word addr p;
        if negb (tmp =? 0) then Some (fnb_found_middle tmp result)
        else find_next_bit_loop fuel addr (p + 1)
               (u64 (result + BITS_PER_LONG)) (u64 (size - BITS_PER_LONG))
      else if size =? 0 then Some result
      else tmp ← word addr p; Some (fnb_found_first tmp result size)
  end.

(** Fuel for the word loops: one more than the number of whole words. *)
Definition words_fuel (size : Z) : nat := S (Z.to_nat (size / BITS_PER_LONG)).

Definition find_next_bit (addr : bytes) (size offset : Z) : option Z :=
  let p := BIT_WORD offset in
  let result := Z.land offset (not64 (BITS_PER_LONG - 1)) in
  if size <=? offset then Some size
  else
    let size := u64 (size - result) in
    let offset := offset mod BITS_PER_LONG in
    if negb (offset =? 0) then
      tmp ← word addr p;
      let tmp := Z.land tmp (u64 (Z.shiftl ULONG_MAX offset)) in
      if size <? BITS_PER_LONG then Some (fnb_found_first tmp result size)
      else if negb (tmp =? 0) then Some (fnb_found_middle tmp result)
      else find_next_bit_loop (words_fuel size) addr (p + 1)
             (u64 (result + BITS_PER_LONG)) (u64 (size - BITS_PER_LONG))
    else find_next_bit_loop (words_fuel size) addr p result size.

(** [find_next_zero_bit]: same shape on the complemented words. *)
Definition fnzb_found_middle (tmp result : Z) : Z := u64 (result + ffz tmp).

Definition fnzb_found_first (tmp result size : Z) : Z :=
  let tmp := Z.lor tmp (u64 (Z.shiftl ULONG_MAX size)) in
  if tmp =? ULONG_MAX then u64 (result + size) else fnzb_found_middle tmp result.

Fixpoint find_next_zero_bit_loop (fuel : nat) (addr : bytes) (p result size : Z) : option Z :=
  match fuel with
  | O => None
  | S fuel =>
      if negb (Z.land size (not64 (BITS_PER_LONG - 1)) =? 0) then
        tmp ← word addr p;
        if negb (not64 tmp =? 0) then Some (fnzb_found_middle tmp result)
        else find_next_zero_bit_loop fuel addr (p + 1)
               (u64 (result + BITS_PER_LONG)) (u64 (size - BITS_PER_LONG))
      else if size =? 0 then Some result
      else tmp ← word addr p; Some (fnzb_found_first tmp result size)
  end.

Definition find_next_zero_bit (addr : bytes) (size offset : Z) : option Z :=
  let p := BIT_WORD offset in
  let result := Z.land offset (not64 (BITS_PER_LONG - 1)) in
  if size <=? offset then Some size
  else
    let size := u64 (size - result) in
    let offset := offset mod BITS_PER_LONG in
    if negb (offset =? 0) then
      tmp ← word addr p;
      let tmp := Z.lor tmp (Z.shiftr ULONG_MAX (BITS_PER_LONG - offset)) in
      if size <? BITS_PER_LONG then Some (fnzb_found_first tmp result size)
      else if negb (not64 tmp =? 0) then Some (fnzb_found_middle tmp result)
      else find_next_zero_bit_loop (words_fuel size) addr (p + 1)
             (u64 (result + BITS_PER_LONG)) (u64 (size - BITS_PER_LONG))
    else find_next_zero_bit_loop (words_fuel size) addr p result size.

(** [bitmap_set]: the loop over the words that end inside the range, then the
    last, partial word. *)
Fixpoint bitmap_set_loop (fuel : nat) (map : bytes) (p nr bits_to_set mask_to_set : Z)
  : option (bytes * Z * Z * Z) :=
  match fuel with
  | O => None
  | S fuel =>
      d ← int32 (nr - bits_to_set);
      if 0 <=? d then
        w ← word map p;
        map ← set_word map p (Z.lor w mask_to_set);
        bitmap_set_loop fuel map (p + 1) d BITS_PER_LONG ULONG_MAX
      else Some (map, p, nr, mask_to_set)
  end.

(** Fuel for [bitmap_set] and [bitmap_clear]: the number of words touched, plus one. *)
Definition range_fuel (nr : Z) : nat := S (S (Z.to_nat (nr / BITS_PER_LONG))).

Definition bitmap_set (map : bytes) (start nr : Z) : option bytes :=
  let p := BIT_WORD start in
  size ← int32 (start + nr);
  let bits_to_set := BITS_PER_LONG - start mod BITS_PER_LONG in
  let mask_to_set := BITMAP_FIRST_WORD_MASK start in
  '(map, p, nr, mask_to_set) ← bitmap_set_loop (range_fuel nr) map p nr bits_to_set mask_to_set;
  if negb (nr =? 0) then
    let mask_to_set := Z.land mask_to_set (BITMAP_LAST_WORD_MASK size) in
    w ← word map p;
    set_word map p (Z.lor w mask_to_set)
  else Some map.

Fixpoint bitmap_clear_loop (fuel : nat) (map : bytes) (p nr bits_to_clear mask_to_clear : Z)
  : option (bytes * Z * Z * Z) :=
  match fuel with
  | O => None
  | S fuel =>
      d ← int32 (nr - bits_to_clear);
      if 0 <=? d then
        w ← word map p;
        map ← set_word map p (Z.land w (not64 mask_to_clear));
        bitmap_clear_loop fuel map (p + 1) d BITS_PER_LONG ULONG_MAX
      else Some (map, p, nr, mask_to_clear)
  end.

Definition bitmap_clear (map : bytes) (start nr : Z) : option bytes :=
  let p := BIT_WORD start in
  size ← int32 (start + nr);
  let bits_to_clear := BITS_PER_LONG - start mod BITS_PER_LONG in
  let mask_to_clear := BITMAP_FIRST_WORD_MASK start in
  '(map, p, nr, mask_to_clear) ←
    bitmap_clear_loop (range_fuel nr) map p nr bits_to_clear mask_to_clear;
  if negb (nr =? 0) then
    let mask_to_clear := Z.land mask_to_clear (BITMAP_LAST_WORD_MASK size) in
    w ← word map p;
    set_word map p (Z.land w (not64 mask_to_clear))
  else Some map.

(** The retry loop of [bitmap_find_next_zero_area] (label [again]). The [int]
    arguments [size], [start] and [nr] are converted to 64 bits where the C
    expression mixes them with [uint64_t]. *)
Fixpoint find_area_again (fuel : nat) (map : bytes) (size start nr align_mask : Z) : option Z :=
  match fuel with
  | O => None
  | S fuel =>
      index ← find_next_zero_bit map (u64 size) (u64 start);
      let index := __ALIGN_MASK index align_mask in
      let end_ := u64 (index + u64 nr) in
      if u64 size <? end_ then Some end_
      else
        i ← find_next_bit map end_ index;
        if i <? end_ then find_area_again fuel map size (s32 (u64 (i + 1))) nr align_mask
        else Some index
  end.

Definition bitmap_find_next_zero_area (map : bytes) (size start nr align_mask : Z) : option Z :=
  find_area_again (S (Z.to_nat (size - start))) map size start nr align_mask.

(** The map is written in place: the new map is the second component. *)
Definition bitmap_alloc_region (bitmap : bytes) (size start nr : Z) : option (Z * bytes) :=
  pos ← bitmap_find_next_zero_area bitmap size start nr 0;
  if u64 size <? pos then Some (0, bitmap)
  else
    bitmap ← bitmap_set bitmap (s32 pos) nr;
    Some (pos, bitmap).

Definition bitmap_free_region (bitmap : bytes) (pos nr : Z) : option bytes :=
  bitmap_clear bitmap pos nr.

Arguments words_fuel : simpl never.
Arguments range_fuel : simpl never.
Arguments BIT_WORD : simpl never.

(** ** Word-level lemmas *)

Lemma testbit_ULONG_MAX i : 0 <= i -> Z.testbit ULONG_MAX i = (i <? 64).
Proof. intros. unfold ULONG_MAX. by rewrite Z.testbit_ones_nonneg by lia. Qed.

Lemma testbit_not64 x i : 0 <= i -> Z.testbit (not64 x) i = (i <? 64) && negb (Z.testbit x i).
Proof. intros. unfold not64. by rewrite testbit_u64, Z.lnot_spec by done. Qed.

Lemma not64_range x : 0 <= not64 x < 2 ^ 64.
Proof. apply u64_range. Qed.

Lemma not64_low k x :
  0 <= k <= 63 -> 0 <= x < 2 ^ 64 -> Z.land x (not64 (Z.ones k)) = 2 ^ k * (x / 2 ^ k).
Proof.
  intros Hk Hx. rewrite <- land_pow2_mul by lia. apply Z.bits_inj'. intros i Hi.
  rewrite !Z.land_spec, testbit_not64, Z.lnot_spec by done.
  destruct (Z.ltb_spec i 64); [done|]. by rewrite (testbit_above x 64) by lia.
Qed.

Lemma land_not63 x : 0 <= x < 2 ^ 64 -> Z.land x (not64 (BITS_PER_LONG - 1)) = 64 * (x / 64).
Proof. apply (not64_low 6). lia. Qed.

(** [lsb w r]: bit [r] is the lowest set bit of [w]. *)
Definition lsb (w r : Z) : Prop :=
  0 <= r /\ Z.testbit w r = true /\ (forall j, 0 <= j < r -> Z.testbit w j = false).

Lemma lsb_exists w : 0 < w < 2 ^ 64 -> exists r, lsb w r /\ r < 64.
Proof.
  intros Hw. set (r := scan (Z.testbit w) 0 64).
  destruct (scan_first (Z.testbit w) 0 64) as (Hr & L & T). fold r in Hr, L, T.
  destruct (Z_lt_le_dec r 64).
  - exists r. split; [|done]. split; [lia|]. split; [apply T; lia|done].
  - exfalso. assert (w = 0); [|lia]. apply Z.bits_inj'. intros i Hi.
    rewrite Z.testbit_0_l. destruct (Z_lt_le_dec i 64); [apply L; lia|].
    apply (testbit_above w 64); lia.
Qed.

Lemma land_ones_zero w k r :
  0 <= k -> lsb w r -> (Z.land w (Z.ones k) =? 0) = (k <=? r).
Proof.
  intros Hk (Hr & T & L). destruct (Z.leb_spec k r).
  - apply Z.eqb_eq. apply Z.bits_inj'. intros i Hi.
    rewrite Z.land_spec, Z.testbit_ones_nonneg, Z.testbit_0_l by lia.
    destruct (Z.ltb_spec i k); [rewrite L by lia|]; by rewrite ?andb_false_r.
  - apply Z.eqb_neq. intros E. assert (Z.testbit (Z.land w (Z.ones k)) r = false) as E'
      by (by rewrite E, Z.testbit_0_l).
    rewrite Z.land_spec, T, Z.testbit_ones_nonneg in E' by lia.
    by rewrite (proj2 (Z.ltb_lt _ _)) in E' by lia.
Qed.

(** Invariant of the halving steps: [num] plus the lowest bit left is the answer. *)
Definition ffs_inv (r bound : Z) (s : Z * Z) : Prop :=
  exists q, lsb s.1 q /\ q < bound /\ s.2 + q = r.

Lemma ffs_step_inv k r s : 0 <= k -> ffs_inv r (2 * k) s -> ffs_inv r k (ffs_step k s).
Proof.
  destruct s as [w n]. intros Hk (q & Hl & Hq & <-). unfold ffs_step.
  simpl in *. rewrite (land_ones_zero _ _ q) by done. cmp.
  - destruct Hl as (H0 & T & L). exists (q - k). simpl. split; [|lia].
    split; [lia|]. split.
    + rewrite Z.shiftr_spec by lia. by replace (q - k + k) with q by lia.
    + intros j Hj. rewrite Z.shiftr_spec by lia. apply L. lia.
  - exists q. done.
Qed.

Lemma __ffs_lsb w : 0 < w < 2 ^ 64 -> lsb w (__ffs w) /\ __ffs w < 64.
Proof.
  intros Hw. destruct (lsb_exists w Hw) as (r & Hl & Hr).
  assert (H : ffs_inv r 64 (w, 0)) by (exists r; split; [done|split; [done|simpl; lia]]).
  apply (ffs_step_inv 32), (ffs_step_inv 16), (ffs_step_inv 8),
    (ffs_step_inv 4), (ffs_step_inv 2) in H; try lia.
  unfold __ffs. destruct (ffs_step 2 _) as [w' n]. destruct H as (q & Hq & Hb & <-).
  simpl in *. change 1 with (Z.ones 1). rewrite (land_ones_zero _ _ q) by (done || lia).
  assert (0 <= q) by apply Hq. cmp.
  - assert (q = 1) as -> by lia. done.
  - assert (q = 0) as -> by lia. by rewrite Z.add_0_r in *.
Qed.

(** ** Searching words

    [reads rd P n]: the first [n] words delivered by the reader [rd] show the
    predicate [P]. [find_next_bit] reads the words as they are,
    [find_next_zero_bit] reads their complements; both are the same search. *)

Definition reads (rd : Z -> option Z) (P : Z -> bool) (n : Z) : Prop :=
  forall k, 0 <= k < n ->
  exists w, rd k = Some w /\ 0 <= w < 2 ^ 64 /\
            forall b, 0 <= b < 64 -> Z.testbit w b = P (64 * k + b).

Lemma word_reads m n : 8 * n <= blen m -> reads (word m) (bit m) n.
Proof.
  intros Hn k Hk. unfold word. eexists. split.
  { apply load_in_range. apply in_range_spec. lia. }
  assert (Hw : load 8 m (8 * k) = Some (le_combine (sub_bytes 8 m (8 * k)))).
  { apply load_in_range. apply in_range_spec. lia. }
  split; [by apply load_range in Hw|]. intros b Hb.
  rewrite (testbit_load _ _ _ _ _ Hw) by lia. f_equal. lia.
Qed.

Lemma word_reads_not m n :
  8 * n <= blen m -> reads (fun k => option_map not64 (word m k)) (fun i => negb (bit m i)) n.
Proof.
  intros Hn k Hk. destruct (word_reads m n Hn k Hk) as (w & -> & Hw & Hb).
  exists (not64 w). split; [done|]. split; [apply not64_range|]. intros b ?.
  rewrite testbit_not64, Hb by lia. by rewrite (proj2 (Z.ltb_lt b 64)) by lia.
Qed.

(** The part of a word below [size], searched from its bit [lo]. *)
Lemma word_search (P : Z -> bool) w base lo size :
  0 <= w < 2 ^ 64 -> 0 <= base -> base + 64 < 2 ^ 64 -> 0 <= lo <= size -> size <= 64 ->
  (forall b, 0 <= b < 64 ->
     Z.testbit w b = (lo <=? b) && (b <? size) && P (base + b)) ->
  is_first P (base + lo) (base + size)
    (if w =? 0 then u64 (base + size) else u64 (base + __ffs w)).
Proof.
  intros Hw Hbase Hb Hlo Hs HP. destruct (Z.eqb_spec w 0) as [->|Hw0].
  - rewrite u64_small by lia. split; [lia|]. split; [|lia]. intros j Hj.
    specialize (HP (j - base) ltac:(lia)). rewrite Z.testbit_0_l in HP.
    replace (base + (j - base)) with j in HP by lia.
    rewrite (proj2 (Z.leb_le _ _)), (proj2 (Z.ltb_lt _ _)) in HP by lia. done.
  - destruct (__ffs_lsb w) as [(H0 & T & L) H64]; [lia|].
    rewrite u64_small by lia. rewrite HP in T by lia. bools.
    split; [lia|]. split; [|done]. intros j Hj.
    specialize (L (j - base) ltac:(lia)). rewrite HP in L by lia.
    replace (base + (j - base)) with j in L by lia.
    rewrite (proj2 (Z.leb_le _ _)), (proj2 (Z.ltb_lt _ _)) in L by lia. done.
Qed.

Section search.
Context (rd : Z -> option Z).

(** The common form of the two searches, over a reader. *)

Fixpoint search_loop (fuel : nat) (p result size : Z) : option Z :=
  match fuel with
  | O => None
  | S fuel =>
      if negb (Z.land size (not64 (BITS_PER_LONG - 1)) =? 0) then
        tmp ← rd p;
        if negb (tmp =? 0) then Some (fnb_found_middle tmp result)
        else search_loop fuel (p + 1)
               (u64 (result + BITS_PER_LONG)) (u64 (size - BITS_PER_LONG))
      else if size =? 0 then Some result
      else tmp ← rd p; Some (fnb_found_first tmp result size)
  end.

Definition search_next (size offset : Z) : option Z :=
  let p := BIT_WORD offset in
  let result := Z.land offset (not64 (BITS_PER_LONG - 1)) in
  if size <=? offset then Some size
  else
    let size := u64 (size - result) in
    let offset := offset mod BITS_PER_LONG in
    if negb (offset =? 0) then
      tmp ← rd p;
      let tmp := Z.land tmp (u64 (Z.shiftl ULONG_MAX offset)) in
      if size <? BITS_PER_LONG then Some (fnb_found_first tmp result size)
      else if negb (tmp =? 0) then Some (fnb_found_middle tmp result)
      else search_loop (words_fuel size) (p + 1)
             (u64 (result + BITS_PER_LONG)) (u64 (size - BITS_PER_LONG))
    else search_loop (words_fuel size) p result size.

Context (P : Z -> bool) (n : Z).
Hypothesis Hrd : reads rd P n.
Hypothesis Hn : 64 * n < 2 ^ 63.

Lemma found_first_spec tmp result size lo :
  0 <= tmp < 2 ^ 64 -> 0 <= result < 2 ^ 63 -> 0 <= lo <= size -> 0 < size < 64 ->
  (forall b, 0 <= b < 64 -> Z.testbit tmp b = (lo <=? b) && P (result + b)) ->
  is_first P (result + lo) (result + size) (fnb_found_first tmp result size).
Proof.
  intros Ht Hr Hlo Hs HP. unfold fnb_found_first, fnb_found_middle, BITS_PER_LONG.
  apply word_search; try lia.
  - apply (land_range 64); lia.
  - intros b Hb. rewrite Z.land_spec, Z.shiftr_spec, testbit_ULONG_MAX, HP by lia.
    replace (b + (64 - size) <? 64) with (b <? size) by (repeat cmp; lia || done).
    destruct (lo <=? b), (b <? size), (P _); done.
Qed.

Lemma search_loop_spec fuel p result size :
  result = 64 * p -> 0 <= p -> 0 <= size -> result + size <= 64 * n ->
  (Z.to_nat (size / 64) < fuel)%nat ->
  exists r, search_loop fuel p result size = Some r /\ is_first P result (result + size) r.
Proof.
  revert p result size. induction fuel as [|fuel IH]; intros p result size -> Hp Hs Hb Hf; [lia|].
  simpl. rewrite land_not63 by lia. destruct (Z.eqb_spec (64 * (size / 64)) 0) as [E|E]; simpl.
  - destruct (Z.eqb_spec size 0) as [->|].
    { eexists. split; [done|]. split; [lia|]. split; [intros; lia|lia]. }
    destruct (Hrd p) as (w & -> & Hw & Hbits); [dlia|]. simpl. eexists. split; [done|].
    rewrite <- (Z.add_0_r (64 * p)) at 1. apply found_first_spec; try dlia.
    intros b ?. rewrite (proj2 (Z.leb_le 0 b)) by lia. by apply Hbits.
  - destruct (Hrd p) as (w & -> & Hw & Hbits); [dlia|]. simpl.
    assert (Hfull : is_first P (64 * p) (64 * p + 64)
      (if w =? 0 then u64 (64 * p + 64) else u64 (64 * p + __ffs w))).
    { rewrite <- (Z.add_0_r (64 * p)) at 1. apply word_search; try dlia. intros b ?.
      rewrite (proj2 (Z.leb_le 0 b)), (proj2 (Z.ltb_lt b 64)) by lia. by apply Hbits. }
    destruct (Z.eqb_spec w 0) as [->|]; simpl.
    + unfold BITS_PER_LONG. rewrite !u64_small in * by dlia.
      destruct (IH (p + 1) (64 * p + 64) (size - 64)) as (r & -> & Hr); try dlia.
      exists r. split; [done|]. destruct Hfull as (_ & Hno & _).
      apply (is_first_skip _ _ (64 * p + 64)); [lia|done|].
      by replace (64 * p + size) with (64 * p + 64 + (size - 64)) by lia.
    + eexists. split; [done|]. unfold fnb_found_middle.
      apply (is_first_extend _ _ (64 * p + 64)); [|dlia|done].
      destruct (__ffs_lsb w) as [[? ?] ?]; [lia|]. rewrite u64_small by dlia. lia.
Qed.

Lemma search_next_spec size offset :
  0 <= offset -> 0 <= size <= 64 * n ->
  exists r, search_next size offset = Some r /\
    is_first P (Z.min offset size) size r.
Proof.
  intros Ho Hs. unfold search_next. destruct (Z.leb_spec size offset).
  { eexists. split; [done|]. rewrite Z.min_r by lia. split; [lia|]. split; [intros; lia|lia]. }
  rewrite Z.min_l by lia. rewrite land_not63 by lia. unfold BIT_WORD, BITS_PER_LONG.
  set (q := offset / 64). set (lo := offset mod 64).
  assert (Hoff : offset = 64 * q + lo) by (unfold q, lo; dlia).
  assert (0 <= lo < 64) by (unfold lo; dlia). assert (0 <= q) by (unfold q; dlia).
  clearbody q lo. subst offset. rewrite (u64_small (size - _)) by lia.
  destruct (Z.eqb_spec lo 0) as [->|Hlo]; cbn [negb].
  { destruct (search_loop_spec (words_fuel (size - 64 * q)) q (64 * q) (size - 64 * q))
      as (r & -> & Hr); try lia. { unfold words_fuel, BITS_PER_LONG. lia. }
    exists r. split; [done|]. rewrite Z.add_0_r.
    by replace size with (64 * q + (size - 64 * q)) at 1 by lia. }
  destruct (Hrd q) as (w & -> & Hw & Hbits); [lia|]. cbn [mbind option_bind].
  set (w' := Z.land w (u64 (Z.shiftl ULONG_MAX lo))).
  assert (Hw' : forall b, 0 <= b < 64 -> Z.testbit w' b = (lo <=? b) && P (64 * q + b)).
  { intros b ?. unfold w'. rewrite Z.land_spec, testbit_u64, Z.shiftl_spec by lia.
    rewrite Hbits by lia. rewrite (proj2 (Z.ltb_lt b 64)) by lia. cmp.
    - rewrite testbit_ULONG_MAX by lia. rewrite (proj2 (Z.ltb_lt _ 64)) by lia.
      by rewrite andb_true_r.
    - rewrite Z.testbit_neg_r by lia. by rewrite andb_false_r. }
  assert (Hr' : 0 <= w' < 2 ^ 64).
  { unfold w'. apply (land_range 64); lia. }
  clearbody w'. destruct (Z.ltb_spec (size - 64 * q) 64).
  { eexists. split; [done|]. replace size with (64 * q + (size - 64 * q)) at 1 by lia.
    apply found_first_spec; try lia. done. }
  assert (Hfull : is_first P (64 * q + lo) (64 * q + 64)
      (if w' =? 0 then u64 (64 * q + 64) else u64 (64 * q + __ffs w'))).
  { apply word_search; try lia. intros b ?. rewrite Hw' by lia.
    rewrite (proj2 (Z.ltb_lt b 64)) by lia. by rewrite andb_true_r. }
  destruct (Z.eqb_spec w' 0) as [->|]; cbn [negb].
  - rewrite !u64_small in * by lia.
    destruct (search_loop_spec (words_fuel (size - 64 * q)) (q + 1) (64 * q + 64)
      (size - 64 * q - 64)) as (r & -> & Hr); try lia.
    { unfold words_fuel, BITS_PER_LONG. dlia. }
    exists r. split; [done|]. destruct Hfull as (_ & Hno & _).
    apply (is_first_skip _ _ (64 * q + 64)); [lia|done|].
    by replace size with (64 * q + 64 + (size - 64 * q - 64)) at 1 by lia.
  - eexists. split; [done|]. unfold fnb_found_middle.
    apply (is_first_extend _ _ (64 * q + 64)); [|lia|done].
    destruct (__ffs_lsb w') as [[? ?] ?]; [lia|]. rewrite u64_small by lia. lia.
Qed.
End search.

(** Both searches are [search_next], on the words and on their complements. *)

Lemma find_next_bit_loop_search addr fuel p result size :
  find_next_bit_loop fuel addr p result size = search_loop (word addr) fuel p result size.
Proof.
  revert p result size. induction fuel as [|fuel IH]; intros; [done|].
  simpl. destruct (word addr p); simpl; by rewrite ?IH.
Qed.

Lemma find_next_bit_search addr size offset :
  find_next_bit addr size offset = search_next (word addr) size offset.
Proof.
  unfold find_next_bit, search_next. cbv zeta. rewrite !find_next_bit_loop_search. done.
Qed.

Lemma not64_inj_max t : 0 <= t < 2 ^ 64 -> (t =? ULONG_MAX) = (not64 t =? 0).
Proof.
  intros Ht. destruct (Z.eqb_spec t ULONG_MAX) as [->|E]; [done|].
  symmetry. apply Z.eqb_neq. intros E0. apply E. apply Z.bits_inj'. intros i Hi.
  rewrite testbit_ULONG_MAX by done. cmp; [|by apply (testbit_above t 64); lia].
  assert (Z.testbit (not64 t) i = false) as H0 by (by rewrite E0, Z.testbit_0_l).
  rewrite testbit_not64 in H0 by done. rewrite (proj2 (Z.ltb_lt i 64)) in H0 by done.
  by apply negb_false_iff in H0.
Qed.

Lemma not64_lor t m : not64 (Z.lor t m) = Z.land (not64 t) (not64 m).
Proof.
  apply Z.bits_inj'. intros i Hi. rewrite Z.land_spec, !testbit_not64, Z.lor_spec by done.
  destruct (i <? 64), (Z.testbit t i), (Z.testbit m i); done.
Qed.

Lemma shift_masks k :
  0 < k < 64 -> not64 (u64 (Z.shiftl ULONG_MAX k)) = Z.shiftr ULONG_MAX (BITS_PER_LONG - k).
Proof.
  intros Hk. unfold BITS_PER_LONG. apply Z.bits_inj'. intros i Hi.
  rewrite testbit_not64, testbit_u64, Z.shiftl_spec, Z.shiftr_spec by lia.
  rewrite (testbit_ULONG_MAX (_ + _)) by lia. destruct (Z.ltb_spec i 64); simpl; [|cmp; lia || done].
  destruct (Z.ltb_spec i k).
  - rewrite Z.testbit_neg_r by lia. symmetry. apply Z.ltb_lt. lia.
  - rewrite testbit_ULONG_MAX by lia. rewrite (proj2 (Z.ltb_lt (i - k) 64)) by lia.
    symmetry. apply Z.ltb_ge. lia.
Qed.

Lemma not64_not64 x : 0 <= x < 2 ^ 64 -> not64 (not64 x) = x.
Proof.
  intros Hx. apply Z.bits_inj'. intros i Hi. rewrite !testbit_not64 by done.
  destruct (Z.ltb_spec i 64); simpl; [by rewrite negb_involutive|].
  symmetry. by apply (testbit_above x 64).
Qed.

Lemma ULONG_MAX_range k : 0 <= k -> 0 <= Z.shiftr ULONG_MAX k < 2 ^ 64.
Proof.
  intros. rewrite Z.shiftr_div_pow2 by done. unfold ULONG_MAX. rewrite Z.ones_equiv.
  split; [apply Z.div_pos; lia|]. apply Z.div_lt_upper_bound; [lia|]. nia.
Qed.

Lemma fnzb_found_first_not tmp result size :
  0 <= tmp < 2 ^ 64 -> 0 < size < 64 ->
  fnzb_found_first tmp result size = fnb_found_first (not64 tmp) result size.
Proof.
  intros Ht Hs. unfold fnzb_found_first, fnb_found_first, fnzb_found_middle, ffz.
  rewrite not64_inj_max by (apply (lor_range 64); [lia|done|apply u64_range]).
  by rewrite not64_lor, shift_masks by done.
Qed.

Lemma word_range addr p w : word addr p = Some w -> 0 <= w < 2 ^ 64.
Proof. apply load_range. Qed.

Lemma find_next_zero_bit_loop_search addr fuel p result size :
  0 <= size < 2 ^ 64 ->
  find_next_zero_bit_loop fuel addr p result size =
  search_loop (fun k => option_map not64 (word addr k)) fuel p result size.
Proof.
  revert p result size. induction fuel as [|fuel IH]; intros p result size Hs; [done|].
  simpl. destruct (word addr p) as [w|] eqn:Hw; simpl; [|done]. apply word_range in Hw.
  rewrite IH by (apply u64_range). rewrite land_not63 by done.
  destruct (Z.eqb_spec (64 * (size / 64)) 0); simpl; [|done].
  destruct (Z.eqb_spec size 0); [done|]. f_equal. apply fnzb_found_first_not; [done|dlia].
Qed.

Lemma find_next_zero_bit_search addr size offset :
  0 <= offset -> 0 <= size < 2 ^ 64 ->
  find_next_zero_bit addr size offset =
  search_next (fun k => option_map not64 (word addr k)) size offset.
Proof.
  intros H0 Hs. unfold find_next_zero_bit, search_next. cbv zeta.
  destruct (Z.leb_spec size offset); [done|].
  rewrite !find_next_zero_bit_loop_search by apply u64_range.
  destruct (Z.eqb_spec (offset mod BITS_PER_LONG) 0) as [E|E]; cbn [negb]; [done|].
  destruct (word addr _) as [w|] eqn:Hw; [|done]. cbn [mbind option_bind option_map].
  apply word_range in Hw.
  assert (Ho : 0 < offset mod BITS_PER_LONG < 64) by (unfold BITS_PER_LONG in *; dlia).
  set (lo := offset mod BITS_PER_LONG) in *. clearbody lo.
  assert (Hm : not64 (Z.lor w (Z.shiftr ULONG_MAX (BITS_PER_LONG - lo))) =
               Z.land (not64 w) (u64 (Z.shiftl ULONG_MAX lo))).
  { rewrite not64_lor, <- shift_masks by done. by rewrite (not64_not64 _ (u64_range _)). }
  unfold fnzb_found_middle, ffz. rewrite Hm, land_not63, u64_small by dlia.
  destruct (Z.ltb_spec (size - 64 * (offset / 64)) BITS_PER_LONG); [|done].
  f_equal. rewrite <- Hm. unfold BITS_PER_LONG in *. apply fnzb_found_first_not; [|dlia].
  apply (lor_range 64); [lia|done|apply ULONG_MAX_range; lia].
Qed.

Lemma find_next_bit_first addr size offset :
  0 <= offset -> 0 <= size -> size <= 8 * blen addr -> 8 * blen addr < 2 ^ 63 ->
  blen addr mod 8 = 0 ->
  exists r, find_next_bit addr size offset = Some r /\
            is_first (bit addr) (Z.min offset size) size r.
Proof.
  intros. rewrite find_next_bit_search.
  apply (search_next_spec _ _ (blen addr / 8)); try dlia. apply word_reads. dlia.
Qed.

Lemma find_next_zero_bit_first addr size offset :
  0 <= offset -> 0 <= size -> size <= 8 * blen addr -> 8 * blen addr < 2 ^ 63 ->
  blen addr mod 8 = 0 ->
  exists r, find_next_zero_bit addr size offset = Some r /\
            is_first (fun i => negb (bit addr i)) (Z.min offset size) size r.
Proof.
  intros. rewrite find_next_zero_bit_search by lia.
  apply (search_next_spec _ _ (blen addr / 8)); try dlia. apply word_reads_not. dlia.
Qed.

(** ** Updating a range of bits *)

Lemma first_word_mask_bits start b :
  0 <= b < 64 -> Z.testbit (BITMAP_FIRST_WORD_MASK start) b = (start mod 64 <=? b).
Proof.
  intros Hb. unfold BITMAP_FIRST_WORD_MASK, BITS_PER_LONG.
  rewrite testbit_u64, Z.shiftl_spec by lia. rewrite (proj2 (Z.ltb_lt b 64)) by lia. cmp.
  - rewrite testbit_ULONG_MAX by lia. apply Z.ltb_lt. dlia.
  - by rewrite Z.testbit_neg_r by lia.
Qed.

Lemma last_word_mask_bits nbits b :
  nbits mod 64 <> 0 -> 0 <= b ->
  Z.testbit (BITMAP_LAST_WORD_MASK nbits) b = (b <? nbits mod 64).
Proof.
  intros Hn Hb. unfold BITMAP_LAST_WORD_MASK, BITS_PER_LONG.
  rewrite (proj2 (Z.eqb_neq _ _)) by done. cbn [negb].
  assert (0 <= nbits mod 64 < 64) by dlia. rewrite Z.shiftl_1_l, u64_small.
  - rewrite Z.sub_1_r, <- Z.ones_equiv. apply Z.testbit_ones_nonneg; lia.
  - split; [lia|]. apply Z.pow_lt_mono_r; lia.
Qed.

Lemma word_in_map m p :
  0 <= p -> 64 * p < 8 * blen m -> blen m mod 8 = 0 ->
  exists w, word m p = Some w /\
  (forall b, 0 <= b < 64 -> Z.testbit w b = bit m (64 * p + b)) /\
  forall v, exists m', set_word m p v = Some m' /\ blen m' = blen m /\
    forall i, 0 <= i -> bit m' i = if (64 * p <=? i) && (i <? 64 * p + 64)
                                   then Z.testbit v (i - 64 * p) else bit m i.
Proof.
  intros Hp Hlt H8. destruct (word_reads m (blen m / 8) ltac:(dlia) p) as (w & Hw & _ & Hb);
    [dlia|]. exists w. split; [done|]. split; [done|]. intros v.
  assert (Hs : set_word m p v = Some (splice m (8 * p) (le_split 8 v))).
  { apply store_in_range. apply in_range_spec. dlia. }
  exists (splice m (8 * p) (le_split 8 v)). split; [done|]. split.
  { by apply store_blen in Hs. }
  intros i Hi. rewrite (bit_store _ _ _ _ _ i Hs) by done.
  replace (8 * (8 * p)) with (64 * p) by lia.
  by replace (8 * (8 * p + Z.of_nat 8)) with (64 * p + 64) by lia.
Qed.

Section update.
Context (upd : Z -> Z -> Z) (op : bool -> bool -> bool).
Hypothesis Hupd : forall w mask b,
  0 <= b < 64 -> Z.testbit (upd w mask) b = op (Z.testbit w b) (Z.testbit mask b).
Hypothesis Hop : forall x, op x false = x.

(** The common form of [bitmap_set] and [bitmap_clear]. *)
Fixpoint update_loop (fuel : nat) (map : bytes) (p nr bits mask : Z)
  : option (bytes * Z * Z * Z) :=
  match fuel with
  | O => None
  | S fuel =>
      d ← int32 (nr - bits);
      if 0 <=? d then
        w ← word map p;
        map ← set_word map p (upd w mask);
        update_loop fuel map (p + 1) d BITS_PER_LONG ULONG_MAX
      else Some (map, p, nr, mask)
  end.

Definition update_range (map : bytes) (start nr : Z) : option bytes :=
  let p := BIT_WORD start in
  size ← int32 (start + nr);
  let bits := BITS_PER_LONG - start mod BITS_PER_LONG in
  let mask := BITMAP_FIRST_WORD_MASK start in
  '(map, p, nr, mask) ← update_loop (range_fuel nr) map p nr bits mask;
  if negb (nr =? 0) then
    let mask := Z.land mask (BITMAP_LAST_WORD_MASK size) in
    w ← word map p;
    set_word map p (upd w mask)
  else Some map.

(** A word written with a mask that covers exactly [\[lo, hi)] of its bits. *)
Lemma update_word m p lo hi mask :
  0 <= p -> 64 * p < 8 * blen m -> blen m mod 8 = 0 -> 64 * p <= lo -> hi <= 64 * p + 64 ->
  (forall b, 0 <= b < 64 ->
     Z.testbit mask b = (lo <=? 64 * p + b) && (64 * p + b <? hi)) ->
  exists w m', word m p = Some w /\ set_word m p (upd w mask) = Some m' /\
  blen m' = blen m /\
  forall i, 0 <= i -> bit m' i = op (bit m i) ((lo <=? i) && (i <? hi)).
Proof.
  intros Hp Hlt H8 Hlo Hhi Hm. destruct (word_in_map m p Hp Hlt H8) as (w & Hw & Hb & Hs).
  destruct (Hs (upd w mask)) as (m' & Hm' & Hl & Hbit). exists w, m'.
  split; [done|]. split; [done|]. split; [done|]. intros i Hi. rewrite Hbit by done.
  destruct ((64 * p <=? i) && (i <? 64 * p + 64)) eqn:E; bools.
  - rewrite Hupd, Hb, Hm by lia. by replace (64 * p + (i - 64 * p)) with i by lia.
  - replace ((lo <=? i) && (i <? hi)) with false; [by rewrite Hop|].
    symmetry. apply andb_false_iff in E. apply andb_false_iff.
    destruct E as [E|E]; bools; [left; apply Z.leb_gt|right; apply Z.ltb_ge]; lia.
Qed.

Lemma update_loop_spec fuel m p nr bits mask :
  let cur := 64 * p + 64 - bits in
  0 <= p -> 0 < bits <= 64 -> 0 <= nr < 2 ^ 31 -> cur + nr <= 8 * blen m ->
  blen m mod 8 = 0 -> (Z.to_nat ((nr + 64 - bits) / 64) < fuel)%nat ->
  (forall b, 0 <= b < 64 -> Z.testbit mask b = (cur <=? 64 * p + b)) ->
  exists m' p' nr' mask', update_loop fuel m p nr bits mask = Some (m', p', nr', mask') /\
  let cur' := cur + nr - nr' in
  0 <= p' /\ 0 <= nr' /\ 64 * p' <= cur' /\ cur' + nr' < 64 * p' + 64 /\ blen m' = blen m /\
  cur <= cur' /\
  (forall b, 0 <= b < 64 -> Z.testbit mask' b = (cur' <=? 64 * p' + b)) /\
  (forall i, 0 <= i -> bit m' i = op (bit m i) ((cur <=? i) && (i <? cur'))).
Proof.
  revert m p nr bits mask. induction fuel as [|fuel IH];
    intros m p nr bits mask cur Hp Hb Hnr Hlen H8 Hf Hmask; [lia|]. simpl.
  rewrite int32_Some by lia. cbn [mbind option_bind]. destruct (Z.leb_spec 0 (nr - bits)).
  - destruct (update_word m p cur (64 * p + 64) mask) as (w & m1 & -> & Hs & Hl1 & Hb1);
      try lia; [|].
    { intros b ?. rewrite Hmask by lia. rewrite (proj2 (Z.ltb_lt _ _)) by lia.
      by rewrite andb_true_r. }
    cbn [mbind option_bind]. rewrite Hs. cbn [mbind option_bind].
    destruct (IH m1 (p + 1) (nr - bits) BITS_PER_LONG ULONG_MAX)
      as (m2 & p' & nr' & mask' & -> & H1 & H2 & H3 & H4 & H5 & H6 & H7 & H8');
      unfold BITS_PER_LONG in *; try dlia.
    { intros b ?. rewrite testbit_ULONG_MAX by lia. rewrite (proj2 (Z.ltb_lt _ _)) by lia.
      symmetry. apply Z.leb_le. lia. }
    exists m2, p', nr', mask'. split; [done|].
    replace (64 * (p + 1) + 64 - 64 + (nr - bits) - nr') with (cur + nr - nr') in * by lia.
    split_and!; try lia; [done|]. intros i Hi. rewrite H8', Hb1 by done.
    replace ((cur <=? i) && (i <? cur + nr - nr')) with
      (((cur <=? i) && (i <? 64 * p + 64)) || ((64 * (p + 1) + 64 - 64 <=? i) && (i <? cur + nr - nr')))
      by (repeat cmp; done || lia).
    destruct (_ && _) eqn:E1; destruct (_ && (i <? cur + nr - nr')) eqn:E2; simpl;
      rewrite ?Hop; try done. bools. lia.
  - exists m, p, nr, mask. split; [done|]. replace (cur + nr - nr) with cur by lia.
    split_and!; try lia; [done|]. intros i Hi. rewrite <- (Hop (bit m i)) at 1.
    f_equal. repeat cmp; done || lia.
Qed.

Lemma update_range_spec m start nr :
  0 <= start -> 0 <= nr -> start + nr < 2 ^ 31 -> start + nr <= 8 * blen m ->
  blen m mod 8 = 0 ->
  exists m', update_range m start nr = Some m' /\ blen m' = blen m /\
  forall i, 0 <= i -> bit m' i = op (bit m i) ((start <=? i) && (i <? start + nr)).
Proof.
  intros Hst Hnr Hint Hlen H8. unfold update_range. rewrite int32_Some by lia.
  cbn [mbind option_bind]. unfold BIT_WORD, BITS_PER_LONG.
  destruct (update_loop_spec (range_fuel nr) m (start / 64) nr (64 - start mod 64)
    (BITMAP_FIRST_WORD_MASK start)) as (m' & p' & nr' & mask' & -> & H1 & H2 & H3 & H4 & H5 & H6 & H7 & H9);
    try dlia.
  { unfold range_fuel, BITS_PER_LONG. dlia. }
  { intros b Hb. rewrite first_word_mask_bits by done. repeat cmp; done || dlia. }
  replace (64 * (start / 64) + 64 - (64 - start mod 64)) with start in * by dlia.
  cbn [mbind option_bind]. destruct (Z.eqb_spec nr' 0) as [->|]; cbn [negb].
  { exists m'. split; [done|]. split; [done|]. intros i Hi. rewrite H9 by done.
    by rewrite Z.sub_0_r. }
  destruct (update_word m' p' (start + nr - nr') (start + nr)
    (Z.land mask' (BITMAP_LAST_WORD_MASK (start + nr)))) as (w & m2 & Hw2 & Hs2 & Hl & Hb);
    try lia.
  { rewrite H5. done. }
  { intros b ?. rewrite Z.land_spec, H7, last_word_mask_bits by dlia.
    f_equal. repeat cmp; done || dlia. }
  rewrite Hw2. cbn [mbind option_bind]. rewrite Hs2.
  exists m2. split; [done|]. split; [lia|]. intros i Hi. rewrite Hb, H9 by done.
  replace ((start <=? i) && (i <? start + nr)) with
    (((start <=? i) && (i <? start + nr - nr')) || ((start + nr - nr' <=? i) && (i <? start + nr)))
    by (repeat cmp; done || lia).
  destruct (_ && _) eqn:E1; destruct (_ && (i <? start + nr)) eqn:E2; simpl;
    rewrite ?Hop; try done. bools. lia.
Qed.
End update.

(** ** The library functions, bit by bit *)

Lemma bitmap_set_loop_update fuel m p nr b mask :
  bitmap_set_loop fuel m p nr b mask = update_loop Z.lor fuel m p nr b mask.
Proof.
  revert m p nr b mask. induction fuel as [|fuel IH]; intros; [done|]. simpl.
  destruct (int32 _); simpl; [|done]. destruct (0 <=? _); [|done].
  destruct (word m p); simpl; [|done]. destruct (set_word m p _); simpl; [|done]. apply IH.
Qed.

Lemma bitmap_clear_loop_update fuel m p nr b mask :
  bitmap_clear_loop fuel m p nr b mask =
  update_loop (fun w k => Z.land w (not64 k)) fuel m p nr b mask.
Proof.
  revert m p nr b mask. induction fuel as [|fuel IH]; intros; [done|]. simpl.
  destruct (int32 _); simpl; [|done]. destruct (0 <=? _); [|done].
  destruct (word m p); simpl; [|done]. destruct (set_word m p _); simpl; [|done]. apply IH.
Qed.

(** What the callers guarantee of a range: inside the buffer, in [int] range. *)
Definition range_ok (m : bytes) (start nr : Z) : Prop :=
  0 <= start /\ 0 <= nr /\ start + nr < 2 ^ 31 /\ start + nr <= 8 * blen m /\ blen m mod 8 = 0.

Lemma bitmap_set_bits m start nr :
  range_ok m start nr ->
  exists m', bitmap_set m start nr = Some m' /\ blen m' = blen m /\
  forall i, 0 <= i -> bit m' i = bit m i || ((start <=? i) && (i <? start + nr)).
Proof.
  intros (? & ? & ? & ? & ?).
  destruct (update_range_spec Z.lor orb) with (m := m) (start := start) (nr := nr)
    as (m' & Hu & Hl & Hb); try done.
  { intros. apply Z.lor_spec. } { apply orb_false_r. }
  exists m'. split; [|done]. rewrite <- Hu. unfold bitmap_set, update_range.
  destruct (int32 _); [|done]. cbn [mbind option_bind]. by rewrite bitmap_set_loop_update.
Qed.

Lemma bitmap_clear_bits m start nr :
  range_ok m start nr ->
  exists m', bitmap_clear m start nr = Some m' /\ blen m' = blen m /\
  forall i, 0 <= i -> bit m' i = bit m i && negb ((start <=? i) && (i <? start + nr)).
Proof.
  intros (? & ? & ? & ? & ?).
  destruct (update_range_spec (fun w k => Z.land w (not64 k)) (fun b k => b && negb k))
    with (m := m) (start := start) (nr := nr) as (m' & Hu & Hl & Hb); try done.
  { intros w k b Hb. rewrite Z.land_spec, testbit_not64 by lia.
    by rewrite (proj2 (Z.ltb_lt b 64)) by lia. } { apply andb_true_r. }
  exists m'. split; [|done]. rewrite <- Hu. unfold bitmap_clear, update_range.
  destruct (int32 _); [|done]. cbn [mbind option_bind]. by rewrite bitmap_clear_loop_update.
Qed.

(** [nr] clear bits from [pos] on. *)
Definition area_free (m : bytes) (pos nr : Z) : Prop :=
  forall i, pos <= i < pos + nr -> bit m i = false.

(** The allocator's contract: the first free area at or after [start]. *)
Definition first_fit (m : bytes) (size start nr pos : Z) : Prop :=
  start <= pos /\ pos + nr <= size /\ area_free m pos nr /\
  forall pos', start <= pos' < pos -> ~ area_free m pos' nr.

Definition no_fit (m : bytes) (size start nr : Z) : Prop :=
  forall pos', start <= pos' -> pos' + nr <= size -> ~ area_free m pos' nr.

Lemma align_mask_0 x : 0 <= x < 2 ^ 64 -> __ALIGN_MASK x 0 = x.
Proof.
  intros Hx. unfold __ALIGN_MASK. rewrite Z.add_0_r, u64_small by done.
  apply Z.bits_inj'. intros i Hi. rewrite Z.land_spec, testbit_not64, Z.testbit_0_l by done.
  cmp; simpl; [apply andb_true_r|]. rewrite andb_false_r. symmetry. by apply (testbit_above x 64).
Qed.

Lemma find_area_again_spec fuel m size start nr :
  0 <= start <= size -> 0 < nr < 2 ^ 31 -> size < 2 ^ 31 -> size <= 8 * blen m ->
  8 * blen m < 2 ^ 63 -> blen m mod 8 = 0 -> (Z.to_nat (size - start) < fuel)%nat ->
  exists pos, find_area_again fuel m size start nr 0 = Some pos /\
  (first_fit m size start nr pos \/ (size < pos /\ no_fit m size start nr)).
Proof.
  revert start. induction fuel as [|fuel IH]; intros start Hst Hnr Hsz Hlen H63 H8 Hf; [lia|].
  simpl. rewrite !(u64_small size), (u64_small start), (u64_small nr) by lia.
  destruct (find_next_zero_bit_first m size start) as (idx & -> & Hidx & Hset & Hclr); try lia.
  rewrite Z.min_l in * by lia. cbn [mbind option_bind].
  rewrite align_mask_0, u64_small by lia. destruct (Z.ltb_spec size (idx + nr)).
  - eexists. split; [done|]. right. split; [lia|]. intros pos' Hp He Hfree.
    specialize (Hset pos' ltac:(lia)). rewrite (Hfree pos') in Hset by lia. done.
  - destruct (find_next_bit_first m (idx + nr) idx) as (i & -> & Hi & Hno & Hyes); try lia.
    rewrite Z.min_l in * by lia. cbn [mbind option_bind].
    destruct (Z.ltb_spec i (idx + nr)) as [Hlt|Hge].
    + rewrite u64_small, s32_small by lia.
      assert (Hskip : forall pos', start <= pos' < i + 1 -> ~ area_free m pos' nr).
      { intros pos' Hp Hfree. destruct (Z_lt_le_dec pos' idx).
        - specialize (Hset pos' ltac:(lia)). rewrite (Hfree pos') in Hset by lia. done.
        - specialize (Hyes Hlt). rewrite (Hfree i) in Hyes by lia. done. }
      destruct (IH (i + 1)) as (pos & -> & Hpos); try lia.
      exists pos. split; [done|]. destruct Hpos as [(H1 & H2 & H3 & H4)|[H1 H2]].
      * left. split_and!; try lia; [done|]. intros pos' ?.
        destruct (Z_lt_le_dec pos' (i + 1)); [apply Hskip|apply H4]; lia.
      * right. split; [done|]. intros pos' ??.
        destruct (Z_lt_le_dec pos' (i + 1)); [apply Hskip|apply H2]; lia.
    + eexists. split; [done|]. left. split_and!; try lia.
      * intros j Hj. apply Hno. lia.
      * intros pos' Hp Hfree. specialize (Hset pos' ltac:(lia)).
        rewrite (Hfree pos') in Hset by lia. done.
Qed.

(** What the callers of the allocator guarantee. *)
Definition alloc_ok (m : bytes) (size start nr : Z) : Prop :=
  0 <= start <= size /\ 0 < nr < 2 ^ 31 /\ size < 2 ^ 31 /\ size <= 8 * blen m /\
  8 * blen m < 2 ^ 63 /\ blen m mod 8 = 0.

Lemma bitmap_alloc_region_cases m size start nr :
  alloc_ok m size start nr ->
  (exists pos m', bitmap_alloc_region m size start nr = Some (pos, m') /\
     first_fit m size start nr pos /\ blen m' = blen m /\
     forall i, 0 <= i -> bit m' i = bit m i || ((pos <=? i) && (i <? pos + nr))) \/
  (bitmap_alloc_region m size start nr = Some (0, m) /\ no_fit m size start nr).
Proof.
  intros (? & ? & ? & ? & ? & ?).
  destruct (find_area_again_spec (S (Z.to_nat (size - start))) m size start nr)
    as (pos & Hf & Hpos); try lia.
  unfold bitmap_alloc_region, bitmap_find_next_zero_area. rewrite Hf.
  cbn [mbind option_bind]. rewrite u64_small by lia.
  destruct Hpos as [Hpos|[Hlt Hno]].
  - left. assert (Hp := Hpos). destruct Hp as (Hp1 & Hp2 & _).
    rewrite (proj2 (Z.ltb_ge _ _)) by lia. rewrite s32_small by lia.
    destruct (bitmap_set_bits m pos nr) as (m' & -> & Hl & Hb); [repeat split; lia|].
    exists pos, m'. done.
  - right. by rewrite (proj2 (Z.ltb_lt _ _)) by lia.
Qed.

(** ** Properties *)

(** C20: [find_next_bit] and [find_next_zero_bit], which search a word at a time,
    compute exactly what the bit-by-bit scan computes: the first set (clear) bit at
    or after [offset], and [size] when there is none. The result is always [Some]:
    no access leaves the buffer and the fuel is enough. *)
Theorem find_next_scan addr size offset :
  0 <= offset <= size -> size <= 8 * blen addr -> 8 * blen addr < 2 ^ 63 ->
  blen addr mod 8 = 0 ->
  find_next_bit addr size offset
    = Some (scan (bit addr) offset (Z.to_nat (size - offset))) /\
  find_next_zero_bit addr size offset
    = Some (scan (fun i => negb (bit addr i)) offset (Z.to_nat (size - offset))).
Proof.
  intros Ho Hs H63 H8. split.
  - destruct (find_next_bit_first addr size offset) as (r & -> & Hr); try lia.
    f_equal. eapply is_first_unique; [exact Hr|]. rewrite Z.min_l by lia.
    replace size with (offset + Z.of_nat (Z.to_nat (size - offset))) at 1 by lia.
    apply scan_first.
  - destruct (find_next_zero_bit_first addr size offset) as (r & -> & Hr); try lia.
    f_equal. eapply is_first_unique; [exact Hr|]. rewrite Z.min_l by lia.
    replace size with (offset + Z.of_nat (Z.to_nat (size - offset))) at 1 by lia.
    apply scan_first.
Qed.

Lemma find_next_scan_witness :
  find_next_bit (splice (zeroes 32) 20 [Byte.x80]) 200 3 = Some 167 /\
  find_next_zero_bit (memset_buf Byte.xff 32) 200 3 = Some 200.
Proof.
  split.
  - apply (proj1 (find_next_scan (splice (zeroes 32) 20 [Byte.x80]) 200 3
      ltac:(lia) ltac:(vm_compute; discriminate) ltac:(vm_compute; reflexivity) eq_refl)).
  - apply (proj2 (find_next_scan (memset_buf Byte.xff 32) 200 3
      ltac:(lia) ltac:(vm_compute; discriminate) ltac:(vm_compute; reflexivity) eq_refl)).
Defined.

(** [bitmap_set] sets, and [bitmap_clear] clears, the bits of
    [\[start, start + nr)] and no other; neither leaves the buffer or overflows. *)
Theorem bitmap_set_clear_spec m start nr :
  range_ok m start nr ->
  (exists m', bitmap_set m start nr = Some m' /\ blen m' = blen m /\
     forall i, 0 <= i -> bit m' i = bit m i || ((start <=? i) && (i <? start + nr))) /\
  (exists m', bitmap_clear m start nr = Some m' /\ blen m' = blen m /\
     forall i, 0 <= i -> bit m' i = bit m i && negb ((start <=? i) && (i <? start + nr))).
Proof. intros H. split; [by apply bitmap_set_bits|by apply bitmap_clear_bits]. Qed.

Lemma bitmap_set_clear_spec_witness :
  range_ok (zeroes 64) 60 200 /\
  (exists m', bitmap_set (zeroes 64) 60 200 = Some m' /\ blen m' = blen (zeroes 64) /\
     forall i, 0 <= i -> bit m' i = bit (zeroes 64) i || ((60 <=? i) && (i <? 60 + 200))).
Proof.
  assert (H : range_ok (zeroes 64) 60 200) by (repeat split; vm_compute; congruence).
  split; [exact H|]. exact (proj1 (bitmap_set_clear_spec (zeroes 64) 60 200 H)).
Defined.

(** C19: [bitmap_alloc_region] is a first-fit allocator: it returns the least
    position at or after [start] from which [nr] bits are free, having set exactly
    those bits, or returns 0 with the map untouched when no such position exists. *)
Theorem bitmap_alloc_region_first_fit m size start nr :
  alloc_ok m size start nr ->
  exists pos m', bitmap_alloc_region m size start nr = Some (pos, m') /\ blen m' = blen m /\
  ((first_fit m size start nr pos /\
    forall i, 0 <= i -> bit m' i = bit m i || ((pos <=? i) && (i <? pos + nr))) \/
   (pos = INVALID_NO /\ m' = m /\ no_fit m size start nr)).
Proof.
  intros H. destruct (bitmap_alloc_region_cases m size start nr H)
    as [(pos & m' & -> & Hp & Hl & Hb)|[-> Hn]].
  - exists pos, m'. auto.
  - exists 0, m. auto 6.
Qed.

Lemma bitmap_alloc_region_first_fit_witness :
  alloc_ok (zeroes 64) 512 1 5 /\
  exists pos m', bitmap_alloc_region (zeroes 64) 512 1 5 = Some (pos, m') /\
  blen m' = blen (zeroes 64) /\
  ((first_fit (zeroes 64) 512 1 5 pos /\
    forall i, 0 <= i -> bit m' i = bit (zeroes 64) i || ((pos <=? i) && (i <? pos + 5))) \/
   (pos = INVALID_NO /\ m' = zeroes 64 /\ no_fit (zeroes 64) 512 1 5)).
Proof.
  assert (H : alloc_ok (zeroes 64) 512 1 5) by (repeat split; vm_compute; congruence).
  split; [exact H|]. exact (bitmap_alloc_region_first_fit (zeroes 64) 512 1 5 H).
Defined.

(** freeing the region just allocated restores the map byte for byte. *)
Theorem bitmap_alloc_free_roundtrip m size start nr pos m' :
  alloc_ok m size start nr -> bitmap_alloc_region m size start nr = Some (pos, m') ->
  pos <> INVALID_NO -> bitmap_free_region m' pos nr = Some m.
Proof.
  intros H Ha Hpos. assert (H' := H). destruct H' as (? & ? & ? & ? & ? & ?).
  destruct (bitmap_alloc_region_cases m size start nr H)
    as [(pos' & m1 & Ha' & (Hp1 & Hp2 & Hfree & _) & Hl & Hb)|[Ha' _]];
    rewrite Ha' in Ha; injection Ha as <- <-; [|done].
  destruct (bitmap_clear_bits m1 pos' nr) as (m2 & Hc & Hl2 & Hb2).
  { unfold range_ok. rewrite Hl. repeat split; lia. }
  unfold bitmap_free_region. rewrite Hc. f_equal. apply bit_ext.
  { unfold blen in *. lia. }
  intros i Hi. rewrite Hb2, Hb by done.
  destruct ((pos' <=? i) && (i <? pos' + nr)) eqn:E.
  - bools. by rewrite (Hfree i) by lia.
  - by rewrite orb_false_r, andb_true_r.
Qed.

Lemma bitmap_alloc_free_roundtrip_witness :
  exists m', bitmap_alloc_region (zeroes 16) 128 1 70 = Some (1, m') /\
             bitmap_free_region m' 1 70 = Some (zeroes 16).
Proof.
  eexists. split; [vm_compute; reflexivity|].
  apply (bitmap_alloc_free_roundtrip (zeroes 16) 128 1 70).
  - repeat split; vm_compute; congruence.
  - vm_compute. reflexivity.
  - vm_compute. congruence.
Defined.
