(* ===== verification/MkCache.v ===== *)
(** * The image file and the block cache of the file-system maker (makefs/mkfs.c)

    The image file is a map from block numbers to blocks; [bc_head] is the block
    cache, newest entry first. A pointer into a cached block is the block's number
    and an offset: [bc_block] reads and [bc_put] writes through it. An outcome is a
    normal return, a call of [exit], or undefined behaviour ([Ub]): an access
    outside a block, a signed overflow, a read past the end of the image into an
    uninitialised buffer. The system calls are assumed not to fail, and [malloc] to
    succeed; the code checks neither. The second half states what the cache
    promises its clients: it refines a flat block store. *)

From S2P Require Import Prelude Mem Layout.

Record blk_cache := { dirty : bool; blk_id : Z; block : bytes }.

Record mkst := { disk : gmap Z bytes; bc_head : list blk_cache }.

(** ** Outcomes *)

Inductive outcome (A : Type) : Type :=
| Ret (a : A) (s : mkst)
| Exit (code : Z) (s : mkst)
| Ub.
Arguments Ret {A} _ _.
Arguments Exit {A} _ _.
Arguments Ub {A}.

Definition M (A : Type) : Type := mkst -> outcome A.

#[export] Instance M_ret : MRet M := fun A a s => Ret a s.
#[export] Instance M_bind : MBind M := fun A B k c s =>
  match c s with
  | Ret a s' => k a s'
  | Exit code s' => Exit code s'
  | Ub => Ub
  end.

Definition lift {A} (o : option A) : M A := fun s =>
  match o with Some a => Ret a s | None => Ub end.
Definition exit {A} (code : Z) : M A := fun s => Exit code s.
Definition get_disk : M (gmap Z bytes) := fun s => Ret (disk s) s.
Definition set_disk (d : gmap Z bytes) : M unit :=
  fun s => Ret tt {| disk := d; bc_head := bc_head s |}.
Definition get_bc : M (list blk_cache) := fun s => Ret (bc_head s) s.
Definition set_bc (l : list blk_cache) : M unit :=
  fun s => Ret tt {| disk := disk s; bc_head := l |}.

(** ** Blocks of the image *)

(** [lseek(fd, blk_id * GAS_BLOCK_SIZE)]: the product is computed in [int]. *)
Definition seek_block (blk_id : Z) : M Z :=
  off ← lift (int32 (blk_id * GAS_BLOCK_SIZE));
  mret (off / GAS_BLOCK_SIZE).

Definition read_block (blk_id : Z) : M bytes :=
  b ← seek_block blk_id;
  d ← get_disk;
  lift (d !! b).

Definition write_block (blk_id : Z) (buf : bytes) : M unit :=
  b ← seek_block blk_id;
  d ← get_disk;
  set_disk (<[b := buf]> d).

(** ** The block cache *)

Definition bc_insert (new : blk_cache) : M unit := l ← get_bc; set_bc (new :: l).

Fixpoint bc_lookup (b : Z) (l : list blk_cache) : option blk_cache :=
  match l with
  | [] => None
  | e :: l => if blk_id e =? b then Some e else bc_lookup b l
  end.

Definition bc_find (b : Z) : M (option blk_cache) := l ← get_bc; mret (bc_lookup b l).

(** Overwrite the first entry for block [b]. *)
Fixpoint bc_replace (b : Z) (e' : blk_cache) (l : list blk_cache) : list blk_cache :=
  match l with
  | [] => []
  | e :: l => if blk_id e =? b then e' :: l else e :: bc_replace b e' l
  end.

(** [bc_read]: make the block resident; the pointer it returns is its number. *)
Definition bc_read (b : Z) : M unit :=
  it ← bc_find b;
  match it with
  | Some _ => mret tt
  | None =>
      buf ← read_block b;
      bc_insert {| dirty := false; blk_id := b; block := buf |}
  end.

(** Reading and writing through the pointer [bc_read] returned. *)
Definition bc_block (b : Z) : M bytes :=
  it ← bc_find b;
  lift (block <$> it).

Definition bc_put (b : Z) (buf : bytes) : M unit :=
  it ← bc_find b;
  match it with
  | Some e =>
      l ← get_bc;
      set_bc (bc_replace b {| dirty := dirty e; blk_id := b; block := buf |} l)
  | None => lift None
  end.

Definition bc_write (b : Z) (sync : bool) : M unit :=
  it ← bc_find b;
  match it with
  | Some p =>
      if sync then
        _ ← write_block (blk_id p) (block p);
        l ← get_bc;
        set_bc (bc_replace b {| dirty := false; blk_id := blk_id p; block := block p |} l)
      else
        l ← get_bc;
        set_bc (bc_replace b {| dirty := true; blk_id := blk_id p; block := block p |} l)
  | None => mret tt
  end.

Fixpoint bc_sync_loop (l : list blk_cache) : M unit :=
  match l with
  | [] => mret tt
  | it :: next =>
      _ ← (if dirty it then write_block (blk_id it) (block it) else mret tt);
      bc_sync_loop next
  end.

Definition bc_sync : M unit :=
  l ← get_bc;
  _ ← bc_sync_loop l;
  set_bc [].

(** ** Running the monad *)

Lemma M_bind_eq {A B} (c : M A) (k : A -> M B) s :
  (c ≫= k) s = match c s with Ret a s' => k a s' | Exit x s' => Exit x s' | Ub => Ub end.
Proof. done. Qed.

Lemma lift_Some {A} (o : option A) a s : o = Some a -> lift o s = Ret a s.
Proof. by intros ->. Qed.

(** Block numbers whose byte offset fits in an [int]. *)
Definition blk_ok (b : Z) : Prop := 0 <= b < 2 ^ 19.

Lemma seek_block_ok b s : blk_ok b -> seek_block b s = Ret b s.
Proof.
  intros [? ?]. unfold seek_block. rewrite M_bind_eq.
  rewrite (lift_Some _ (b * GAS_BLOCK_SIZE)) by (apply int32_Some; unfold GAS_BLOCK_SIZE; lia).
  unfold mret, M_ret, GAS_BLOCK_SIZE. by rewrite Z.div_mul.
Qed.

Lemma write_block_ok b buf s :
  blk_ok b -> write_block b buf s = Ret tt {| disk := <[b := buf]> (disk s); bc_head := bc_head s |}.
Proof. intros ?. unfold write_block. by rewrite M_bind_eq, seek_block_ok. Qed.

Lemma read_block_ok b buf s :
  blk_ok b -> disk s !! b = Some buf -> read_block b s = Ret buf s.
Proof.
  intros ? Hd. unfold read_block. rewrite M_bind_eq, seek_block_ok by done.
  rewrite M_bind_eq. unfold get_disk, lift. by rewrite Hd.
Qed.

(** ** The cache refines a flat block store

    A [bstore] is what a client of the cache may rely on: the current contents of
    every block ([sv]), which blocks are resident, which are marked dirty, and
    which differ from the image ([stale]). [rep s a] ties a concrete state to it. *)

Record bstore := {
  sv : gmap Z bytes; s_cached : gset Z; s_dirty : gset Z; s_stale : gset Z }.

Definition rep (s : mkst) (a : bstore) : Prop :=
  NoDup (blk_id <$> bc_head s) /\
  (forall e, e ∈ bc_head s -> blk_ok (blk_id e)) /\
  (forall b, b ∈ s_cached a <-> is_Some (bc_lookup b (bc_head s))) /\
  (forall b e, bc_lookup b (bc_head s) = Some e ->
     sv a !! b = Some (block e) /\ (b ∈ s_dirty a <-> dirty e = true)) /\
  (forall b, b ∉ s_stale a -> disk s !! b = sv a !! b) /\
  s_stale a ⊆ s_cached a /\ s_dirty a ⊆ s_cached a.

Definition store_read (b : Z) (a : bstore) : bstore :=
  {| sv := sv a; s_cached := {[b]} ∪ s_cached a; s_dirty := s_dirty a; s_stale := s_stale a |}.

Definition store_put (b : Z) (buf : bytes) (a : bstore) : bstore :=
  {| sv := <[b := buf]> (sv a); s_cached := s_cached a; s_dirty := s_dirty a;
     s_stale := {[b]} ∪ s_stale a |}.

Definition store_write (b : Z) (sync : bool) (a : bstore) : bstore :=
  if sync then
    {| sv := sv a; s_cached := s_cached a; s_dirty := s_dirty a ∖ {[b]};
       s_stale := s_stale a ∖ {[b]} |}
  else
    {| sv := sv a; s_cached := s_cached a; s_dirty := {[b]} ∪ s_dirty a; s_stale := s_stale a |}.

Lemma bc_lookup_id b l e : bc_lookup b l = Some e -> blk_id e = b /\ e ∈ l.
Proof.
  induction l as [|x l IH]; simpl; [done|]. destruct (Z.eqb_spec (blk_id x) b).
  - intros [= <-]. split; [done|]. apply list_elem_of_here.
  - intros H. destruct (IH H). split; [done|]. by apply list_elem_of_further.
Qed.

Lemma bc_lookup_None b l : bc_lookup b l = None <-> b ∉ blk_id <$> l.
Proof.
  induction l as [|x l IH]; simpl.
  { split; [intros _; apply not_elem_of_nil|done]. }
  rewrite not_elem_of_cons. destruct (Z.eqb_spec (blk_id x) b) as [E|E].
  - split; [done|]. by intros [? _].
  - rewrite IH. split; [by auto|by intros []].
Qed.

Lemma bc_replace_ids b e l : blk_id e = b -> blk_id <$> bc_replace b e l = blk_id <$> l.
Proof.
  intros He. induction l as [|x l IH]; [done|]. simpl.
  destruct (Z.eqb_spec (blk_id x) b) as [E|E]; simpl; [by rewrite He, E|].
  f_equal. apply IH.
Qed.

Lemma bc_replace_lookup b e l b' :
  blk_id e = b -> is_Some (bc_lookup b l) ->
  bc_lookup b' (bc_replace b e l) = if b =? b' then Some e else bc_lookup b' l.
Proof.
  intros He. induction l as [|x l IH]; simpl; [by intros []|].
  destruct (Z.eqb_spec (blk_id x) b) as [Hx|Hx]; simpl.
  - intros _. rewrite He, Hx. by destruct (b =? b').
  - intros H. rewrite IH by done. destruct (Z.eqb_spec (blk_id x) b'); [|done].
    destruct (Z.eqb_spec b b'); [congruence|done].
Qed.

Lemma bc_replace_elem b e l x : x ∈ bc_replace b e l -> x = e \/ x ∈ l.
Proof.
  induction l as [|y l IH]; simpl; [by auto|]. destruct (blk_id y =? b); rewrite !elem_of_cons; tauto.
Qed.

Lemma rep_bc_read s a b :
  rep s a -> blk_ok b -> is_Some (sv a !! b) ->
  exists s', bc_read b s = Ret tt s' /\ rep s' (store_read b a).
Proof.
  intros (Hnd & Hok & Hc & He & Hd & Hsc & Hdc) Hb [buf Hbuf].
  unfold bc_read, bc_find. rewrite !M_bind_eq. cbn [get_bc]. unfold mret, M_ret.
  assert (Hsc' : s_stale a ⊆ {[b]} ∪ s_cached a) by (clear - Hsc; set_solver).
  assert (Hdc' : s_dirty a ⊆ {[b]} ∪ s_cached a) by (clear - Hdc; set_solver).
  destruct (bc_lookup b (bc_head s)) as [e|] eqn:E.
  - exists s. split; [done|]. unfold rep, store_read. simpl. split_and!; try done.
    intros b'. rewrite elem_of_union, elem_of_singleton, Hc. split; [|by auto].
    intros [->|?]; [by rewrite E|done].
  - assert (Hnc : b ∉ s_cached a) by (rewrite Hc, E; by intros []).
    assert (Hdisk : disk s !! b = Some buf) by (rewrite Hd by auto; done).
    rewrite M_bind_eq, (read_block_ok _ buf) by done.
    unfold bc_insert. rewrite M_bind_eq. cbn [get_bc set_bc]. eexists. split; [done|].
    unfold rep, store_read. simpl. split_and!; try done.
    + apply list.NoDup_cons. split; [by apply bc_lookup_None|done].
    + intros e. rewrite elem_of_cons. intros [->|?]; [done|by apply Hok].
    + intros b'. rewrite elem_of_union, elem_of_singleton, Hc.
      destruct (Z.eqb_spec b b') as [->|]; [split; [by eauto|by auto]|].
      split; [intros [->|?]; done|by auto].
    + intros b' e. destruct (Z.eqb_spec b b') as [->|]; [|by apply He].
      intros [= <-]. simpl. split; [done|]. split; [|done]. intros ?%Hdc. done.
Qed.

Lemma rep_bc_block s a b :
  rep s a -> b ∈ s_cached a ->
  exists buf, sv a !! b = Some buf /\ bc_block b s = Ret buf s.
Proof.
  intros (Hnd & Hok & Hc & He & _) [e E]%Hc. exists (block e).
  split; [by apply (He b e)|]. unfold bc_block, bc_find. rewrite !M_bind_eq. cbn [get_bc].
  unfold mret, M_ret. by rewrite E.
Qed.

(** Replacing the entry of a resident block keeps the list well formed. *)
Lemma bc_replace_ok s a b e e' :
  rep s a -> bc_lookup b (bc_head s) = Some e -> blk_id e' = b ->
  let l := bc_replace b e' (bc_head s) in
  NoDup (blk_id <$> l) /\ (forall x, x ∈ l -> blk_ok (blk_id x)) /\
  (forall b', b' ∈ s_cached a <-> is_Some (bc_lookup b' l)) /\
  (forall b' x, bc_lookup b' l = Some x ->
     (b' = b /\ x = e') \/ (b' <> b /\ bc_lookup b' (bc_head s) = Some x)).
Proof.
  intros (Hnd & Hok & Hc & _) E Hid l. subst l. split_and!.
  - by rewrite bc_replace_ids.
  - intros x [->|?]%bc_replace_elem; [|by apply Hok].
    rewrite Hid. destruct (bc_lookup_id _ _ _ E) as [<- ?]. by apply Hok.
  - intros b'. rewrite Hc, bc_replace_lookup by (done || by eexists).
    destruct (Z.eqb_spec b b') as [->|]; [|done]. rewrite E. split; by eauto.
  - intros b' x. rewrite bc_replace_lookup by (done || by eexists).
    destruct (Z.eqb_spec b b') as [->|]; [intros [= <-]; by left|by right].
Qed.

Lemma rep_bc_put s a b buf :
  rep s a -> b ∈ s_cached a ->
  exists s', bc_put b buf s = Ret tt s' /\ rep s' (store_put b buf a).
Proof.
  intros Hrep Hb. assert (Hrep' := Hrep). destruct Hrep' as (Hnd & Hok & Hc & He & Hd & Hsc & Hdc).
  destruct (proj1 (Hc b) Hb) as [e E].
  unfold bc_put, bc_find. rewrite !M_bind_eq. cbn [get_bc]. unfold mret, M_ret. rewrite E.
  rewrite M_bind_eq. cbn [get_bc set_bc]. eexists. split; [done|].
  destruct (bc_replace_ok s a b e {| dirty := dirty e; blk_id := b; block := buf |})
    as (H1 & H2 & H3 & H4); [done|done|done|].
  unfold rep, store_put. simpl. split_and!; try done.
  - intros b' x [[-> ->]|[? Hx]]%H4; simpl.
    + split; [apply lookup_insert_eq|]. by apply (He b e).
    + rewrite lookup_insert_ne by done. by apply He.
  - intros b' Hb'. apply not_elem_of_union in Hb' as [?%not_elem_of_singleton ?].
    rewrite lookup_insert_ne by done. by apply Hd.
  - clear - Hsc Hb. set_solver.
Qed.

Lemma rep_bc_write s a b sync :
  rep s a -> b ∈ s_cached a ->
  exists s', bc_write b sync s = Ret tt s' /\ rep s' (store_write b sync a).
Proof.
  intros Hrep Hb. assert (Hrep' := Hrep). destruct Hrep' as (Hnd & Hok & Hc & He & Hd & Hsc & Hdc).
  destruct (proj1 (Hc b) Hb) as [e E].
  destruct (bc_lookup_id _ _ _ E) as [Hid Hin]. destruct (He b e E) as [Hblk Hdirty].
  unfold bc_write, bc_find. rewrite !M_bind_eq. cbn [get_bc]. unfold mret, M_ret. rewrite E.
  destruct (bc_replace_ok s a b e {| dirty := negb sync; blk_id := blk_id e; block := block e |})
    as (H1 & H2 & H3 & H4); [done|done|done|].
  destruct sync; simpl in *.
  - rewrite M_bind_eq, write_block_ok by (by apply Hok).
    rewrite M_bind_eq. cbn [get_bc set_bc]. eexists. split; [done|].
    unfold rep. simpl. split_and!; try done.
    + intros b' x [[-> ->]|[? Hx]]%H4; simpl.
      * split; [done|]. split; [|done]. clear. set_solver.
      * destruct (He b' x Hx) as [? <-]. split; [done|]. set_solver.
    + intros b' Hb'. rewrite Hid. destruct (decide (b = b')) as [<-|].
      * by rewrite lookup_insert_eq.
      * rewrite lookup_insert_ne by done. apply Hd. clear - Hb' n. set_solver.
    + clear - Hsc. set_solver.
    + clear - Hdc. set_solver.
  - rewrite M_bind_eq. cbn [get_bc set_bc]. eexists. split; [done|].
    unfold rep. simpl. split_and!; try done.
    + intros b' x [[-> ->]|[? Hx]]%H4; simpl.
      * split; [done|]. split; [done|]. intros _. clear. set_solver.
      * destruct (He b' x Hx) as [? <-]. split; [done|]. set_solver.
    + clear - Hdc Hb. set_solver.
Qed.

Lemma bc_sync_loop_spec l s :
  NoDup (blk_id <$> l) -> (forall e, e ∈ l -> blk_ok (blk_id e)) ->
  exists d, bc_sync_loop l s = Ret tt {| disk := d; bc_head := bc_head s |} /\
  forall b, d !! b = match bc_lookup b l with
                     | Some e => if dirty e then Some (block e) else disk s !! b
                     | None => disk s !! b
                     end.
Proof.
  revert s. induction l as [|e l IH]; intros s Hnd Hok; simpl.
  { exists (disk s). by destruct s. }
  apply list.NoDup_cons in Hnd as [Hni Hnd]. rewrite M_bind_eq.
  assert (He : blk_ok (blk_id e)) by (apply Hok, list_elem_of_here).
  destruct (dirty e) eqn:Ed.
  - rewrite write_block_ok by done.
    destruct (IH {| disk := <[blk_id e := block e]> (disk s); bc_head := bc_head s |})
      as (d & -> & Hd); [done|intros; apply Hok; by apply list_elem_of_further|].
    exists d. split; [done|]. intros b. rewrite Hd. simpl.
    destruct (Z.eqb_spec (blk_id e) b) as [<-|].
    + rewrite (proj2 (bc_lookup_None _ _) Hni), Ed. apply lookup_insert_eq.
    + by rewrite lookup_insert_ne by done.
  - cbn [mret M_ret]. destruct (IH s) as (d & -> & Hd); [done|intros; apply Hok; by apply list_elem_of_further|].
    exists d. split; [done|]. intros b. rewrite Hd.
    destruct (Z.eqb_spec (blk_id e) b) as [<-|]; [|done].
    by rewrite (proj2 (bc_lookup_None _ _) Hni), Ed.
Qed.

(** [bc_sync] brings the image up to date with the store, provided every stale
    block was marked dirty. *)
Lemma rep_bc_sync s a :
  rep s a -> s_stale a ⊆ s_dirty a ->
  bc_sync s = Ret tt {| disk := sv a; bc_head := [] |}.
Proof.
  intros (Hnd & Hok & Hc & He & Hd & Hsc & Hdc) Hsub. unfold bc_sync.
  rewrite M_bind_eq. cbn [get_bc]. rewrite M_bind_eq.
  destruct (bc_sync_loop_spec (bc_head s) s Hnd Hok) as (d & -> & Hd'). cbn [set_bc].
  assert (d = sv a) as ->; [|done]. apply map_eq. intros b. rewrite Hd'.
  destruct (bc_lookup b (bc_head s)) as [e|] eqn:E.
  - destruct (He b e E) as [Hb Hdirty]. destruct (dirty e) eqn:Ed; [done|].
    apply Hd. intros ?. assert (b ∈ s_dirty a) as ?%Hdirty by auto. done.
  - apply Hd. intros ?. assert (b ∈ s_cached a) as [? Hx]%Hc by auto. by rewrite E in Hx.
Qed.

(** ** Total-correctness triples

    [wp c s Q]: [c] started in [s] returns normally, and its result and final state
    satisfy [Q]. The rules for the cache operations work on the abstract store. *)

Definition wp {A} (c : M A) (s : mkst) (Q : A -> mkst -> Prop) : Prop :=
  match c s with Ret a s' => Q a s' | _ => False end.

Lemma wp_bind {A B} (c : M A) (k : A -> M B) s Q :
  wp c s (fun a s' => wp (k a) s' Q) -> wp (c ≫= k) s Q.
Proof. unfold wp. rewrite M_bind_eq. by destruct (c s). Qed.

Lemma wp_ret {A} (a : A) s (Q : A -> mkst -> Prop) : Q a s -> wp (mret a) s Q.
Proof. done. Qed.

Lemma wp_lift {A} (o : option A) a s (Q : A -> mkst -> Prop) :
  o = Some a -> Q a s -> wp (lift o) s Q.
Proof. intros ->. done. Qed.

Lemma wp_Ret {A} (c : M A) s Q : wp c s Q -> exists a s', c s = Ret a s' /\ Q a s'.
Proof. unfold wp. destruct (c s); [by eauto|done|done]. Qed.

Lemma wp_of_Ret {A} (c : M A) s a s' (Q : A -> mkst -> Prop) :
  c s = Ret a s' -> Q a s' -> wp c s Q.
Proof. unfold wp. by intros ->. Qed.

Lemma wp_mono {A} (c : M A) s (Q Q' : A -> mkst -> Prop) :
  wp c s Q -> (forall a s', Q a s' -> Q' a s') -> wp c s Q'.
Proof. unfold wp. destruct (c s); by auto. Qed.

Lemma wp_bc_read b s a (Q : unit -> mkst -> Prop) :
  rep s a -> blk_ok b -> is_Some (sv a !! b) ->
  (forall s', rep s' (store_read b a) -> Q tt s') -> wp (bc_read b) s Q.
Proof.
  intros Hr Hb Hs HQ. destruct (rep_bc_read s a b Hr Hb Hs) as (s' & E & Hr').
  eapply wp_of_Ret; [done|by apply HQ].
Qed.

Lemma wp_bc_block b s a buf (Q : bytes -> mkst -> Prop) :
  rep s a -> b ∈ s_cached a -> sv a !! b = Some buf -> Q buf s -> wp (bc_block b) s Q.
Proof.
  intros Hr Hb Hs HQ. destruct (rep_bc_block s a b Hr Hb) as (buf' & E' & E).
  eapply wp_of_Ret; [done|]. by simplify_eq.
Qed.

Lemma wp_bc_put b buf s a (Q : unit -> mkst -> Prop) :
  rep s a -> b ∈ s_cached a ->
  (forall s', rep s' (store_put b buf a) -> Q tt s') -> wp (bc_put b buf) s Q.
Proof.
  intros Hr Hb HQ. destruct (rep_bc_put s a b buf Hr Hb) as (s' & E & Hr').
  eapply wp_of_Ret; [done|by apply HQ].
Qed.

Lemma wp_bc_write b sync s a (Q : unit -> mkst -> Prop) :
  rep s a -> b ∈ s_cached a ->
  (forall s', rep s' (store_write b sync a) -> Q tt s') -> wp (bc_write b sync) s Q.
Proof.
  intros Hr Hb HQ. destruct (rep_bc_write s a b sync Hr Hb) as (s' & E & Hr').
  eapply wp_of_Ret; [done|by apply HQ].
Qed.


(** Every stale block is marked dirty: the next [bc_sync] loses nothing. *)
Definition settled (a : bstore) : Prop := s_stale a ⊆ s_dirty a.

(** A read-modify-write of block [b]: the state after it. *)
Definition rmw (b : Z) (m : bytes) (a : bstore) : bstore :=
  store_write b false (store_put b m (store_read b a)).

Lemma settled_rmw b m a : settled a -> settled (rmw b m a).
Proof. unfold settled, rmw. simpl. intros H. clear - H. set_solver. Qed.

Lemma rep_start d : rep {| disk := d; bc_head := [] |}
  {| sv := d; s_cached := ∅; s_dirty := ∅; s_stale := ∅ |}.
Proof.
  unfold rep. simpl. split; [apply NoDup_nil_2|]. split.
  { intros e He. by apply not_elem_of_nil in He. }
  split; [|done]. intros b. split; [set_solver|by intros []].
Qed.

(** ** Property: the write-back cache *)

(** A client's update of block [b]: read it through the cache, change it in place,
    mark it for writing. This is how every caller in mkfs.c uses the cache. *)
Record bc_update := { u_blk : Z; u_fun : bytes -> bytes; u_sync : bool }.

Definition run_update (u : bc_update) : M unit :=
  _ ← bc_read (u_blk u);
  m ← bc_block (u_blk u);
  _ ← bc_put (u_blk u) (u_fun u m);
  bc_write (u_blk u) (u_sync u).

Fixpoint run_updates (us : list bc_update) : M unit :=
  match us with
  | [] => bc_sync
  | u :: us => _ ← run_update u; run_updates us
  end.

(** The same updates applied directly to the image. *)
Definition direct_updates (us : list bc_update) (d : gmap Z bytes) : gmap Z bytes :=
  fold_left (fun d u => alter (u_fun u) (u_blk u) d) us d.

Lemma wp_run_update u s a m :
  rep s a -> settled a -> blk_ok (u_blk u) -> sv a !! u_blk u = Some m ->
  wp (run_update u) s (fun _ s' => exists a', rep s' a' /\ settled a' /\
    sv a' = alter (u_fun u) (u_blk u) (sv a)).
Proof.
  intros Hr Hs Hb Hm. unfold run_update.
  apply wp_bind. eapply wp_bc_read; [exact Hr|done|by eexists|]. intros s1 H1.
  apply wp_bind. eapply wp_bc_block; [exact H1|sets|done|].
  apply wp_bind. eapply wp_bc_put; [exact H1|sets|]. intros s2 H2.
  eapply wp_bc_write; [exact H2|sets|]. intros s3 H3. eexists. split; [exact H3|]. split.
  - unfold settled in *. destruct (u_sync u); simpl; clear - Hs; set_solver.
  - assert (<[u_blk u := u_fun u m]> (sv a) = alter (u_fun u) (u_blk u) (sv a)) as <-.
    { apply map_eq. intros b. destruct (decide (b = u_blk u)) as [->|].
      - by rewrite lookup_insert_eq, lookup_alter_eq, Hm.
      - by rewrite lookup_insert_ne, lookup_alter_ne by done. }
    by destruct (u_sync u).
Qed.

Lemma run_updates_spec us s a :
  rep s a -> settled a ->
  (forall u, u ∈ us -> blk_ok (u_blk u) /\ is_Some (sv a !! u_blk u)) ->
  run_updates us s = Ret tt {| disk := direct_updates us (sv a); bc_head := [] |}.
Proof.
  revert s a. induction us as [|u us IH]; intros s a Hr Hs Hus.
  - by apply rep_bc_sync.
  - destruct (Hus u) as [Hb [m Hm]]; [apply list_elem_of_here|].
    cbn [run_updates direct_updates fold_left]. rewrite M_bind_eq.
    destruct (wp_Ret _ _ _ (wp_run_update u s a m Hr Hs Hb Hm)) as ([] & s' & -> & a' & Hr' & Hs' & Hsv).
    rewrite (IH s' a'); [by rewrite Hsv|done|done|].
    intros v Hv. destruct (Hus v) as [Hvb Hvs]; [by apply list_elem_of_further|].
    split; [done|]. rewrite Hsv. destruct (decide (u_blk v = u_blk u)) as [->|].
    + rewrite lookup_alter_eq, Hm. by eexists.
    + by rewrite lookup_alter_ne.
Qed.

(** C18: the block cache refines a flat block store. Any sequence of updates made
    through the cache, each marked for deferred or immediate writing, followed by
    [bc_sync], leaves the image exactly as if every update had been applied to it
    directly, in order, and leaves the cache empty. *)
Theorem bc_refines_flat_store us d :
  (forall u, u ∈ us -> blk_ok (u_blk u) /\ is_Some (d !! u_blk u)) ->
  run_updates us {| disk := d; bc_head := [] |}
    = Ret tt {| disk := direct_updates us d; bc_head := [] |}.
Proof. intros H. by apply (run_updates_spec us _ _ (rep_start d)). Qed.

Lemma bc_refines_flat_store_witness :
  let us := [ {| u_blk := 2; u_fun := fun m => splice m 0 [Byte.x01]; u_sync := false |};
              {| u_blk := 5; u_fun := fun m => splice m 1 [Byte.x07]; u_sync := true |};
              {| u_blk := 2; u_fun := fun m => splice m 3 [Byte.x02]; u_sync := false |} ] in
  let d := {[ 2 := zeroes 8; 5 := zeroes 8 ]} : gmap Z bytes in
  run_updates us {| disk := d; bc_head := [] |}
    = Ret tt {| disk := direct_updates us d; bc_head := [] |}.
Proof.
  intros us d. apply (bc_refines_flat_store us d). intros u Hu.
  apply list_elem_of_In in Hu. simpl in Hu.
  destruct Hu as [<-|[<-|[<-|[]]]]; (split; [unfold blk_ok; simpl; lia|vm_compute; by eexists]).
Defined.
