(* ===== verification/MkFs.v ===== *)
(** * The file-system maker (makefs/mkfs.c)

    The parameters of the image, the initial metadata blocks, the block and inode
    allocators, the root directory and [main], on the block cache of MkCache.v. The
    current time and the user are parameters. *)

From S2P Require Import Prelude Mem Layout MkBitmap MkCache.

(** [struct filesys_param gas], less the file descriptor *)
Record filesys_param := {
  iam_blk : Z; ino_blk : Z; bam_blk : Z; blk_cnt : Z; ino_cnt : Z; data_st : Z }.

Definition BAM_BLOCK_START : Z := 1.
Definition IAM_BLOCK_START (gas : filesys_param) : Z := u64 (BAM_BLOCK_START + bam_blk gas).
Definition INODE_LIST_START (gas : filesys_param) : Z := u64 (IAM_BLOCK_START gas + iam_blk gas).
Definition DATA_BLOCK_START (gas : filesys_param) : Z := u64 (INODE_LIST_START gas + ino_blk gas).
Definition INODES_PER_BLOCK : Z := GAS_BLOCK_SIZE / DI.sizeof.

(** ** Initial metadata *)

Definition init_super_block (gas : filesys_param) : M unit :=
  let buffer := zeroes GAS_BLOCK_SIZE in
  buffer ← lift (f_set buffer 0 SB.s_magic MAGIC_NUMBER);
  buffer ← lift (f_set buffer 0 SB.s_blocksize GAS_BLOCK_SIZE);
  buffer ← lift (f_set buffer 0 SB.s_bam_blocks (bam_blk gas));
  buffer ← lift (f_set buffer 0 SB.s_iam_blocks (iam_blk gas));
  buffer ← lift (f_set buffer 0 SB.s_inode_blocks (ino_blk gas));
  buffer ← lift (f_set buffer 0 SB.s_nblocks (blk_cnt gas));
  buffer ← lift (f_set buffer 0 SB.s_ninodes (ino_cnt gas));
  write_block SUPER_BLOCK_NO buffer.

(** One block of an allocation map: [preallocated] bits are still to be set, the
    map has [nblk] blocks for [cnt] objects, and this is block number [i] of it,
    counted from 1. Returns the buffer and the bits still to be set. *)
Definition alloc_map_block (nblk cnt i preallocated : Z) : option (bytes * Z) :=
  '(buffer, preallocated) ←
    (if BITS_PER_BLOCK <? preallocated then
       Some (memset_buf Byte.xff GAS_BLOCK_SIZE, preallocated - BITS_PER_BLOCK)
     else
       let buffer := memset_buf Byte.x00 GAS_BLOCK_SIZE in
       if negb (preallocated =? 0) then
         map ← bitmap_set buffer 0 preallocated;
         Some (map, 0)
       else Some (buffer, preallocated));
  if i =? nblk then
    if negb (cnt =? u64 (nblk * BITS_PER_BLOCK)) then
      let bits := s32 (u64 (u64 (nblk * BITS_PER_BLOCK) - cnt)) in
      map ← bitmap_set buffer (BITS_PER_BLOCK - bits) bits;
      Some (map, preallocated)
    else Some (buffer, preallocated)
  else Some (buffer, preallocated).

(** [for (i = 1; i <= nblk; i++)], [todo] iterations left. *)
Fixpoint alloc_map_loop (todo : nat) (nblk cnt i preallocated block : Z) : M unit :=
  match todo with
  | O => mret tt
  | S todo =>
      '(buffer, preallocated) ← lift (alloc_map_block nblk cnt i preallocated);
      _ ← write_block block buffer;
      alloc_map_loop todo nblk cnt (i + 1) preallocated (block + 1)
  end.

Definition init_block_alloc_map (gas : filesys_param) : M unit :=
  alloc_map_loop (Z.to_nat (bam_blk gas)) (bam_blk gas) (blk_cnt gas) 1
    (s32 (data_st gas)) BAM_BLOCK_START.

Definition init_inode_alloc_map (gas : filesys_param) : M unit :=
  alloc_map_loop (Z.to_nat (iam_blk gas)) (iam_blk gas) (ino_cnt gas) 1
    1 (s32 (IAM_BLOCK_START gas)).

Fixpoint inode_list_loop (todo : nat) (block : Z) (buffer : bytes) : M unit :=
  match todo with
  | O => mret tt
  | S todo => _ ← write_block block buffer; inode_list_loop todo (block + 1) buffer
  end.

Definition init_inode_list (gas : filesys_param) : M unit :=
  inode_list_loop (Z.to_nat (ino_blk gas)) (s32 (INODE_LIST_START gas)) (zeroes GAS_BLOCK_SIZE).

(** ** Allocation *)

(** [for (i = 0; i < gas.bam_blk; i++)]; [n] is the value left by the last turn. *)
Fixpoint allocate_blk_loop (todo : nat) (i block : Z) (n : option Z) (blocks : Z) : M Z :=
  match todo with
  | O => lift n
  | S todo =>
      _ ← bc_read block;
      map ← bc_block block;
      '(n, map) ← lift (bitmap_alloc_region map BITS_PER_BLOCK 0 blocks);
      _ ← bc_put block map;
      if n =? INVALID_NO then allocate_blk_loop todo (i + 1) (block + 1) (Some n) blocks
      else
        off ← lift (int32 (i * BITS_PER_BLOCK));
        _ ← bc_write block false;
        mret (u64 (n + u64 off))
  end.

Definition allocate_blk (gas : filesys_param) (blocks : Z) : M Z :=
  n ← allocate_blk_loop (Z.to_nat (bam_blk gas)) 0 BAM_BLOCK_START None blocks;
  mret (u32 n).

Definition allocate_inode (gas : filesys_param) : M Z :=
  let b := s32 (IAM_BLOCK_START gas) in
  _ ← bc_read b;
  map ← bc_block b;
  '(n, map) ← lift (bitmap_alloc_region map BITS_PER_BLOCK GAS_ROOT_INO 1);
  _ ← bc_put b map;
  _ ← (if n =? INVALID_NO then mret tt else bc_write b false);
  mret (u32 n).

Definition free_inode (gas : filesys_param) (ino_id : Z) : M unit :=
  let b := s32 (IAM_BLOCK_START gas) in
  _ ← bc_read b;
  if INODES_PER_BLOCK <=? ino_id then mret tt
  else
    map ← bc_block b;
    map ← lift (bitmap_free_region map (s32 ino_id) 1);
    _ ← bc_put b map;
    bc_write b false.

(** [get_inode]: offset of the inode in the block [INODE_LIST_START], or NULL. *)
Definition get_inode (gas : filesys_param) (ino_id : Z) : M (option Z) :=
  _ ← bc_read (s32 (INODE_LIST_START gas));
  if INODES_PER_BLOCK <=? ino_id then mret None
  else mret (Some (DI.sizeof * ino_id)).

(** [ino->f] and [ino->f = v] for the inode at offset [ino]. *)
Definition ino_get (gas : filesys_param) (ino : Z) (f : field) : M Z :=
  blk ← bc_block (s32 (INODE_LIST_START gas));
  lift (f_get blk ino f).

Definition ino_set (gas : filesys_param) (ino : Z) (f : field) (v : Z) : M unit :=
  blk ← bc_block (s32 (INODE_LIST_START gas));
  blk ← lift (f_set blk ino f v);
  bc_put (s32 (INODE_LIST_START gas)) blk.

(** ** The root directory *)

Section env.
(** [getuid()], [getgid()] and [time(NULL)] *)
Context (getuid getgid time : Z).

Definition new_inode (gas : filesys_param) (mode byte_size : Z) : M Z :=
  let block_count := Z.quot (byte_size + GAS_BLOCK_SIZE - 1) GAS_BLOCK_SIZE in
  ino_id ← allocate_inode gas;
  if ino_id =? INVALID_NO then mret ino_id
  else
    ino ← get_inode gas ino_id;
    match ino with
    | None => exit 1
    | Some ino =>
        blk ← allocate_blk gas block_count;
        _ ← ino_set gas ino (DI.i_blkaddr 0) blk;
        b0 ← ino_get gas ino (DI.i_blkaddr 0);
        if b0 =? INVALID_NO then
          _ ← free_inode gas ino_id;
          mret INVALID_NO
        else
          _ ← ino_set gas ino DI.i_size 0;
          _ ← ino_set gas ino DI.i_nlink (if S_ISDIR mode then 2 else 1);
          _ ← ino_set gas ino DI.i_uid getuid;
          _ ← ino_set gas ino DI.i_gid getgid;
          _ ← ino_set gas ino DI.i_mode mode;
          _ ← ino_set gas ino DI.i_ctime time;
          ctime ← ino_get gas ino DI.i_ctime;
          _ ← ino_set gas ino DI.i_atime ctime;
          _ ← ino_set gas ino DI.i_mtime ctime;
          _ ← bc_write (s32 (INODE_LIST_START gas)) false;
          mret ino_id
    end.

Definition gas_add_dentry (gas : filesys_param) (ino : Z) (name : bytes) (new_ino : Z) : M unit :=
  i_size ← ino_get gas ino DI.i_size;
  if GAS_BLOCK_SIZE <=? i_size then
    _ ← bc_sync;
    exit 1
  else
    b0 ← ino_get gas ino (DI.i_blkaddr 0);
    let blk_id := u32 (b0 + i_size / GAS_BLOCK_SIZE) in
    let offset := i_size mod GAS_BLOCK_SIZE in
    _ ← bc_read (s32 blk_id);
    dp ← bc_block (s32 blk_id);
    dp ← lift (dirent_write dp offset name new_ino);
    _ ← bc_put (s32 blk_id) dp;
    i_size ← ino_get gas ino DI.i_size;
    _ ← ino_set gas ino DI.i_size (i_size + DE.sizeof);
    bc_write (s32 blk_id) false.

(** The names "." and "..". *)
Definition dot : bytes := [Byte.x2e].
Definition dotdot : bytes := [Byte.x2e; Byte.x2e].

Definition make_rootdir (gas : filesys_param) : M unit :=
  ino_id ← new_inode gas (Z.lor S_IFDIR 0x1ED) (64 * DE.sizeof);
  if ino_id =? INVALID_NO then
    _ ← bc_sync;
    exit 1
  else
    ino ← get_inode gas ino_id;
    match ino with
    | None => lift None
    | Some ino =>
        _ ← gas_add_dentry gas ino dot GAS_ROOT_INO;
        gas_add_dentry gas ino dotdot GAS_ROOT_INO
    end.

(** ** [main]: the parameters computed from the size of the image, then the steps *)

Definition mkfs_param (size : Z) : filesys_param :=
  let blk_cnt := u64 (Z.quot size GAS_BLOCK_SIZE) in
  let bam_blk := u64 (blk_cnt + BITS_PER_BLOCK - 1) / BITS_PER_BLOCK in
  let ino_blk := (blk_cnt / 4) / INODES_PER_BLOCK in
  let ino_cnt := u64 (ino_blk * INODES_PER_BLOCK) in
  let iam_blk := u64 (ino_cnt + BITS_PER_BLOCK - 1) / BITS_PER_BLOCK in
  let data_st := u64 (1 + bam_blk + iam_blk + ino_blk) in
  {| iam_blk := iam_blk; ino_blk := ino_blk; bam_blk := bam_blk;
     blk_cnt := blk_cnt; ino_cnt := ino_cnt; data_st := data_st |}.

Definition main (size : Z) : M unit :=
  let gas := mkfs_param size in
  _ ← init_super_block gas;
  _ ← init_block_alloc_map gas;
  _ ← init_inode_alloc_map gas;
  _ ← init_inode_list gas;
  _ ← make_rootdir gas;
  bc_sync.
End env.

(** ** The allocation maps *)

(** Block [j] (from 0) of an allocation map in which the objects below [pre] and
    those from [cnt] on are marked in use. *)
Definition alloc_map (pre cnt j : Z) (buf : bytes) : Prop :=
  blen buf = GAS_BLOCK_SIZE /\
  forall b, 0 <= b < BITS_PER_BLOCK ->
  bit buf b = (j * BITS_PER_BLOCK + b <? pre) || (cnt <=? j * BITS_PER_BLOCK + b).

Lemma alloc_map_block_spec nblk cnt i pre :
  1 <= i <= nblk -> 0 <= pre < 2 ^ 31 -> nblk < 2 ^ 31 ->
  (nblk - 1) * BITS_PER_BLOCK < cnt <= nblk * BITS_PER_BLOCK ->
  exists buf, alloc_map_block nblk cnt i pre = Some (buf, Z.max 0 (pre - BITS_PER_BLOCK)) /\
  alloc_map ((i - 1) * BITS_PER_BLOCK + pre) cnt (i - 1) buf.
Proof.
  unfold alloc_map, alloc_map_block.
  change BITS_PER_BLOCK with 32768. change GAS_BLOCK_SIZE with 4096. intros Hi Hpre Hn Hcnt.
  assert (Hfirst : exists buf,
    (if 32768 <? pre then Some (memset_buf Byte.xff 4096, pre - 32768)
     else if negb (pre =? 0)
          then map ← bitmap_set (memset_buf Byte.x00 4096) 0 pre; Some (map, 0)
          else Some (memset_buf Byte.x00 4096, pre)) = Some (buf, Z.max 0 (pre - 32768)) /\
    blen buf = 4096 /\ forall b, 0 <= b < 32768 -> bit buf b = (b <? pre)).
  { destruct (Z.ltb_spec 32768 pre).
    - eexists. split; [f_equal; f_equal; lia|]. split; [by apply blen_memset|].
      intros b Hb. rewrite bit_ones by lia. repeat cmp; done || lia.
    - destruct (Z.eqb_spec pre 0) as [->|]; cbn [negb].
      + eexists. split; [done|]. split; [by apply blen_memset|]. intros b Hb.
        rewrite (bit_zeroes 4096) by lia. cmp; done || lia.
      + destruct (bitmap_set_bits (memset_buf Byte.x00 4096) 0 pre) as (m & Hm & Hl & Hb).
        { unfold range_ok. rewrite blen_memset by lia. dlia. }
        exists m. rewrite Hm. cbn [mbind option_bind]. split; [f_equal; f_equal; lia|].
        split; [by rewrite Hl, blen_memset|]. intros b ?. rewrite Hb by lia.
        rewrite (bit_zeroes 4096) by lia. repeat cmp; done || lia. }
  destruct Hfirst as (buf & -> & Hl & Hb). cbn [mbind option_bind].
  destruct (Z.eqb_spec i nblk) as [->|].
  - rewrite (u64_small (nblk * 32768)) by lia. destruct (Z.eqb_spec cnt (nblk * 32768)); cbn [negb].
    + exists buf. split; [done|]. split; [done|]. intros b ?. rewrite Hb by lia.
      repeat cmp; done || lia.
    + rewrite u64_small, s32_small by lia.
      destruct (bitmap_set_bits buf (32768 - (nblk * 32768 - cnt)) (nblk * 32768 - cnt))
        as (m & Hm & Hl2 & Hb2). { unfold range_ok. rewrite Hl. dlia. }
      exists m. rewrite Hm. cbn [mbind option_bind]. split; [done|]. split; [lia|].
      intros b ?. rewrite Hb2, Hb by lia. repeat cmp; done || lia.
  - exists buf. split; [done|]. split; [done|]. intros b ?. rewrite Hb by lia.
    repeat cmp; done || nia.
Qed.

Lemma alloc_map_loop_spec todo nblk cnt i pre block s :
  1 <= i -> i + Z.of_nat todo = nblk + 1 -> 0 <= pre < 2 ^ 31 -> nblk < 2 ^ 31 ->
  0 <= block -> block + Z.of_nat todo <= 2 ^ 19 ->
  (0 < nblk -> (nblk - 1) * BITS_PER_BLOCK < cnt <= nblk * BITS_PER_BLOCK) ->
  exists d, alloc_map_loop todo nblk cnt i pre block s = Ret tt {| disk := d; bc_head := bc_head s |} /\
  (forall j, 0 <= j < Z.of_nat todo -> exists buf, d !! (block + j) = Some buf /\
     alloc_map ((i - 1) * BITS_PER_BLOCK + pre) cnt (i - 1 + j) buf) /\
  (forall b, ~ (block <= b < block + Z.of_nat todo) -> d !! b = disk s !! b).
Proof.
  revert i pre block s. induction todo as [|todo IH]; intros i pre block s Hi Ht Hpre Hn Hb0 Hb Hcnt.
  { exists (disk s). destruct s. split; [done|]. split; [lia|done]. }
  destruct (alloc_map_block_spec nblk cnt i pre) as (buf & Hbuf & Hm); [lia|lia|lia|apply Hcnt; lia|].
  simpl. rewrite M_bind_eq, (lift_Some _ _ _ Hbuf), M_bind_eq, write_block_ok by (split; lia).
  destruct (IH (i + 1) (Z.max 0 (pre - BITS_PER_BLOCK)) (block + 1)
    {| disk := <[block := buf]> (disk s); bc_head := bc_head s |})
    as (d & -> & Hd & Ho); try (unfold BITS_PER_BLOCK, GAS_BLOCK_SIZE in *; lia).
  exists d. split; [done|]. split.
  - intros j Hj. destruct (Z.eq_dec j 0) as [->|].
    + exists buf. rewrite Z.add_0_r, Ho by lia. split; [apply lookup_insert_eq|].
      by rewrite Z.add_0_r.
    + destruct (Hd (j - 1) ltac:(lia)) as (buf' & Hl & Hlen & Hbits).
      exists buf'. replace (block + j) with (block + 1 + (j - 1)) by lia. split; [done|].
      split; [done|]. intros b ?. rewrite Hbits by done.
      replace (i + 1 - 1 + (j - 1)) with (i - 1 + j) by lia. f_equal.
      unfold BITS_PER_BLOCK, GAS_BLOCK_SIZE in *. repeat cmp; done || lia.
  - intros b ?. rewrite Ho by lia. simpl. by rewrite lookup_insert_ne by lia.
Qed.

Lemma inode_list_loop_spec todo block buf s :
  0 <= block -> block + Z.of_nat todo <= 2 ^ 19 ->
  exists d, inode_list_loop todo block buf s = Ret tt {| disk := d; bc_head := bc_head s |} /\
  forall b, d !! b = if (block <=? b) && (b <? block + Z.of_nat todo) then Some buf else disk s !! b.
Proof.
  revert block s. induction todo as [|todo IH]; intros block s H0 Hb.
  { exists (disk s). destruct s. split; [done|]. intros b.
    destruct (_ && _) eqn:E; [bools; lia|done]. }
  simpl. rewrite M_bind_eq, write_block_ok by (split; lia).
  destruct (IH (block + 1) {| disk := <[block := buf]> (disk s); bc_head := bc_head s |})
    as (d & -> & Hd); [lia|lia|].
  exists d. split; [done|]. intros b. rewrite Hd. simpl.
  destruct (Z.eq_dec b block) as [->|].
  - rewrite lookup_insert_eq. repeat cmp; done || lia.
  - rewrite lookup_insert_ne by done. repeat cmp; done || lia.
Qed.

(** ** The parameters *)

(** Image sizes for which every block the maker touches is at an [int] offset. *)
Definition size_ok (size : Z) : Prop := 0 <= size < 2 ^ 38.

Lemma mkfs_param_facts size :
  size_ok size ->
  let gas := mkfs_param size in
  0 <= blk_cnt gas < 2 ^ 26 /\ blk_cnt gas = size / GAS_BLOCK_SIZE /\
  0 <= bam_blk gas <= 2 ^ 11 /\ 0 <= ino_blk gas <= 2 ^ 18 /\ 0 <= iam_blk gas <= 2 ^ 10 /\
  ino_cnt gas = 64 * ino_blk gas /\ 256 * ino_blk gas <= blk_cnt gas < 256 * (ino_blk gas + 1) /\
  data_st gas = 1 + bam_blk gas + iam_blk gas + ino_blk gas /\
  (bam_blk gas - 1) * BITS_PER_BLOCK < blk_cnt gas <= bam_blk gas * BITS_PER_BLOCK /\
  (iam_blk gas - 1) * BITS_PER_BLOCK < ino_cnt gas <= iam_blk gas * BITS_PER_BLOCK /\
  IAM_BLOCK_START gas = 1 + bam_blk gas /\
  INODE_LIST_START gas = 1 + bam_blk gas + iam_blk gas /\
  DATA_BLOCK_START gas = data_st gas.
Proof.
  unfold size_ok, mkfs_param, DATA_BLOCK_START, INODE_LIST_START, IAM_BLOCK_START,
    BAM_BLOCK_START, BITS_PER_BLOCK, INODES_PER_BLOCK, DI.sizeof, GAS_BLOCK_SIZE.
  intros Hs. simpl. change (8 * 4096) with 32768. change (4096 / 64) with 64.
  rewrite Z.quot_div_nonneg by lia. set (n := size / 4096).
  assert (Hn : 0 <= n < 2 ^ 26) by (unfold n; dlia). clearbody n. clear Hs size.
  rewrite (u64_small n), (u64_small (n + _ - _)) by lia.
  set (ib := n / 4 / 64). assert (Hib : 0 <= ib <= 2 ^ 18 /\ 256 * ib <= n < 256 * (ib + 1))
    by (unfold ib; dlia). clearbody ib.
  rewrite (u64_small (ib * 64)), (u64_small (ib * 64 + _ - _)) by lia.
  set (bb := (n + 32768 - 1) / 32768). set (mb := (ib * 64 + 32768 - 1) / 32768).
  assert (Hbb : 0 <= bb <= 2 ^ 11 /\ (bb - 1) * 32768 < n <= bb * 32768) by (unfold bb; dlia).
  assert (Hmb : 0 <= mb <= 2 ^ 10 /\ (mb - 1) * 32768 < ib * 64 <= mb * 32768) by (unfold mb; dlia).
  clearbody bb mb. rewrite (u64_small (1 + bb + mb + ib)), (u64_small (1 + bb)),
    (u64_small (1 + bb + mb)), (u64_small (1 + bb + mb + ib)) by lia. lia.
Qed.

(** ** Allocation on a freshly formatted map *)

(** In a map whose objects below [pre] and from [cnt] on are in use, the first free
    area of [nr] objects starts at [pre]. *)
Lemma alloc_region_fresh pre cnt start nr m :
  alloc_map pre cnt 0 m -> 0 <= start <= pre -> 0 < nr -> pre + nr <= cnt ->
  pre + nr <= BITS_PER_BLOCK ->
  exists m', bitmap_alloc_region m BITS_PER_BLOCK start nr = Some (pre, m') /\
             alloc_map (pre + nr) cnt 0 m'.
Proof.
  unfold alloc_map, BITS_PER_BLOCK, GAS_BLOCK_SIZE. change (8 * 4096) with 32768.
  intros [Hl Hb] Hst Hnr Hc Hbpb.
  assert (Hfree : area_free m pre nr).
  { intros i Hi. rewrite Hb by lia. repeat cmp; done || lia. }
  destruct (bitmap_alloc_region_cases m 32768 start nr)
    as [(pos & m' & -> & (Hp1 & Hp2 & Hf & Hmin) & Hl' & Hb')|[_ Hno]].
  { unfold alloc_ok. rewrite Hl. dlia. }
  - assert (pos = pre) as ->.
    { destruct (Z.lt_trichotomy pos pre) as [Hlt|[?|Hgt]]; [|done|].
      - specialize (Hf pos ltac:(lia)). rewrite Hb in Hf by lia. bools. lia.
      - exfalso. apply (Hmin pre ltac:(lia)). done. }
    exists m'. split; [done|]. split; [lia|]. intros b ?. rewrite Hb', Hb by lia.
    repeat cmp; done || lia.
  - exfalso. by apply (Hno pre ltac:(lia) ltac:(lia)).
Qed.

Lemma wp_allocate_inode gas s a m cnt :
  let b := s32 (IAM_BLOCK_START gas) in
  rep s a -> blk_ok b -> sv a !! b = Some m -> alloc_map 1 cnt 0 m -> 2 <= cnt ->
  wp (allocate_inode gas) s (fun n s' =>
    n = GAS_ROOT_INO /\ exists m', alloc_map 2 cnt 0 m' /\ rep s' (rmw b m' a)).
Proof.
  intros b Hr Hb Hm Hmap Hcnt. unfold allocate_inode. fold b.
  apply wp_bind. eapply wp_bc_read; [done|done|by eexists|]. intros s1 H1.
  apply wp_bind. eapply wp_bc_block; [done|sets|done|].
  destruct (alloc_region_fresh 1 cnt GAS_ROOT_INO 1 m) as (m' & Ha & Hm');
    unfold GAS_ROOT_INO, BITS_PER_BLOCK, GAS_BLOCK_SIZE in *; try lia; [done|].
  apply wp_bind. eapply wp_lift; [done|].
  apply wp_bind. eapply wp_bc_put; [done|sets|]. intros s2 H2.
  apply wp_bind. eapply wp_bc_write; [done|sets|]. intros s3 H3.
  apply wp_ret. split; [done|]. by exists m'.
Qed.

Lemma wp_allocate_blk gas s a m cnt blocks :
  rep s a -> 0 < bam_blk gas -> sv a !! BAM_BLOCK_START = Some m ->
  alloc_map (data_st gas) cnt 0 m -> 0 < data_st gas -> 0 < blocks ->
  data_st gas + blocks <= cnt -> data_st gas + blocks <= BITS_PER_BLOCK ->
  wp (allocate_blk gas blocks) s (fun n s' =>
    n = data_st gas /\ exists m', alloc_map (data_st gas + blocks) cnt 0 m' /\
    rep s' (rmw BAM_BLOCK_START m' a)).
Proof.
  intros Hr Hbam Hm Hmap Hd Hbl Hc Hbpb. unfold allocate_blk.
  destruct (Z.to_nat (bam_blk gas)) as [|todo] eqn:E; [lia|].
  apply wp_bind. cbn [allocate_blk_loop].
  apply wp_bind. eapply wp_bc_read; [done|unfold blk_ok, BAM_BLOCK_START; lia|by eexists|].
  intros s1 H1. apply wp_bind. eapply wp_bc_block; [done|sets|done|].
  destruct (alloc_region_fresh (data_st gas) cnt 0 blocks m) as (m' & Ha & Hm'); try lia; [done|].
  apply wp_bind. eapply wp_lift; [done|].
  apply wp_bind. eapply wp_bc_put; [done|sets|]. intros s2 H2.
  rewrite (proj2 (Z.eqb_neq _ _)) by (unfold INVALID_NO; lia).
  apply wp_bind. eapply wp_lift; [apply int32_Some; lia|].
  apply wp_bind. eapply wp_bc_write; [done|sets|]. intros s3 H3.
  unfold BITS_PER_BLOCK, GAS_BLOCK_SIZE in *.
  apply wp_ret, wp_ret. split; [|by exists m'].
  rewrite (u64_small (0 * _)), Z.add_0_r, u64_small, u32_small by lia. done.
Qed.

(** The fields [new_inode] leaves in the inode at offset [ino] of a block. *)
Definition inode_fields (blk : bytes) (ino mode nlink uid gid size now addr : Z) : Prop :=
  f_get blk ino DI.i_mode = Some (u16 mode) /\ f_get blk ino DI.i_nlink = Some nlink /\
  f_get blk ino DI.i_uid = Some (u32 uid) /\ f_get blk ino DI.i_gid = Some (u32 gid) /\
  f_get blk ino DI.i_size = Some size /\ f_get blk ino DI.i_atime = Some (u32 now) /\
  f_get blk ino DI.i_mtime = Some (u32 now) /\ f_get blk ino DI.i_ctime = Some (u32 now) /\
  f_get blk ino (DI.i_blkaddr 0) = Some addr.

(** Outside the 64 bytes of the inode at offset [ino], the two blocks agree. *)
Definition same_outside (ino : Z) (blk blk' : bytes) : Prop :=
  blen blk' = blen blk /\
  forall n off, off + Z.of_nat n <= ino \/ ino + DI.sizeof <= off ->
  load n blk' off = load n blk off.

Lemma same_outside_refl ino blk : same_outside ino blk blk.
Proof. done. Qed.

Lemma same_outside_f_set ino blk blk1 blk2 f v :
  same_outside ino blk blk1 -> f_set blk1 ino f v = Some blk2 ->
  0 <= f_off f -> f_off f + Z.of_nat (f_size f) <= DI.sizeof ->
  same_outside ino blk blk2.
Proof.
  intros [Hl Hs] Hf ? ?. split; [by rewrite (f_set_blen _ _ _ _ _ Hf)|].
  intros n off Ho. rewrite (load_store_other _ n _ _ off _ _ Hf) by lia. by apply Hs.
Qed.

(** Rewrite a field read through the chain of field writes in the context. *)
Ltac f_chain :=
  repeat match goal with
  | H : f_set _ _ ?f _ = Some ?m |- context [f_get ?m _ ?f] =>
      rewrite (f_get_set_same _ _ _ _ _ H)
  | H : f_set _ _ ?f _ = Some ?m |- context [f_get ?m _ ?g] =>
      rewrite (f_get_set_other _ _ _ _ g _ _ H) by (cbn [f_off f_size]; lia)
  end.

(** ** Writing an inode through the cache

    [poked b blk a a']: [a'] is [a] after writes through the pointer to block [b],
    which now holds [blk]; nothing has been marked dirty yet. *)
Definition poked (b : Z) (blk : bytes) (a a' : bstore) : Prop :=
  sv a' = <[b := blk]> (sv a) /\ s_cached a' = s_cached a /\ s_dirty a' = s_dirty a /\
  s_stale a' ⊆ {[b]} ∪ s_stale a /\ b ∈ s_cached a.

Lemma poked_start b blk a : sv a !! b = Some blk -> b ∈ s_cached a -> poked b blk a a.
Proof. intros ??. split_and!; try done; [by rewrite insert_id|sets]. Qed.

Lemma wp_ino_get gas ino f v s a0 a blk (Q : Z -> mkst -> Prop) :
  let b := s32 (INODE_LIST_START gas) in
  rep s a -> poked b blk a0 a -> f_get blk ino f = Some v -> Q v s ->
  wp (ino_get gas ino f) s Q.
Proof.
  intros b Hr (Hsv & Hc & _ & _ & Hb) Hg HQ. apply wp_bind.
  eapply wp_bc_block; [done|by rewrite Hc|rewrite Hsv; apply lookup_insert_eq|].
  by eapply wp_lift.
Qed.

Lemma wp_ino_set gas ino f v s a0 a blk (Q : unit -> mkst -> Prop) :
  let b := s32 (INODE_LIST_START gas) in
  rep s a -> poked b blk a0 a -> f_fits blk ino f ->
  (forall s' a' blk', rep s' a' -> poked b blk' a0 a' -> f_set blk ino f v = Some blk' ->
     blen blk' = blen blk -> Q tt s') ->
  wp (ino_set gas ino f v) s Q.
Proof.
  intros b Hr (Hsv & Hc & Hd & Hst & Hb) Hfit HQ.
  destruct (f_set_fits blk ino f v Hfit) as (blk' & Hset & Hlen). apply wp_bind.
  eapply wp_bc_block; [done|by rewrite Hc|rewrite Hsv; apply lookup_insert_eq|].
  apply wp_bind. eapply wp_lift; [done|].
  eapply wp_bc_put; [done|by rewrite Hc|]. intros s' Hr'.
  eapply HQ; [exact Hr'| |done|done]. split_and!; simpl; try done.
  - rewrite Hsv. apply insert_insert_eq.
  - clear - Hst. set_solver.
Qed.

(** Perform the next [ino_set]: the block is 4096 bytes long. *)
Ltac ino_step :=
  apply wp_bind;
  lazymatch goal with
  | Hr : rep ?s _, Hp : poked _ ?blk _ _, Hl : blen ?blk = 4096 |- wp (ino_set _ _ _ _) ?s _ =>
      eapply wp_ino_set; [exact Hr|exact Hp|unfold f_fits; rewrite Hl; simpl; lia|];
      clear Hr Hp;
      let s' := fresh "s" in let a' := fresh "a" in let b' := fresh "blk" in
      let R := fresh "Hr" in let P := fresh "Hp" in let F := fresh "Hf" in let L := fresh "Hl" in
      intros s' a' b' R P F L; rewrite Hl in L
  end.

Section rootdir.
Context (getuid getgid time : Z).

(** [new_inode] for a directory on a fresh image: inode 1, [blocks] blocks reserved
    at [data_st], the inode written in its slot. *)
Lemma wp_new_inode gas s a iam bam ino_blk0 mode byte_size :
  let bI := s32 (IAM_BLOCK_START gas) in
  let bN := s32 (INODE_LIST_START gas) in
  let blocks := Z.quot (byte_size + GAS_BLOCK_SIZE - 1) GAS_BLOCK_SIZE in
  rep s a -> settled a -> blk_ok bI -> blk_ok bN -> bI <> bN -> bI <> BAM_BLOCK_START ->
  bN <> BAM_BLOCK_START -> 0 < bam_blk gas ->
  sv a !! bI = Some iam -> alloc_map 1 (ino_cnt gas) 0 iam -> 2 <= ino_cnt gas ->
  sv a !! BAM_BLOCK_START = Some bam -> alloc_map (data_st gas) (blk_cnt gas) 0 bam ->
  0 < data_st gas < 2 ^ 32 -> 0 < blocks -> data_st gas + blocks <= blk_cnt gas ->
  data_st gas + blocks <= BITS_PER_BLOCK ->
  sv a !! bN = Some ino_blk0 -> blen ino_blk0 = 4096 -> S_ISDIR mode = true ->
  wp (new_inode getuid getgid time gas mode byte_size) s (fun n s' =>
    n = GAS_ROOT_INO /\ exists a' iam' bam' blk,
    rep s' a' /\ settled a' /\ bN ∈ s_cached a' /\ bN ∈ s_dirty a' /\
    alloc_map 2 (ino_cnt gas) 0 iam' /\ alloc_map (data_st gas + blocks) (blk_cnt gas) 0 bam' /\
    sv a' = <[bN := blk]> (<[BAM_BLOCK_START := bam']> (<[bI := iam']> (sv a))) /\
    inode_fields blk 64 mode 2 getuid getgid 0 time (data_st gas) /\
    (forall k, 1 <= k < 9 ->
       f_get blk 64 (DI.i_blkaddr k) = f_get ino_blk0 64 (DI.i_blkaddr k)) /\
    same_outside 64 ino_blk0 blk).
Proof.
  intros bI bN blocks Hr Hset HbI HbN HIN HI1 HN1 Hbam Hiam Hiamm Hcnt Hbm Hbmm Hd Hbl Hd1 Hd2
    Hino Hlen Hdir.
  unfold new_inode. fold bN blocks. apply wp_bind.
  eapply wp_mono; [by eapply wp_allocate_inode|]. intros n s1 (-> & iam' & Hiam' & Hr1).
  change (GAS_ROOT_INO =? INVALID_NO) with false. cbn [negb].
  unfold get_inode. fold bN. apply wp_bind, wp_bind.
  eapply wp_bc_read; [exact Hr1|done|simpl; rewrite lookup_insert_ne by done; by eexists|].
  intros s2 Hr2. change (INODES_PER_BLOCK <=? GAS_ROOT_INO) with false.
  cbn [negb]. apply wp_ret. change (DI.sizeof * GAS_ROOT_INO) with 64.
  apply wp_bind. eapply wp_mono; [eapply (wp_allocate_blk gas s2 _ bam (blk_cnt gas) blocks);
    [exact Hr2|done| |done|lia|done|done|done]|].
  { simpl. by rewrite lookup_insert_ne by done. }
  intros n s3 (-> & bam' & Hbam' & Hr3). set (a3 := rmw BAM_BLOCK_START bam' _) in Hr3.
  assert (Hp : poked bN ino_blk0 a3 a3).
  { apply poked_start; [|sets]. simpl. by rewrite !lookup_insert_ne by done. }
  assert (Hs3 : settled a3) by (apply settled_rmw; apply (settled_rmw bI iam' a Hset)).
  assert (Hc3 : bN ∈ s_cached a3) by sets.
  assert (Hsv3 : sv a3 = <[BAM_BLOCK_START := bam']> (<[bI := iam']> (sv a))) by done.
  clearbody a3. unfold DI.i_blkaddr, DI.i_size, DI.i_nlink, DI.i_uid, DI.i_gid, DI.i_mode,
    DI.i_ctime, DI.i_atime, DI.i_mtime in *. do 1 ino_step.
  apply wp_bind. eapply wp_ino_get; [done|done|f_chain; reflexivity|].
  rewrite Z.mod_small by (simpl; lia). rewrite (proj2 (Z.eqb_neq _ _)) by (unfold INVALID_NO; lia).
  rewrite Hdir. do 6 ino_step.
  apply wp_bind. eapply wp_ino_get; [done|done|f_chain; reflexivity|]. do 2 ino_step.
  match goal with H : poked _ ?b _ ?a' |- _ => set (blkF := b) in *; destruct H as (Hsv & Hc & Hdd & Hst & _) end.
  apply wp_bind. eapply wp_bc_write; [done|by rewrite Hc|]. intros sF HrF.
  apply wp_ret. split; [done|]. eexists _, iam', bam', blkF. split; [exact HrF|]. simpl.
  split_and!; try done.
  - unfold settled in *. simpl. rewrite Hdd. clear - Hst Hs3. set_solver.
  - by rewrite Hc.
  - clear. set_solver.
  - by rewrite Hsv, Hsv3.
  - unfold inode_fields, DI.i_blkaddr, DI.i_size, DI.i_nlink, DI.i_uid, DI.i_gid, DI.i_mode,
      DI.i_ctime, DI.i_atime, DI.i_mtime, u16, u32. subst blkF. split_and!; f_chain; simpl;
      f_equal; rewrite ?Z.mod_mod by lia; try done; apply Z.mod_small; lia.
  - intros k Hk. unfold DI.i_blkaddr. subst blkF. by f_chain.
  - subst blkF. repeat (eapply same_outside_f_set; [|eassumption|vm_compute; congruence..]).
    apply same_outside_refl.
Qed.

(** [gas_add_dentry] on an inode whose directory block is [D]. *)
Lemma wp_gas_add_dentry gas s a ino name new_ino blk dir sz D :
  let bN := s32 (INODE_LIST_START gas) in
  rep s a -> settled a -> bN ∈ s_cached a -> bN ∈ s_dirty a ->
  sv a !! bN = Some blk -> sv a !! D = Some dir -> D <> bN -> blk_ok D -> blen dir = 4096 ->
  f_fits blk ino DI.i_size -> f_get blk ino DI.i_size = Some sz ->
  f_get blk ino (DI.i_blkaddr 0) = Some D -> 0 <= sz -> sz + DE.sizeof <= GAS_BLOCK_SIZE ->
  wp (gas_add_dentry gas ino name new_ino) s (fun _ s' => exists a' blk' dir',
    rep s' a' /\ settled a' /\ bN ∈ s_cached a' /\ bN ∈ s_dirty a' /\
    sv a' = <[bN := blk']> (<[D := dir']> (sv a)) /\
    f_set blk ino DI.i_size (sz + DE.sizeof) = Some blk' /\
    dirent_write dir sz name new_ino = Some dir').
Proof.
  intros bN Hr Hset HcN HdN HblkN HdirD HDN HDok Hlen Hfit Hsz HD Hsz0 Hsz1.
  unfold gas_add_dentry. assert (HDe := HDok). unfold blk_ok, DE.sizeof, GAS_BLOCK_SIZE in *.
  assert (Hp0 : poked bN blk a a) by (by apply poked_start).
  apply wp_bind. eapply wp_ino_get; [done|exact Hp0|done|].
  rewrite (proj2 (Z.leb_gt _ _)) by lia.
  apply wp_bind. eapply wp_ino_get; [done|exact Hp0|done|].
  replace (u32 (D + sz / 4096)) with D by (rewrite Z.div_small, Z.add_0_r, u32_small by lia; lia).
  replace (s32 D) with D by (rewrite s32_small; lia). rewrite (Z.mod_small sz) by lia.
  apply wp_bind. eapply wp_bc_read; [exact Hr|done|by eexists|]. intros s1 Hr1.
  apply wp_bind. eapply wp_bc_block; [exact Hr1|sets|done|].
  destruct (dirent_write_fits dir sz name new_ino) as [dir' Hw]; [done|by rewrite Hlen|].
  apply wp_bind. eapply wp_lift; [exact Hw|].
  apply wp_bind. eapply wp_bc_put; [exact Hr1|sets|]. intros s2 Hr2.
  set (a2 := store_put D dir' _) in Hr2.
  assert (Hp2 : poked bN blk a2 a2).
  { apply poked_start; [|by apply elem_of_union_r]. simpl. by rewrite lookup_insert_ne by done. }
  apply wp_bind. eapply wp_ino_get; [exact Hr2|exact Hp2|done|].
  apply wp_bind. eapply wp_ino_set; [exact Hr2|exact Hp2|done|].
  intros s3 a3 blk' Hr3 (Hsv3 & Hc3 & Hd3 & Hst3 & Hc2) Hf Hl.
  eapply wp_bc_write; [exact Hr3|rewrite Hc3; sets|]. intros s4 Hr4.
  eexists _, blk', dir'. split; [exact Hr4|]. unfold settled in *. simpl in *.
  rewrite Hc3, Hd3, Hsv3. split_and!; try done.
  - clear - Hst3 Hset HdN. set_solver.
  - by apply elem_of_union_r.
Qed.

(** What [make_rootdir] leaves: the root inode in slot 1 of the first inode block,
    its directory block with the entries "." and "..". *)
Definition root_inode (blk : bytes) (uid gid now addr : Z) : Prop :=
  blen blk = 4096 /\
  inode_fields blk 64 (Z.lor S_IFDIR 0x1ED) 2 uid gid (2 * DE.sizeof) now addr /\
  (forall k, 1 <= k < 9 -> f_get blk 64 (DI.i_blkaddr k) = Some 0) /\
  same_outside 64 (zeroes 4096) blk.

Definition root_dir (dir : bytes) : Prop :=
  blen dir = 4096 /\ dirent_at dir 0 dot GAS_ROOT_INO /\
  dirent_at dir DE.sizeof dotdot GAS_ROOT_INO.

Lemma inode_fields_set_size blk mode nlink uid gid size now addr size' blk' :
  inode_fields blk 64 mode nlink uid gid size now addr -> 0 <= size' < 2 ^ 32 ->
  f_set blk 64 DI.i_size size' = Some blk' ->
  inode_fields blk' 64 mode nlink uid gid size' now addr /\
  (forall k, 0 <= k -> f_get blk' 64 (DI.i_blkaddr k) = f_get blk 64 (DI.i_blkaddr k)).
Proof.
  intros (H1 & H2 & H3 & H4 & H5 & H6 & H7 & H8 & H9) Hs Hf. split.
  - unfold inode_fields. rewrite (f_get_set_same _ _ _ _ _ Hf).
    rewrite Z.mod_small by (simpl; lia).
    rewrite !(f_get_set_other _ _ _ _ _ _ _ Hf) by (simpl; lia). done.
  - intros k Hk. apply (f_get_set_other _ _ _ _ _ _ _ Hf).
    unfold DI.i_blkaddr, DI.i_size. cbn [f_off f_size]. lia.
Qed.

Lemma wp_make_rootdir gas s a iam bam dir :
  let bI := s32 (IAM_BLOCK_START gas) in
  let bN := s32 (INODE_LIST_START gas) in
  rep s a -> settled a -> blk_ok bI -> blk_ok bN -> bI <> bN -> bI <> BAM_BLOCK_START ->
  bN <> BAM_BLOCK_START -> 0 < bam_blk gas ->
  sv a !! bI = Some iam -> alloc_map 1 (ino_cnt gas) 0 iam -> 2 <= ino_cnt gas ->
  sv a !! BAM_BLOCK_START = Some bam -> alloc_map (data_st gas) (blk_cnt gas) 0 bam ->
  blk_ok (data_st gas) -> data_st gas <> bI -> data_st gas <> bN ->
  1 < data_st gas -> data_st gas + 5 <= blk_cnt gas ->
  data_st gas + 5 <= BITS_PER_BLOCK ->
  sv a !! bN = Some (zeroes 4096) -> sv a !! data_st gas = Some dir -> blen dir = 4096 ->
  wp (make_rootdir getuid getgid time gas) s (fun _ s' => exists a' iam' bam' blk dir',
    rep s' a' /\ settled a' /\
    alloc_map 2 (ino_cnt gas) 0 iam' /\ alloc_map (data_st gas + 5) (blk_cnt gas) 0 bam' /\
    root_inode blk getuid getgid time (data_st gas) /\ root_dir dir' /\
    sv a' = <[bN := blk]> (<[data_st gas := dir']>
              (<[BAM_BLOCK_START := bam']> (<[bI := iam']> (sv a))))).
Proof.
  intros bI bN Hr Hset HbI HbN HIN HI1 HN1 Hbam Hiam Hiamm Hcnt Hbm Hbmm HD HDI HDN HD1 Hd1 Hd2
    Hino Hdir Hlen.
  unfold make_rootdir. apply wp_bind. assert (HD' := HD). unfold blk_ok in HD'.
  assert (Hz : blen (zeroes 4096) = 4096) by (apply blen_zeroes; lia).
  assert (Hq : Z.quot (64 * DE.sizeof + GAS_BLOCK_SIZE - 1) GAS_BLOCK_SIZE = 5) by done.
  eapply wp_mono; [eapply (wp_new_inode gas s a iam bam (zeroes 4096));
    rewrite ?Hq; first [assumption | lia | reflexivity]|].
  fold bI bN. rewrite Hq.
  intros n s1 (-> & a1 & iam' & bam' & blk & Hr1 & Hs1 & Hc1 & Hd1' & Hiam' & Hbam' & Hsv1 &
    Hfields & Hblk0 & Hout).
  assert (HlenB : blen blk = 4096) by (rewrite (proj1 Hout); exact Hz).
  change (GAS_ROOT_INO =? INVALID_NO) with false. cbn [negb].
  unfold get_inode. fold bN. apply wp_bind, wp_bind.
  eapply wp_bc_read; [exact Hr1|done|rewrite Hsv1, lookup_insert_eq; by eexists|].
  intros s2 Hr2. change (INODES_PER_BLOCK <=? GAS_ROOT_INO) with false. apply wp_ret.
  change (DI.sizeof * GAS_ROOT_INO) with 64. set (a2 := store_read bN a1) in Hr2.
  assert (Hsv2 : sv a2 = sv a1) by done.
  assert (Hc2 : bN ∈ s_cached a2) by sets. assert (Hd2' : bN ∈ s_dirty a2) by done.
  assert (Hs2 : settled a2) by done. clearbody a2. cbn [negb].
  assert (HF := Hfields). destruct HF as (_ & _ & _ & _ & F5 & _ & _ & _ & F9).
  (* "." *)
  apply wp_bind. eapply wp_mono; [eapply (wp_gas_add_dentry gas s2 a2 64 dot GAS_ROOT_INO blk dir 0
    (data_st gas)); first [assumption | unfold DE.sizeof, GAS_BLOCK_SIZE; lia | idtac]|].
  { by rewrite Hsv2, Hsv1, lookup_insert_eq. }
  { by rewrite Hsv2, Hsv1, !lookup_insert_ne by (done || unfold BAM_BLOCK_START; lia). }
  { unfold f_fits. rewrite HlenB. simpl. lia. }
  intros _ s3 (a3 & blk3 & dir3 & Hr3 & Hs3 & Hc3 & Hd3 & Hsv3 & Hset3 & Hw3).
  destruct (inode_fields_set_size _ _ _ _ _ _ _ _ (0 + DE.sizeof) _ Hfields
    ltac:(unfold DE.sizeof; lia) Hset3) as [Hfields3 Hk3].
  assert (HlenB3 : blen blk3 = 4096) by (by rewrite (f_set_blen _ _ _ _ _ Hset3)).
  assert (HlenD3 : blen dir3 = 4096) by (by rewrite (dirent_write_blen _ _ _ _ _ Hw3)).
  (* ".." *)
  eapply wp_mono; [eapply (wp_gas_add_dentry gas s3 a3 64 dotdot GAS_ROOT_INO blk3 dir3 (0 + DE.sizeof)
    (data_st gas)); first [assumption | unfold DE.sizeof, GAS_BLOCK_SIZE; lia | idtac]|].
  { by rewrite Hsv3, lookup_insert_eq. }
  { by rewrite Hsv3, lookup_insert_ne, lookup_insert_eq by done. }
  { unfold f_fits. rewrite HlenB3. simpl. lia. }
  { apply Hfields3. }
  { rewrite Hk3 by lia. apply Hfields. }
  intros _ s4 (a4 & blk4 & dir4 & Hr4 & Hs4 & Hc4 & Hd4 & Hsv4 & Hset4 & Hw4).
  destruct (inode_fields_set_size _ _ _ _ _ _ _ _ (0 + DE.sizeof + DE.sizeof) _ Hfields3
    ltac:(unfold DE.sizeof; lia) Hset4) as [Hfields4 Hk4].
  exists a4, iam', bam', blk4, dir4. split_and!; try assumption.
  - split; [by rewrite (f_set_blen _ _ _ _ _ Hset4)|]. split; [done|]. split.
    + intros k Hk. rewrite Hk4, Hk3, Hblk0 by lia. apply load_zeroes; simpl; lia.
    + eapply same_outside_f_set; [|exact Hset4|simpl; lia|vm_compute; congruence].
      eapply same_outside_f_set; [|exact Hset3|simpl; lia|vm_compute; congruence]. done.
  - split; [by rewrite (dirent_write_blen _ _ _ _ _ Hw4)|]. split.
    + eapply dirent_write_other; [exact Hw4|done|left; vm_compute; congruence|].
      by apply (dirent_write_at _ _ _ _ _ Hw3).
    + by apply (dirent_write_at _ _ _ _ _ Hw4).
  - rewrite Hsv4, Hsv3, Hsv2, Hsv1. fold bN. apply map_eq. intros b.
    destruct (decide (b = bN)) as [->|]; [by rewrite !lookup_insert_eq|].
    rewrite !(lookup_insert_ne _ bN) by done.
    destruct (decide (b = data_st gas)) as [->|]; [by rewrite !lookup_insert_eq|].
    repeat first [rewrite (lookup_insert_ne _ (data_st gas)) by done
                 |rewrite (lookup_insert_ne _ bN) by done]. done.
Qed.

(** ** The whole format *)

(** Number of blocks reserved for the root directory. *)
Definition root_blocks : Z := 5.

Definition super_fields (sb : bytes) (gas : filesys_param) : Prop :=
  blen sb = GAS_BLOCK_SIZE /\
  f_get sb 0 SB.s_magic = Some MAGIC_NUMBER /\
  f_get sb 0 SB.s_blocksize = Some GAS_BLOCK_SIZE /\
  f_get sb 0 SB.s_bam_blocks = Some (bam_blk gas) /\
  f_get sb 0 SB.s_iam_blocks = Some (iam_blk gas) /\
  f_get sb 0 SB.s_inode_blocks = Some (ino_blk gas) /\
  f_get sb 0 SB.s_nblocks = Some (blk_cnt gas) /\
  f_get sb 0 SB.s_ninodes = Some (ino_cnt gas).

(** A formatted image: the state of every block [main] is responsible for. *)
Record formatted (gas : filesys_param) (d0 d : gmap Z bytes) : Prop := {
  fmt_super : exists sb, d !! SUPER_BLOCK_NO = Some sb /\ super_fields sb gas;
  fmt_bam : forall j, 0 <= j < bam_blk gas ->
    exists m, d !! (BAM_BLOCK_START + j) = Some m /\
              alloc_map (data_st gas + root_blocks) (blk_cnt gas) j m;
  fmt_iam : forall j, 0 <= j < iam_blk gas ->
    exists m, d !! (IAM_BLOCK_START gas + j) = Some m /\ alloc_map 2 (ino_cnt gas) j m;
  fmt_root : exists blk, d !! INODE_LIST_START gas = Some blk /\
    root_inode blk getuid getgid time (data_st gas);
  fmt_inodes : forall j, 1 <= j < ino_blk gas ->
    d !! (INODE_LIST_START gas + j) = Some (zeroes GAS_BLOCK_SIZE);
  fmt_dir : exists dir, d !! data_st gas = Some dir /\ root_dir dir;
  fmt_rest : forall b, data_st gas < b -> d !! b = d0 !! b }.

(** The sizes [main] can format: at least one block of inodes, and a root directory
    whose blocks are covered by the first block of the allocation map. *)
Definition main_size_ok (size : Z) : Prop :=
  256 * GAS_BLOCK_SIZE <= size < 2 ^ 34.

Lemma wp_init_super_block gas s :
  0 <= bam_blk gas < 2 ^ 32 -> 0 <= iam_blk gas < 2 ^ 32 -> 0 <= ino_blk gas < 2 ^ 32 ->
  0 <= blk_cnt gas < 2 ^ 32 -> 0 <= ino_cnt gas < 2 ^ 32 ->
  wp (init_super_block gas) s (fun _ s' => exists sb, super_fields sb gas /\
    s' = {| disk := <[SUPER_BLOCK_NO := sb]> (disk s); bc_head := bc_head s |}).
Proof.
  intros H1 H2 H3 H4 H5. unfold init_super_block.
  assert (Hz : blen (zeroes GAS_BLOCK_SIZE) = GAS_BLOCK_SIZE)
    by (apply blen_zeroes; unfold GAS_BLOCK_SIZE; lia).
  generalize dependent (zeroes GAS_BLOCK_SIZE). intros b0 Hz.
  assert (Hstep : forall b f v Q, blen b = GAS_BLOCK_SIZE ->
    0 <= f_off f /\ f_off f + Z.of_nat (f_size f) <= 28 ->
    (forall b', blen b' = GAS_BLOCK_SIZE -> f_set b 0 f v = Some b' -> Q b' s) ->
    wp (lift (f_set b 0 f v)) s Q).
  { intros b f v Q Hb [? ?] HQ. destruct (f_set_fits b 0 f v) as (b' & E & L).
    - unfold f_fits. rewrite Hb. unfold GAS_BLOCK_SIZE. lia.
    - eapply wp_lift; [exact E|]. apply HQ; congruence. }
  do 7 (apply wp_bind; apply Hstep; [assumption|vm_compute; split; congruence|];
        let b := fresh "b" in let L := fresh "L" in let F := fresh "F" in intros b L F).
  eapply wp_of_Ret; [apply write_block_ok; unfold blk_ok, SUPER_BLOCK_NO; lia|].
  eexists. split; [|done]. unfold super_fields.
  unfold SB.s_magic, SB.s_blocksize, SB.s_bam_blocks, SB.s_iam_blocks, SB.s_inode_blocks,
    SB.s_nblocks, SB.s_ninodes in *.
  split_and!; [done|f_chain..]; f_equal; apply Z.mod_small; simpl; try lia;
    unfold MAGIC_NUMBER, GAS_BLOCK_SIZE; lia.
Qed.


(** The map blocks written by [init_block_alloc_map] or [init_inode_alloc_map] agree
    with the layout once the first objects are taken: in every block but the first,
    nothing is below the first [BITS_PER_BLOCK] objects. *)
Lemma alloc_map_shift pre pre' cnt j m :
  1 <= j -> pre <= BITS_PER_BLOCK -> pre' <= BITS_PER_BLOCK ->
  alloc_map pre cnt j m -> alloc_map pre' cnt j m.
Proof.
  intros Hj H1 H2 [Hl Hb]. split; [done|]. intros b Hb'. rewrite Hb by done.
  unfold BITS_PER_BLOCK, GAS_BLOCK_SIZE in *. repeat cmp; done || lia.
Qed.

Lemma init_block_alloc_map_run gas s :
  bam_blk gas < 2 ^ 18 -> 0 <= bam_blk gas -> 0 <= data_st gas < 2 ^ 31 ->
  (bam_blk gas - 1) * BITS_PER_BLOCK < blk_cnt gas <= bam_blk gas * BITS_PER_BLOCK ->
  exists d, init_block_alloc_map gas s = Ret tt {| disk := d; bc_head := bc_head s |} /\
  (forall j, 0 <= j < bam_blk gas -> exists m, d !! (BAM_BLOCK_START + j) = Some m /\
     alloc_map (data_st gas) (blk_cnt gas) j m) /\
  (forall b, ~ (BAM_BLOCK_START <= b < BAM_BLOCK_START + bam_blk gas) -> d !! b = disk s !! b).
Proof.
  intros Hb Hb0 Hd Hc. unfold init_block_alloc_map. rewrite s32_small by lia.
  destruct (alloc_map_loop_spec (Z.to_nat (bam_blk gas)) (bam_blk gas) (blk_cnt gas) 1
    (data_st gas) BAM_BLOCK_START s) as (d & -> & Hm & Ho);
    unfold BAM_BLOCK_START in *; try lia.
  exists d. rewrite Z2Nat.id in * by done. split; [done|]. split; [|done]. intros j Hj.
  destruct (Hm j Hj) as (m & -> & Hm'). exists m. split; [done|].
  by replace (1 - 1 + j) with j in Hm' by lia.
Qed.

Lemma init_inode_alloc_map_run gas s :
  0 <= iam_blk gas < 2 ^ 17 -> 0 <= IAM_BLOCK_START gas < 2 ^ 17 ->
  (iam_blk gas - 1) * BITS_PER_BLOCK < ino_cnt gas <= iam_blk gas * BITS_PER_BLOCK ->
  exists d, init_inode_alloc_map gas s = Ret tt {| disk := d; bc_head := bc_head s |} /\
  (forall j, 0 <= j < iam_blk gas -> exists m, d !! (IAM_BLOCK_START gas + j) = Some m /\
     alloc_map 1 (ino_cnt gas) j m) /\
  (forall b, ~ (IAM_BLOCK_START gas <= b < IAM_BLOCK_START gas + iam_blk gas) ->
     d !! b = disk s !! b).
Proof.
  intros Hb Hi Hc. unfold init_inode_alloc_map. rewrite s32_small by lia.
  destruct (alloc_map_loop_spec (Z.to_nat (iam_blk gas)) (iam_blk gas) (ino_cnt gas) 1
    1 (IAM_BLOCK_START gas) s) as (d & -> & Hm & Ho); try lia.
  exists d. rewrite Z2Nat.id in * by lia. split; [done|]. split; [|done]. intros j Hj.
  destruct (Hm j Hj) as (m & -> & Hm'). exists m. split; [done|].
  by replace (1 - 1 + j) with j in Hm' by lia.
Qed.

(** The numeric facts about a size [main] can format. *)
Lemma main_size_facts size :
  main_size_ok size ->
  let gas := mkfs_param size in
  1 <= ino_blk gas <= 2 ^ 14 /\ 1 <= bam_blk gas <= 2 ^ 7 /\ 1 <= iam_blk gas <= 2 ^ 5 /\
  256 <= blk_cnt gas < 2 ^ 22 /\ ino_cnt gas = 64 * ino_blk gas /\
  blk_cnt gas * GAS_BLOCK_SIZE <= size /\
  IAM_BLOCK_START gas = 1 + bam_blk gas /\
  INODE_LIST_START gas = 1 + bam_blk gas + iam_blk gas /\
  data_st gas = 1 + bam_blk gas + iam_blk gas + ino_blk gas /\
  data_st gas + root_blocks <= blk_cnt gas /\ data_st gas + root_blocks <= BITS_PER_BLOCK /\
  (bam_blk gas - 1) * BITS_PER_BLOCK < blk_cnt gas <= bam_blk gas * BITS_PER_BLOCK /\
  (iam_blk gas - 1) * BITS_PER_BLOCK < ino_cnt gas <= iam_blk gas * BITS_PER_BLOCK.
Proof.
  intros Hs gas. unfold main_size_ok in Hs.
  destruct (mkfs_param_facts size) as (H1 & H2 & H3 & H4 & H5 & H6 & H7 & H8 & H9 & H10 & H11 & H12 & _);
    [unfold size_ok; unfold GAS_BLOCK_SIZE in *; lia|].
  fold gas in H1, H2, H3, H4, H5, H6, H7, H8, H9, H10, H11, H12. clearbody gas.
  unfold root_blocks, BITS_PER_BLOCK, GAS_BLOCK_SIZE in *.
  assert (256 <= blk_cnt gas < 2 ^ 22 /\ blk_cnt gas * 4096 <= size) as [? ?] by dlia.
  clear H2. lia.
Qed.

(** The image after the four [init_*] steps, before the root directory. *)
Record metadata (gas : filesys_param) (d0 d : gmap Z bytes) : Prop := {
  md_super : exists sb, d !! SUPER_BLOCK_NO = Some sb /\ super_fields sb gas;
  md_bam : forall j, 0 <= j < bam_blk gas -> exists m, d !! (1 + j) = Some m /\
    alloc_map (data_st gas) (blk_cnt gas) j m;
  md_iam : forall j, 0 <= j < iam_blk gas -> exists m, d !! (IAM_BLOCK_START gas + j) = Some m /\
    alloc_map 1 (ino_cnt gas) j m;
  md_inodes : forall j, 0 <= j < ino_blk gas ->
    d !! (INODE_LIST_START gas + j) = Some (zeroes GAS_BLOCK_SIZE);
  md_rest : forall b, data_st gas <= b -> d !! b = d0 !! b }.

Definition init_metadata (gas : filesys_param) : M unit :=
  _ ← init_super_block gas;
  _ ← init_block_alloc_map gas;
  _ ← init_inode_alloc_map gas;
  init_inode_list gas.

Lemma init_metadata_run size d0 :
  main_size_ok size ->
  let gas := mkfs_param size in
  exists d, init_metadata gas {| disk := d0; bc_head := [] |}
              = Ret tt {| disk := d; bc_head := [] |} /\ metadata gas d0 d.
Proof.
  intros Hsz. assert (HF := main_size_facts size Hsz). cbv zeta in *.
  set (gas := mkfs_param size) in *. clearbody gas. clear Hsz.
  destruct HF as (Hino & Hbam & Hiam & Hblk & Hicnt & _ & EI & EN & ED & _ & _ & Hb1 & Hb2).
  unfold init_metadata. rewrite M_bind_eq.
  destruct (wp_Ret _ _ _ (wp_init_super_block gas {| disk := d0; bc_head := [] |}
    ltac:(lia) ltac:(lia) ltac:(lia) ltac:(lia) ltac:(lia))) as (? & s1 & -> & sb & Hsb & ->).
  cbn [disk bc_head]. rewrite M_bind_eq.
  destruct (init_block_alloc_map_run gas {| disk := <[SUPER_BLOCK_NO := sb]> d0; bc_head := [] |})
    as (d2 & -> & Hm2 & Ho2); [lia|lia|lia|done|]. cbn [disk bc_head] in *. rewrite M_bind_eq.
  destruct (init_inode_alloc_map_run gas {| disk := d2; bc_head := [] |})
    as (d3 & -> & Hm3 & Ho3); [lia|lia|done|]. cbn [disk bc_head] in *.
  unfold init_inode_list.
  destruct (inode_list_loop_spec (Z.to_nat (ino_blk gas)) (s32 (INODE_LIST_START gas))
    (zeroes GAS_BLOCK_SIZE) {| disk := d3; bc_head := [] |}) as (d4 & -> & Hm4);
    [rewrite s32_small; lia|rewrite s32_small; lia|]. cbn [disk bc_head] in *.
  rewrite s32_small, Z2Nat.id in Hm4 by lia.
  assert (Hlow : forall b, b < INODE_LIST_START gas -> d4 !! b = d3 !! b).
  { intros b Hb. by rewrite Hm4, (proj2 (Z.leb_gt _ _)) by lia. }
  unfold BAM_BLOCK_START, SUPER_BLOCK_NO in *. exists d4. split; [done|]. split; unfold SUPER_BLOCK_NO.
  - exists sb. rewrite Hlow, Ho3, Ho2 by lia. by rewrite lookup_insert_eq.
  - intros j Hj. rewrite Hlow, Ho3 by lia. by apply Hm2.
  - intros j Hj. rewrite Hlow by lia. by apply Hm3.
  - intros j Hj. by rewrite Hm4, (proj2 (Z.leb_le _ _)), (proj2 (Z.ltb_lt _ _)) by lia.
  - intros b Hb. rewrite Hm4, (proj2 (Z.ltb_ge _ _)), andb_false_r by lia.
    rewrite Ho3, Ho2 by lia. by rewrite lookup_insert_ne by lia.
Qed.

(** The root directory on top of the metadata is a formatted image. *)
Lemma formatted_of_metadata size d0 d iam' bam' blk' dir' :
  main_size_ok size ->
  let gas := mkfs_param size in
  metadata gas d0 d -> alloc_map 2 (ino_cnt gas) 0 iam' ->
  alloc_map (data_st gas + root_blocks) (blk_cnt gas) 0 bam' ->
  root_inode blk' getuid getgid time (data_st gas) -> root_dir dir' ->
  formatted gas d0 (<[INODE_LIST_START gas := blk']> (<[data_st gas := dir']>
    (<[BAM_BLOCK_START := bam']> (<[IAM_BLOCK_START gas := iam']> d)))).
Proof.
  intros Hsz gas [Hsb Hbm Him Hin Hr] Hiam Hbam Hblk Hdir.
  destruct (main_size_facts size Hsz) as (H1 & H2 & H3 & H4 & H5 & _ & H6 & H7 & H8 & H9 & H10 & _).
  fold gas in H1, H2, H3, H4, H5, H6, H7, H8, H9, H10. clearbody gas.
  unfold root_blocks, BITS_PER_BLOCK, GAS_BLOCK_SIZE in H10.
  split; unfold SUPER_BLOCK_NO, BAM_BLOCK_START in *.
  - by rewrite !lookup_insert_ne by lia.
  - intros j Hj. destruct (Z.eq_dec j 0) as [->|].
    + exists bam'. rewrite !(lookup_insert_ne _ _ (1 + 0)) by lia. by rewrite lookup_insert_eq.
    + rewrite !lookup_insert_ne by lia. destruct (Hbm j Hj) as (m & -> & Hm). exists m.
      split; [done|]. apply (alloc_map_shift (data_st gas)); [lia| | |done];
        unfold root_blocks, BITS_PER_BLOCK, GAS_BLOCK_SIZE; lia.
  - intros j Hj. rewrite (lookup_insert_ne _ (INODE_LIST_START gas)),
      (lookup_insert_ne _ (data_st gas)), (lookup_insert_ne _ 1) by lia.
    destruct (Z.eq_dec j 0) as [->|].
    + exists iam'. by rewrite Z.add_0_r, lookup_insert_eq.
    + rewrite lookup_insert_ne by lia. destruct (Him j Hj) as (m & -> & Hm). exists m.
      split; [done|]. apply (alloc_map_shift 1); unfold BITS_PER_BLOCK, GAS_BLOCK_SIZE; done || lia.
  - exists blk'. by rewrite lookup_insert_eq.
  - intros j Hj. rewrite !lookup_insert_ne by lia. by apply Hin; lia.
  - exists dir'. by rewrite lookup_insert_ne, lookup_insert_eq by lia.
  - intros b Hb. rewrite !lookup_insert_ne by lia. apply Hr. lia.
Qed.

Lemma main_run size d0 :
  main_size_ok size ->
  (forall b, 0 <= b < blk_cnt (mkfs_param size) ->
     exists buf, d0 !! b = Some buf /\ blen buf = GAS_BLOCK_SIZE) ->
  exists d, main getuid getgid time size {| disk := d0; bc_head := [] |}
              = Ret tt {| disk := d; bc_head := [] |} /\
  formatted (mkfs_param size) d0 d.
Proof.
  intros Hsz Himg. destruct (init_metadata_run size d0 Hsz) as (d4 & Hrun & Hmd).
  assert (Hfmt := fun iam' bam' blk' dir' =>
    formatted_of_metadata size d0 d4 iam' bam' blk' dir' Hsz Hmd).
  destruct (main_size_facts size Hsz) as (H1 & H2 & H3 & H4 & H5 & _ & H6 & H7 & H8 & H9 & H10 & _).
  unfold main. set (gas := mkfs_param size) in *. clearbody gas. cbv zeta in Hfmt.
  assert (Hd3 : data_st gas < 2 ^ 15) by (unfold root_blocks, BITS_PER_BLOCK, GAS_BLOCK_SIZE in *; lia).
  unfold init_metadata in Hrun. rewrite M_bind_eq in *.
  destruct (init_super_block gas _) as [? s1| |]; [|done|done]. rewrite M_bind_eq in *.
  destruct (init_block_alloc_map gas s1) as [? s2| |]; [|done|done]. rewrite M_bind_eq in *.
  destruct (init_inode_alloc_map gas s2) as [? s3| |]; [|done|done].
  rewrite M_bind_eq, Hrun, M_bind_eq.
  destruct (md_bam _ _ _ Hmd 0) as (bam & Hbamd & Hbamm); [lia|].
  destruct (md_iam _ _ _ Hmd 0) as (iam & Hiamd & Hiamm); [lia|].
  destruct (Himg (data_st gas)) as (dir & Hdir & Hdlen); [unfold root_blocks in *; lia|].
  rewrite Z.add_0_r in Hbamd, Hiamd. assert (Hino := md_inodes _ _ _ Hmd 0 ltac:(lia)).
  rewrite Z.add_0_r in Hino. rewrite <- (md_rest _ _ _ Hmd) in Hdir by lia.
  assert (HEI : s32 (IAM_BLOCK_START gas) = IAM_BLOCK_START gas) by (apply s32_small; lia).
  assert (HEN : s32 (INODE_LIST_START gas) = INODE_LIST_START gas) by (apply s32_small; lia).
  assert (Hroot := wp_make_rootdir gas _ _ iam bam dir (rep_start d4)).
  cbv zeta in Hroot. rewrite HEI, HEN in Hroot. cbn [sv] in Hroot.
  unfold blk_ok, BAM_BLOCK_START, root_blocks in *.
  apply wp_Ret in Hroot as (? & s5 & -> & a' & iam' & bam' & blk' & dir' & Hr5 & Hs5 & Hiam' & Hbam' &
    Hblk' & Hdir' & Hsv); try assumption; try lia; [|by unfold settled].
  rewrite (rep_bc_sync s5 a' Hr5 Hs5), Hsv. eexists. split; [reflexivity|]. by apply Hfmt.
Qed.
End rootdir.

(** ** Properties *)

(** An image of [n] blocks, all zero. *)
Definition blank_image (n : nat) : gmap Z bytes :=
  list_to_map ((fun k => (Z.of_nat k, zeroes GAS_BLOCK_SIZE)) <$> seq 0 n).

Lemma blank_image_lookup n b :
  0 <= b < Z.of_nat n -> blank_image n !! b = Some (zeroes GAS_BLOCK_SIZE).
Proof.
  intros Hb. unfold blank_image. apply elem_of_list_to_map_1.
  - rewrite <- list_fmap_compose. apply NoDup_fmap_2; [|apply NoDup_seq].
    intros x y H. simpl in H. lia.
  - apply list_elem_of_fmap. exists (Z.to_nat b). rewrite Z2Nat.id by lia.
    split; [done|]. apply elem_of_seq. lia.
Qed.

Lemma blank_image_blocks n b :
  0 <= b < Z.of_nat n -> exists buf, blank_image n !! b = Some buf /\ blen buf = GAS_BLOCK_SIZE.
Proof.
  intros Hb. exists (zeroes GAS_BLOCK_SIZE). split; [by apply blank_image_lookup|].
  apply blen_zeroes. unfold GAS_BLOCK_SIZE. lia.
Qed.

(** C1: [main] formats the image. For every image of 1 MiB up to 16 GiB, whatever
    it held before, the maker returns normally (no undefined behaviour, no [exit],
    no fuel exhausted) and every metadata block is as the layout requires: the super
    block, the allocation maps with the reserved objects marked, the root inode in
    slot 1 with all other inodes free, the root directory with "." and "..";
    all blocks after the first directory block are untouched. On the 4 MiB disk of the
    README this is 7 metadata blocks (the inode list takes 4) and 5 blocks reserved for the
    root directory, where the README counts 6 blocks in all. *)
Theorem main_formats uid gid now size d0 :
  main_size_ok size ->
  (forall b, 0 <= b < blk_cnt (mkfs_param size) ->
     exists buf, d0 !! b = Some buf /\ blen buf = GAS_BLOCK_SIZE) ->
  exists d, main uid gid now size {| disk := d0; bc_head := [] |}
              = Ret tt {| disk := d; bc_head := [] |} /\
  formatted uid gid now (mkfs_param size) d0 d.
Proof. apply main_run. Qed.

Lemma main_formats_witness :
  exists d, main 0 0 1 (4 * 2 ^ 20) {| disk := blank_image 1024; bc_head := [] |}
              = Ret tt {| disk := d; bc_head := [] |} /\
  formatted 0 0 1 (mkfs_param (4 * 2 ^ 20)) (blank_image 1024) d.
Proof.
  apply main_formats.
  - unfold main_size_ok, GAS_BLOCK_SIZE. lia.
  - intros b Hb. apply blank_image_blocks. change (blk_cnt _) with 1024 in Hb. lia.
Defined.

(** the layout computed by [main] is consistent: the five regions follow each
    other without overlap and end inside the image, the block map covers exactly the
    blocks, the inode map exactly the inodes, and every inode has a slot in the
    inode list. *)
Theorem mkfs_layout size :
  main_size_ok size ->
  let gas := mkfs_param size in
  BAM_BLOCK_START = SUPER_BLOCK_NO + 1 /\
  IAM_BLOCK_START gas = BAM_BLOCK_START + bam_blk gas /\
  INODE_LIST_START gas = IAM_BLOCK_START gas + iam_blk gas /\
  data_st gas = INODE_LIST_START gas + ino_blk gas /\
  0 < bam_blk gas /\ 0 < iam_blk gas /\ 0 < ino_blk gas /\
  data_st gas < blk_cnt gas /\ blk_cnt gas * GAS_BLOCK_SIZE <= size /\
  (bam_blk gas - 1) * BITS_PER_BLOCK < blk_cnt gas <= bam_blk gas * BITS_PER_BLOCK /\
  (iam_blk gas - 1) * BITS_PER_BLOCK < ino_cnt gas <= iam_blk gas * BITS_PER_BLOCK /\
  ino_cnt gas = ino_blk gas * INODES_PER_BLOCK.
Proof.
  intros H. destruct (main_size_facts size H) as (H1 & H2 & H3 & H4 & H5 & H5' & H6 & H7 & H8 & H9 & H10 & H11 & H12).
  intros gas. fold gas in H1, H2, H3, H4, H5, H5', H6, H7, H8, H9, H10, H11, H12. clearbody gas.
  unfold BAM_BLOCK_START, SUPER_BLOCK_NO, root_blocks in *.
  change INODES_PER_BLOCK with 64. split_and!; try done; try lia; try apply H11; apply H12.
Qed.

Lemma mkfs_layout_witness :
  main_size_ok (4 * 2 ^ 20) /\ data_st (mkfs_param (4 * 2 ^ 20)) = 7 /\
  data_st (mkfs_param (4 * 2 ^ 20)) =
    INODE_LIST_START (mkfs_param (4 * 2 ^ 20)) + ino_blk (mkfs_param (4 * 2 ^ 20)).
Proof.
  assert (H : main_size_ok (4 * 2 ^ 20)) by (unfold main_size_ok, GAS_BLOCK_SIZE; lia).
  split; [exact H|]. split; [reflexivity|].
  destruct (mkfs_layout (4 * 2 ^ 20) H) as (_ & _ & _ & E & _). exact E.
Defined.

(** [init_block_alloc_map] marks exactly the blocks below [data_st] and those
    past the end of the image, for any number of map blocks, and writes nothing but
    the map. *)
Theorem init_block_alloc_map_spec gas s :
  0 <= bam_blk gas < 2 ^ 18 -> 0 <= data_st gas < 2 ^ 31 ->
  (bam_blk gas - 1) * BITS_PER_BLOCK < blk_cnt gas <= bam_blk gas * BITS_PER_BLOCK ->
  exists d, init_block_alloc_map gas s = Ret tt {| disk := d; bc_head := bc_head s |} /\
  (forall n, 0 <= n < bam_blk gas * BITS_PER_BLOCK ->
     exists m, d !! (BAM_BLOCK_START + n / BITS_PER_BLOCK) = Some m /\ blen m = GAS_BLOCK_SIZE /\
     bit m (n mod BITS_PER_BLOCK) = (n <? data_st gas) || (blk_cnt gas <=? n)) /\
  (forall b, ~ (BAM_BLOCK_START <= b < BAM_BLOCK_START + bam_blk gas) -> d !! b = disk s !! b).
Proof.
  intros Hb Hd Hc. destruct (init_block_alloc_map_run gas s) as (d & E & Hm & Ho); [lia|lia|lia|done|].
  exists d. split; [done|]. split; [|done]. intros n Hn.
  destruct (Hm (n / BITS_PER_BLOCK)) as (m & Hl & Hlen & Hbit).
  { unfold BITS_PER_BLOCK, GAS_BLOCK_SIZE in *. dlia. }
  exists m. split; [done|]. split; [done|].
  rewrite Hbit by (unfold BITS_PER_BLOCK, GAS_BLOCK_SIZE; dlia).
  by replace (n / BITS_PER_BLOCK * BITS_PER_BLOCK + n mod BITS_PER_BLOCK) with n
    by (unfold BITS_PER_BLOCK, GAS_BLOCK_SIZE; dlia).
Qed.

Lemma init_block_alloc_map_spec_witness :
  let gas := mkfs_param (2 ^ 28) in
  exists d, init_block_alloc_map gas {| disk := ∅; bc_head := [] |}
    = Ret tt {| disk := d; bc_head := [] |} /\
  (forall n, 0 <= n < bam_blk gas * BITS_PER_BLOCK ->
     exists m, d !! (BAM_BLOCK_START + n / BITS_PER_BLOCK) = Some m /\ blen m = GAS_BLOCK_SIZE /\
     bit m (n mod BITS_PER_BLOCK) = (n <? data_st gas) || (blk_cnt gas <=? n)) /\
  (forall b, ~ (BAM_BLOCK_START <= b < BAM_BLOCK_START + bam_blk gas) ->
     d !! b = (∅ : gmap Z bytes) !! b).
Proof.
  intros gas. apply (init_block_alloc_map_spec gas {| disk := ∅; bc_head := [] |});
    vm_compute; split; congruence.
Defined.

(** C29: the blocks reserved for the root directory are not all reachable. After
    [main], five blocks from [data_st] on are marked in use, but the root inode
    records only the first of them: its other block addresses are 0. *)
Theorem root_blocks_unreachable uid gid now size d0 :
  main_size_ok size ->
  (forall b, 0 <= b < blk_cnt (mkfs_param size) ->
     exists buf, d0 !! b = Some buf /\ blen buf = GAS_BLOCK_SIZE) ->
  let gas := mkfs_param size in
  exists d blk m, main uid gid now size {| disk := d0; bc_head := [] |}
              = Ret tt {| disk := d; bc_head := [] |} /\
  d !! INODE_LIST_START gas = Some blk /\ d !! BAM_BLOCK_START = Some m /\
  f_get blk (DI.sizeof * GAS_ROOT_INO) (DI.i_blkaddr 0) = Some (data_st gas) /\
  (forall k, 1 <= k < 9 -> f_get blk (DI.sizeof * GAS_ROOT_INO) (DI.i_blkaddr k) = Some 0) /\
  (forall b, data_st gas <= b < data_st gas + root_blocks -> bit m b = true).
Proof.
  intros Hsz Himg gas. destruct (main_run uid gid now size d0 Hsz Himg) as (d & Hrun & Hf).
  destruct (main_size_facts size Hsz) as (H1 & H2 & H3 & H4 & _ & _ & _ & _ & H8 & H9 & H10 & _).
  fold gas in Hf, H1, H2, H3, H4, H8, H9, H10. clearbody gas.
  destruct (fmt_root _ _ _ _ _ _ Hf) as (blk & Hblk & Hroot).
  destruct (fmt_bam _ _ _ _ _ _ Hf 0) as (m & Hm & Hmap); [lia|]. rewrite Z.add_0_r in Hm.
  exists d, blk, m. destruct Hroot as (_ & Hfields & Hz & _). change (DI.sizeof * GAS_ROOT_INO) with 64.
  split_and!; try done; [apply Hfields|]. intros b Hb. destruct Hmap as [_ Hbit].
  rewrite Hbit by (unfold root_blocks in *; lia). unfold BITS_PER_BLOCK, GAS_BLOCK_SIZE.
  by rewrite (proj2 (Z.ltb_lt _ _)) by lia.
Qed.

Lemma root_blocks_unreachable_witness :
  let gas := mkfs_param (4 * 2 ^ 20) in
  exists d blk m, main 0 0 1 (4 * 2 ^ 20) {| disk := blank_image 1024; bc_head := [] |}
              = Ret tt {| disk := d; bc_head := [] |} /\
  d !! INODE_LIST_START gas = Some blk /\ d !! BAM_BLOCK_START = Some m /\
  f_get blk (DI.sizeof * GAS_ROOT_INO) (DI.i_blkaddr 0) = Some (data_st gas) /\
  (forall k, 1 <= k < 9 -> f_get blk (DI.sizeof * GAS_ROOT_INO) (DI.i_blkaddr k) = Some 0) /\
  (forall b, data_st gas <= b < data_st gas + root_blocks -> bit m b = true).
Proof.
  apply (root_blocks_unreachable 0 0 1 (4 * 2 ^ 20) (blank_image 1024)).
  - unfold main_size_ok, GAS_BLOCK_SIZE. lia.
  - intros b Hb. apply blank_image_blocks. change (blk_cnt _) with 1024 in Hb. lia.
Defined.
