(* ===== verification/Kernel.v ===== *)
(** * The kernel side: state, monad and kernel interface (kern/gas.h)

    The structures of gas.h that live in memory, the state the module's functions
    share, and the parts of the Linux kernel they call. A buffer head is the number
    of its block; an in-memory inode is found by its number. [K A] is a computation
    that returns a value or has undefined behaviour ([None]): an access outside a
    buffer, the dereference of a null pointer, a division by zero. Error codes are
    values, as in C. The sections the code runs under a spin lock are atomic here.

    [KernelApi] lists the kernel functions the code calls (bit operations, I/O that
    may fail, device-number codecs, inode initialisation); [KernelLaws] states
    their documented behaviour, and [demo_api] is an instance the witnesses compute
    with. *)

From S2P Require Import Prelude Mem Layout.
From stdpp Require Export gmultiset.

#[global] Open Scope Z_scope.

(** ** In-memory structures *)

(** [struct gas_sb_info]. [s_map] is the array of buffer heads that [gas_fill_super]
    allocates; [s_bam_bh] and [s_iam_bh] are positions in it. *)
Record gas_sb_info := SbInfo {
  s_magic : Z; s_blocksize : Z; s_bam_blocks : Z; s_iam_blocks : Z; s_inode_blocks : Z;
  s_nblocks : Z; s_ninodes : Z; s_inodes_per_block : Z; s_bits_per_block : Z;
  s_dir_entries_per_block : Z; s_map : list (option Z); s_bam_bh : Z; s_iam_bh : Z;
  s_bam_last : Z; s_iam_last : Z; s_inode_list_start : Z; s_data_block_start : Z }.

Definition set_bam_last (v : Z) (i : gas_sb_info) : gas_sb_info :=
  SbInfo (s_magic i) (s_blocksize i) (s_bam_blocks i) (s_iam_blocks i) (s_inode_blocks i)
    (s_nblocks i) (s_ninodes i) (s_inodes_per_block i) (s_bits_per_block i)
    (s_dir_entries_per_block i) (s_map i) (s_bam_bh i) (s_iam_bh i) v (s_iam_last i)
    (s_inode_list_start i) (s_data_block_start i).

Definition set_iam_last (v : Z) (i : gas_sb_info) : gas_sb_info :=
  SbInfo (s_magic i) (s_blocksize i) (s_bam_blocks i) (s_iam_blocks i) (s_inode_blocks i)
    (s_nblocks i) (s_ninodes i) (s_inodes_per_block i) (s_bits_per_block i)
    (s_dir_entries_per_block i) (s_map i) (s_bam_bh i) (s_iam_bh i) (s_bam_last i) v
    (s_inode_list_start i) (s_data_block_start i).

(** [sbi->s_bam_bh[i]] and [sbi->s_iam_bh[i]]: [None] outside the array or on NULL. *)
Definition bam_bh (i : gas_sb_info) (k : Z) : option Z :=
  b ← (if 0 <=? k then s_map i !! Z.to_nat (s_bam_bh i + k) else None); b.
Definition iam_bh (i : gas_sb_info) (k : Z) : option Z :=
  b ← (if 0 <=? k then s_map i !! Z.to_nat (s_iam_bh i + k) else None); b.

(** The tables of operations an inode points to (kern/def.c). *)
Inductive optable : Set :=
| gas_a_ops | gas_file_inode_ops | gas_file_ops | gas_dir_inode_ops | gas_dir_ops
| gas_symlink_inode_ops | special_ops.

(** [struct inode] with the [struct gas_inode_info] around it ([blkaddr], as
    little-endian words); times are their [tv_sec]. *)
Record inode := Inode {
  i_ino : Z; i_mode : Z; i_nlink : Z; i_uid : Z; i_gid : Z; i_size : Z;
  i_atime : Z; i_mtime : Z; i_ctime : Z; i_rdev : Z; blkaddr : list Z;
  a_ops : option optable; i_op : option optable; i_fop : option optable }.

(** The fields of [struct super_block] that the module sets, less the block size. *)
Record super_block := SuperBlock { sb_magic : Z; s_max_links : Z; s_root : option Z }.

(** The state: the super block and the mounted file system, the blocks of the device as the buffer
    cache shows them and as they are on the medium, the buffers marked dirty, the
    buffer references held, the in-memory inodes and those marked dirty. *)
Record kst := Kst {
  k_sb : super_block; s_blocksize_bits : Z; s_fs_info : option gas_sb_info;
  k_buf : gmap Z bytes; k_disk : gmap Z bytes; k_dirty : gset Z; k_ref : gmultiset Z;
  k_inodes : gmap Z inode; k_idirty : gset Z }.

Definition with_fs_info (o : option gas_sb_info) (s : kst) : kst :=
  Kst (k_sb s) (s_blocksize_bits s) o (k_buf s) (k_disk s) (k_dirty s) (k_ref s) (k_inodes s) (k_idirty s).
Definition with_sb (b : super_block) (s : kst) : kst :=
  Kst b (s_blocksize_bits s) (s_fs_info s) (k_buf s) (k_disk s) (k_dirty s) (k_ref s) (k_inodes s) (k_idirty s).
Definition with_bits (n : Z) (s : kst) : kst :=
  Kst (k_sb s) n (s_fs_info s) (k_buf s) (k_disk s) (k_dirty s) (k_ref s) (k_inodes s) (k_idirty s).
Definition with_buf (m : gmap Z bytes) (s : kst) : kst :=
  Kst (k_sb s) (s_blocksize_bits s) (s_fs_info s) m (k_disk s) (k_dirty s) (k_ref s) (k_inodes s) (k_idirty s).
Definition with_disk (m : gmap Z bytes) (s : kst) : kst :=
  Kst (k_sb s) (s_blocksize_bits s) (s_fs_info s) (k_buf s) m (k_dirty s) (k_ref s) (k_inodes s) (k_idirty s).
Definition with_dirty (d : gset Z) (s : kst) : kst :=
  Kst (k_sb s) (s_blocksize_bits s) (s_fs_info s) (k_buf s) (k_disk s) d (k_ref s) (k_inodes s) (k_idirty s).
Definition with_ref (r : gmultiset Z) (s : kst) : kst :=
  Kst (k_sb s) (s_blocksize_bits s) (s_fs_info s) (k_buf s) (k_disk s) (k_dirty s) r (k_inodes s) (k_idirty s).
Definition with_inodes (m : gmap Z inode) (s : kst) : kst :=
  Kst (k_sb s) (s_blocksize_bits s) (s_fs_info s) (k_buf s) (k_disk s) (k_dirty s) (k_ref s) m (k_idirty s).
Definition with_idirty (d : gset Z) (s : kst) : kst :=
  Kst (k_sb s) (s_blocksize_bits s) (s_fs_info s) (k_buf s) (k_disk s) (k_dirty s) (k_ref s) (k_inodes s) d.

(** ** The monad *)

Definition K (A : Type) : Type := kst -> option (A * kst).

#[export] Instance K_ret : MRet K := fun A a s => Some (a, s).
#[export] Instance K_bind : MBind K := fun A B k c s =>
  match c s with Some (a, s') => k a s' | None => None end.

Definition klift {A} (o : option A) : K A := fun s => a ← o; Some (a, s).
Definition kget {A} (f : kst -> A) : K A := fun s => Some (f s, s).
Definition kmod (f : kst -> kst) : K unit := fun s => Some (tt, f s).

(** ** Kernel functions the code calls *)

Class KernelApi := {
  (* linux/bitops.h *)
  find_first_zero_bit : bytes -> Z -> Z;
  set_bit : Z -> bytes -> bytes;
  test_and_clear_bit : Z -> bytes -> bool * bytes;
  hweight16 : Z -> Z;
  (* linux/kdev_t.h *)
  new_encode_dev : Z -> Z;
  new_decode_dev : Z -> Z;
  (* linux/buffer_head.h: which blocks the device can read and write *)
  read_ok : Z -> bool;
  write_ok : Z -> bool;
  (* linux/fs.h: [sb_set_blocksize], [Some bits] when the size is accepted *)
  set_blocksize : Z -> option Z;
  (* [init_special_inode(inode, mode, rdev)] *)
  init_special_inode : inode -> Z -> Z -> inode;
  (* [new_inode(sb)] and [iget_locked] on a new inode: [None] is NULL *)
  alloc_inode : kst -> option inode;
  (* [inode_init_owner(inode, dir, mode)] *)
  inode_init_owner : inode -> inode -> Z -> inode;
  (* [CURRENT_TIME_SEC] *)
  current_time : kst -> Z }.

(** Number of bits set among the [n] low bits of [w]. *)
Fixpoint popcount (n : nat) (w : Z) : Z :=
  match n with
  | O => 0
  | S n => (if Z.testbit w (Z.of_nat n) then 1 else 0) + popcount n w
  end.

(** The fields of an inode that are stored on disk and do not come from [mode]. *)
Definition same_attrs (i j : inode) : Prop :=
  i_ino i = i_ino j /\ i_nlink i = i_nlink j /\ i_size i = i_size j /\ blkaddr i = blkaddr j /\
  i_atime i = i_atime j /\ i_mtime i = i_mtime j /\ i_ctime i = i_ctime j.

Class KernelLaws `{KernelApi} : Prop := {
  find_first_zero_bit_law : forall m size, 0 <= size <= 8 * blen m ->
    is_first (fun i => negb (bit m i)) 0 size (find_first_zero_bit m size);
  set_bit_law : forall m n, 0 <= n < 8 * blen m ->
    blen (set_bit n m) = blen m /\
    forall i, 0 <= i -> bit (set_bit n m) i = (i =? n) || bit m i;
  test_and_clear_bit_law : forall m n, 0 <= n < 8 * blen m ->
    let '(old, m') := test_and_clear_bit n m in
    old = bit m n /\ blen m' = blen m /\
    forall i, 0 <= i -> bit m' i = negb (i =? n) && bit m i;
  hweight16_law : forall w, 0 <= w < 2 ^ 16 -> hweight16 w = popcount 16 w;
  decode_encode_dev : forall d, 0 <= d < 2 ^ 32 ->
    0 <= new_encode_dev d < 2 ^ 32 /\ new_decode_dev (new_encode_dev d) = d;
  set_blocksize_law : forall size bits, set_blocksize size = Some bits ->
    size = 2 ^ bits /\ 9 <= bits <= 12;
  set_blocksize_page : set_blocksize 4096 = Some 12;
  init_special_inode_law : forall i mode rdev,
    same_attrs (init_special_inode i mode rdev) i /\
    i_mode (init_special_inode i mode rdev) = mode /\
    i_uid (init_special_inode i mode rdev) = i_uid i /\
    i_gid (init_special_inode i mode rdev) = i_gid i /\
    i_rdev (init_special_inode i mode rdev) =
      (if S_ISCHR mode || S_ISBLK mode then rdev else i_rdev i);
  alloc_inode_law : forall st i, alloc_inode st = Some i -> i_nlink i = 1;
  inode_init_owner_law : forall i dir mode,
    same_attrs (inode_init_owner i dir mode) i /\
    Z.land (i_mode (inode_init_owner i dir mode)) S_IFMT = Z.land mode S_IFMT;
  current_time_law : forall st, 0 <= current_time st < 2 ^ 32 }.

(** ** Buffers *)

Section buffers.
Context `{KernelApi}.

(** [GAS_SB(sb)]; using the NULL of an unmounted file system is undefined. *)
Definition GAS_SB : K gas_sb_info := fun s => i ← s_fs_info s; Some (i, s).
Definition set_sbi (i : gas_sb_info) : K unit := kmod (with_fs_info (Some i)).

(** [bh->b_data], read and replaced. *)
Definition bh_data (b : Z) : K bytes := fun s => m ← k_buf s !! b; Some (m, s).
Definition bh_put (b : Z) (m : bytes) : K unit := kmod (fun s => with_buf (<[b := m]> (k_buf s)) s).

(** [sb_bread]: the buffer of a block with its contents, or NULL. *)
Definition sb_bread (b : Z) : K (option Z) := fun s =>
  if read_ok b && bool_decide (is_Some (k_buf s !! b))
  then Some (Some b, with_ref (k_ref s ⊎ {[+ b +]}) s) else Some (None, s).

Definition brelse (bh : option Z) : K unit :=
  match bh with
  | Some b => kmod (fun s => with_ref (k_ref s ∖ {[+ b +]}) s)
  | None => mret tt
  end.

Definition mark_buffer_dirty (b : Z) : K unit := kmod (fun s => with_dirty ({[b]} ∪ k_dirty s) s).

(** [bforget]: drop the reference and forget that the buffer was dirty. *)
Definition bforget (b : Z) : K unit :=
  kmod (fun s => with_dirty (k_dirty s ∖ {[b]}) (with_ref (k_ref s ∖ {[+ b +]}) s)).

(** [sync_dirty_buffer]: write one buffer; whether it is up to date afterwards. When the
    device does not take it, it is not, and the next [sb_bread] reads the block again. *)
Definition sync_dirty_buffer (b : Z) : K bool := fun s =>
  m ← k_buf s !! b;
  if write_ok b then Some (true, with_dirty (k_dirty s ∖ {[b]}) (with_disk (<[b := m]> (k_disk s)) s))
  else Some (false, with_dirty (k_dirty s ∖ {[b]}) (with_buf (partial_alter (fun _ => k_disk s !! b) b (k_buf s)) s)).

(** ** In-memory inodes *)

Definition iref (ino : Z) : K inode := fun s => i ← k_inodes s !! ino; Some (i, s).
Definition iput_data (ino : Z) (i : inode) : K unit :=
  kmod (fun s => with_inodes (<[ino := i]> (k_inodes s)) s).
Definition mark_inode_dirty (ino : Z) : K unit := kmod (fun s => with_idirty ({[ino]} ∪ k_idirty s) s).
End buffers.

(** Bit operations of the kernel on a buffer; outside of it they are undefined. *)
Definition ffz_bit `{KernelApi} (m : bytes) (size : Z) : option Z :=
  if size <=? 8 * blen m then Some (find_first_zero_bit m size) else None.
Definition set_bit_in `{KernelApi} (n : Z) (m : bytes) : option bytes :=
  if (0 <=? n) && (n <? 8 * blen m) then Some (set_bit n m) else None.
Definition clear_bit_in `{KernelApi} (n : Z) (m : bytes) : option (bool * bytes) :=
  if (0 <=? n) && (n <? 8 * blen m) then Some (test_and_clear_bit n m) else None.

(** ** Total correctness of computations *)

Definition kwp {A} (c : K A) (s : kst) (Q : A -> kst -> Prop) : Prop :=
  exists a s', c s = Some (a, s') /\ Q a s'.

Section kwp_rules.
Context `{KernelApi}.

Lemma K_bind_eq {A B} (c : K A) (k : A -> K B) s :
  (c ≫= k) s = match c s with Some (a, s') => k a s' | None => None end.
Proof. done. Qed.

Lemma K_bind_mod {B} f (k : unit -> K B) s : (kmod f ≫= k) s = k tt (f s).
Proof. done. Qed.

Lemma K_bind_get {A B} (f : kst -> A) (k : A -> K B) s : (kget f ≫= k) s = k (f s) s.
Proof. done. Qed.

Lemma K_GAS_SB s i : s_fs_info s = Some i -> GAS_SB s = Some (i, s).
Proof. intros E. unfold GAS_SB. by rewrite E. Qed.

Lemma K_bind_some {A B} (c : K A) (k : A -> K B) s a s' : c s = Some (a, s') -> (c ≫= k) s = k a s'.
Proof. intros E. by rewrite K_bind_eq, E. Qed.

Lemma kwp_bind {A B} (c : K A) (k : A -> K B) s Q :
  kwp c s (fun a s' => kwp (k a) s' Q) -> kwp (c ≫= k) s Q.
Proof. intros (a & s' & E & b & s2 & E2 & HQ). exists b, s2. by rewrite K_bind_eq, E. Qed.

Lemma kwp_mono {A} (c : K A) s (Q Q' : A -> kst -> Prop) :
  kwp c s Q -> (forall a s', Q a s' -> Q' a s') -> kwp c s Q'.
Proof. intros (a & s' & E & HQ) HH. exists a, s'. eauto. Qed.

Lemma kwp_and {A} (c : K A) s (Q Q' : A -> kst -> Prop) :
  kwp c s Q -> kwp c s Q' -> kwp c s (fun a s' => Q a s' /\ Q' a s').
Proof. intros (a & s' & E & HQ) (a2 & s2 & E2 & HQ'). rewrite E in E2. injection E2 as <- <-. exists a, s'. auto. Qed.

Lemma kwp_ret {A} (a : A) s (Q : A -> kst -> Prop) : Q a s -> kwp (mret a) s Q.
Proof. intros. by exists a, s. Qed.

Lemma kwp_lift {A} (o : option A) a s (Q : A -> kst -> Prop) :
  o = Some a -> Q a s -> kwp (klift o) s Q.
Proof. intros -> ?. by exists a, s. Qed.

Lemma kwp_mod f s (Q : unit -> kst -> Prop) : Q tt (f s) -> kwp (kmod f) s Q.
Proof. intros. by exists tt, (f s). Qed.

Lemma kwp_get {A} (f : kst -> A) s (Q : A -> kst -> Prop) : Q (f s) s -> kwp (kget f) s Q.
Proof. intros. by exists (f s), s. Qed.

Lemma kwp_sb i s (Q : gas_sb_info -> kst -> Prop) :
  s_fs_info s = Some i -> Q i s -> kwp GAS_SB s Q.
Proof. intros E ?. exists i, s. unfold GAS_SB. by rewrite E. Qed.

Lemma kwp_data b m s (Q : bytes -> kst -> Prop) :
  k_buf s !! b = Some m -> Q m s -> kwp (bh_data b) s Q.
Proof. intros E ?. exists m, s. unfold bh_data. by rewrite E. Qed.

Lemma kwp_iref n i s (Q : inode -> kst -> Prop) :
  k_inodes s !! n = Some i -> Q i s -> kwp (iref n) s Q.
Proof. intros E ?. exists i, s. unfold iref. by rewrite E. Qed.

(** [sb_bread] succeeds with one more reference, or fails and changes nothing. *)
Lemma kwp_bread b s (Q : option Z -> kst -> Prop) :
  (read_ok b = true -> is_Some (k_buf s !! b) -> Q (Some b) (with_ref (k_ref s ⊎ {[+ b +]}) s)) ->
  (read_ok b = false \/ k_buf s !! b = None -> Q None s) -> kwp (sb_bread b) s Q.
Proof.
  intros H1 H2. unfold kwp, sb_bread. destruct (read_ok b) eqn:E; simpl.
  - case_bool_decide as E'; eexists _, _; (split; [done|]).
    + by apply H1.
    + apply H2. right. by apply eq_None_not_Some.
  - eexists _, _. split; [done|]. apply H2. by left.
Qed.

Lemma kwp_eq {A} (c : K A) s a s' : c s = Some (a, s') -> forall Q : A -> kst -> Prop, kwp c s Q -> Q a s'.
Proof. intros E Q (? & ? & E' & ?). by simplify_eq. Qed.
End kwp_rules.

(** ** References to buffers *)

Definition refs (l : list Z) : gmultiset Z := list_to_set_disj l.

Lemma refs_0 (X : gmultiset Z) b : X ⊎ refs (seqZ b 0) = X.
Proof. unfold refs. change (seqZ b 0) with (@nil Z). cbn. multiset_solver. Qed.

Lemma same_state s sbi : s_fs_info s = Some sbi -> with_ref (k_ref s) (with_fs_info (Some sbi) s) = s.
Proof. intros <-. by destruct s. Qed.

Lemma refs_take X b l : X ⊎ {[+ b +]} ⊎ refs l = X ⊎ refs (b :: l).
Proof. change (refs (b :: l)) with ({[+ b +]} ⊎ refs l). by rewrite (assoc_L (⊎)). Qed.

Lemma refs_app X l1 l2 : X ⊎ refs l1 ⊎ refs l2 = X ⊎ refs (l1 ++ l2).
Proof. unfold refs. by rewrite list_to_set_disj_app, (assoc_L (⊎)). Qed.

Lemma refs_drop_app X l1 l2 : (X ∖ refs l1) ∖ refs l2 = X ∖ refs (l1 ++ l2).
Proof.
  unfold refs. rewrite list_to_set_disj_app.
  generalize (list_to_set_disj (C := gmultiset Z) l1), (list_to_set_disj (C := gmultiset Z) l2).
  intros Y Z. multiset_solver.
Qed.

Lemma refs_cancel X l : (X ⊎ refs l) ∖ refs l = X.
Proof. generalize (refs l). intros Y. multiset_solver. Qed.

Lemma refs_drop_0 X : X ∖ refs [] = X.
Proof. change (refs []) with (∅ : gmultiset Z). multiset_solver. Qed.

Lemma refs_drop X b l : (X ∖ {[+ b +]}) ∖ refs l = X ∖ refs (b :: l).
Proof.
  change (refs (b :: l)) with ({[+ b +]} ⊎ refs l). generalize (refs l). intros Y. multiset_solver.
Qed.

Lemma refs_perm l1 l2 : Permutation l1 l2 -> refs l1 = refs l2.
Proof. intros E. unfold refs. by rewrite E. Qed.

(** ** A mounted file system

    [geometry bits sbi]: the numbers of a mounted super block are those of a well
    formed image whose blocks have [2 ^ bits] bytes. [mounted s sbi]: in addition
    every block of the device is a buffer of that size. *)

Record geometry (bits : Z) (i : gas_sb_info) : Prop := {
  g_bits : 9 <= bits <= 12;
  g_blocksize : s_blocksize i = 2 ^ bits;
  g_ipb : s_inodes_per_block i = 2 ^ bits / DI.sizeof;
  g_bpb : s_bits_per_block i = 8 * 2 ^ bits;
  g_counts : 0 < s_bam_blocks i /\ 0 < s_iam_blocks i /\ 0 < s_inode_blocks i;
  g_list : s_inode_list_start i = s_bam_blocks i + s_iam_blocks i + 1;
  g_data : s_data_block_start i = s_inode_list_start i + s_inode_blocks i;
  g_nblocks : s_data_block_start i <= s_nblocks i < 2 ^ 31;
  g_bam_room : s_nblocks i <= s_bam_blocks i * s_bits_per_block i < 2 ^ 32;
  g_iam_room : s_ninodes i <= s_iam_blocks i * s_bits_per_block i < 2 ^ 32;
  g_ninodes : 0 < s_ninodes i < 2 ^ 31;
  g_ino_room : s_ninodes i <= s_inode_blocks i * s_inodes_per_block i;
  g_map : s_map i = Some <$> seqZ 1 (s_bam_blocks i + s_iam_blocks i);
  g_bam_bh : s_bam_bh i = 0;
  g_iam_bh : s_iam_bh i = s_bam_blocks i;
  g_bam_last : 0 <= s_bam_last i < s_bam_blocks i;
  g_iam_last : 0 <= s_iam_last i < s_iam_blocks i }.

Definition is_block (bits : Z) (m : bytes) : Prop := blen m = 2 ^ bits.

Record mounted (s : kst) (i : gas_sb_info) : Prop := {
  mt_info : s_fs_info s = Some i;
  mt_geom : geometry (s_blocksize_bits s) i;
  mt_buf : forall b, 0 <= b < s_nblocks i ->
    exists m, k_buf s !! b = Some m /\ is_block (s_blocksize_bits s) m }.

Lemma mounted_ext s s' i :
  mounted s i -> s_fs_info s' = s_fs_info s -> s_blocksize_bits s' = s_blocksize_bits s ->
  k_buf s' = k_buf s -> mounted s' i.
Proof. intros [M1 M2 M3] E1 E2 E3. split; rewrite ?E1, ?E2, ?E3; done. Qed.

Lemma mounted_with_sb s i b : mounted s i -> mounted (with_sb b s) i.
Proof. intros M. by apply (mounted_ext s). Qed.

Lemma mounted_with_inodes s i m : mounted s i -> mounted (with_inodes m s) i.
Proof. intros M. by apply (mounted_ext s). Qed.

Lemma mounted_with_idirty s i d : mounted s i -> mounted (with_idirty d s) i.
Proof. intros M. by apply (mounted_ext s). Qed.

Lemma mounted_with_ref s i r : mounted s i -> mounted (with_ref r s) i.
Proof. intros M. by apply (mounted_ext s). Qed.

Lemma mounted_with_dirty s i d : mounted s i -> mounted (with_dirty d s) i.
Proof. intros M. by apply (mounted_ext s). Qed.

#[export] Hint Resolve mounted_with_sb mounted_with_inodes mounted_with_idirty mounted_with_ref
  mounted_with_dirty : gas.

Lemma map_lookup_seqZ lo n k :
  0 <= k < n -> (Some <$> seqZ lo n) !! Z.to_nat k = Some (Some (lo + k)).
Proof.
  intros. rewrite list_lookup_fmap, lookup_seqZ_lt by lia. simpl. do 2 f_equal. lia.
Qed.

(** The bitmaps are the blocks [1 ..], the block map first. *)
Lemma bam_bh_geom bits i k :
  geometry bits i -> 0 <= k < s_bam_blocks i -> bam_bh i k = Some (1 + k).
Proof.
  intros G Hk. pose proof (g_counts _ _ G). unfold bam_bh.
  rewrite (proj2 (Z.leb_le _ _)), (g_bam_bh _ _ G), (g_map _ _ G) by lia.
  by rewrite map_lookup_seqZ by lia.
Qed.

Lemma iam_bh_geom bits i k :
  geometry bits i -> 0 <= k < s_iam_blocks i -> iam_bh i k = Some (1 + s_bam_blocks i + k).
Proof.
  intros G Hk. pose proof (g_counts _ _ G). unfold iam_bh.
  rewrite (proj2 (Z.leb_le _ _)), (g_iam_bh _ _ G), (g_map _ _ G) by lia.
  rewrite map_lookup_seqZ by lia. cbn [mbind option_bind]. f_equal. lia.
Qed.

Lemma geometry_pow bits i : geometry bits i ->
  In bits [9; 10; 11; 12] /\ In (2 ^ bits) [512; 1024; 2048; 4096].
Proof.
  intros G. pose proof (g_bits _ _ G).
  assert (bits = 9 \/ bits = 10 \/ bits = 11 \/ bits = 12) as [->|[->|[->| ->]]] by lia; simpl; tauto.
Qed.

(** ** A concrete kernel interface

    Bit operations on bytes, Linux's 12:20 device numbers, a device without errors, a
    clock that stands still. [demo_api rd wr] reads and writes the blocks of [rd] and
    [wr]. *)

Definition byte_at (m : bytes) (k : Z) : Z := byte.unsigned (nth (Z.to_nat k) m Byte.x00).

Definition demo_set_bit (n : Z) (m : bytes) : bytes :=
  default m (store 1 m (n / 8) (Z.lor (byte_at m (n / 8)) (2 ^ (n mod 8)))).

Definition demo_clear_bit (n : Z) (m : bytes) : bool * bytes :=
  (bit m n, default m (store 1 m (n / 8) (Z.ldiff (byte_at m (n / 8)) (2 ^ (n mod 8))))).

Definition demo_new_inode : inode := Inode 0 0 1 0 0 0 0 0 0 0 (replicate 9 0) None None None.

Definition demo_api (rd wr : Z -> bool) : KernelApi := {|
  find_first_zero_bit := fun m size => scan (fun i => negb (bit m i)) 0 (Z.to_nat size);
  set_bit := demo_set_bit;
  test_and_clear_bit := demo_clear_bit;
  hweight16 := popcount 16;
  new_encode_dev := fun d => d mod 256 + (d / 2 ^ 20) * 256 + ((d / 256) mod 4096) * 2 ^ 20;
  new_decode_dev := fun e => ((e / 256) mod 4096) * 2 ^ 20 + e mod 256 + (e / 2 ^ 20) * 256;
  read_ok := rd;
  write_ok := wr;
  set_blocksize := fun size =>
    if bool_decide (size ∈ [512; 1024; 2048; 4096]) then Some (Z.log2 size) else None;
  init_special_inode := fun i mode rdev =>
    Inode (i_ino i) mode (i_nlink i) (i_uid i) (i_gid i) (i_size i) (i_atime i) (i_mtime i)
      (i_ctime i) (if S_ISCHR mode || S_ISBLK mode then rdev else i_rdev i) (blkaddr i)
      (a_ops i) (i_op i) (Some special_ops);
  alloc_inode := fun _ => Some demo_new_inode;
  inode_init_owner := fun i dir mode =>
    Inode (i_ino i) mode (i_nlink i) (i_uid i) (i_gid i) (i_size i) (i_atime i) (i_mtime i)
      (i_ctime i) (i_rdev i) (blkaddr i) (a_ops i) (i_op i) (i_fop i);
  current_time := fun _ => 1700000000 |}.

(** Bits of the byte that holds bit [n], replaced. *)
Lemma bit_store_byte m n v m' i :
  store 1 m (n / 8) v = Some m' -> 0 <= n -> 0 <= i ->
  bit m' i = if i / 8 =? n / 8 then Z.testbit v (i mod 8) else bit m i.
Proof.
  intros H Hn Hi. rewrite (bit_store _ _ _ _ _ _ H) by done.
  replace (i - 8 * (n / 8)) with (i - 8 * (i / 8) + 8 * (i / 8 - n / 8)) by lia.
  destruct (Z.eqb_spec (i / 8) (n / 8)) as [Hq|Hq].
  - rewrite Hq, (proj2 (Z.leb_le _ _)), (proj2 (Z.ltb_lt _ _)) by dlia. cbn [andb].
    f_equal. dlia.
  - destruct (_ && _) eqn:E; [|done]. bools. exfalso. apply Hq. dlia.
Qed.

Lemma bit_byte_at m i k : i / 8 = k -> bit m i = Z.testbit (byte_at m k) (i mod 8).
Proof. by intros <-. Qed.

Lemma demo_set_bit_law m n : 0 <= n < 8 * blen m ->
  blen (demo_set_bit n m) = blen m /\
  forall i, 0 <= i -> bit (demo_set_bit n m) i = (i =? n) || bit m i.
Proof.
  intros Hn. unfold demo_set_bit.
  destruct (store_fits 1 m (n / 8) (Z.lor (byte_at m (n / 8)) (2 ^ (n mod 8))))
    as (m' & E & L); [dlia|dlia|]. rewrite E. simpl. split; [done|]. intros i Hi.
  rewrite (bit_store_byte _ _ _ _ _ E) by lia. destruct (Z.eqb_spec (i / 8) (n / 8)) as [Hq|Hq].
  - rewrite Z.lor_spec, <- (bit_byte_at m i) by done. rewrite Z.pow2_bits_eqb by dlia.
    rewrite orb_comm. f_equal. destruct (Z.eqb_spec i n); [subst; apply Z.eqb_refl|].
    apply Z.eqb_neq. dlia.
  - destruct (Z.eqb_spec i n); [by subst|done].
Qed.

Lemma demo_clear_bit_law m n : 0 <= n < 8 * blen m ->
  let '(old, m') := demo_clear_bit n m in
  old = bit m n /\ blen m' = blen m /\ forall i, 0 <= i -> bit m' i = negb (i =? n) && bit m i.
Proof.
  intros Hn. unfold demo_clear_bit.
  destruct (store_fits 1 m (n / 8) (Z.ldiff (byte_at m (n / 8)) (2 ^ (n mod 8))))
    as (m' & E & L); [dlia|dlia|]. rewrite E. simpl. split; [done|]. split; [done|]. intros i Hi.
  rewrite (bit_store_byte _ _ _ _ _ E) by lia. destruct (Z.eqb_spec (i / 8) (n / 8)) as [Hq|Hq].
  - rewrite Z.ldiff_spec, <- (bit_byte_at m i) by done. rewrite Z.pow2_bits_eqb by dlia.
    rewrite andb_comm. f_equal. f_equal. destruct (Z.eqb_spec i n); [subst; apply Z.eqb_refl|].
    apply Z.eqb_neq. dlia.
  - destruct (Z.eqb_spec i n); [by subst|done].
Qed.

Lemma demo_laws rd wr : @KernelLaws (demo_api rd wr).
Proof.
  split; cbn.
  - intros m size Hs. pose proof (scan_first (fun i => negb (bit m i)) 0 (Z.to_nat size)) as HH.
    by rewrite Z.add_0_l, Z2Nat.id in HH by lia.
  - apply demo_set_bit_law.
  - apply demo_clear_bit_law.
  - done.
  - intros d Hd. dlia.
  - intros size bits Hs. destruct (bool_decide _) eqn:E; [|done].
    apply bool_decide_eq_true in E. simplify_eq. rewrite !elem_of_cons, elem_of_nil in E.
    destruct E as [->|[->|[->|[->|[]]]]]; cbn; lia.
  - done.
  - intros i mode rdev. by destruct i.
  - intros st i [= <-]. done.
  - intros i dir mode. by destruct i.
  - lia.
Qed.

(** The interface without I/O errors. *)
Definition good_api : KernelApi := demo_api (fun _ => true) (fun _ => true).
Definition good_laws : @KernelLaws good_api := demo_laws _ _.

(** ** A small mounted file system

    Sixteen blocks of 512 bytes: super block, one block for each map, one block of
    eight inodes, twelve data blocks. Inodes 0 and 1 are in use, the data blocks are
    free. The witnesses of the kernel-side theorems start from here. *)

Definition demo_sbi : gas_sb_info :=
  SbInfo MAGIC_NUMBER 512 1 1 1 16 8 8 4096 1 [Some 1; Some 2] 0 1 0 0 3 4.

Definition demo_bam : bytes := [Byte.x0f; Byte.x00] ++ memset_buf Byte.xff 510.
Definition demo_iam : bytes := [Byte.x03] ++ memset_buf Byte.xff 511.

Definition demo_blocks : gmap Z bytes :=
  <[1 := demo_bam]> (<[2 := demo_iam]>
    (list_to_map ((fun b => (b, zeroes 512)) <$> seqZ 0 16))).

Definition demo_root : inode :=
  Inode 1 (S_IFDIR + 0x1ED) 2 1000 1000 520 1600000000 1600000001 1600000002 0
    (5 :: replicate 8 0) (Some gas_a_ops) (Some gas_dir_inode_ops) (Some gas_dir_ops).

Definition demo_state : kst :=
  Kst (SuperBlock MAGIC_NUMBER GAS_LINK_MAX (Some 1)) 9 (Some demo_sbi) demo_blocks demo_blocks ∅ ∅ {[1 := demo_root]} ∅.

Lemma demo_mounted : mounted demo_state demo_sbi.
Proof.
  split; [done| |].
  - split; vm_compute; try done; by repeat split.
  - intros b Hb. change (s_nblocks demo_sbi) with 16 in Hb. unfold is_block.
    assert (Hall : Forall (fun b => exists m, k_buf demo_state !! b = Some m /\
      blen m = 2 ^ s_blocksize_bits demo_state) (seqZ 0 16)).
    { repeat (constructor; [eexists; split; vm_compute; reflexivity|]). constructor. }
    rewrite List.Forall_forall in Hall. apply Hall. apply list_elem_of_In, elem_of_seqZ. lia.
Qed.
