(* ===== verification/InodeTab.v ===== *)
(** * The inode table (kern/gas_inode.c, kern/gas.h)

    Where an inode lives on disk, the transfer of an in-memory inode to and from its
    64 bytes, and the super-block operations built on it: [gas_update_inode],
    [gas_write_inode], [gas_inode_fill], [gas_iget]. An inode pointer is the key of
    the inode in [k_inodes]; a [struct gas_inode *] is a buffer and an offset. *)

From S2P Require Import Prelude Mem Layout Kernel.

(** [gas_inode_block]: division by [s_inodes_per_block]. *)
Definition gas_inode_block (sbi : gas_sb_info) (ino : Z) : option Z :=
  if s_inodes_per_block sbi =? 0 then None
  else Some (u64 (s_inode_list_start sbi + ino / s_inodes_per_block sbi)).

Definition gas_inode_offset (sbi : gas_sb_info) (ino : Z) : option Z :=
  if s_inodes_per_block sbi =? 0 then None
  else Some (u64 (DI.sizeof * (ino mod s_inodes_per_block sbi))).

(** [GAS_INODE(inode)->blkaddr] and its copies to and from the disk inode. *)
Fixpoint put_blkaddr (m : bytes) (off k : Z) (l : list Z) : option bytes :=
  match l with
  | [] => Some m
  | v :: l => m ← f_set m off (DI.i_blkaddr k) v; put_blkaddr m off (k + 1) l
  end.

Fixpoint get_blkaddr (m : bytes) (off k : Z) (n : nat) : option (list Z) :=
  match n with
  | O => Some []
  | S n => v ← f_get m off (DI.i_blkaddr k); l ← get_blkaddr m off (k + 1) n; Some (v :: l)
  end.

Definition is_device (mode : Z) : bool := S_ISCHR mode || S_ISBLK mode.

Section inode_table.
Context `{KernelApi}.

(** [gas_get_inode]: the buffer with the inode and its offset, or NULL. *)
Definition gas_get_inode (ino : Z) : K (option (Z * Z)) :=
  sbi ← GAS_SB;
  block ← klift (gas_inode_block sbi ino);
  offset ← klift (gas_inode_offset sbi ino);
  p ← sb_bread block;
  mret (p' ← p; Some (p', offset)).

(** The words written to [i_blkaddr]: the device number or the block pointers. *)
Definition disk_blkaddr (i : inode) : option (list Z) :=
  if is_device (i_mode i) then Some (new_encode_dev (i_rdev i) :: replicate 8 0)
  else if Nat.eqb (length (blkaddr i)) 9 then Some (blkaddr i) else None.

(** The stores of [gas_update_inode] into the disk inode at [off]. *)
Definition inode_store (i : inode) (m : bytes) (off : Z) : option bytes :=
  m ← f_set m off DI.i_size (i_size i);
  m ← f_set m off DI.i_mode (i_mode i);
  m ← f_set m off DI.i_ctime (i_ctime i);
  m ← f_set m off DI.i_atime (i_atime i);
  m ← f_set m off DI.i_mtime (i_mtime i);
  m ← f_set m off DI.i_uid (i_uid i);
  m ← f_set m off DI.i_gid (i_gid i);
  m ← f_set m off DI.i_nlink (i_nlink i);
  l ← disk_blkaddr i;
  put_blkaddr m off 0 l.

Definition gas_update_inode (inode : Z) : K (option Z) :=
  i ← iref inode;
  gnode ← gas_get_inode (i_ino i);
  match gnode with
  | None => mret None
  | Some (bh, off) =>
      m ← bh_data bh;
      m ← klift (inode_store i m off);
      _ ← bh_put bh m;
      _ ← mark_buffer_dirty bh;
      mret (Some bh)
  end.

(** [sync] is [ctrl->sync_mode == WB_SYNC_ALL]. *)
Definition gas_write_inode (inode : Z) (sync : bool) : K (option errno) :=
  bh ← gas_update_inode inode;
  match bh with
  | None => mret (Some EIO)
  | Some bh =>
      d ← kget k_dirty;
      err ← (if sync && bool_decide (bh ∈ d) then
               ok ← sync_dirty_buffer bh;
               mret (if (ok : bool) then None else Some EIO)
             else mret None);
      _ ← brelse (Some bh);
      mret err
  end.

(** [gas_inode_fill]: the in-memory inode [info] filled from the disk inode. *)
Definition gas_inode_fill (info : inode) (m : bytes) (off : Z) : option inode :=
  mode ← f_get m off DI.i_mode;
  size ← f_get m off DI.i_size;
  ctime ← f_get m off DI.i_ctime;
  atime ← f_get m off DI.i_atime;
  mtime ← f_get m off DI.i_mtime;
  uid ← f_get m off DI.i_uid;
  gid ← f_get m off DI.i_gid;
  nlink ← f_get m off DI.i_nlink;
  l ← get_blkaddr m off 0 9;
  Some (Inode (i_ino info) mode nlink uid gid size atime mtime ctime (i_rdev info) l
          (a_ops info) (i_op info) (i_fop info)).

Definition set_ops (i : inode) (a o f : option optable) : inode :=
  Inode (i_ino i) (i_mode i) (i_nlink i) (i_uid i) (i_gid i) (i_size i) (i_atime i) (i_mtime i)
    (i_ctime i) (i_rdev i) (blkaddr i) a o f.

Definition gas_set_inode (i : inode) (rdev : Z) : inode :=
  let i := set_ops i (Some gas_a_ops) (i_op i) (i_fop i) in
  if S_ISREG (i_mode i) then set_ops i (a_ops i) (Some gas_file_inode_ops) (Some gas_file_ops)
  else if S_ISDIR (i_mode i) then set_ops i (a_ops i) (Some gas_dir_inode_ops) (Some gas_dir_ops)
  else if S_ISLNK (i_mode i) then set_ops i (a_ops i) (Some gas_symlink_inode_ops) (i_fop i)
  else
    let i := set_ops i None (i_op i) (i_fop i) in
    init_special_inode i (i_mode i) rdev.

Definition set_ino (ino : Z) (i : inode) : inode :=
  Inode ino (i_mode i) (i_nlink i) (i_uid i) (i_gid i) (i_size i) (i_atime i) (i_mtime i)
    (i_ctime i) (i_rdev i) (blkaddr i) (a_ops i) (i_op i) (i_fop i).

(** [gas_iget]: a cached inode, or a new one read from the table. *)
Definition gas_iget (ino : Z) : K (errno + Z) :=
  sbi ← GAS_SB;
  cached ← kget (fun s => k_inodes s !! ino);
  match cached with
  | Some _ => mret (inr ino)
  | None =>
      fresh ← kget alloc_inode;
      match fresh with
      | None => mret (inl ENOMEM)
      | Some info =>
          block ← klift (gas_inode_block sbi ino);
          offset ← klift (gas_inode_offset sbi ino);
          bh ← sb_bread block;
          match bh with
          | None => mret (inl EIO)
          | Some bh =>
              m ← bh_data bh;
              i ← klift (gas_inode_fill (set_ino ino info) m offset);
              _ ← brelse (Some bh);
              dev ← klift (blkaddr i !! 0%nat);
              _ ← iput_data ino (gas_set_inode i (new_decode_dev dev));
              mret (inr ino)
          end
      end
  end.
End inode_table.

(** ** Writing and reading the 64 bytes *)

Lemma put_blkaddr_only m off k l m' :
  put_blkaddr m off k l = Some m' -> 0 <= k ->
  only_in (off + 28 + 4 * k) (off + 28 + 4 * (k + Z.of_nat (length l))) m m'.
Proof.
  revert m k. induction l as [|v l IH]; intros m k; cbn [put_blkaddr length].
  - intros [= <-] _. apply only_in_refl.
  - destruct (f_set m off (DI.i_blkaddr k) v) as [m1|] eqn:E; [|done]. cbn [mbind option_bind].
    intros H Hk. eapply only_in_trans.
    + eapply only_in_weaken; [by apply only_in_f_set in E|simpl; lia|simpl; lia].
    + eapply only_in_weaken; [by apply IH in H; [|lia]|lia|lia].
Qed.

Lemma put_blkaddr_get m off k l m' :
  put_blkaddr m off k l = Some m' -> 0 <= k -> get_blkaddr m' off k (length l) = Some (u32 <$> l).
Proof.
  revert m k. induction l as [|v l IH]; intros m k; cbn [put_blkaddr length]; [done|].
  destruct (f_set m off (DI.i_blkaddr k) v) as [m1|] eqn:E; [|done]. cbn [mbind option_bind].
  intros H Hk. cbn [get_blkaddr]. rewrite (IH m1 (k + 1)) by (done || lia).
  rewrite (only_in_get _ _ _ _ _ _ (put_blkaddr_only _ _ _ _ _ H ltac:(lia))) by (simpl; lia).
  by rewrite (f_get_set_same _ _ _ _ _ E).
Qed.

Lemma put_blkaddr_fits m off k l :
  0 <= off -> 0 <= k -> off + 28 + 4 * (k + Z.of_nat (length l)) <= blen m ->
  exists m', put_blkaddr m off k l = Some m'.
Proof.
  revert m k. induction l as [|v l IH]; intros m k H0 Hk Hl; cbn [put_blkaddr]; [by eexists|].
  cbn [length] in Hl. destruct (f_set_fits m off (DI.i_blkaddr k) v) as (m1 & -> & L).
  { split; simpl; lia. }
  cbn [mbind option_bind]. apply IH; lia.
Qed.

(** The in-memory inode that a disk inode written from [i] with pointers [l] fills. *)
Definition filled (info i : inode) (l : list Z) : inode :=
  Inode (i_ino info) (u16 (i_mode i)) (u16 (i_nlink i)) (u32 (i_uid i)) (u32 (i_gid i))
    (u32 (i_size i)) (u32 (i_atime i)) (u32 (i_mtime i)) (u32 (i_ctime i)) (i_rdev info)
    (u32 <$> l) (a_ops info) (i_op info) (i_fop info).

Section inode_store.
Context `{KernelApi}.

Lemma disk_blkaddr_length i l : disk_blkaddr i = Some l -> length l = 9%nat.
Proof.
  unfold disk_blkaddr. destruct (is_device _); [by intros [= <-]|].
  destruct (Nat.eqb_spec (length (blkaddr i)) 9); [|done]. by intros [= <-].
Qed.

(** The ten writes behind [inode_store]. *)
Ltac inode_store_inv H :=
  unfold inode_store in H;
  repeat match type of H with
  | (match ?o with Some _ => _ | None => None end) = Some _ => fail
  | (?o ≫= _) = Some _ =>
      let m := fresh "m" in let E := fresh "E" in
      destruct o as [m|] eqn:E; [cbn [mbind option_bind] in H|discriminate H]
  end.

Lemma inode_store_only i m off m' :
  inode_store i m off = Some m' -> only_in off (off + DI.sizeof) m m'.
Proof.
  intros H0. inode_store_inv H0.
  apply put_blkaddr_only in H0; [|lia].
  match goal with E : disk_blkaddr _ = Some _ |- _ => apply disk_blkaddr_length in E end.
  repeat match goal with E : f_set _ _ _ _ = Some _ |- _ => apply only_in_f_set in E end.
  unfold DI.sizeof.
  repeat (eapply only_in_trans; [eapply only_in_weaken; [eassumption|simpl; lia|simpl; lia]|]).
  apply only_in_refl.
Qed.

Lemma inode_store_fill info i m off m' :
  inode_store i m off = Some m' ->
  exists l, disk_blkaddr i = Some l /\ gas_inode_fill info m' off = Some (filled info i l).
Proof.
  intros H0. inode_store_inv H0.
  match goal with E : disk_blkaddr _ = Some ?l |- _ =>
    exists l; split; [done|]; pose proof (disk_blkaddr_length _ _ E) as Hl end.
  assert (HB := put_blkaddr_get _ _ _ _ _ H0 ltac:(lia)). rewrite Hl in HB.
  apply put_blkaddr_only in H0; [|lia].
  unfold gas_inode_fill.
  rewrite !(only_in_get _ _ _ _ _ _ H0) by (simpl; lia).
  repeat first
    [ erewrite f_get_set_same by eassumption
    | match goal with E : f_set _ _ ?f _ = Some ?m2 |- context [f_get ?m2 _ ?g] =>
        rewrite (f_get_set_other _ _ _ f g _ _ E) by (simpl; lia) end ].
  cbn [mbind option_bind]. rewrite HB. done.
Qed.

Lemma inode_store_fits i m off :
  0 <= off -> off + DI.sizeof <= blen m -> is_Some (disk_blkaddr i) ->
  exists m', inode_store i m off = Some m'.
Proof.
  unfold DI.sizeof. intros H0 H1 [l El]. unfold inode_store.
  assert (Hs : forall b f v, blen b = blen m -> 0 <= f_off f -> f_off f + Z.of_nat (f_size f) <= 64 ->
    exists b', f_set b off f v = Some b' /\ blen b' = blen m).
  { intros b f v Hb Hf1 Hf2. destruct (f_set_fits b off f v) as (b' & -> & L); [split; lia|].
    exists b'. split; [done|lia]. }
  repeat match goal with
  | |- exists _, (f_set ?b off ?f ?v ≫= _) = _ =>
      let b' := fresh "b" in let L := fresh "L" in
      destruct (Hs b f v) as (b' & -> & L);
        [first [done|assumption]|simpl; lia|simpl; lia|cbn [mbind option_bind]]
  end.
  rewrite El. cbn [mbind option_bind]. apply put_blkaddr_fits; [lia|lia|].
  rewrite (disk_blkaddr_length _ _ El). lia.
Qed.
End inode_store.

(** ** Slots of the table *)

Definition inode_blk (sbi : gas_sb_info) (ino : Z) : Z :=
  s_inode_list_start sbi + ino / s_inodes_per_block sbi.
Definition inode_off (sbi : gas_sb_info) (ino : Z) : Z :=
  DI.sizeof * (ino mod s_inodes_per_block sbi).

Lemma inode_slot bits sbi ino :
  geometry bits sbi -> 0 <= ino < s_ninodes sbi ->
  gas_inode_block sbi ino = Some (inode_blk sbi ino) /\
  gas_inode_offset sbi ino = Some (inode_off sbi ino) /\
  s_inode_list_start sbi <= inode_blk sbi ino < s_data_block_start sbi /\
  0 <= inode_off sbi ino /\ inode_off sbi ino + DI.sizeof <= 2 ^ bits.
Proof.
  intros G Hi. pose proof (g_counts _ _ G). pose proof (g_list _ _ G). pose proof (g_data _ _ G).
  pose proof (g_nblocks _ _ G). pose proof (g_ino_room _ _ G). pose proof (g_ipb _ _ G) as Hipb.
  unfold gas_inode_block, gas_inode_offset, inode_blk, inode_off, DI.sizeof in *.
  assert (Hr : 0 < s_inodes_per_block sbi /\ 64 * s_inodes_per_block sbi <= 2 ^ bits <= 4096).
  { destruct (geometry_pow _ _ G) as [_ Hp]. simpl in Hp. dlia. }
  generalize dependent (2 ^ bits). intros n Hipb Hr. clear Hipb G.
  rewrite (proj2 (Z.eqb_neq _ 0)) by lia.
  assert (0 <= ino / s_inodes_per_block sbi < s_inode_blocks sbi).
  { split; [apply Z.div_pos; lia|apply Z.div_lt_upper_bound; nia]. }
  pose proof (Z.mod_pos_bound ino (s_inodes_per_block sbi) ltac:(lia)).
  assert (2 ^ 32 < 2 ^ 64) by (vm_compute; done).
  rewrite !u64_small by lia. repeat split; lia.
Qed.

(** Two inodes never share bytes of the table. *)
Lemma inode_slots_disjoint bits sbi i j :
  geometry bits sbi -> 0 <= i -> 0 <= j -> i <> j ->
  inode_blk sbi i <> inode_blk sbi j \/
  inode_off sbi i + DI.sizeof <= inode_off sbi j \/ inode_off sbi j + DI.sizeof <= inode_off sbi i.
Proof.
  intros G Hi Hj Hne. pose proof (g_ipb _ _ G) as Hipb.
  assert (Hr : 0 < s_inodes_per_block sbi).
  { destruct (geometry_pow _ _ G) as [_ Hp]. unfold DI.sizeof in *. simpl in Hp. dlia. }
  unfold inode_blk, inode_off, DI.sizeof.
  destruct (Z.eq_dec (i / s_inodes_per_block sbi) (j / s_inodes_per_block sbi)) as [E|]; [right|lia].
  pose proof (Z.div_mod i (s_inodes_per_block sbi) ltac:(lia)).
  pose proof (Z.div_mod j (s_inodes_per_block sbi) ltac:(lia)). rewrite E in *. lia.
Qed.

Section inode_ops.
Context `{KernelLaws}.

Lemma gas_get_inode_run s sbi ino (Q : option (Z * Z) -> kst -> Prop) :
  mounted s sbi -> 0 <= ino < s_ninodes sbi ->
  (read_ok (inode_blk sbi ino) = true ->
   Q (Some (inode_blk sbi ino, inode_off sbi ino))
     (with_ref (k_ref s ⊎ {[+ inode_blk sbi ino +]}) s)) ->
  (read_ok (inode_blk sbi ino) = false -> Q None s) ->
  kwp (gas_get_inode ino) s Q.
Proof.
  intros M Hi Hs Hf. destruct (inode_slot _ _ _ (mt_geom _ _ M) Hi) as (E1 & E2 & Hb & _).
  pose proof (g_nblocks _ _ (mt_geom _ _ M)). pose proof (g_counts _ _ (mt_geom _ _ M)).
  pose proof (g_list _ _ (mt_geom _ _ M)).
  unfold gas_get_inode. apply kwp_bind. eapply kwp_sb; [apply M|].
  apply kwp_bind. eapply kwp_lift; [done|]. apply kwp_bind. eapply kwp_lift; [done|].
  apply kwp_bind. apply kwp_bread.
  - intros Hr _. apply kwp_ret. by apply Hs.
  - intros [Hr|Hn]; apply kwp_ret; [by apply Hf|].
    destruct (mt_buf _ _ M (inode_blk sbi ino)) as (m & Hm & _); [lia|congruence].
Qed.

(** [gas_update_inode] stores the inode in its slot and marks the buffer, or fails and
    changes nothing. *)
Lemma gas_update_inode_run s sbi ino i (Q : option Z -> kst -> Prop) :
  mounted s sbi -> 0 <= ino < s_ninodes sbi -> k_inodes s !! ino = Some i -> i_ino i = ino ->
  is_Some (disk_blkaddr i) ->
  (forall m m', read_ok (inode_blk sbi ino) = true -> k_buf s !! inode_blk sbi ino = Some m ->
     inode_store i m (inode_off sbi ino) = Some m' ->
     Q (Some (inode_blk sbi ino))
       (with_dirty ({[inode_blk sbi ino]} ∪ k_dirty s)
         (with_buf (<[inode_blk sbi ino := m']> (k_buf s))
           (with_ref (k_ref s ⊎ {[+ inode_blk sbi ino +]}) s)))) ->
  (read_ok (inode_blk sbi ino) = false -> Q None s) ->
  kwp (gas_update_inode ino) s Q.
Proof.
  intros M Hi Hc Hino Hd Hs Hf.
  destruct (inode_slot _ _ _ (mt_geom _ _ M) Hi) as (_ & _ & Hb & Ho & Ho').
  pose proof (g_nblocks _ _ (mt_geom _ _ M)). pose proof (g_counts _ _ (mt_geom _ _ M)).
  pose proof (g_list _ _ (mt_geom _ _ M)).
  unfold gas_update_inode. apply kwp_bind. eapply kwp_iref; [done|]. rewrite Hino.
  apply kwp_bind. eapply gas_get_inode_run; [done|done|intros Hr|intros Hr].
  - destruct (mt_buf _ _ M (inode_blk sbi ino)) as (m & Hm & Hl); [lia|].
    destruct (inode_store_fits i m (inode_off sbi ino)) as (m' & Em); [done|by rewrite Hl|done|].
    apply kwp_bind. eapply kwp_data; [done|]. apply kwp_bind. eapply kwp_lift; [done|].
    apply kwp_bind, kwp_mod, kwp_bind, kwp_mod, kwp_ret. by eapply Hs.
  - apply kwp_ret. by apply Hf.
Qed.
End inode_ops.

(** ** What the inode table promises *)

(** The attributes a disk inode can represent exactly. *)
Record representable (i : inode) : Prop := {
  rp_mode : 0 <= i_mode i < 2 ^ 16; rp_nlink : 0 <= i_nlink i < 2 ^ 16;
  rp_uid : 0 <= i_uid i < 2 ^ 32; rp_gid : 0 <= i_gid i < 2 ^ 32;
  rp_size : 0 <= i_size i < 2 ^ 32; rp_atime : 0 <= i_atime i < 2 ^ 32;
  rp_mtime : 0 <= i_mtime i < 2 ^ 32; rp_ctime : 0 <= i_ctime i < 2 ^ 32;
  rp_rdev : 0 <= i_rdev i < 2 ^ 32; rp_len : length (blkaddr i) = 9%nat;
  rp_blk : Forall (fun v => 0 <= v < 2 ^ 32) (blkaddr i) }.

(** Equality of the attributes that persist: a device keeps its number, everything
    else its block pointers. *)
Definition same_persistent (i j : inode) : Prop :=
  i_mode i = i_mode j /\ i_nlink i = i_nlink j /\ i_uid i = i_uid j /\ i_gid i = i_gid j /\
  i_size i = i_size j /\ i_atime i = i_atime j /\ i_mtime i = i_mtime j /\ i_ctime i = i_ctime j /\
  if is_device (i_mode i) then i_rdev i = i_rdev j else blkaddr i = blkaddr j.

Lemma u32_list_small l : Forall (fun v => 0 <= v < 2 ^ 32) l -> u32 <$> l = l.
Proof. induction 1; cbn; [done|]. f_equal; [by apply u32_small|done]. Qed.

Lemma get_blkaddr_length m off k n l : get_blkaddr m off k n = Some l -> length l = n.
Proof.
  revert k l. induction n as [|n IH]; intros k l; cbn [get_blkaddr]; [by intros [= <-]|].
  destruct (f_get _ _ _); [|done]. cbn [mbind option_bind].
  destruct (get_blkaddr m off (k + 1) n) eqn:E; [|done]. intros [= <-]. cbn. f_equal. eauto.
Qed.

Lemma gas_inode_fill_length info m off i :
  gas_inode_fill info m off = Some i -> length (blkaddr i) = 9%nat.
Proof.
  unfold gas_inode_fill. intros H.
  repeat match type of H with
  | (?o ≫= _) = Some _ => let E := fresh "E" in destruct o eqn:E; [cbn [mbind option_bind] in H|done]
  end.
  simplify_eq. cbn [blkaddr]. by eapply get_blkaddr_length.
Qed.

Lemma get_blkaddr_total m off k n :
  0 <= off -> 0 <= k -> off + 28 + 4 * (k + Z.of_nat n) <= blen m -> get_blkaddr m off k n <> None.
Proof.
  revert k. induction n as [|n IH]; intros k H0 Hk Hl; cbn [get_blkaddr]; [done|].
  destruct (f_get_fits m off (DI.i_blkaddr k)) as (v & ->); [split; simpl; lia|].
  cbn [mbind option_bind]. specialize (IH (k + 1) ltac:(lia) ltac:(lia) ltac:(lia)).
  by destruct (get_blkaddr m off (k + 1) n).
Qed.

Lemma gas_inode_fill_total info m off :
  0 <= off -> off + DI.sizeof <= blen m -> gas_inode_fill info m off <> None.
Proof.
  unfold DI.sizeof. intros H0 H1. unfold gas_inode_fill.
  assert (Hg : forall f, 0 <= f_off f -> f_off f + Z.of_nat (f_size f) <= 64 -> exists v, f_get m off f = Some v).
  { intros f Hf1 Hf2. apply f_get_fits. split; lia. }
  repeat match goal with
  | |- (f_get ?b off ?f ≫= _) <> _ =>
      let v := fresh "v" in destruct (Hg f) as (v & ->); [simpl; lia|simpl; lia|cbn [mbind option_bind]]
  end.
  pose proof (get_blkaddr_total m off 0 9 H0 ltac:(lia) ltac:(lia)).
  by destruct (get_blkaddr m off 0 9).
Qed.

Section inode_laws.
Context `{KernelLaws}.

Lemma gas_set_inode_attrs i rdev :
  let j := gas_set_inode i rdev in
  i_ino j = i_ino i /\ i_mode j = i_mode i /\ i_nlink j = i_nlink i /\ i_uid j = i_uid i /\
  i_gid j = i_gid i /\ i_size j = i_size i /\ i_atime j = i_atime i /\ i_mtime j = i_mtime i /\
  i_ctime j = i_ctime i /\ blkaddr j = blkaddr i /\
  i_rdev j = if is_device (i_mode i) then rdev else i_rdev i.
Proof.
  unfold gas_set_inode, is_device, S_ISREG, S_ISDIR, S_ISLNK. cbn [i_mode set_ops].
  destruct (Z.eqb_spec (Z.land (i_mode i) S_IFMT) S_IFREG) as [E1|N1].
  { unfold S_ISCHR, S_ISBLK. rewrite E1. cbn. by repeat split. }
  destruct (Z.eqb_spec (Z.land (i_mode i) S_IFMT) S_IFDIR) as [E2|N2].
  { unfold S_ISCHR, S_ISBLK. rewrite E2. cbn. by repeat split. }
  destruct (Z.eqb_spec (Z.land (i_mode i) S_IFMT) S_IFLNK) as [E3|N3].
  { unfold S_ISCHR, S_ISBLK. rewrite E3. cbn. by repeat split. }
  match goal with |- context [init_special_inode ?a ?b ?c] =>
    destruct (init_special_inode_law a b c) as ((? & ? & ? & ? & ? & ? & ?) & ? & ? & ? & ?) end.
  cbn in *. done.
Qed.

Lemma disk_blkaddr_representable i :
  representable i -> exists l, disk_blkaddr i = Some l /\
    u32 <$> l = l /\ l !! 0%nat = Some (if is_device (i_mode i) then new_encode_dev (i_rdev i)
                                   else default 0 (blkaddr i !! 0%nat)) /\
    (is_device (i_mode i) = false -> l = blkaddr i).
Proof.
  intros R. unfold disk_blkaddr. destruct (is_device _).
  - eexists. split; [done|]. split; [|done]. cbn [fmap list_fmap].
    destruct (decode_encode_dev (i_rdev i)) as [? _]; [apply R|].
    rewrite (u32_small (new_encode_dev _)) by done. done.
  - rewrite (rp_len _ R). cbn. eexists. split; [done|]. split; [by apply u32_list_small, R|].
    split; [|done]. pose proof (rp_len _ R). by destruct (blkaddr i).
Qed.

(** What [gas_inode_fill] and [gas_set_inode] rebuild from a stored inode. *)
Lemma stored_inode_persists i l info rdev :
  representable i -> disk_blkaddr i = Some l -> u32 <$> l = l ->
  (is_device (i_mode i) = false -> l = blkaddr i) -> rdev = new_decode_dev (default 0 (l !! 0%nat)) ->
  same_persistent i (gas_set_inode (filled info i l) rdev).
Proof.
  intros R Hl Hu Hb ->. destruct R.
  destruct (gas_set_inode_attrs (filled info i l) (new_decode_dev (default 0 (l !! 0%nat))))
    as (E1 & E2 & E3 & E4 & E5 & E6 & E7 & E8 & E9 & E10 & E11).
  unfold same_persistent. rewrite E2, E3, E4, E5, E6, E7, E8, E9, E10, E11.
  cbn [filled i_mode i_nlink i_uid i_gid i_size i_atime i_mtime i_ctime i_rdev blkaddr].
  rewrite !u16_small, !u32_small by done. repeat (split; [done|]).
  unfold disk_blkaddr in Hl. destruct (is_device (i_mode i)) eqn:D.
  - simplify_eq. cbn. symmetry. by apply decode_encode_dev.
  - rewrite Hu. symmetry. by apply Hb.
Qed.

(** [gas_iget] of an inode that is not cached: read, or failed without effect. *)
Lemma gas_iget_run s sbi ino info m i (Q : errno + Z -> kst -> Prop) :
  mounted s sbi -> 0 <= ino < s_ninodes sbi -> k_inodes s !! ino = None ->
  alloc_inode s = Some info -> k_buf s !! inode_blk sbi ino = Some m ->
  gas_inode_fill (set_ino ino info) m (inode_off sbi ino) = Some i ->
  (read_ok (inode_blk sbi ino) = true ->
   forall dev, blkaddr i !! 0%nat = Some dev ->
   Q (inr ino) (with_inodes (<[ino := gas_set_inode i (new_decode_dev dev)]> (k_inodes s)) s)) ->
  (read_ok (inode_blk sbi ino) = false -> Q (inl EIO) s) ->
  kwp (gas_iget ino) s Q.
Proof.
  intros M Hi Hc Ha Hm Hfill Hs Hf.
  destruct (inode_slot _ _ _ (mt_geom _ _ M) Hi) as (E1 & E2 & _).
  assert (Hdev : exists dev, blkaddr i !! 0%nat = Some dev).
  { apply lookup_lt_is_Some. rewrite (gas_inode_fill_length _ _ _ _ Hfill). lia. }
  destruct Hdev as [dev Hdev].
  unfold gas_iget. apply kwp_bind. eapply kwp_sb; [apply M|]. apply kwp_bind, kwp_get. rewrite Hc.
  apply kwp_bind, kwp_get. rewrite Ha. apply kwp_bind. eapply kwp_lift; [done|].
  apply kwp_bind. eapply kwp_lift; [done|]. apply kwp_bind, kwp_bread.
  - intros Hr _. apply kwp_bind. eapply kwp_data; [done|]. apply kwp_bind. eapply kwp_lift; [done|].
    apply kwp_bind, kwp_mod, kwp_bind. eapply kwp_lift; [done|]. apply kwp_bind, kwp_mod, kwp_ret.
    specialize (Hs Hr dev Hdev). cbn. replace (_ ∖ _) with (k_ref s) by multiset_solver.
    by destruct s.
  - intros [Hr|Hn]; apply kwp_ret; [by apply Hf|congruence].
Qed.
End inode_laws.

Section inode_claims.
Context `{KernelLaws}.

(** The state after the inode has been stored in its slot. *)
Definition after_store (s : kst) (b : Z) (m' : bytes) : kst :=
  with_dirty ({[b]} ∪ k_dirty s) (with_buf (<[b := m']> (k_buf s)) s).

Lemma insert_alter_buf (buf : gmap Z bytes) b m (x : option bytes) :
  partial_alter (fun _ => x) b (<[b := m]> buf) = partial_alter (fun _ => x) b buf.
Proof.
  apply map_eq. intros c. destruct (decide (c = b)) as [->|]; [by rewrite !lookup_partial_alter_eq|].
  by rewrite !lookup_partial_alter_ne, lookup_insert_ne.
Qed.

Lemma gas_write_inode_run s sbi ino i (sync : bool) (Q : option errno -> kst -> Prop) :
  mounted s sbi -> 0 <= ino < s_ninodes sbi -> k_inodes s !! ino = Some i -> i_ino i = ino ->
  is_Some (disk_blkaddr i) ->
  (forall m m', read_ok (inode_blk sbi ino) = true -> k_buf s !! inode_blk sbi ino = Some m ->
     inode_store i m (inode_off sbi ino) = Some m' ->
     let b := inode_blk sbi ino in
     let s1 := after_store s b m' in
     if sync then
       let s2 := with_dirty (k_dirty s1 ∖ {[b]}) s1 in
       if write_ok b then Q None (with_disk (<[b := m']> (k_disk s)) s2)
       else Q (Some EIO) (with_buf (partial_alter (fun _ => k_disk s !! b) b (k_buf s)) s2)
     else Q None s1) ->
  (read_ok (inode_blk sbi ino) = false -> Q (Some EIO) s) ->
  kwp (gas_write_inode ino sync) s Q.
Proof.
  intros M Hi Hc Hino Hd Hs Hf. unfold gas_write_inode. apply kwp_bind.
  eapply gas_update_inode_run; [done..|intros m m' Hr Hm Hst|intros Hr].
  - specialize (Hs m m' Hr Hm Hst). cbv zeta in Hs. unfold after_store in Hs.
    set (b := inode_blk sbi ino) in *. apply kwp_bind, kwp_get. cbn [k_dirty with_dirty].
    rewrite bool_decide_eq_true_2 by set_solver. destruct sync; cbn [andb].
    + apply kwp_bind, kwp_bind. unfold kwp at 1, sync_dirty_buffer. cbn.
      rewrite lookup_insert_eq. cbn. destruct (write_ok b).
      * eexists _, _. split; [done|]. apply kwp_ret, kwp_bind, kwp_mod, kwp_ret. cbn.
        replace (_ ∖ _) with (k_ref s) by multiset_solver. by destruct s.
      * eexists _, _. split; [done|]. apply kwp_ret, kwp_bind, kwp_mod, kwp_ret. cbn.
        replace (_ ∖ _) with (k_ref s) by multiset_solver. rewrite insert_alter_buf. by destruct s.
    + apply kwp_bind, kwp_ret, kwp_bind, kwp_mod, kwp_ret. cbn.
      replace (_ ∖ _) with (k_ref s) by multiset_solver. by destruct s.
  - apply kwp_ret. by apply Hf.
Qed.

Lemma mounted_after_store s sbi b m m' :
  mounted s sbi -> k_buf s !! b = Some m -> blen m' = blen m -> mounted (after_store s b m') sbi.
Proof.
  intros [M1 M2 M3] Hm Hl. split; [done|done|]. cbn. intros c Hc.
  destruct (M3 c Hc) as (mc & Ec & Lc). destruct (Z.eq_dec c b) as [->|].
  - exists m'. rewrite lookup_insert_eq. split; [done|]. unfold is_block in *. simplify_eq. congruence.
  - exists mc. by rewrite lookup_insert_ne.
Qed.

(** [m] holds the inode [i] at [off]. *)
Definition stores (m : bytes) (off : Z) (i : inode) : Prop :=
  exists l, disk_blkaddr i = Some l /\ forall info, gas_inode_fill info m off = Some (filled info i l).

Lemma inode_store_stores i m off m' : inode_store i m off = Some m' -> stores m' off i.
Proof.
  intros Hst. destruct (inode_store_fill i _ _ _ _ Hst) as (l & Hl & _). exists l. split; [done|].
  intros info. destruct (inode_store_fill info _ _ _ _ Hst) as (l' & Hl' & Hf). by simplify_eq.
Qed.

(** An inode that has been stored in a readable block can be read again. *)
Lemma gas_iget_stored s sbi ino i m info : mounted s sbi -> 0 <= ino < s_ninodes sbi -> i_ino i = ino -> representable i ->
  read_ok (inode_blk sbi ino) = true -> alloc_inode (with_inodes (delete ino (k_inodes s)) s) = Some info ->
  k_buf s !! inode_blk sbi ino = Some m -> stores m (inode_off sbi ino) i ->
  kwp (gas_iget ino) (with_inodes (delete ino (k_inodes s)) s) (fun r s2 => r = inr ino /\ exists j,
    k_inodes s2 !! ino = Some j /\ i_ino j = ino /\ same_persistent i j).
Proof.
  intros [M1 M2 M3] Hi <- R Hr Hal Hm (l' & Hl' & Hf). destruct (disk_blkaddr_representable i R) as (l & Hl & Hu & Hl0 & Hb). rewrite Hl in Hl'. injection Hl' as <-.
  eapply gas_iget_run; cbn; [by split|done|apply lookup_delete_eq|apply Hal|done|apply Hf| |congruence].
  intros _ dev Hdev. split; [done|]. eexists. rewrite lookup_insert_eq. split; [done|]. split.
  - by destruct (gas_set_inode_attrs (filled (set_ino (i_ino i) info) i l) (new_decode_dev dev)) as (-> & _).
  - apply stored_inode_persists; [done..|]. cbn in Hdev. rewrite Hu in Hdev. by rewrite Hdev.
Qed.

End inode_claims.

(** A slot whose buffer changed only in another slot decodes the same. *)
Lemma fill_only_in info m m' off lo hi :
  only_in lo hi m m' -> off + DI.sizeof <= lo \/ hi <= off ->
  gas_inode_fill info m' off = gas_inode_fill info m off.
Proof.
  unfold DI.sizeof. intros Ho Hd. unfold gas_inode_fill.
  rewrite !(only_in_get _ _ _ _ _ _ Ho) by (simpl; lia).
  assert (Hb : forall n k, 0 <= k -> k + Z.of_nat n <= 9 ->
    get_blkaddr m' off k n = get_blkaddr m off k n).
  { induction n as [|n IH]; intros k Hk Hn; cbn [get_blkaddr]; [done|].
    rewrite (only_in_get _ _ _ _ _ _ Ho) by (simpl; lia). by rewrite IH by lia. }
  by rewrite Hb by lia.
Qed.

Section inode_claims2.
Context `{KernelLaws}.

(** C33: Writing an inode back keeps every other inode of the table and every other
    block: only the 64 bytes of its own slot change, and the buffer is marked dirty. *)
Theorem inode_update_frame s sbi ino i :
  mounted s sbi -> 0 <= ino < s_ninodes sbi -> k_inodes s !! ino = Some i -> i_ino i = ino ->
  is_Some (disk_blkaddr i) -> read_ok (inode_blk sbi ino) = true ->
  kwp (gas_update_inode ino) s (fun _ s' =>
    inode_blk sbi ino ∈ k_dirty s' /\ k_disk s' = k_disk s /\
    (forall b, b <> inode_blk sbi ino -> k_buf s' !! b = k_buf s !! b) /\
    forall ino' m, 0 <= ino' < s_ninodes sbi -> ino' <> ino ->
      k_buf s !! inode_blk sbi ino' = Some m ->
      exists m', k_buf s' !! inode_blk sbi ino' = Some m' /\
        forall info, gas_inode_fill info m' (inode_off sbi ino') = gas_inode_fill info m (inode_off sbi ino')).
Proof.
  intros M Hi Hc Hino Hd Hr. eapply gas_update_inode_run; [done..| |congruence].
  intros m0 m0' _ Hm0 Hst. cbn. split; [set_solver|]. split; [done|]. split.
  { intros b Hb. by apply lookup_insert_ne. }
  intros ino' m Hi' Hne Hm. destruct (inode_slots_disjoint _ _ ino' ino (mt_geom _ _ M)) as [Hd'|Hd'];
    [lia|lia|done| |].
  { exists m. by rewrite lookup_insert_ne. }
  destruct (Z.eq_dec (inode_blk sbi ino') (inode_blk sbi ino)) as [E|]; [|exists m; by rewrite lookup_insert_ne].
  rewrite E in Hm |- *. assert (m0 = m) as -> by congruence. exists m0'. rewrite lookup_insert_eq. split; [done|]. intros info.
  eapply fill_only_in; [by eapply inode_store_only|]. unfold DI.sizeof in *. lia.
Qed.

(** [gas_write_inode] on every branch: EIO and no effect when the table block
    cannot be read; otherwise the buffer holds the inode, and after a synchronous write
    the medium too; when the device does not take the block, EIO, and the block reads as the
    medium has it. No buffer reference is kept. *)
Theorem gas_write_inode_spec s sbi ino i (sync : bool) :
  mounted s sbi -> 0 <= ino < s_ninodes sbi -> k_inodes s !! ino = Some i -> i_ino i = ino ->
  is_Some (disk_blkaddr i) ->
  let b := inode_blk sbi ino in
  kwp (gas_write_inode ino sync) s (fun err s' =>
    k_ref s' = k_ref s /\ k_inodes s' = k_inodes s /\
    if negb (read_ok b) then err = Some EIO /\ s' = s
    else if sync && negb (write_ok b) then
      err = Some EIO /\ k_disk s' = k_disk s /\ k_buf s' = partial_alter (fun _ => k_disk s !! b) b (k_buf s)
    else err = None /\ exists m', k_buf s' = <[b := m']> (k_buf s) /\ stores m' (inode_off sbi ino) i /\
      if sync then k_disk s' = <[b := m']> (k_disk s) else k_disk s' = k_disk s /\ b ∈ k_dirty s').
Proof.
  intros M Hi Hc Hino Hd b. eapply gas_write_inode_run; [done..| |].
  - intros m m' Hr Hm Hst. fold b in Hr |- *. apply inode_store_stores in Hst. cbv zeta.
    rewrite Hr. cbn [negb]. destruct sync; [destruct (write_ok b)|]; cbn; repeat (split; [done|]);
      [by exists m'|done|exists m']. repeat (split; [done|]). clear. set_solver.
  - intros Hr. fold b in Hr. by rewrite Hr.
Qed.

Lemma gas_iget_cases s sbi ino :
  mounted s sbi -> 0 <= ino < s_ninodes sbi ->
  kwp (gas_iget ino) s (fun r s' =>
    match k_inodes s !! ino, alloc_inode s with
    | Some _, _ => r = inr ino /\ s' = s
    | None, None => r = inl ENOMEM /\ s' = s
    | None, Some info =>
        if negb (read_ok (inode_blk sbi ino)) then r = inl EIO /\ s' = s
        else r = inr ino /\ exists m i dev, k_buf s !! inode_blk sbi ino = Some m /\
          gas_inode_fill (set_ino ino info) m (inode_off sbi ino) = Some i /\
          blkaddr i !! 0%nat = Some dev /\
          s' = with_inodes (<[ino := gas_set_inode i (new_decode_dev dev)]> (k_inodes s)) s
    end).
Proof.
  intros M Hi. destruct (inode_slot _ _ _ (mt_geom _ _ M) Hi) as (E1 & E2 & Hb & Ho & Ho').
  pose proof (g_nblocks _ _ (mt_geom _ _ M)). pose proof (g_counts _ _ (mt_geom _ _ M)).
  pose proof (g_list _ _ (mt_geom _ _ M)).
  destruct (k_inodes s !! ino) as [i|] eqn:Hc.
  { unfold gas_iget. apply kwp_bind. eapply kwp_sb; [apply M|]. apply kwp_bind, kwp_get.
    rewrite Hc. by apply kwp_ret. }
  destruct (alloc_inode s) as [info|] eqn:Ha.
  2: { unfold gas_iget. apply kwp_bind. eapply kwp_sb; [apply M|]. apply kwp_bind, kwp_get.
       rewrite Hc. apply kwp_bind, kwp_get. rewrite Ha. by apply kwp_ret. }
  destruct (mt_buf _ _ M (inode_blk sbi ino)) as (m & Hm & Hl); [lia|]. unfold is_block in Hl.
  destruct (gas_inode_fill (set_ino ino info) m (inode_off sbi ino)) as [i|] eqn:Hf.
  2: { exfalso. apply (gas_inode_fill_total (set_ino ino info) m (inode_off sbi ino)); [done|lia|done]. }
  eapply gas_iget_run; [done..|intros Hr dev Hdev|intros Hr]; rewrite Hr; cbn; [|done].
  split; [done|]. by exists m, i, dev.
Qed.

(** C37: [gas_iget] on every branch: a cached inode is returned without I/O, no memory
    is ENOMEM, an unreadable table block is EIO, each without effect; otherwise the
    inode is filled from its slot, cached, and given the operations of its type. *)
Theorem gas_iget_spec s sbi ino :
  mounted s sbi -> 0 <= ino < s_ninodes sbi ->
  kwp (gas_iget ino) s (fun r s' =>
    match k_inodes s !! ino, alloc_inode s with
    | Some _, _ => r = inr ino /\ s' = s
    | None, None => r = inl ENOMEM /\ s' = s
    | None, Some info =>
        if negb (read_ok (inode_blk sbi ino)) then r = inl EIO /\ s' = s
        else r = inr ino /\ exists m i dev, k_buf s !! inode_blk sbi ino = Some m /\
          gas_inode_fill (set_ino ino info) m (inode_off sbi ino) = Some i /\
          blkaddr i !! 0%nat = Some dev /\
          s' = with_inodes (<[ino := gas_set_inode i (new_decode_dev dev)]> (k_inodes s)) s
    end).
Proof. apply gas_iget_cases. Qed.
End inode_claims2.

(** ** Witnesses *)

#[local] Existing Instance good_api.
#[local] Existing Instance good_laws.

Lemma demo_root_representable : representable demo_root.
Proof.
  split; [vm_compute; split; congruence ..|reflexivity|].
  unfold demo_root. cbn [blkaddr replicate]. repeat (constructor; [lia|]). constructor.
Qed.


Lemma inode_update_frame_witness :
  kwp (gas_update_inode 1) demo_state (fun _ s' =>
    3 ∈ k_dirty s' /\ k_disk s' = k_disk demo_state /\
    (forall b, b <> 3 -> k_buf s' !! b = k_buf demo_state !! b) /\
    forall ino' m, 0 <= ino' < 8 -> ino' <> 1 ->
      k_buf demo_state !! inode_blk demo_sbi ino' = Some m ->
      exists m', k_buf s' !! inode_blk demo_sbi ino' = Some m' /\
        forall info, gas_inode_fill info m' (inode_off demo_sbi ino')
                   = gas_inode_fill info m (inode_off demo_sbi ino')).
Proof.
  apply (inode_update_frame demo_state demo_sbi 1 demo_root).
  - exact demo_mounted.
  - vm_compute. split; congruence.
  - reflexivity.
  - reflexivity.
  - by eexists.
  - reflexivity.
Defined.

Lemma gas_write_inode_spec_witness :
  kwp (gas_write_inode 1 true) demo_state (fun err s' => err = None /\ exists m',
    k_disk s' = <[3 := m']> (k_disk demo_state) /\ stores m' (inode_off demo_sbi 1) demo_root).
Proof.
  eapply kwp_mono; [apply (gas_write_inode_spec demo_state demo_sbi 1 demo_root true)|].
  - exact demo_mounted.
  - vm_compute. split; congruence.
  - reflexivity.
  - reflexivity.
  - by eexists.
  - intros err s' (_ & _ & He & m' & _ & Hst & Hd). split; [exact He|]. exists m'. split; [exact Hd|exact Hst].
Defined.

Lemma gas_iget_spec_witness :
  kwp (gas_iget 2) demo_state (fun r s' => r = inr 2 /\ exists i, k_inodes s' !! 2 = Some i).
Proof.
  eapply kwp_mono; [apply (gas_iget_spec demo_state demo_sbi 2)|].
  - exact demo_mounted.
  - vm_compute. split; congruence.
  - intros r s' (Hr & m & i & dev & _ & _ & _ & Hs). split; [exact Hr|]. rewrite Hs.
    eexists. apply lookup_insert_eq.
Defined.
