(* ===== verification/Alloc.v ===== *)
(** * The interface of the block allocator

    What bitmap.c promises to its clients (itree.c): [BlockAllocator new free] states
    the laws of [gas_new_block] and [gas_free_block] in terms of the set of data
    blocks in use, independent of how the maps are stored. The second half gives the
    abstract machine, a finite set of free blocks, that every implementation of the
    interface refines. *)

From S2P Require Import Prelude Mem Layout Kernel.

(** The blocks that hold files and directories. *)
Definition in_zone (sbi : gas_sb_info) (b : Z) : Prop :=
  s_data_block_start sbi <= b < s_nblocks sbi.

#[export] Instance in_zone_dec sbi b : Decision (in_zone sbi b).
Proof. unfold in_zone. apply _. Defined.

(** The super block up to the positions where the next searches start. *)
Definition same_sb (sbi sbi' : gas_sb_info) : Prop :=
  exists v w, sbi' = set_iam_last w (set_bam_last v sbi).

(** An allocator step leaves everything but the metadata blocks alone. *)
Record alloc_frame (sbi : gas_sb_info) (s s' : kst) : Prop := {
  af_bits : s_blocksize_bits s' = s_blocksize_bits s;
  af_disk : k_disk s' = k_disk s;
  af_ref : k_ref s' = k_ref s;
  af_inodes : k_inodes s' = k_inodes s;
  af_idirty : k_idirty s' = k_idirty s;
  af_dirty : k_dirty s ⊆ k_dirty s';
  af_buf : forall b, s_data_block_start sbi <= b -> k_buf s' !! b = k_buf s !! b }.

Lemma alloc_frame_refl sbi s : alloc_frame sbi s s.
Proof. by split. Qed.

Lemma alloc_frame_trans sbi s1 s2 s3 :
  alloc_frame sbi s1 s2 -> alloc_frame sbi s2 s3 -> alloc_frame sbi s1 s3.
Proof.
  intros [A1 A2 A3 A4 A5 A6 A7] [B1 B2 B3 B4 B5 B6 B7].
  split; try congruence; [set_solver|]. intros b Hb. by rewrite B7, A7.
Qed.

Lemma same_sb_refl sbi : same_sb sbi sbi.
Proof. exists (s_bam_last sbi), (s_iam_last sbi). by destruct sbi. Qed.

Lemma same_sb_trans s1 s2 s3 : same_sb s1 s2 -> same_sb s2 s3 -> same_sb s1 s3.
Proof. intros (v & w & ->) (v' & w' & ->). by exists v', w'. Qed.

Lemma in_zone_same sbi sbi' b : same_sb sbi sbi' -> in_zone sbi' b <-> in_zone sbi b.
Proof. by intros (v & w & ->). Qed.

Class BlockAllocator (new : K (Z * option errno)) (free : Z -> K unit) := {
  (* the allocator's invariant and the blocks in use *)
  ba_inv : gas_sb_info -> kst -> Prop;
  ba_used : gas_sb_info -> kst -> Z -> bool;
  ba_mounted : forall sbi s, ba_inv sbi s -> mounted s sbi;
  ba_new : forall sbi s, ba_inv sbi s -> kwp new s (fun r s' =>
    match r with
    | (b, None) =>
        in_zone sbi b /\ ba_used sbi s b = false /\
        exists sbi', same_sb sbi sbi' /\ ba_inv sbi' s' /\ alloc_frame sbi s s' /\
          forall x, in_zone sbi x -> ba_used sbi' s' x = (x =? b) || ba_used sbi s x
    | (b, Some e) =>
        e = ENOSPC /\ b = 0 /\ s' = s /\ forall x, in_zone sbi x -> ba_used sbi s x = true
    end);
  ba_free : forall sbi s b, ba_inv sbi s -> in_zone sbi b -> kwp (free b) s (fun _ s' =>
    ba_inv sbi s' /\ alloc_frame sbi s s' /\
    forall x, in_zone sbi x -> ba_used sbi s' x = negb (x =? b) && ba_used sbi s x);
  ba_free_outside : forall sbi s b, ba_inv sbi s -> 0 <= b -> ~ in_zone sbi b -> free b s = Some (tt, s);
  (* the allocator only depends on the metadata blocks *)
  ba_stable : forall sbi s s', ba_inv sbi s -> mounted s' sbi ->
    (forall b, 0 <= b < s_data_block_start sbi -> k_buf s' !! b = k_buf s !! b) ->
    ba_inv sbi s' /\ forall x, in_zone sbi x -> ba_used sbi s' x = ba_used sbi s x }.

(** ** Refinement of a finite set *)

Inductive alloc_op : Set := New | Free (b : Z).

(** The specification: the set of free blocks. *)
Inductive spec_step (F : gset Z) : alloc_op -> Z * option errno -> gset Z -> Prop :=
| spec_new b : b ∈ F -> spec_step F New (b, None) (F ∖ {[b]})
| spec_full : F = ∅ -> spec_step F New (0, Some ENOSPC) F
| spec_free b : spec_step F (Free b) (0, None) (F ∪ {[b]}).

Inductive spec_run : gset Z -> list alloc_op -> list (Z * option errno) -> gset Z -> Prop :=
| spec_nil F : spec_run F [] [] F
| spec_cons F op r F' ops rs F'' :
    spec_step F op r F' -> spec_run F' ops rs F'' -> spec_run F (op :: ops) (r :: rs) F''.

Section refinement.
Context {new : K (Z * option errno)} {free : Z -> K unit} `{!BlockAllocator new free}.

Definition run_op (op : alloc_op) : K (Z * option errno) :=
  match op with New => new | Free b => _ ← free b; mret (0, None) end.

Fixpoint run_ops (ops : list alloc_op) : K (list (Z * option errno)) :=
  match ops with
  | [] => mret []
  | op :: ops => r ← run_op op; rs ← run_ops ops; mret (r :: rs)
  end.

(** [F] is the set of the free data blocks. *)
Definition free_set (sbi : gas_sb_info) (s : kst) (F : gset Z) : Prop :=
  forall x, x ∈ F <-> in_zone sbi x /\ ba_used sbi s x = false.

Definition op_ok (sbi : gas_sb_info) (op : alloc_op) : Prop :=
  match op with New => True | Free b => in_zone sbi b end.

Lemma run_op_refines sbi s F op :
  ba_inv sbi s -> free_set sbi s F -> op_ok sbi op ->
  kwp (run_op op) s (fun r s' => exists F' sbi', spec_step F op r F' /\ same_sb sbi sbi' /\
    ba_inv sbi' s' /\ free_set sbi' s' F').
Proof.
  intros I HF Hop. destruct op as [|b]; cbn [run_op].
  - eapply kwp_mono; [by apply ba_new|]. intros [b [e|]] s'; cbn.
    + intros (-> & -> & -> & Hall). exists F, sbi. split.
      { constructor. apply set_eq. intros x. split; [|set_solver]. intros [Hz Hu]%HF.
        by rewrite Hall in Hu. }
      split; [apply same_sb_refl|done].
    + intros (Hz & Hu & sbi' & Hsb & I' & _ & Hx). exists (F ∖ {[b]}), sbi'. split.
      { constructor. by apply HF. }
      split; [done|]. split; [done|]. intros x. rewrite elem_of_difference, elem_of_singleton.
      rewrite (in_zone_same _ _ _ Hsb), (HF x). split.
      * intros [[Hzx Hux] Hne]. split; [done|]. rewrite Hx by done.
        by rewrite (proj2 (Z.eqb_neq x b)) by done.
      * intros [Hzx Hux]. rewrite Hx in Hux by done. apply orb_false_iff in Hux as [Hne Hux].
        by apply Z.eqb_neq in Hne.
  - apply kwp_bind. eapply kwp_mono; [by apply ba_free|]. intros _ s' (I' & _ & Hx).
    apply kwp_ret. exists (F ∪ {[b]}), sbi. split; [constructor|]. split; [apply same_sb_refl|].
    split; [done|]. intros x. rewrite elem_of_union, elem_of_singleton, (HF x). split.
    + intros [[Hzx Hux]| ->].
      * split; [done|]. by rewrite Hx, Hux, andb_false_r by done.
      * split; [done|]. by rewrite Hx, Z.eqb_refl by done.
    + intros [Hzx Hux]. rewrite Hx in Hux by done. destruct (Z.eqb_spec x b); [by right|left; auto].
Qed.

Lemma run_ops_refines ops : forall sbi s F,
  ba_inv sbi s -> free_set sbi s F -> Forall (op_ok sbi) ops ->
  kwp (run_ops ops) s (fun rs s' => exists F' sbi', spec_run F ops rs F' /\ same_sb sbi sbi' /\
    ba_inv sbi' s' /\ free_set sbi' s' F').
Proof.
  induction ops as [|op ops IH]; intros sbi s F I HF Hok; cbn [run_ops].
  - apply kwp_ret. exists F, sbi. split; [constructor|]. split; [apply same_sb_refl|done].
  - inversion_clear Hok as [|? ? Hop Hops]. apply kwp_bind.
    eapply kwp_mono; [by apply (run_op_refines sbi s F)|].
    intros r s1 (F1 & sbi1 & Hst & Hsb & I1 & HF1). apply kwp_bind.
    eapply kwp_mono; [apply (IH sbi1 s1 F1); [done|done|]|].
    { eapply List.Forall_impl; [|exact Hops]. intros [|b] Hz; [done|]. by apply (in_zone_same _ _ _ Hsb). }
    intros rs s2 (F2 & sbi2 & Hrun & Hsb2 & I2 & HF2). apply kwp_ret.
    exists F2, sbi2. split; [by econstructor|]. split; [by eapply same_sb_trans|done].
Qed.
End refinement.
