(* ===== verification/KBitmap.v ===== *)
(** * Block and inode allocation in the kernel (kern/bitmap.c)

    The two allocation maps of a mounted file system: [gas_new_block] and
    [gas_new_inode] scan the map blocks in a circle from the last one used,
    [gas_free_block] and [gas_free_inode] clear a bit, [count_free] counts. Their
    abstract specification is a set of free numbers: [map_used] is the state of one
    number, [scan_key] the order in which the circular scan meets them. *)

From S2P Require Import Prelude Mem Layout Kernel InodeTab Alloc.

Section bitmap.
Context `{KernelApi}.

(** The [do ... while] of [gas_new_block] and [gas_new_inode] over the map blocks
    [bh_of 0 .. bh_of (nr - 1)] of [bits] bits, from block [i]: the map block and the
    bit found and set, or none when [i] is back at [last]. *)
Fixpoint find_zero_loop (fuel : nat) (bh_of : Z -> option Z) (bits nr last i : Z) : K (option (Z * Z)) :=
  match fuel with
  | O => klift None
  | S fuel =>
      bh ← klift (bh_of i);
      m ← bh_data bh;
      block ← klift (ffz_bit m bits);
      if block <? bits then
        m ← klift (set_bit_in block m);
        _ ← bh_put bh m;
        mret (Some (i, block))
      else
        i ← klift (int32 (i + 1));
        i ← klift (if nr =? 0 then None else Some (s32 (u32 i mod nr)));
        if negb (u32 i =? last) then find_zero_loop fuel bh_of bits nr last i else mret None
  end.

Definition gas_new_block : K (Z * option errno) :=
  sbi ← GAS_SB;
  let i := s32 (s_bam_last sbi) in
  r ← find_zero_loop (S (Z.to_nat (s_bam_blocks sbi))) (bam_bh sbi) (s_bits_per_block sbi)
        (s_bam_blocks sbi) (s_bam_last sbi) i;
  match r with
  | Some (i, block) =>
      let block := u64 (block + u32 (i * s_bits_per_block sbi)) in
      _ ← set_sbi (set_bam_last (u32 i) sbi);
      bh ← klift (bam_bh sbi i);
      _ ← mark_buffer_dirty bh;
      mret (block, None)
  | None => mret (0, Some ENOSPC)
  end.

Definition gas_free_block (block : Z) : K unit :=
  sbi ← GAS_SB;
  k ← kget (fun s => s_blocksize_bits s + 3);
  if (block <? s_data_block_start sbi) || (s_nblocks sbi <=? block) then mret tt
  else
    let idx := Z.shiftr block k in
    let bit := Z.land block (Z.shiftl 1 k - 1) in
    if s_bam_blocks sbi <=? idx then mret tt
    else
      bh ← klift (bam_bh sbi idx);
      m ← bh_data bh;
      '(_, m) ← klift (clear_bit_in bit m);
      _ ← bh_put bh m;
      mark_buffer_dirty bh.

(** The inner loop of [count_free]: [words] 16-bit words from offset [p]. *)
Fixpoint count_words (words : nat) (m : bytes) (p sum : Z) : option Z :=
  match words with
  | O => Some sum
  | S words => w ← load 2 m p; count_words words m (p + 2) (u32 (sum + (16 - hweight16 w)))
  end.

Fixpoint count_free_loop (blocks : nat) (bh_of : Z -> option Z) (blocksize k sum : Z) : K Z :=
  match blocks with
  | O => mret sum
  | S blocks =>
      bh ← klift (bh_of k);
      m ← bh_data bh;
      sum ← klift (count_words (Z.to_nat (blocksize / 2)) m 0 sum);
      count_free_loop blocks bh_of blocksize (k + 1) sum
  end.

Definition DIV_ROUND_UP (n d : Z) : option Z :=
  if d =? 0 then None else Some (u32 (n + d - 1) / d).

Definition count_free (bh_of : Z -> option Z) (blocksize numbits : Z) : K Z :=
  blocks ← klift (DIV_ROUND_UP numbits (u32 (blocksize * 8)));
  count_free_loop (Z.to_nat blocks) bh_of blocksize 0 0.

(** [sb->s_blocksize] *)
Definition sb_blocksize (s : kst) : Z := Z.shiftl 1 (s_blocksize_bits s).

Definition gas_count_free_blocks : K Z :=
  sbi ← GAS_SB;
  let bits := u32 (s_nblocks sbi - s_data_block_start sbi + 1) in
  blocksize ← kget sb_blocksize;
  count_free (bam_bh sbi) blocksize bits.

Definition gas_count_free_inodes : K Z :=
  sbi ← GAS_SB;
  let bits := u32 (s_ninodes sbi + 1) in
  blocksize ← kget sb_blocksize;
  count_free (iam_bh sbi) blocksize bits.

(** [gas_clear_inode]: [cpu_to_le32] of 0 stored in two 16-bit fields. *)
Definition gas_clear_inode (inode : Z) : K unit :=
  i ← iref inode;
  di ← gas_get_inode (i_ino i);
  match di with
  | Some (bh, off) =>
      m ← bh_data bh;
      m ← klift (m ← f_set m off DI.i_nlink 0; f_set m off DI.i_mode 0);
      _ ← bh_put bh m;
      _ ← mark_buffer_dirty bh;
      brelse (Some bh)
  | None => mret tt
  end.

Definition gas_free_inode (inode : Z) : K unit :=
  sbi ← GAS_SB;
  k ← kget (fun s => s_blocksize_bits s + 3);
  i ← iref inode;
  let ino := i_ino i in
  if (ino <? 1) || (s_ninodes sbi <? ino) then mret tt
  else
    let bit := Z.land ino (Z.shiftl 1 k - 1) in
    let ino := Z.shiftr ino k in
    if s_iam_blocks sbi <=? ino then mret tt
    else
      _ ← gas_clear_inode inode;
      bh ← klift (iam_bh sbi ino);
      m ← bh_data bh;
      '(_, m) ← klift (clear_bit_in bit m);
      _ ← bh_put bh m;
      mark_buffer_dirty bh.

(** The fields [gas_new_inode] sets after [inode_init_owner]. *)
Definition init_new_inode (i : inode) (ino now : Z) : inode :=
  Inode ino (i_mode i) (i_nlink i) (i_uid i) (i_gid i) 0 now now now (i_rdev i) (blkaddr i)
    (a_ops i) (i_op i) (i_fop i).

Definition zero_blkaddr (i : inode) : inode :=
  Inode (i_ino i) (i_mode i) (i_nlink i) (i_uid i) (i_gid i) (i_size i) (i_atime i) (i_mtime i)
    (i_ctime i) (i_rdev i) (replicate 9 0) (a_ops i) (i_op i) (i_fop i).

(** [gas_new_inode]: the new inode and [*err]. On ENOSPC the unhashed inode is put;
    it was never visible. *)
Definition gas_new_inode (dir mode : Z) : K (option Z * option errno) :=
  sbi ← GAS_SB;
  fresh ← kget alloc_inode;
  match fresh with
  | None => mret (None, Some ENOMEM)
  | Some inode =>
      let i := s32 (s_iam_last sbi) in
      r ← find_zero_loop (S (Z.to_nat (s_iam_blocks sbi))) (iam_bh sbi) (s_bits_per_block sbi)
            (s_iam_blocks sbi) (s_iam_last sbi) i;
      match r with
      | None => mret (None, Some ENOSPC)
      | Some (i, ino) =>
          let ino := u64 (ino + u32 (i * s_bits_per_block sbi)) in
          _ ← set_sbi (set_iam_last (u32 i) sbi);
          bh ← klift (iam_bh sbi i);
          _ ← mark_buffer_dirty bh;
          d ← iref dir;
          now ← kget current_time;
          _ ← iput_data ino (init_new_inode (inode_init_owner (zero_blkaddr inode) d mode) ino now);
          _ ← mark_inode_dirty ino;
          mret (Some ino, None)
      end
  end.
End bitmap.

(** ** Abstract view of a map *)

Section map_view.
Variables (bh_of : Z -> option Z) (nr bits : Z).

(** Number [x] is in use: its bit is set. *)
Definition map_used (buf : gmap Z bytes) (x : Z) : bool :=
  match bh_of (x / bits) with
  | Some b => match buf !! b with Some m => bit m (x mod bits) | None => false end
  | None => false
  end.

(** The map consists of [nr] distinct buffers of [bits] bits. *)
Record map_wf (buf : gmap Z bytes) : Prop := {
  mw_nr : 0 < nr;
  mw_bits : 0 < bits;
  mw_buf : forall k, 0 <= k < nr -> exists b m, bh_of k = Some b /\ buf !! b = Some m /\ 8 * blen m = bits;
  mw_inj : forall j k b, 0 <= j < nr -> 0 <= k < nr -> bh_of j = Some b -> bh_of k = Some b -> j = k }.

(** Position of [x] in the circular scan that starts at map block [last]. *)
Definition scan_key (last x : Z) : Z := ((x / bits - last) mod nr) * bits + x mod bits.

Lemma div_mod_pair k b : 0 <= b < bits -> (k * bits + b) / bits = k /\ (k * bits + b) mod bits = b.
Proof.
  intros Hb. split.
  - rewrite Z.div_add_l by lia. rewrite Z.div_small by lia. lia.
  - rewrite Z.add_comm, Z.mod_add by lia. by apply Z.mod_small.
Qed.

Lemma map_index x : 0 < bits -> 0 <= x < nr * bits -> 0 <= x / bits < nr /\ 0 <= x mod bits < bits.
Proof.
  intros Hw Hx. split; [|by apply Z.mod_pos_bound]. split; [by apply Z.div_pos; lia|].
  apply Z.div_lt_upper_bound; [done|]. lia.
Qed.

Lemma map_used_eq buf x b m : bh_of (x / bits) = Some b -> buf !! b = Some m ->
  map_used buf x = bit m (x mod bits).
Proof. intros E1 E2. unfold map_used. by rewrite E1, E2. Qed.

(** Replacing one map block. *)
Lemma map_wf_put buf k b m m' :
  map_wf buf -> bh_of k = Some b -> buf !! b = Some m -> blen m' = blen m -> map_wf (<[b := m']> buf).
Proof.
  intros W Hb Hm Hl. split; [apply W|apply W| |apply W].
  intros j Hj. destruct (mw_buf _ W j Hj) as (c & mc & Hc & Hmc & Hlc).
  destruct (Z.eq_dec c b) as [->|].
  - exists b, m'. rewrite lookup_insert_eq. repeat split; [done|]. congruence.
  - exists c, mc. by rewrite lookup_insert_ne.
Qed.

(** Changing the bit of number [k * bits + n] only. *)
Lemma map_used_put buf k n b m m' v :
  map_wf buf -> 0 <= k < nr -> 0 <= n < bits -> bh_of k = Some b -> buf !! b = Some m ->
  (forall i, 0 <= i -> bit m' i = if i =? n then v else bit m i) ->
  forall x, 0 <= x < nr * bits ->
    map_used (<[b := m']> buf) x = if x =? k * bits + n then v else map_used buf x.
Proof.
  intros W Hk Hn Hb Hm Hbit x Hx. destruct (map_index x) as [Hi Hr]; [apply W|done|].
  pose proof (Z.div_mod x bits ltac:(lia)) as Hdm.
  destruct (mw_buf _ W _ Hi) as (c & mc & Hc & Hmc & _).
  destruct (Z.eq_dec c b) as [->|Hne].
  - assert (x / bits = k) as Ek by (by eapply (mw_inj _ W)).
    rewrite (map_used_eq _ x b m'), (map_used_eq _ x b mc) by (done || by rewrite lookup_insert_eq).
    rewrite Hbit by lia. simplify_eq.
    destruct (Z.eqb_spec (x mod bits) n), (Z.eqb_spec x (x / bits * bits + n)); [done|nia|nia|done].
  - rewrite (map_used_eq _ x c mc), (map_used_eq _ x c mc) by (done || by rewrite lookup_insert_ne).
    destruct (Z.eqb_spec x (k * bits + n)) as [->|]; [|done].
    destruct (div_mod_pair k n Hn) as [E _]. rewrite E in Hc. congruence.
Qed.

Lemma scan_key_pair last k b : 0 <= b < bits -> scan_key last (k * bits + b) = ((k - last) mod nr) * bits + b.
Proof. intros Hb. unfold scan_key. by destruct (div_mod_pair k b Hb) as [-> ->]. Qed.
End map_view.

Section scan.
Context `{KernelLaws}.
Variables (bh_of : Z -> option Z) (nr bits last : Z).

(** The outcome of a circular scan: the first free number in scan order, now in use,
    or none because every number is in use. *)
Definition scan_result (s : kst) (r : option (Z * Z)) (s' : kst) : Prop :=
  match r with
  | Some (k, n) =>
      0 <= k < nr /\ 0 <= n < bits /\ map_used bh_of bits (k_buf s) (k * bits + n) = false /\
      (forall x, 0 <= x < nr * bits ->
         scan_key nr bits last x < scan_key nr bits last (k * bits + n) ->
         map_used bh_of bits (k_buf s) x = true) /\
      exists b m m', bh_of k = Some b /\ k_buf s !! b = Some m /\ blen m' = blen m /\
        (forall i, 0 <= i -> bit m' i = if i =? n then true else bit m i) /\
        s' = with_buf (<[b := m']> (k_buf s)) s
  | None => s' = s /\ forall x, 0 <= x < nr * bits -> map_used bh_of bits (k_buf s) x = true
  end.

Lemma rank_succ j : 0 < nr -> 0 <= j < nr -> 0 <= last < nr ->
  let i := (last + j) mod nr in
  (i + 1) mod nr = (last + (j + 1)) mod nr /\ (i - last) mod nr = j /\
  ((last + (j + 1)) mod nr = last <-> j + 1 = nr).
Proof.
  intros Hn Hj Hl i. subst i. split; [|split].
  - rewrite Zplus_mod_idemp_l. f_equal. lia.
  - rewrite Zminus_mod_idemp_l. replace (last + j - last) with j by lia. by apply Z.mod_small.
  - destruct (Z_lt_le_dec (last + (j + 1)) nr).
    + rewrite Z.mod_small by lia. lia.
    + replace (last + (j + 1)) with (last + (j + 1) - nr + 1 * nr) by lia.
      rewrite Z.mod_add, Z.mod_small by lia. lia.
Qed.

(** Map blocks of the same rank are the same. *)
Lemma same_rank a i : 0 <= a < nr -> 0 <= i < nr -> (a - last) mod nr = (i - last) mod nr -> a = i.
Proof.
  intros Ha Hi E. assert (Hmod : a mod nr = i mod nr).
  { replace a with (a - last + last) by lia. replace i with (i - last + last) by lia.
    rewrite <- (Zplus_mod_idemp_l (a - last)), E. by rewrite Zplus_mod_idemp_l. }
  by rewrite !Z.mod_small in Hmod by lia.
Qed.

(** A map block whose first zero bit is at [n]: the numbers before it are in use. *)
Lemma used_below s i b m n x :
  bh_of i = Some b -> k_buf s !! b = Some m -> 0 < bits ->
  (forall k, 0 <= k < n -> negb (bit m k) = false) ->
  x / bits = i -> x mod bits < n -> map_used bh_of bits (k_buf s) x = true.
Proof.
  intros Hb Hm Hbits Hbelow Hx Hn. rewrite (map_used_eq _ _ _ _ b m) by (by rewrite ?Hx).
  apply negb_false_iff, Hbelow. pose proof (Z.mod_pos_bound x bits). lia.
Qed.

Lemma find_zero_loop_run fuel : forall j s,
  map_wf bh_of nr bits (k_buf s) -> 0 <= last < nr -> nr < 2 ^ 31 -> 0 <= j < nr ->
  (Z.to_nat (nr - j) <= fuel)%nat ->
  (forall x, 0 <= x < nr * bits -> (x / bits - last) mod nr < j ->
     map_used bh_of bits (k_buf s) x = true) ->
  kwp (find_zero_loop fuel bh_of bits nr last ((last + j) mod nr)) s (scan_result s).
Proof.
  induction fuel as [|fuel IH]; intros j s W Hlast Hnr Hj Hfuel Hprev; [lia|].
  pose proof (mw_bits _ _ _ _ W) as Hbits.
  destruct (rank_succ j ltac:(lia) Hj Hlast) as (Hs & Hrank & Hback). cbv zeta in *.
  set (i := (last + j) mod nr) in *.
  assert (Hi : 0 <= i < nr) by (apply Z.mod_pos_bound; lia).
  destruct (mw_buf _ _ _ _ W i Hi) as (b & m & Hb & Hm & Hl).
  pose proof (find_first_zero_bit_law m bits ltac:(lia)) as (Hr & Hbelow & Hat).
  cbn [find_zero_loop]. apply kwp_bind. eapply kwp_lift; [done|].
  apply kwp_bind. eapply kwp_data; [done|]. apply kwp_bind.
  eapply kwp_lift. { unfold ffz_bit. by rewrite (proj2 (Z.leb_le _ _)) by lia. }
  set (n := find_first_zero_bit m bits) in *. destruct (Z.ltb_spec n bits) as [Hn|Hn].
  - destruct (set_bit_law m n) as [Hlen Hbit]; [lia|].
    apply kwp_bind. eapply kwp_lift.
    { unfold set_bit_in. by rewrite (proj2 (Z.leb_le _ _)), (proj2 (Z.ltb_lt _ _)) by lia. }
    apply kwp_bind, kwp_mod, kwp_ret. split; [done|]. split; [lia|].
    destruct (div_mod_pair bits i n) as [Ed Em]; [lia|]. split.
    { rewrite (map_used_eq _ _ _ _ b m) by (by rewrite ?Ed). rewrite Em.
      apply negb_true_iff. by apply Hat. }
    split.
    { intros x Hx Hkey. rewrite scan_key_pair, Hrank in Hkey by lia. unfold scan_key in Hkey.
      destruct (map_index nr bits x) as [Hxi Hxm]; [done|done|].
      destruct (Z_lt_le_dec ((x / bits - last) mod nr) j) as [|Hge]; [by apply Hprev|].
      assert ((x / bits - last) mod nr = j) as Hxr by nia.
      eapply (used_below s i b m n); [done..| |nia]. apply same_rank; lia. }
    by exists b, m, (set_bit n m).
  - apply kwp_bind. eapply kwp_lift; [apply int32_Some; lia|].
    apply kwp_bind. eapply kwp_lift; [by rewrite (proj2 (Z.eqb_neq nr 0)) by lia|].
    rewrite (u32_small (i + 1)) by lia.
    assert (0 <= (i + 1) mod nr < nr) by (apply Z.mod_pos_bound; lia).
    rewrite s32_small, u32_small by lia. rewrite Hs.
    assert (Hfull : forall x, 0 <= x < nr * bits -> (x / bits - last) mod nr < j + 1 ->
      map_used bh_of bits (k_buf s) x = true).
    { intros x Hx Hxr. destruct (Z_lt_le_dec ((x / bits - last) mod nr) j); [by apply Hprev|].
      destruct (map_index nr bits x) as [Hxi Hxm]; [done|done|].
      eapply (used_below s i b m n); [done..| |lia]. apply same_rank; lia. }
    destruct (Z.eqb_spec ((last + (j + 1)) mod nr) last) as [E|E]; cbn [negb].
    + apply kwp_ret. split; [done|]. intros x Hx. apply Hfull; [done|].
      pose proof (Z.mod_pos_bound (x / bits - last) nr ltac:(lia)). apply Hback in E. lia.
    + apply IH; try done; [|lia]. split; [lia|].
      destruct (Z.eq_dec (j + 1) nr); [|lia]. by apply Hback in e.
Qed.
End scan.

(** ** The two maps of a mounted file system *)

Definition bam_used (sbi : gas_sb_info) (s : kst) (x : Z) : bool :=
  map_used (bam_bh sbi) (s_bits_per_block sbi) (k_buf s) x.
Definition iam_used (sbi : gas_sb_info) (s : kst) (x : Z) : bool :=
  map_used (iam_bh sbi) (s_bits_per_block sbi) (k_buf s) x.

(** The numbers that must never be handed out are in use: metadata blocks and the bits
    past the end of the map, inode 0 and the bits past the last inode. *)
Definition bam_reserved (sbi : gas_sb_info) (s : kst) : Prop :=
  forall x, 0 <= x < s_bam_blocks sbi * s_bits_per_block sbi ->
    x < s_data_block_start sbi \/ s_nblocks sbi <= x -> bam_used sbi s x = true.
Definition iam_reserved (sbi : gas_sb_info) (s : kst) : Prop :=
  forall x, 0 <= x < s_iam_blocks sbi * s_bits_per_block sbi ->
    x < GAS_ROOT_INO \/ s_ninodes sbi <= x -> iam_used sbi s x = true.

Lemma bpb_pos bits sbi : geometry bits sbi -> 0 < s_bits_per_block sbi /\ 4096 <= s_bits_per_block sbi <= 32768.
Proof.
  intros G. rewrite (g_bpb _ _ G). destruct (geometry_pow _ _ G) as [_ Hp]. simpl in Hp. lia.
Qed.

Lemma bam_wf s sbi : mounted s sbi ->
  map_wf (bam_bh sbi) (s_bam_blocks sbi) (s_bits_per_block sbi) (k_buf s).
Proof.
  intros M. assert (G := mt_geom _ _ M). pose proof (g_counts _ _ G). pose proof (g_list _ _ G).
  pose proof (g_data _ _ G). pose proof (g_nblocks _ _ G). destruct (bpb_pos _ _ G).
  split; [lia|done| |].
  - intros k Hk. destruct (mt_buf _ _ M (1 + k)) as (m & Hm & Hl); [lia|]. exists (1 + k), m.
    rewrite (bam_bh_geom _ _ _ G) by lia. repeat split; [done|]. unfold is_block in Hl.
    by rewrite (g_bpb _ _ G), Hl.
  - intros j k b Hj Hk. rewrite !(bam_bh_geom _ _ _ G) by lia. intros. simplify_eq. lia.
Qed.

Lemma iam_wf s sbi : mounted s sbi ->
  map_wf (iam_bh sbi) (s_iam_blocks sbi) (s_bits_per_block sbi) (k_buf s).
Proof.
  intros M. assert (G := mt_geom _ _ M). pose proof (g_counts _ _ G). pose proof (g_list _ _ G).
  pose proof (g_data _ _ G). pose proof (g_nblocks _ _ G). destruct (bpb_pos _ _ G).
  split; [lia|done| |].
  - intros k Hk. destruct (mt_buf _ _ M (1 + s_bam_blocks sbi + k)) as (m & Hm & Hl); [lia|].
    exists (1 + s_bam_blocks sbi + k), m. rewrite (iam_bh_geom _ _ _ G) by lia.
    repeat split; [done|]. unfold is_block in Hl. by rewrite (g_bpb _ _ G), Hl.
  - intros j k b Hj Hk. rewrite !(iam_bh_geom _ _ _ G) by lia. intros. simplify_eq. lia.
Qed.

Lemma geometry_bam_last bits sbi v :
  geometry bits sbi -> 0 <= v < s_bam_blocks sbi -> geometry bits (set_bam_last v sbi).
Proof. intros [] Hv. by split. Qed.

Lemma geometry_iam_last bits sbi v :
  geometry bits sbi -> 0 <= v < s_iam_blocks sbi -> geometry bits (set_iam_last v sbi).
Proof. intros [] Hv. by split. Qed.

(** The state after a map block [b] has been rewritten and the super block updated. *)
Definition put_map (s : kst) (sbi' : gas_sb_info) (b : Z) (m' : bytes) : kst :=
  with_dirty ({[b]} ∪ k_dirty s) (with_fs_info (Some sbi') (with_buf (<[b := m']> (k_buf s)) s)).

Lemma mounted_put s sbi sbi' b m m' :
  mounted s sbi -> k_buf s !! b = Some m -> blen m' = blen m ->
  geometry (s_blocksize_bits s) sbi' -> s_nblocks sbi' = s_nblocks sbi ->
  mounted (put_map s sbi' b m') sbi'.
Proof.
  intros [M1 M2 M3] Hm Hl G Hn. split; [done|done|]. cbn. intros c Hc. rewrite Hn in Hc.
  destruct (M3 c Hc) as (mc & Ec & Lc). destruct (Z.eq_dec c b) as [->|].
  - exists m'. rewrite lookup_insert_eq. split; [done|]. unfold is_block in *. simplify_eq. congruence.
  - exists mc. by rewrite lookup_insert_ne.
Qed.

Section new_block.
Context `{KernelLaws}.

(** [gas_new_block]: ENOSPC and no effect when every number is in use, otherwise the
    first free number in scan order, which becomes the only one newly in use. *)
Lemma gas_new_block_run s sbi (Q : Z * option errno -> kst -> Prop) :
  mounted s sbi ->
  ((forall x, 0 <= x < s_bam_blocks sbi * s_bits_per_block sbi -> bam_used sbi s x = true) ->
   Q (0, Some ENOSPC) s) ->
  (forall x m m', let k := x / s_bits_per_block sbi in
     0 <= x < s_bam_blocks sbi * s_bits_per_block sbi -> bam_used sbi s x = false ->
     (forall y, 0 <= y < s_bam_blocks sbi * s_bits_per_block sbi ->
        scan_key (s_bam_blocks sbi) (s_bits_per_block sbi) (s_bam_last sbi) y <
        scan_key (s_bam_blocks sbi) (s_bits_per_block sbi) (s_bam_last sbi) x -> bam_used sbi s y = true) ->
     0 <= k < s_bam_blocks sbi -> k_buf s !! (1 + k) = Some m -> blen m' = blen m ->
     (forall i, 0 <= i -> bit m' i = if i =? x mod s_bits_per_block sbi then true else bit m i) ->
     Q (x, None) (put_map s (set_bam_last k sbi) (1 + k) m')) ->
  kwp gas_new_block s Q.
Proof.
  intros M Hfull Hfound. assert (G := mt_geom _ _ M). assert (W := bam_wf _ _ M).
  pose proof (g_bam_last _ _ G) as Hlast. pose proof (g_bam_room _ _ G) as Hroom.
  pose proof (g_nblocks _ _ G). destruct (bpb_pos _ _ G) as [Hb0 Hb]. pose proof (g_counts _ _ G).
  assert (s_bam_blocks sbi < 2 ^ 31) by nia.
  unfold gas_new_block. apply kwp_bind. eapply kwp_sb; [apply M|]. cbv zeta. rewrite s32_small by lia.
  apply kwp_bind. eapply kwp_mono.
  { rewrite <- (Z.mod_small (s_bam_last sbi) (s_bam_blocks sbi)) at 2 by lia.
    replace (s_bam_last sbi mod s_bam_blocks sbi) with ((s_bam_last sbi + 0) mod s_bam_blocks sbi)
      by (f_equal; lia).
    apply find_zero_loop_run; [done|lia|lia|lia|lia|].
    intros x Hx Hr. pose proof (Z.mod_pos_bound (x / s_bits_per_block sbi - s_bam_last sbi) (s_bam_blocks sbi)). lia. }
  intros [[k n]|] s1 Hres; cbn [scan_result] in Hres.
  - destruct Hres as (Hk & Hn & Hu & Hkey & b & m & m' & Hbh & Hm & Hl & Hbit & ->).
    destruct (div_mod_pair (s_bits_per_block sbi) k n Hn) as [Ed Em].
    assert (Hbh' := Hbh). rewrite (bam_bh_geom _ _ _ G) in Hbh' by lia. simplify_eq.
    assert (0 <= k * s_bits_per_block sbi /\ k * s_bits_per_block sbi + n < s_bam_blocks sbi * s_bits_per_block sbi)
      by nia.
    specialize (Hfound (k * s_bits_per_block sbi + n) m m'). cbv zeta in Hfound. rewrite Ed, Em in Hfound.
    apply kwp_bind, kwp_mod, kwp_bind. eapply kwp_lift; [done|]. apply kwp_bind, kwp_mod, kwp_ret.
    assert (2 ^ 32 < 2 ^ 64) by (vm_compute; done).
    rewrite (u32_small (k * _)), (u32_small k), u64_small, (Z.add_comm n) by lia.
    apply Hfound; try done; lia.
  - destruct Hres as [-> Hall]. apply kwp_ret. by apply Hfull.
Qed.
End new_block.

(** ** Freeing a bit *)

Section free_block.
Context `{KernelLaws}.

(** [block >> k] and [block & ((1 << k) - 1)] are the map block and the bit. *)
Lemma split_block bits sbi x :
  geometry bits sbi -> 0 <= x ->
  Z.shiftr x (bits + 3) = x / s_bits_per_block sbi /\
  Z.land x (Z.shiftl 1 (bits + 3) - 1) = x mod s_bits_per_block sbi.
Proof.
  intros G Hx. pose proof (g_bits _ _ G). rewrite (g_bpb _ _ G).
  replace (8 * 2 ^ bits) with (2 ^ (bits + 3)) by (rewrite Z.pow_add_r by lia; lia).
  split; [by apply Z.shiftr_div_pow2; lia|].
  rewrite Z.shiftl_1_l, <- Z.land_ones by lia. by rewrite Z.ones_equiv, <- Z.sub_1_r.
Qed.

(** Clearing the bit of number [x] in the map [bh_of], where [x] is in range. *)
Lemma clear_map_bit s bh_of nr bits x :
  map_wf bh_of nr bits (k_buf s) -> 0 <= x < nr * bits ->
  exists b m m', bh_of (x / bits) = Some b /\ k_buf s !! b = Some m /\
    clear_bit_in (x mod bits) m = Some (bit m (x mod bits), m') /\ blen m' = blen m /\
    forall y, 0 <= y < nr * bits ->
      map_used bh_of bits (<[b := m']> (k_buf s)) y = negb (y =? x) && map_used bh_of bits (k_buf s) y.
Proof.
  intros W Hx. destruct (map_index nr bits x) as [Hi Hr]; [apply W|done|].
  destruct (mw_buf _ _ _ _ W _ Hi) as (b & m & Hb & Hm & Hl).
  pose proof (test_and_clear_bit_law m (x mod bits) ltac:(lia)) as Hlaw.
  destruct (test_and_clear_bit (x mod bits) m) as [old m'] eqn:E. destruct Hlaw as (-> & Hl' & Hbit).
  exists b, m, m'. split; [done|]. split; [done|]. split.
  { unfold clear_bit_in. by rewrite (proj2 (Z.leb_le _ _)), (proj2 (Z.ltb_lt _ _)), E by lia. }
  split; [done|]. intros y Hy. rewrite (map_used_put bh_of nr bits (k_buf s) (x / bits) (x mod bits) b m m' false);
    try done.
  - replace (x / bits * bits + x mod bits) with x by (pose proof (Z.div_mod x bits); lia).
    by destruct (y =? x).
  - intros i Hi'. rewrite Hbit by done. by destruct (i =? x mod bits).
Qed.

Lemma gas_free_block_run s sbi x (Q : unit -> kst -> Prop) :
  mounted s sbi -> in_zone sbi x ->
  (forall m m', k_buf s !! (1 + x / s_bits_per_block sbi) = Some m -> blen m' = blen m ->
     0 <= x / s_bits_per_block sbi < s_bam_blocks sbi ->
     let s' := put_map s sbi (1 + x / s_bits_per_block sbi) m' in
     (forall y, 0 <= y < s_bam_blocks sbi * s_bits_per_block sbi ->
        bam_used sbi s' y = negb (y =? x) && bam_used sbi s y) -> Q tt s') ->
  kwp (gas_free_block x) s Q.
Proof.
  intros M [Hz1 Hz2] HQ. assert (G := mt_geom _ _ M). assert (W := bam_wf _ _ M).
  pose proof (g_data _ _ G). pose proof (g_list _ _ G). pose proof (g_counts _ _ G).
  pose proof (g_bam_room _ _ G).
  unfold gas_free_block. apply kwp_bind. eapply kwp_sb; [apply M|]. apply kwp_bind, kwp_get.
  rewrite (proj2 (Z.ltb_ge _ _)), (proj2 (Z.leb_gt _ _)) by lia. cbn [orb].
  destruct (split_block _ _ x G) as [-> ->]; [lia|].
  destruct (map_index (s_bam_blocks sbi) (s_bits_per_block sbi) x) as [Hi _]; [apply W|lia|].
  rewrite (proj2 (Z.leb_gt _ _)) by lia.
  destruct (clear_map_bit s _ _ _ x W) as (b & m & m' & Hb & Hm & Hc & Hl & Hu); [lia|].
  apply kwp_bind. eapply kwp_lift; [done|]. apply kwp_bind. eapply kwp_data; [done|].
  apply kwp_bind. eapply kwp_lift; [done|]. apply kwp_bind, kwp_mod, kwp_mod.
  rewrite (bam_bh_geom _ _ _ G) in Hb by done. simplify_eq. specialize (HQ m m' Hm Hl Hi).
  unfold put_map in HQ. rewrite <- (mt_info _ _ M) in HQ. destruct s; cbn in *. by apply HQ.
Qed.

Lemma gas_free_block_outside s sbi x :
  mounted s sbi -> ~ in_zone sbi x -> gas_free_block x s = Some (tt, s).
Proof.
  intros M Hz. unfold gas_free_block. rewrite K_bind_eq. unfold GAS_SB.
  rewrite (mt_info _ _ M). cbn [mbind option_bind]. rewrite K_bind_eq. cbn [kget].
  replace ((x <? s_data_block_start sbi) || (s_nblocks sbi <=? x)) with true; [done|].
  symmetry. apply orb_true_iff. rewrite Z.ltb_lt, Z.leb_le. unfold in_zone in Hz. lia.
Qed.

(** ** The allocator implements its interface *)

Definition bam_inv (sbi : gas_sb_info) (s : kst) : Prop := mounted s sbi /\ bam_reserved sbi s.

Lemma bam_frame s sbi sbi' k m' :
  mounted s sbi -> 0 <= k < s_bam_blocks sbi -> alloc_frame sbi s (put_map s sbi' (1 + k) m').
Proof.
  intros M Hk. pose proof (g_data _ _ (mt_geom _ _ M)). pose proof (g_list _ _ (mt_geom _ _ M)).
  pose proof (g_counts _ _ (mt_geom _ _ M)).
  split; try done; [cbn; clear; set_solver|]. intros b Hb. cbn. rewrite lookup_insert_ne; [done|lia].
Qed.

Lemma bam_used_alloc s sbi x m m' :
  mounted s sbi -> 0 <= x < s_bam_blocks sbi * s_bits_per_block sbi ->
  let k := x / s_bits_per_block sbi in
  k_buf s !! (1 + k) = Some m ->
  (forall i, 0 <= i -> bit m' i = if i =? x mod s_bits_per_block sbi then true else bit m i) ->
  forall y, 0 <= y < s_bam_blocks sbi * s_bits_per_block sbi ->
    bam_used (set_bam_last k sbi) (put_map s (set_bam_last k sbi) (1 + k) m') y
    = (y =? x) || bam_used sbi s y.
Proof.
  intros M Hx k Hm Hbit y Hy. assert (G := mt_geom _ _ M). assert (W := bam_wf _ _ M).
  pose proof (mw_bits _ _ _ _ W).
  destruct (map_index (s_bam_blocks sbi) (s_bits_per_block sbi) x) as [Hk Hr]; [done|done|]. fold k in Hk.
  unfold bam_used. cbn [put_map k_buf with_dirty with_fs_info with_buf].
  change (bam_bh (set_bam_last k sbi)) with (bam_bh sbi).
  change (s_bits_per_block (set_bam_last k sbi)) with (s_bits_per_block sbi).
  rewrite (map_used_put (bam_bh sbi) (s_bam_blocks sbi) _ (k_buf s) k (x mod s_bits_per_block sbi)
    (1 + k) m m' true); try done; [|by apply (bam_bh_geom _ _ _ G)].
  replace (k * s_bits_per_block sbi + x mod s_bits_per_block sbi) with x
    by (pose proof (Z.div_mod x (s_bits_per_block sbi)); lia).
  by destruct (y =? x).
Qed.

Lemma bam_stable sbi s s' :
  bam_inv sbi s -> mounted s' sbi ->
  (forall b, 0 <= b < s_data_block_start sbi -> k_buf s' !! b = k_buf s !! b) ->
  bam_inv sbi s' /\ forall x, in_zone sbi x -> bam_used sbi s' x = bam_used sbi s x.
Proof.
  intros [M R] M' Hbuf. assert (G := mt_geom _ _ M). assert (W := bam_wf _ _ M).
  pose proof (g_data _ _ G). pose proof (g_list _ _ G). pose proof (g_counts _ _ G).
  pose proof (g_bam_room _ _ G).
  assert (Heq : forall x, 0 <= x < s_bam_blocks sbi * s_bits_per_block sbi ->
    bam_used sbi s' x = bam_used sbi s x).
  { intros x Hx. unfold bam_used, map_used.
    destruct (map_index (s_bam_blocks sbi) (s_bits_per_block sbi) x) as [Hi _]; [apply W|done|].
    rewrite (bam_bh_geom _ _ _ G) by done. by rewrite Hbuf by lia. }
  split; [split; [done|]|].
  - intros x Hx Hres. rewrite Heq by done. by apply R.
  - intros x [? ?]. apply Heq. lia.
Qed.

#[export] Instance gas_allocator : BlockAllocator gas_new_block gas_free_block.
Proof.
  refine {| ba_inv := bam_inv; ba_used := bam_used |}.
  - by intros sbi s [M _].
  - intros sbi s [M R]. assert (G := mt_geom _ _ M). assert (W := bam_wf _ _ M).
    pose proof (g_data _ _ G). pose proof (g_list _ _ G). pose proof (g_counts _ _ G).
    pose proof (g_bam_room _ _ G).
    apply (gas_new_block_run s sbi _ M).
    + intros Hall. repeat (split; [done|]). intros x [? ?]. apply Hall. lia.
    + intros x m m' k Hx Hu _ Hk Hm Hl Hbit.
      assert (Hz : in_zone sbi x).
      { unfold in_zone. destruct (Z_lt_le_dec x (s_data_block_start sbi)); [by rewrite R in Hu by lia|].
        destruct (Z_lt_le_dec x (s_nblocks sbi)); [done|]. by rewrite R in Hu by lia. }
      assert (Hput := bam_used_alloc s sbi x m m' M Hx Hm Hbit). cbv zeta in Hput. fold k in Hput.
      split; [done|]. split; [done|]. exists (set_bam_last k sbi).
      split; [by exists k, (s_iam_last sbi); destruct sbi|]. split; [split|].
      * eapply mounted_put; [done|done|done|by apply geometry_bam_last|done].
      * intros y Hy Hres. cbn in Hy, Hres. rewrite Hput by done. rewrite R by done. apply orb_true_r.
      * split; [by apply bam_frame|]. intros y [? ?]. apply Hput. lia.
  - intros sbi s b [M R] Hz. assert (G := mt_geom _ _ M). pose proof (g_bam_room _ _ G).
    pose proof (g_data _ _ G). pose proof (g_list _ _ G). pose proof (g_counts _ _ G).
    apply (gas_free_block_run s sbi b _ M Hz). intros m m' Hm Hl Hk s' Hu. split; [split|].
    + by eapply mounted_put.
    + intros y Hy Hres. rewrite Hu by done. rewrite R by done.
      destruct (Z.eqb_spec y b); [|done]. unfold in_zone in Hz. lia.
    + split; [by apply bam_frame|]. intros y [? ?]. apply Hu. lia.
  - intros sbi s b [M _] _ Hz. by eapply gas_free_block_outside.
  - apply bam_stable.
Defined.
End free_block.

(** ** Counting *)

(** Number of indices below [n] at which [f] is false. *)
Fixpoint count_clear (f : Z -> bool) (n : nat) : Z :=
  match n with
  | O => 0
  | S n => (if f (Z.of_nat n) then 0 else 1) + count_clear f n
  end.

Lemma count_clear_bound f n : 0 <= count_clear f n <= Z.of_nat n.
Proof. induction n as [|n IH]; cbn [count_clear]; [lia|]. destruct (f _); lia. Qed.

Lemma count_clear_ext f g n :
  (forall i, 0 <= i < Z.of_nat n -> f i = g i) -> count_clear f n = count_clear g n.
Proof.
  induction n as [|n IH]; intros Hfg; cbn [count_clear]; [done|].
  rewrite Hfg by lia. rewrite IH; [done|]. intros i Hi. apply Hfg. lia.
Qed.

Lemma count_clear_app f a b :
  count_clear f (a + b) = count_clear f a + count_clear (fun i => f (Z.of_nat a + i)) b.
Proof.
  induction b as [|b IH]; [rewrite Nat.add_0_r; cbn; lia|].
  replace (a + S b)%nat with (S (a + b)) by lia. cbn [count_clear]. rewrite IH.
  rewrite Nat2Z.inj_add. lia.
Qed.

Lemma count_clear_used f n : (forall i, 0 <= i < Z.of_nat n -> f i = true) -> count_clear f n = 0.
Proof.
  induction n as [|n IH]; intros Hf; cbn [count_clear]; [done|]. rewrite Hf by lia.
  rewrite IH; [done|]. intros i Hi. apply Hf. lia.
Qed.

Lemma count_clear_all f n : (forall i, 0 <= i < Z.of_nat n -> f i = false) -> count_clear f n = Z.of_nat n.
Proof.
  induction n as [|n IH]; intros Hf; cbn [count_clear]; [done|]. rewrite Hf by lia.
  rewrite IH; [lia|]. intros i Hi. apply Hf. lia.
Qed.

(** Splitting off the indices from [a] on. *)
Lemma count_clear_split f a b : 0 <= a <= b ->
  count_clear f (Z.to_nat b) = count_clear f (Z.to_nat a) +
                               count_clear (fun i => f (a + i)) (Z.to_nat (b - a)).
Proof.
  intros Hab. replace (Z.to_nat b) with (Z.to_nat a + Z.to_nat (b - a))%nat by lia.
  rewrite count_clear_app. by rewrite Z2Nat.id by lia.
Qed.

Lemma popcount_clear w n : popcount n w = Z.of_nat n - count_clear (Z.testbit w) n.
Proof. induction n as [|n IH]; cbn [popcount count_clear]; [done|]. rewrite IH. destruct (Z.testbit _ _); lia. Qed.

Section count.
Context `{KernelLaws}.

Lemma count_words_run words : forall m p sum,
  0 <= p -> p + 2 * Z.of_nat words <= blen m -> 0 <= sum < 2 ^ 32 ->
  count_words words m p sum =
    Some (u32 (sum + count_clear (fun i => bit m (8 * p + i)) (16 * words))).
Proof.
  induction words as [|words IH]; intros m p sum Hp Hl Hs; cbn [count_words].
  { cbn. by rewrite Z.add_0_r, u32_small by lia. }
  rewrite load_in_range by (apply in_range_spec; lia). cbn [mbind option_bind].
  set (w := le_combine (sub_bytes 2 m p)).
  assert (Hw : load 2 m p = Some w) by (apply load_in_range, in_range_spec; lia).
  pose proof (load_range _ _ _ _ Hw) as Hwr. change (2 ^ (8 * Z.of_nat 2)) with (2 ^ 16) in Hwr.
  rewrite hweight16_law, popcount_clear by done.
  rewrite IH by (try apply u32_range; lia). f_equal.
  replace (16 * S words)%nat with (16 + 16 * words)%nat by lia. rewrite count_clear_app.
  rewrite (count_clear_ext (Z.testbit w) (fun i => bit m (8 * p + i)) 16)
    by (intros i Hi; apply (testbit_load _ _ _ _ _ Hw); lia).
  rewrite (count_clear_ext (fun i => bit m (8 * (p + 2) + i))
    (fun i => bit m (8 * p + (Z.of_nat 16 + i))) (16 * words)) by (intros i Hi; f_equal; lia).
  change (Z.of_nat 16) with 16. unfold u32. rewrite Zplus_mod_idemp_l. f_equal. lia.
Qed.

Lemma count_free_loop_run blocks : forall bh_of nr bits s k sum,
  map_wf bh_of nr bits (k_buf s) -> bits mod 16 = 0 -> 0 <= k -> k + Z.of_nat blocks <= nr ->
  0 <= sum < 2 ^ 32 ->
  count_free_loop blocks bh_of (bits / 8) k sum s =
    Some (u32 (sum + count_clear (fun i => map_used bh_of bits (k_buf s) (k * bits + i))
                                 (blocks * Z.to_nat bits)), s).
Proof.
  induction blocks as [|blocks IH]; intros bh_of nr bits s k sum W H16 Hk Hn Hs; cbn [count_free_loop].
  { cbn. rewrite Z.add_0_r. by rewrite u32_small. }
  destruct (mw_buf _ _ _ _ W k ltac:(lia)) as (b & m & Hb & Hm & Hl).
  pose proof (mw_bits _ _ _ _ W) as Hbits.
  rewrite K_bind_eq. unfold klift at 1. rewrite Hb. cbn [mbind option_bind].
  rewrite K_bind_eq. unfold bh_data. rewrite Hm. cbn [mbind option_bind]. rewrite K_bind_eq.
  unfold klift at 1. rewrite count_words_run by (done || dlia). cbn [mbind option_bind].
  rewrite (IH _ nr) by (try apply u32_range; done || lia). do 2 f_equal.
  replace (16 * Z.to_nat (bits / 8 / 2))%nat with (Z.to_nat bits) by dlia.
  replace (S blocks * Z.to_nat bits)%nat with (Z.to_nat bits + blocks * Z.to_nat bits)%nat by lia.
  rewrite count_clear_app.
  rewrite (count_clear_ext (fun i => map_used bh_of bits (k_buf s) (k * bits + i))
    (fun i => bit m (8 * 0 + i)) (Z.to_nat bits)).
  2: { intros i Hi. destruct (div_mod_pair bits k i) as [Ed Em]; [lia|].
       rewrite (map_used_eq _ _ _ _ b m) by (by rewrite ?Ed). by rewrite Em. }
  rewrite (count_clear_ext (fun i => map_used bh_of bits (k_buf s) (k * bits + (Z.of_nat (Z.to_nat bits) + i)))
    (fun i => map_used bh_of bits (k_buf s) ((k + 1) * bits + i)) (blocks * Z.to_nat bits))
    by (intros i Hi; f_equal; lia).
  unfold u32. rewrite Zplus_mod_idemp_l. f_equal. lia.
Qed.

(** Counting one map block too many reads a buffer that does not exist. *)
Lemma count_free_loop_overrun blocks : forall bh_of nr bits s k sum,
  map_wf bh_of nr bits (k_buf s) -> bh_of nr = None -> 0 <= k -> k + Z.of_nat blocks = nr ->
  count_free_loop (blocks + 1) bh_of (bits / 8) k sum s = None.
Proof.
  induction blocks as [|blocks IH]; intros bh_of nr bits s k sum W Hnone Hk Hn; cbn [count_free_loop Nat.add];
    rewrite K_bind_eq; unfold klift at 1.
  - replace k with nr by lia. by rewrite Hnone.
  - destruct (mw_buf _ _ _ _ W k ltac:(lia)) as (b & m & Hb & Hm & _). rewrite Hb. cbn [mbind option_bind].
    rewrite K_bind_eq. unfold bh_data. rewrite Hm. cbn [mbind option_bind]. rewrite K_bind_eq.
    unfold klift at 1. destruct (count_words _ m 0 sum); [|done]. cbn [mbind option_bind].
    apply (IH _ nr); [done|done|lia|lia].
Qed.

(** [count_free] over a map of [nr] blocks: the clear bits of the blocks that
    [numbits] bits span. *)
Lemma count_free_run bh_of nr bits s numbits :
  map_wf bh_of nr bits (k_buf s) -> bits mod 16 = 0 -> bits <= 32768 -> nr * bits < 2 ^ 32 ->
  0 < numbits <= 2 ^ 31 -> (numbits + bits - 1) / bits <= nr ->
  count_free bh_of (bits / 8) numbits s =
    Some (count_clear (map_used bh_of bits (k_buf s))
            (Z.to_nat ((numbits + bits - 1) / bits * bits)), s).
Proof.
  intros W H16 Hb Hroom Hn Hle. pose proof (mw_bits _ _ _ _ W) as Hbits.
  unfold count_free. rewrite K_bind_eq. unfold klift, DIV_ROUND_UP.
  replace (bits / 8 * 8) with bits by dlia. rewrite u32_small by lia.
  rewrite (proj2 (Z.eqb_neq bits 0)) by lia. cbn [mbind option_bind]. rewrite u32_small by lia.
  assert (Hq : 0 <= (numbits + bits - 1) / bits) by (apply Z.div_pos; lia).
  generalize dependent ((numbits + bits - 1) / bits). intros q Hle Hq.
  rewrite (count_free_loop_run _ _ nr) by (done || lia). do 2 f_equal.
  rewrite Z.add_0_l, Z2Nat.inj_mul by lia.
  pose proof (count_clear_bound (fun i => map_used bh_of bits (k_buf s) (0 * bits + i))
    (Z.to_nat q * Z.to_nat bits)). rewrite u32_small by nia.
  apply count_clear_ext. intros i Hi. f_equal.
Qed.
End count.

(** ** What the counters report *)

Section count_claims.
Context `{KernelLaws}.

Lemma bpb_facts s sbi : mounted s sbi ->
  s_bits_per_block sbi mod 16 = 0 /\ 4096 <= s_bits_per_block sbi <= 32768 /\
  sb_blocksize s = s_bits_per_block sbi / 8.
Proof.
  intros M. assert (G := mt_geom _ _ M). unfold sb_blocksize. rewrite (g_bpb _ _ G), Z.shiftl_1_l.
  destruct (geometry_pow _ _ G) as [_ Hp]. simpl in Hp. dlia.
Qed.

(** The blocks [count_free] looks at for [n] bits. *)
Definition map_blocks (sbi : gas_sb_info) (n : Z) : Z :=
  (n + s_bits_per_block sbi - 1) / s_bits_per_block sbi.

Lemma gas_count_free_blocks_run s sbi :
  mounted s sbi -> let q := map_blocks sbi (s_nblocks sbi - s_data_block_start sbi + 1) in
  0 <= q <= s_bam_blocks sbi /\
  gas_count_free_blocks s =
    Some (count_clear (bam_used sbi s) (Z.to_nat (q * s_bits_per_block sbi)), s).
Proof.
  intros M q. assert (G := mt_geom _ _ M). destruct (bpb_facts _ _ M) as (H16 & Hb & Hbs).
  pose proof (g_data _ _ G). pose proof (g_list _ _ G). pose proof (g_counts _ _ G).
  pose proof (g_bam_room _ _ G) as Hroom. pose proof (g_nblocks _ _ G).
  assert (Hq : 0 <= q <= s_bam_blocks sbi).
  { unfold q, map_blocks. split; [apply Z.div_pos; lia|].
    rewrite <- (Z.div_mul (s_bam_blocks sbi) (s_bits_per_block sbi)) by lia.
    transitivity ((s_bam_blocks sbi * s_bits_per_block sbi + (s_bits_per_block sbi - 1)) / s_bits_per_block sbi).
    - apply Z.div_le_mono; lia.
    - rewrite Z.div_add_l by lia. rewrite (Z.div_small (_ - 1)) by lia. rewrite Z.div_mul; lia. }
  split; [done|]. unfold gas_count_free_blocks. rewrite K_bind_eq. unfold GAS_SB.
  rewrite (mt_info _ _ M). cbn [mbind option_bind]. rewrite K_bind_eq. cbn [kget].
  rewrite Hbs, u32_small by lia.
  rewrite (count_free_run _ (s_bam_blocks sbi)); [done|by apply bam_wf|done|lia|lia|lia|].
  apply Hq.
Qed.

Lemma gas_count_free_inodes_run s sbi :
  mounted s sbi -> let q := map_blocks sbi (s_ninodes sbi + 1) in
  (s_ninodes sbi < s_iam_blocks sbi * s_bits_per_block sbi ->
   gas_count_free_inodes s =
     Some (count_clear (iam_used sbi s) (Z.to_nat (q * s_bits_per_block sbi)), s) /\
   s_ninodes sbi + 1 <= q * s_bits_per_block sbi <= s_iam_blocks sbi * s_bits_per_block sbi) /\
  (s_ninodes sbi = s_iam_blocks sbi * s_bits_per_block sbi -> gas_count_free_inodes s = None).
Proof.
  intros M q. assert (G := mt_geom _ _ M). destruct (bpb_facts _ _ M) as (H16 & Hb & Hbs).
  pose proof (g_counts _ _ G). pose proof (g_iam_room _ _ G) as Hroom. pose proof (g_ninodes _ _ G).
  pose proof (Z.div_mod (s_ninodes sbi + 1 + s_bits_per_block sbi - 1) (s_bits_per_block sbi) ltac:(lia)) as Hdm.
  pose proof (Z.mod_pos_bound (s_ninodes sbi + 1 + s_bits_per_block sbi - 1) (s_bits_per_block sbi) ltac:(lia)).
  change ((s_ninodes sbi + 1 + s_bits_per_block sbi - 1) / s_bits_per_block sbi) with q in Hdm.
  unfold gas_count_free_inodes. rewrite K_bind_eq. unfold GAS_SB. rewrite (mt_info _ _ M).
  cbn [mbind option_bind]. rewrite K_bind_eq. cbn [kget]. rewrite Hbs, u32_small by lia. split.
  - intros Hlt. assert (q <= s_iam_blocks sbi) by nia.
    rewrite (count_free_run _ (s_iam_blocks sbi)); [|by apply iam_wf|done|lia|lia|lia|done].
    split; [done|nia].
  - intros Heq. assert (Eq : q = s_iam_blocks sbi + 1) by nia.
    unfold count_free. rewrite K_bind_eq. unfold klift, DIV_ROUND_UP.
    replace (s_bits_per_block sbi / 8 * 8) with (s_bits_per_block sbi) by dlia.
    rewrite u32_small, (proj2 (Z.eqb_neq (s_bits_per_block sbi) 0)) by lia. cbn [mbind option_bind].
    rewrite u32_small by lia. unfold q, map_blocks in Eq. rewrite Eq.
    replace (Z.to_nat (s_iam_blocks sbi + 1)) with (Z.to_nat (s_iam_blocks sbi) + 1)%nat by lia.
    apply count_free_loop_overrun with (nr := s_iam_blocks sbi); [by apply iam_wf| |lia|lia].
    unfold iam_bh. rewrite (proj2 (Z.leb_le _ _)), (g_iam_bh _ _ G), (g_map _ _ G) by lia.
    by rewrite list_lookup_fmap, (lookup_seqZ_ge _ _ (Z.to_nat _)) by lia.
Qed.
End count_claims.

(** ** Inodes *)

Section new_inode.
Context `{KernelLaws}.

Lemma iam_used_put s sbi sbi' x m m' v :
  mounted s sbi -> 0 <= x < s_iam_blocks sbi * s_bits_per_block sbi ->
  iam_bh sbi' = iam_bh sbi -> s_bits_per_block sbi' = s_bits_per_block sbi ->
  let b := 1 + s_bam_blocks sbi + x / s_bits_per_block sbi in
  k_buf s !! b = Some m ->
  (forall i, 0 <= i -> bit m' i = if i =? x mod s_bits_per_block sbi then v else bit m i) ->
  forall y, 0 <= y < s_iam_blocks sbi * s_bits_per_block sbi ->
    iam_used sbi' (put_map s sbi' b m') y = if y =? x then v else iam_used sbi s y.
Proof.
  intros M Hx E1 E2 b Hm Hbit y Hy. assert (G := mt_geom _ _ M). assert (W := iam_wf _ _ M).
  pose proof (mw_bits _ _ _ _ W).
  destruct (map_index (s_iam_blocks sbi) (s_bits_per_block sbi) x) as [Hk Hr]; [done|done|].
  unfold iam_used. rewrite E1, E2. cbn [put_map k_buf with_dirty with_fs_info with_buf].
  rewrite (map_used_put (iam_bh sbi) (s_iam_blocks sbi) _ (k_buf s) (x / s_bits_per_block sbi)
    (x mod s_bits_per_block sbi) b m m' v); try done; [|by apply (iam_bh_geom _ _ _ G)].
  by replace (x / s_bits_per_block sbi * s_bits_per_block sbi + x mod s_bits_per_block sbi) with x
    by (pose proof (Z.div_mod x (s_bits_per_block sbi)); lia).
Qed.

(** The block map does not see writes to other blocks. *)
Lemma bam_used_put_other s sbi sbi' b m' :
  mounted s sbi -> bam_bh sbi' = bam_bh sbi -> s_bits_per_block sbi' = s_bits_per_block sbi ->
  s_bam_blocks sbi < b ->
  forall y, 0 <= y < s_bam_blocks sbi * s_bits_per_block sbi ->
    bam_used sbi' (put_map s sbi' b m') y = bam_used sbi s y.
Proof.
  intros M E1 E2 Hb y Hy. assert (G := mt_geom _ _ M). assert (W := bam_wf _ _ M).
  destruct (map_index (s_bam_blocks sbi) (s_bits_per_block sbi) y) as [Hk Hr]; [apply W|done|].
  unfold bam_used, map_used. rewrite E1, E2, (bam_bh_geom _ _ _ G) by done.
  cbn [put_map k_buf with_dirty with_fs_info with_buf]. by rewrite lookup_insert_ne by lia.
Qed.

Lemma gas_new_inode_run s sbi dir d mode (Q : option Z * option errno -> kst -> Prop) :
  mounted s sbi -> k_inodes s !! dir = Some d ->
  (alloc_inode s = None -> Q (None, Some ENOMEM) s) ->
  ((forall x, 0 <= x < s_iam_blocks sbi * s_bits_per_block sbi -> iam_used sbi s x = true) ->
   Q (None, Some ENOSPC) s) ->
  (forall fresh x m m', alloc_inode s = Some fresh ->
     let k := x / s_bits_per_block sbi in
     let b := 1 + s_bam_blocks sbi + k in
     0 <= x < s_iam_blocks sbi * s_bits_per_block sbi -> iam_used sbi s x = false ->
     0 <= k < s_iam_blocks sbi -> k_buf s !! b = Some m -> blen m' = blen m ->
     (forall i, 0 <= i -> bit m' i = if i =? x mod s_bits_per_block sbi then true else bit m i) ->
     let s1 := put_map s (set_iam_last k sbi) b m' in
     let i := init_new_inode (inode_init_owner (zero_blkaddr fresh) d mode) x (current_time s1) in
     Q (Some x, None) (with_idirty ({[x]} ∪ k_idirty s) (with_inodes (<[x := i]> (k_inodes s)) s1))) ->
  kwp (gas_new_inode dir mode) s Q.
Proof.
  intros M Hd Hmem Hfull Hfound. assert (G := mt_geom _ _ M). assert (W := iam_wf _ _ M).
  pose proof (g_iam_last _ _ G) as Hlast. pose proof (g_iam_room _ _ G) as Hroom.
  destruct (bpb_pos _ _ G) as [Hb0 Hb]. pose proof (g_counts _ _ G).
  assert (s_iam_blocks sbi < 2 ^ 31) by nia.
  unfold gas_new_inode. apply kwp_bind. eapply kwp_sb; [apply M|]. apply kwp_bind, kwp_get.
  destruct (alloc_inode s) as [fresh|] eqn:Ea; [|apply kwp_ret; by apply Hmem].
  cbv zeta. rewrite s32_small by lia. apply kwp_bind. eapply kwp_mono.
  { rewrite <- (Z.mod_small (s_iam_last sbi) (s_iam_blocks sbi)) at 2 by lia.
    replace (s_iam_last sbi mod s_iam_blocks sbi) with ((s_iam_last sbi + 0) mod s_iam_blocks sbi)
      by (f_equal; lia).
    apply find_zero_loop_run; [done|lia|lia|lia|lia|].
    intros x Hx Hr. pose proof (Z.mod_pos_bound (x / s_bits_per_block sbi - s_iam_last sbi) (s_iam_blocks sbi)). lia. }
  intros [[k n]|] s1 Hres; cbn [scan_result] in Hres.
  - destruct Hres as (Hk & Hn & Hu & _ & b & m & m' & Hbh & Hm & Hl & Hbit & ->).
    destruct (div_mod_pair (s_bits_per_block sbi) k n Hn) as [Ed Em].
    assert (Hbh' := Hbh). rewrite (iam_bh_geom _ _ _ G) in Hbh' by lia. simplify_eq.
    assert (0 <= k * s_bits_per_block sbi /\ k * s_bits_per_block sbi + n < s_iam_blocks sbi * s_bits_per_block sbi)
      by nia.
    specialize (Hfound fresh (k * s_bits_per_block sbi + n) m m' eq_refl). cbv zeta in Hfound.
    rewrite Ed, Em in Hfound.
    apply kwp_bind, kwp_mod, kwp_bind. eapply kwp_lift; [done|]. apply kwp_bind, kwp_mod, kwp_bind.
    eapply kwp_iref; [done|]. apply kwp_bind, kwp_get, kwp_bind, kwp_mod, kwp_bind, kwp_mod, kwp_ret.
    assert (2 ^ 32 < 2 ^ 64) by (vm_compute; done).
    rewrite (u32_small (k * _)), (u32_small k), u64_small, (Z.add_comm n) by lia.
    apply Hfound; try done; lia.
  - destruct Hres as [-> Hall]. apply kwp_ret. by apply Hfull.
Qed.

(** [gas_clear_inode] only touches the slot of the inode. *)
Lemma gas_clear_inode_run s sbi ino i (Q : unit -> kst -> Prop) :
  mounted s sbi -> 0 <= ino < s_ninodes sbi -> k_inodes s !! ino = Some i -> i_ino i = ino ->
  let b := inode_blk sbi ino in let off := inode_off sbi ino in
  (read_ok b = false -> Q tt s) ->
  (forall m m', read_ok b = true -> k_buf s !! b = Some m -> only_in off (off + 4) m m' ->
     f_get m' off DI.i_nlink = Some 0 -> f_get m' off DI.i_mode = Some 0 ->
     Q tt (after_store s b m')) ->
  kwp (gas_clear_inode ino) s Q.
Proof.
  intros M Hi Hc Hino b off Hf Hs. destruct (inode_slot _ _ _ (mt_geom _ _ M) Hi) as (_ & _ & Hb & Ho & Ho').
  pose proof (g_nblocks _ _ (mt_geom _ _ M)). pose proof (g_counts _ _ (mt_geom _ _ M)).
  pose proof (g_list _ _ (mt_geom _ _ M)).
  unfold gas_clear_inode. apply kwp_bind. eapply kwp_iref; [done|]. rewrite Hino. apply kwp_bind.
  eapply gas_get_inode_run; [done|done|intros Hr|intros Hr]; [|apply kwp_ret; by apply Hf].
  destruct (mt_buf _ _ M b) as (m & Hm & Hl); [unfold b; lia|]. unfold is_block, DI.sizeof in *.
  destruct (f_set_fits m off DI.i_nlink 0) as (m1 & E1 & L1); [unfold off; split; simpl; lia|].
  destruct (f_set_fits m1 off DI.i_mode 0) as (m2 & E2 & L2); [unfold off; split; simpl; lia|].
  apply kwp_bind. eapply kwp_data; [done|]. apply kwp_bind. eapply kwp_lift.
  { cbn. fold off. rewrite E1. cbn [mbind option_bind]. exact E2. }
  apply kwp_bind, kwp_mod, kwp_bind, kwp_mod, kwp_mod.
  specialize (Hs m m2 Hr Hm). cbn. replace (_ ∖ _) with (k_ref s) by multiset_solver.
  destruct s; apply Hs.
  - eapply only_in_trans; (eapply only_in_weaken; [by eapply only_in_f_set|simpl; lia|simpl; lia]).
  - rewrite (f_get_set_other _ _ _ _ _ _ _ E2) by (simpl; lia). by rewrite (f_get_set_same _ _ _ _ _ E1).
  - by rewrite (f_get_set_same _ _ _ _ _ E2).
Qed.
End new_inode.

(** ** What the allocators promise *)

Section bitmap_claims.
Context `{KernelLaws}.

(** C21: [gas_new_block] is a next-fit allocator: ENOSPC exactly when no data block is
    free, and then nothing changes; otherwise a free data block, never a metadata
    block or one past the end, the first in scan order; it becomes the only block
    newly in use, the map buffer is marked dirty and the invariant is kept. *)
Theorem gas_new_block_spec s sbi :
  mounted s sbi -> bam_reserved sbi s ->
  kwp gas_new_block s (fun '(b, err) s' =>
    match err with
    | Some e => e = ENOSPC /\ s' = s /\ forall x, in_zone sbi x -> bam_used sbi s x = true
    | None =>
        in_zone sbi b /\ bam_used sbi s b = false /\
        (forall y, in_zone sbi y -> bam_used sbi s y = false ->
           scan_key (s_bam_blocks sbi) (s_bits_per_block sbi) (s_bam_last sbi) b <=
           scan_key (s_bam_blocks sbi) (s_bits_per_block sbi) (s_bam_last sbi) y) /\
        exists sbi', s_fs_info s' = Some sbi' /\ mounted s' sbi' /\ bam_reserved sbi' s' /\
          s_bam_last sbi' = b / s_bits_per_block sbi /\
          1 + b / s_bits_per_block sbi ∈ k_dirty s' /\ alloc_frame sbi s s' /\
          forall x, 0 <= x < s_bam_blocks sbi * s_bits_per_block sbi ->
            bam_used sbi' s' x = (x =? b) || bam_used sbi s x
    end).
Proof.
  intros M R. assert (G := mt_geom _ _ M). pose proof (g_data _ _ G). pose proof (g_list _ _ G).
  pose proof (g_counts _ _ G). pose proof (g_bam_room _ _ G).
  apply (gas_new_block_run s sbi _ M).
  - intros Hall. repeat (split; [done|]). intros x [? ?]. apply Hall. lia.
  - intros x m m' k Hx Hu Hkey Hk Hm Hl Hbit.
    assert (Hput := bam_used_alloc s sbi x m m' M Hx Hm Hbit). cbv zeta in Hput. fold k in Hput.
    assert (Hz : in_zone sbi x).
    { unfold in_zone. destruct (Z_lt_le_dec x (s_data_block_start sbi)); [by rewrite R in Hu by lia|].
      destruct (Z_lt_le_dec x (s_nblocks sbi)); [done|]. by rewrite R in Hu by lia. }
    split; [done|]. split; [done|]. split.
    { intros y [? ?] Hy. apply Z.nlt_ge. intros Hlt. apply Hkey in Hlt; [congruence|lia]. }
    exists (set_bam_last k sbi). split; [done|]. split; [by eapply mounted_put; eauto using geometry_bam_last|].
    split.
    { intros y Hy Hres. cbn in Hy, Hres. rewrite Hput by done. rewrite R by done. apply orb_true_r. }
    split; [done|]. split; [cbn; clear; set_solver|]. split; [by apply bam_frame|done].
Qed.

(** [gas_free_block] makes exactly the given data block free and keeps the
    invariant; a number outside the data zone changes nothing. *)
Theorem gas_free_block_spec s sbi b :
  mounted s sbi -> bam_reserved sbi s ->
  kwp (gas_free_block b) s (fun _ s' =>
    if bool_decide (in_zone sbi b) then
      mounted s' sbi /\ bam_reserved sbi s' /\ alloc_frame sbi s s' /\
      1 + b / s_bits_per_block sbi ∈ k_dirty s' /\
      forall x, 0 <= x < s_bam_blocks sbi * s_bits_per_block sbi ->
        bam_used sbi s' x = negb (x =? b) && bam_used sbi s x
    else s' = s).
Proof.
  intros M R. case_bool_decide as Hz.
  - assert (G := mt_geom _ _ M). pose proof (g_bam_room _ _ G). pose proof (g_data _ _ G).
    pose proof (g_list _ _ G). pose proof (g_counts _ _ G).
    apply (gas_free_block_run s sbi b _ M Hz). intros m m' Hm Hl Hk s' Hu.
    split; [by eapply mounted_put|]. split.
    { intros y Hy Hres. rewrite Hu by done. rewrite R by done.
      destruct (Z.eqb_spec y b); [|done]. unfold in_zone in Hz. lia. }
    split; [by apply bam_frame|]. split; [cbn; clear; set_solver|done].
  - exists tt, s. split; [by eapply gas_free_block_outside|done].
Qed.

(** C7: Every sequence of block allocations and frees behaves like the abstract machine
    whose state is a finite set of free blocks: an allocation removes some element, or
    reports ENOSPC when the set is empty; no block is handed out twice. *)
Theorem gas_allocator_refines_set s sbi F ops :
  mounted s sbi -> bam_reserved sbi s ->
  (forall x, x ∈ F <-> in_zone sbi x /\ bam_used sbi s x = false) ->
  Forall (op_ok sbi) ops ->
  kwp (run_ops (new := gas_new_block) (free := gas_free_block) ops) s (fun rs s' =>
    exists F' sbi', spec_run F ops rs F' /\ same_sb sbi sbi' /\ bam_inv sbi' s' /\
      forall x, x ∈ F' <-> in_zone sbi' x /\ bam_used sbi' s' x = false).
Proof.
  intros M R HF Hops. exact (run_ops_refines ops sbi s F (conj M R) HF Hops).
Qed.

(** Inode [ino] is new: its number was free and is the only one newly in use, and an empty
    inode of the type of [mode] is in memory, dirty, with one link and no blocks. The block
    map and the data blocks are untouched. *)
Record inode_made (s : kst) (sbi : gas_sb_info) (mode ino : Z) (s' : kst) (sbi' : gas_sb_info) : Prop := {
  im_range : GAS_ROOT_INO <= ino < s_ninodes sbi;
  im_free : iam_used sbi s ino = false;
  im_mounted : mounted s' sbi';
  im_reserved : iam_reserved sbi' s';
  im_sb : same_sb sbi sbi';
  im_iam : forall x, 0 <= x < s_iam_blocks sbi * s_bits_per_block sbi ->
    iam_used sbi' s' x = (x =? ino) || iam_used sbi s x;
  im_bam : forall x, 0 <= x < s_bam_blocks sbi * s_bits_per_block sbi -> bam_used sbi' s' x = bam_used sbi s x;
  im_buf : forall b, s_data_block_start sbi <= b -> k_buf s' !! b = k_buf s !! b;
  im_bits : s_blocksize_bits s' = s_blocksize_bits s;
  im_ref : k_ref s' = k_ref s;
  im_dirty : ino ∈ k_idirty s';
  im_inodes : exists i, k_inodes s' = <[ino := i]> (k_inodes s) /\ i_ino i = ino /\ i_nlink i = 1 /\ i_size i = 0 /\
    blkaddr i = replicate 9 0 /\ Z.land (i_mode i) S_IFMT = Z.land mode S_IFMT }.

Lemma gas_new_inode_made s sbi dir d mode :
  mounted s sbi -> iam_reserved sbi s -> k_inodes s !! dir = Some d ->
  kwp (gas_new_inode dir mode) s (fun '(r, err) s' =>
    match r with
    | None => s' = s /\ (err = Some ENOMEM /\ alloc_inode s = None \/
        err = Some ENOSPC /\ forall x, GAS_ROOT_INO <= x < s_ninodes sbi -> iam_used sbi s x = true)
    | Some ino => err = None /\ exists sbi', inode_made s sbi mode ino s' sbi'
    end).
Proof.
  intros M R Hd. assert (G := mt_geom _ _ M). pose proof (g_data _ _ G). pose proof (g_list _ _ G).
  pose proof (g_counts _ _ G). pose proof (g_iam_room _ _ G). pose proof (g_bam_room _ _ G).
  unfold GAS_ROOT_INO in *.
  apply (gas_new_inode_run s sbi dir d mode _ M Hd).
  - intros E. split; [done|by left].
  - intros Hall. split; [done|]. right. split; [done|]. intros x Hx. apply Hall. lia.
  - intros fresh x m m' Ha k b Hx Hu Hk Hm Hl Hbit s1 i. split; [done|]. exists (set_iam_last k sbi).
    assert (Hr : 1 <= x < s_ninodes sbi).
    { unfold iam_reserved, GAS_ROOT_INO in R. destruct (Z_lt_le_dec x 1); [by rewrite R in Hu by lia|].
      destruct (Z_lt_le_dec x (s_ninodes sbi)); [lia|]. by rewrite R in Hu by lia. }
    assert (Hput := iam_used_put s sbi (set_iam_last k sbi) x m m' true M Hx eq_refl eq_refl Hm Hbit).
    cbv zeta in Hput. assert (M1 : mounted s1 (set_iam_last k sbi)).
    { eapply mounted_put; [done|done|done|by apply geometry_iam_last|done]. }
    destruct (inode_init_owner_law (zero_blkaddr fresh) d mode) as ((_ & E2 & _ & E4 & _) & E8).
    split; try done.
    + by destruct M1; split.
    + intros y Hy Hres. cbn in Hy, Hres. change (iam_used (set_iam_last k sbi) s1 y = true).
      unfold s1. rewrite Hput by done. rewrite (R y) by done. by destruct (y =? x).
    + by exists (s_bam_last sbi), k; destruct sbi.
    + intros y Hy. change (bam_used (set_iam_last k sbi) s1 y = bam_used sbi s y).
      apply bam_used_put_other; [done|done|done|unfold b; lia|lia].
    + intros c Hc. unfold s1. cbn. rewrite lookup_insert_ne; [done|unfold b; lia].
    + cbn. clear. set_solver.
    + exists i. split; [done|]. split; [done|]. split; [unfold i; cbn; rewrite E2; cbn; by eapply alloc_inode_law|].
      split; [done|]. by split.
Qed.

(** C22: [gas_new_inode]: ENOMEM or ENOSPC without effect, the latter exactly when every
    inode is in use; otherwise a free number between 1 and the last inode, now the
    only one newly in use, and an empty in-memory inode of the given type, dirty, with
    one link and no blocks. The block map and the data blocks are not touched. *)
Theorem gas_new_inode_spec s sbi dir d mode :
  mounted s sbi -> iam_reserved sbi s -> k_inodes s !! dir = Some d ->
  kwp (gas_new_inode dir mode) s (fun '(r, err) s' =>
    match r with
    | None => s' = s /\ (err = Some ENOMEM /\ alloc_inode s = None \/
        err = Some ENOSPC /\ forall x, GAS_ROOT_INO <= x < s_ninodes sbi -> iam_used sbi s x = true)
    | Some ino => err = None /\ exists sbi', inode_made s sbi mode ino s' sbi'
    end).
Proof. apply gas_new_inode_made. Qed.
End bitmap_claims.

Section bitmap_claims2.
Context `{KernelLaws}.

Lemma gas_free_inode_run s sbi ino i (Q : unit -> kst -> Prop) :
  mounted s sbi -> GAS_ROOT_INO <= ino < s_ninodes sbi -> k_inodes s !! ino = Some i -> i_ino i = ino ->
  (forall s1 m m', let b := 1 + s_bam_blocks sbi + ino / s_bits_per_block sbi in
     mounted s1 sbi -> k_buf s1 !! b = Some m -> blen m' = blen m ->
     0 <= ino / s_bits_per_block sbi < s_iam_blocks sbi ->
     (s1 = s /\ read_ok (inode_blk sbi ino) = false \/
      read_ok (inode_blk sbi ino) = true /\ exists n n', s1 = after_store s (inode_blk sbi ino) n' /\
        k_buf s !! inode_blk sbi ino = Some n /\
        only_in (inode_off sbi ino) (inode_off sbi ino + 4) n n' /\
        f_get n' (inode_off sbi ino) DI.i_nlink = Some 0 /\
        f_get n' (inode_off sbi ino) DI.i_mode = Some 0) ->
     let s' := put_map s1 sbi b m' in
     (forall y, 0 <= y < s_iam_blocks sbi * s_bits_per_block sbi ->
        iam_used sbi s' y = negb (y =? ino) && iam_used sbi s1 y) -> Q tt s') ->
  kwp (gas_free_inode ino) s Q.
Proof.
  intros M Hi Hc Hino HQ. assert (G := mt_geom _ _ M). unfold GAS_ROOT_INO in *.
  pose proof (g_data _ _ G). pose proof (g_list _ _ G). pose proof (g_counts _ _ G).
  pose proof (g_iam_room _ _ G).
  assert (Hclear : forall s1, mounted s1 sbi ->
    (s1 = s /\ read_ok (inode_blk sbi ino) = false \/
      read_ok (inode_blk sbi ino) = true /\ exists n n', s1 = after_store s (inode_blk sbi ino) n' /\
        k_buf s !! inode_blk sbi ino = Some n /\
        only_in (inode_off sbi ino) (inode_off sbi ino + 4) n n' /\
        f_get n' (inode_off sbi ino) DI.i_nlink = Some 0 /\
        f_get n' (inode_off sbi ino) DI.i_mode = Some 0) ->
    kwp (bh ← klift (iam_bh sbi (ino / s_bits_per_block sbi)); m ← bh_data bh;
      '(_, m) ← klift (clear_bit_in (ino mod s_bits_per_block sbi) m); _ ← bh_put bh m;
      mark_buffer_dirty bh) s1 Q).
  { intros s1 M1 Hcase. assert (W1 := iam_wf _ _ M1).
    destruct (map_index (s_iam_blocks sbi) (s_bits_per_block sbi) ino) as [Hk _]; [apply W1|lia|].
    destruct (clear_map_bit s1 _ _ _ ino W1) as (b & m & m' & Hb & Hm & Hcl & Hl & Hu); [lia|].
    apply kwp_bind. eapply kwp_lift; [done|]. apply kwp_bind. eapply kwp_data; [done|].
    apply kwp_bind. eapply kwp_lift; [done|]. apply kwp_bind, kwp_mod, kwp_mod.
    rewrite (iam_bh_geom _ _ _ G) in Hb by done. simplify_eq.
    specialize (HQ s1 m m' M1 Hm Hl Hk Hcase). cbv zeta in HQ. unfold put_map in HQ.
    rewrite <- (mt_info _ _ M1) in HQ. destruct s1; cbn in *. by apply HQ. }
  unfold gas_free_inode. apply kwp_bind. eapply kwp_sb; [apply M|]. apply kwp_bind, kwp_get, kwp_bind.
  eapply kwp_iref; [done|]. cbv zeta. rewrite Hino.
  rewrite !(proj2 (Z.ltb_ge _ _)) by lia. cbn [orb]. destruct (split_block _ _ ino G) as [-> ->]; [lia|].
  destruct (map_index (s_iam_blocks sbi) (s_bits_per_block sbi) ino) as [Hk _];
    [by apply (iam_wf _ _ M)|lia|].
  rewrite (proj2 (Z.leb_gt _ _)) by lia. apply kwp_bind.
  eapply gas_clear_inode_run; [done|lia|done|done|intros Hr|intros m m' Hr Hm Ho Hz1 Hz2].
  - apply Hclear; [done|by left].
  - apply Hclear; [eapply mounted_after_store; [done|done|apply Ho]|]. right. split; [done|]. by exists m, m'.
Qed.

Lemma gas_free_inode_freed s sbi ino i :
  mounted s sbi -> iam_reserved sbi s -> GAS_ROOT_INO <= ino < s_ninodes sbi ->
  k_inodes s !! ino = Some i -> i_ino i = ino ->
  kwp (gas_free_inode ino) s (fun _ s' =>
    mounted s' sbi /\ iam_reserved sbi s' /\ k_inodes s' = k_inodes s /\ k_ref s' = k_ref s /\
    s_blocksize_bits s' = s_blocksize_bits s /\ (forall b, s_data_block_start sbi <= b -> k_buf s' !! b = k_buf s !! b) /\
    (forall x, 0 <= x < s_iam_blocks sbi * s_bits_per_block sbi ->
       iam_used sbi s' x = negb (x =? ino) && iam_used sbi s x) /\
    (forall x, 0 <= x < s_bam_blocks sbi * s_bits_per_block sbi -> bam_used sbi s' x = bam_used sbi s x) /\
    (read_ok (inode_blk sbi ino) = true -> exists m, k_buf s' !! inode_blk sbi ino = Some m /\
       f_get m (inode_off sbi ino) DI.i_nlink = Some 0 /\ f_get m (inode_off sbi ino) DI.i_mode = Some 0) /\
    forall ino' m, 0 <= ino' < s_ninodes sbi -> ino' <> ino -> k_buf s !! inode_blk sbi ino' = Some m ->
      exists m', k_buf s' !! inode_blk sbi ino' = Some m' /\
        forall info, gas_inode_fill info m' (inode_off sbi ino') = gas_inode_fill info m (inode_off sbi ino')).
Proof.
  intros M R Hi Hc Hino. assert (G := mt_geom _ _ M).
  pose proof (g_data _ _ G). pose proof (g_list _ _ G). pose proof (g_counts _ _ G).
  pose proof (g_iam_room _ _ G). unfold GAS_ROOT_INO in *.
  destruct (inode_slot _ _ ino G) as (_ & _ & Hsb & Hso & Hso'); [lia|].
  eapply gas_free_inode_run; [done|done|done|done|]. intros s1 m m' b M1 Hm Hl Hk Hcase s' Hu.
  assert (Hmaps : forall c, 0 <= c < s_inode_list_start sbi -> k_buf s1 !! c = k_buf s !! c).
  { intros c Hcr. destruct Hcase as [[-> _]|(_ & n & n' & -> & _)]; [done|]. cbn.
    rewrite lookup_insert_ne; [done|lia]. }
  assert (Hiam : forall x, 0 <= x < s_iam_blocks sbi * s_bits_per_block sbi -> iam_used sbi s1 x = iam_used sbi s x).
  { intros x Hx. unfold iam_used, map_used.
    destruct (map_index (s_iam_blocks sbi) (s_bits_per_block sbi) x) as [Hk' _]; [by apply (iam_wf _ _ M)|done|].
    rewrite (iam_bh_geom _ _ _ G), Hmaps by lia. done. }
  split; [eapply mounted_put; [done|done|done|apply M1|done]|]. split.
  { intros y Hy Hres. rewrite Hu, Hiam by done. rewrite R by done. unfold GAS_ROOT_INO in Hres.
    destruct (Z.eqb_spec y ino); [lia|done]. }
  split; [by destruct Hcase as [[-> _]|(_ & n & n' & -> & _)]|].
  split; [by destruct Hcase as [[-> _]|(_ & n & n' & -> & _)]|].
  split; [by destruct Hcase as [[-> _]|(_ & n & n' & -> & _)]|]. split.
  { intros c Hcr. unfold s'. cbn. rewrite lookup_insert_ne by (unfold b; lia).
    destruct Hcase as [[-> _]|(_ & n & n' & -> & _)]; [done|]. cbn. rewrite lookup_insert_ne; [done|lia]. }
  split; [intros x Hx; by rewrite Hu, Hiam|]. split.
  { intros x Hx. unfold s'. rewrite (bam_used_put_other s1 sbi) by (done || unfold b; lia).
    unfold bam_used, map_used.
    destruct (map_index (s_bam_blocks sbi) (s_bits_per_block sbi) x) as [Hk' _]; [by apply (bam_wf _ _ M)|done|].
    rewrite (bam_bh_geom _ _ _ G), Hmaps by lia. done. }
  assert (Htab : forall c, s_inode_list_start sbi <= c -> k_buf s' !! c = k_buf s1 !! c).
  { intros c Hcr. cbn. rewrite lookup_insert_ne; [done|unfold b; lia]. }
  split.
  { intros Hr. destruct Hcase as [[_ Hr']|(_ & n & n' & -> & Hn & _ & Hz1 & Hz2)]; [congruence|].
    exists n'. rewrite Htab by lia. cbn. by rewrite lookup_insert_eq. }
  intros ino' mo Hi' Hne Hmo. destruct (inode_slot _ _ ino' G) as (_ & _ & Hsb2 & _ & _); [lia|].
  rewrite Htab by lia. destruct Hcase as [[-> _]|(_ & n & n' & -> & Hn & Ho & _)]; [by exists mo|].
  cbn. destruct (Z.eq_dec (inode_blk sbi ino') (inode_blk sbi ino)) as [E|];
    [|exists mo; by rewrite lookup_insert_ne].
  rewrite E in Hmo |- *. assert (mo = n) as -> by congruence. exists n'. rewrite lookup_insert_eq.
  split; [done|]. intros info. eapply fill_only_in; [done|].
  destruct (inode_slots_disjoint _ _ ino' ino G) as [|Hd]; [lia|lia|done|congruence|].
  unfold DI.sizeof in *. lia.
Qed.
(** C34: [gas_free_inode] makes exactly the given inode number free, clears the mode and
    link count of its slot on disk (when the table block is readable), and leaves
    every other inode of the table and the block map as they were. *)
Theorem gas_free_inode_spec s sbi ino i :
  mounted s sbi -> iam_reserved sbi s -> GAS_ROOT_INO <= ino < s_ninodes sbi ->
  k_inodes s !! ino = Some i -> i_ino i = ino ->
  kwp (gas_free_inode ino) s (fun _ s' =>
    mounted s' sbi /\ iam_reserved sbi s' /\ k_inodes s' = k_inodes s /\ k_ref s' = k_ref s /\
    s_blocksize_bits s' = s_blocksize_bits s /\ (forall b, s_data_block_start sbi <= b -> k_buf s' !! b = k_buf s !! b) /\
    (forall x, 0 <= x < s_iam_blocks sbi * s_bits_per_block sbi ->
       iam_used sbi s' x = negb (x =? ino) && iam_used sbi s x) /\
    (forall x, 0 <= x < s_bam_blocks sbi * s_bits_per_block sbi -> bam_used sbi s' x = bam_used sbi s x) /\
    (read_ok (inode_blk sbi ino) = true -> exists m, k_buf s' !! inode_blk sbi ino = Some m /\
       f_get m (inode_off sbi ino) DI.i_nlink = Some 0 /\ f_get m (inode_off sbi ino) DI.i_mode = Some 0) /\
    forall ino' m, 0 <= ino' < s_ninodes sbi -> ino' <> ino -> k_buf s !! inode_blk sbi ino' = Some m ->
      exists m', k_buf s' !! inode_blk sbi ino' = Some m' /\
        forall info, gas_inode_fill info m' (inode_off sbi ino') = gas_inode_fill info m (inode_off sbi ino')).
Proof. apply gas_free_inode_freed. Qed.
End bitmap_claims2.

Section count_specs.
Context `{KernelLaws}.

(** [gas_count_free_inodes] reports exactly the inode numbers that are free, when
    the inode map has a spare bit; when the inodes fill the map to its last bit it
    reads a map block that does not exist. *)
Theorem gas_count_free_inodes_spec s sbi :
  mounted s sbi -> iam_reserved sbi s ->
  (s_ninodes sbi < s_iam_blocks sbi * s_bits_per_block sbi ->
   gas_count_free_inodes s =
     Some (count_clear (fun i => iam_used sbi s (1 + i)) (Z.to_nat (s_ninodes sbi - 1)), s)) /\
  (s_ninodes sbi = s_iam_blocks sbi * s_bits_per_block sbi -> gas_count_free_inodes s = None).
Proof.
  intros M R. destruct (gas_count_free_inodes_run s sbi M) as [Hlt Heq]. cbv zeta in *.
  split; [|exact Heq]. intros Hn. destruct (Hlt Hn) as [-> Hq].
  pose proof (g_ninodes _ _ (mt_geom _ _ M)). do 2 f_equal.
  generalize dependent (map_blocks sbi (s_ninodes sbi + 1) * s_bits_per_block sbi). intros n Hq Hlt.
  unfold iam_reserved, GAS_ROOT_INO in R.
  rewrite (count_clear_split _ (s_ninodes sbi) n) by lia.
  rewrite (count_clear_used _ (Z.to_nat (n - s_ninodes sbi))) by (intros i Hi; apply R; lia).
  rewrite (count_clear_split _ 1 (s_ninodes sbi)) by lia.
  rewrite (count_clear_used _ (Z.to_nat 1)) by (intros i Hi; apply R; lia). lia.
Qed.

(** The free data blocks from [a] on. *)
Definition free_from (sbi : gas_sb_info) (s : kst) (a : Z) : Z :=
  count_clear (fun i => bam_used sbi s (a + i)) (Z.to_nat (s_nblocks sbi - a)).

Lemma gas_count_free_blocks_value s sbi :
  mounted s sbi -> bam_reserved sbi s ->
  let q := map_blocks sbi (s_nblocks sbi - s_data_block_start sbi + 1) in
  exists v, gas_count_free_blocks s = Some (v, s) /\
    v + free_from sbi s (q * s_bits_per_block sbi) = free_from sbi s (s_data_block_start sbi).
Proof.
  intros M R q. destruct (gas_count_free_blocks_run s sbi M) as [Hq ->]. fold q in Hq |- *.
  assert (G := mt_geom _ _ M). destruct (bpb_facts _ _ M) as (_ & Hb & _).
  pose proof (g_data _ _ G). pose proof (g_list _ _ G). pose proof (g_counts _ _ G).
  pose proof (g_bam_room _ _ G) as Hroom. pose proof (g_nblocks _ _ G).
  eexists. split; [done|].
  assert (Hn : 0 <= q * s_bits_per_block sbi <= s_bam_blocks sbi * s_bits_per_block sbi) by nia.
  generalize dependent (q * s_bits_per_block sbi). intros n Hn. unfold free_from.
  assert (HT : count_clear (bam_used sbi s) (Z.to_nat (s_nblocks sbi)) =
    count_clear (fun i => bam_used sbi s (s_data_block_start sbi + i))
      (Z.to_nat (s_nblocks sbi - s_data_block_start sbi))).
  { rewrite (count_clear_split _ (s_data_block_start sbi) (s_nblocks sbi)) by lia.
    rewrite (count_clear_used _ (Z.to_nat (s_data_block_start sbi))); [lia|].
    intros i Hi. apply R; lia. }
  rewrite <- HT. destruct (Z_le_gt_dec n (s_nblocks sbi)) as [Hle|Hgt].
  - rewrite (count_clear_split _ n (s_nblocks sbi)) by lia. done.
  - rewrite (count_clear_split _ (s_nblocks sbi) n) by lia.
    rewrite (count_clear_used _ (Z.to_nat (n - s_nblocks sbi))) by (intros i Hi; apply R; lia).
    replace (Z.to_nat (s_nblocks sbi - n)) with 0%nat by lia. cbn. lia.
Qed.

(** [gas_count_free_blocks] counts the free data blocks covered by the map blocks
    that [s_nblocks - s_data_block_start + 1] bits span, and misses the rest: what it
    reports plus the free blocks behind is the number of free data blocks. *)
Theorem gas_count_free_blocks_spec s sbi :
  mounted s sbi -> bam_reserved sbi s ->
  let q := map_blocks sbi (s_nblocks sbi - s_data_block_start sbi + 1) in
  exists v, gas_count_free_blocks s = Some (v, s) /\
    v + free_from sbi s (q * s_bits_per_block sbi) = free_from sbi s (s_data_block_start sbi) /\
    (q = s_bam_blocks sbi -> v = free_from sbi s (s_data_block_start sbi)).
Proof.
  intros M R q. destruct (gas_count_free_blocks_value s sbi M R) as (v & E & Hv). fold q in Hv.
  exists v. split; [done|]. split; [done|]. intros Hq. rewrite Hq in Hv. unfold free_from in *.
  pose proof (g_bam_room _ _ (mt_geom _ _ M)).
  replace (Z.to_nat (s_nblocks sbi - s_bam_blocks sbi * s_bits_per_block sbi)) with 0%nat in Hv by lia.
  cbn in Hv. lia.
Qed.
End count_specs.

(** ** Witnesses *)

#[local] Existing Instance good_api.
#[local] Existing Instance good_laws.

Lemma forall_below (f : Z -> bool) n :
  forallb f (seqZ 0 n) = true -> forall x, 0 <= x < n -> f x = true.
Proof.
  intros Hf x Hx. rewrite forallb_forall in Hf. apply Hf. apply list_elem_of_In, elem_of_seqZ. lia.
Qed.

Lemma demo_bam_reserved : bam_reserved demo_sbi demo_state.
Proof.
  intros x Hx Hr. change (s_bam_blocks demo_sbi * s_bits_per_block demo_sbi) with 4096 in Hx.
  change (s_data_block_start demo_sbi) with 4 in Hr. change (s_nblocks demo_sbi) with 16 in Hr.
  assert (H := forall_below (fun x => (4 <=? x) && (x <? 16) || bam_used demo_sbi demo_state x) 4096
    ltac:(vm_compute; reflexivity) x Hx).
  apply orb_true_iff in H as [H|H]; [bools; lia|exact H].
Qed.

Lemma demo_iam_reserved : iam_reserved demo_sbi demo_state.
Proof.
  intros x Hx Hr. change (s_iam_blocks demo_sbi * s_bits_per_block demo_sbi) with 4096 in Hx.
  change (s_ninodes demo_sbi) with 8 in Hr. unfold GAS_ROOT_INO in Hr.
  assert (H := forall_below (fun x => (1 <=? x) && (x <? 8) || iam_used demo_sbi demo_state x) 4096
    ltac:(vm_compute; reflexivity) x Hx).
  apply orb_true_iff in H as [H|H]; [bools; lia|exact H].
Qed.

Lemma gas_new_block_spec_witness :
  kwp gas_new_block demo_state (fun '(b, err) _ => err = None /\ in_zone demo_sbi b).
Proof.
  eapply kwp_mono; [apply (gas_new_block_spec demo_state demo_sbi demo_mounted demo_bam_reserved)|].
  intros [b [e|]] s'.
  - intros (_ & _ & Hall). exfalso. specialize (Hall 4). vm_compute in Hall.
    assert (false = true) by (apply Hall; split; congruence). discriminate.
  - intros (Hz & _). split; [reflexivity|exact Hz].
Defined.

Lemma gas_free_block_spec_witness :
  kwp (gas_free_block 7) demo_state (fun _ s' => bam_used demo_sbi s' 7 = false).
Proof.
  eapply kwp_mono; [apply (gas_free_block_spec demo_state demo_sbi 7 demo_mounted demo_bam_reserved)|].
  intros u s'. rewrite bool_decide_eq_true_2 by (vm_compute; split; congruence).
  intros (_ & _ & _ & _ & Hu). rewrite Hu by (vm_compute; split; congruence). reflexivity.
Defined.

Lemma gas_allocator_refines_set_witness :
  kwp (run_ops (new := gas_new_block) (free := gas_free_block) [New; Free 9; New]) demo_state (fun rs s' =>
    exists F' sbi', spec_run (list_to_set (seqZ 4 12)) [New; Free 9; New] rs F' /\ same_sb demo_sbi sbi' /\
      bam_inv sbi' s' /\ forall x, x ∈ F' <-> in_zone sbi' x /\ bam_used sbi' s' x = false).
Proof.
  apply (gas_allocator_refines_set demo_state demo_sbi _ _ demo_mounted demo_bam_reserved).
  - intros x. rewrite elem_of_list_to_set, elem_of_seqZ. unfold in_zone.
    change (s_data_block_start demo_sbi) with 4. change (s_nblocks demo_sbi) with 16.
    split; [|intros [? _]; lia]. intros Hx. split; [lia|].
    assert (H := forall_below (fun x => (x <? 4) || negb (bam_used demo_sbi demo_state x)) 16
      ltac:(vm_compute; reflexivity) x ltac:(lia)).
    apply orb_true_iff in H as [H|H]; [bools; lia|by apply negb_true_iff].
  - repeat constructor; vm_compute; congruence.
Defined.

Lemma gas_new_inode_spec_witness :
  kwp (gas_new_inode 1 S_IFREG) demo_state (fun '(r, _) _ => exists ino, r = Some ino /\ 1 <= ino < 8).
Proof.
  eapply kwp_mono; [apply (gas_new_inode_spec demo_state demo_sbi 1 demo_root S_IFREG demo_mounted
    demo_iam_reserved); reflexivity|].
  intros [[ino|] err] s'.
  - intros (_ & sbi' & Hi). exists ino. split; [reflexivity|exact (im_range _ _ _ _ _ _ Hi)].
  - intros (_ & [[_ Ha]|[_ Hall]]); [discriminate Ha|]. exfalso. specialize (Hall 2).
    vm_compute in Hall. assert (false = true) by (apply Hall; split; congruence). discriminate.
Defined.

Lemma gas_free_inode_spec_witness :
  kwp (gas_free_inode 1) demo_state (fun _ s' => iam_used demo_sbi s' 1 = false).
Proof.
  eapply kwp_mono; [apply (gas_free_inode_spec demo_state demo_sbi 1 demo_root demo_mounted
    demo_iam_reserved); [vm_compute; split; congruence|reflexivity|reflexivity]|].
  intros _ s' (_ & _ & _ & _ & _ & _ & Hu & _). rewrite Hu by (vm_compute; split; congruence). reflexivity.
Defined.

Lemma gas_count_free_inodes_spec_witness : gas_count_free_inodes demo_state = Some (6, demo_state).
Proof.
  destruct (gas_count_free_inodes_spec demo_state demo_sbi demo_mounted demo_iam_reserved) as [E _].
  rewrite E by (vm_compute; reflexivity). apply f_equal, f_equal2; [vm_compute; reflexivity|reflexivity].
Defined.

Lemma gas_count_free_blocks_spec_witness :
  exists v, gas_count_free_blocks demo_state = Some (v, demo_state) /\ v = free_from demo_sbi demo_state 4.
Proof.
  destruct (gas_count_free_blocks_spec demo_state demo_sbi demo_mounted demo_bam_reserved)
    as (v & E & _ & Hv). exists v. split; [exact E|]. apply Hv. reflexivity.
Defined.
