(* ===== verification/Itree.v ===== *)
(** * The block tree of an inode (kern/gas_itree.c, kern/gas_itree.h)

    A file's blocks hang off nine words in the inode: six direct blocks and one
    single, one double and one triple indirect block. A [block_t *] is a [ptr]: a
    word of the inode, a word of a buffer, or a local variable. [Indirect] is an
    entry of a chain; a chain is a list, root first, and [partial] its last entry.

    The block allocator is a parameter, used through the interface of Alloc.v.
    [other_tasks] is what other tasks do while this one sleeps in [sb_bread] or
    [sb_getblk]; [pointers_lock] makes the sections it guards atomic. [bforget] and
    [brelse] drop the references [sb_bread] and [sb_getblk] took. *)

From S2P Require Import Prelude Mem Layout Kernel Alloc.

Definition DIRCOUNT : Z := 6.
Definition DIRECT : Z := 6.
Definition DEPTH : Z := 4.
Definition INDIRCOUNT (bits : Z) : Z := Z.shiftl 1 (bits - 2).

(** [block_to_path]: the offsets on the path to a block; none when it is negative or
    too big. *)
Definition block_to_path (nblocks bits block : Z) : list Z :=
  if block <? 0 then []
  else if nblocks <=? block then []
  else if block <? DIRCOUNT then [block]
  else
    let block := block - DIRCOUNT in
    if block <? INDIRCOUNT bits then [DIRCOUNT; block]
    else
      let block := block - INDIRCOUNT bits in
      if block <? INDIRCOUNT bits * INDIRCOUNT bits then
        [DIRCOUNT + 1; Z.quot block (INDIRCOUNT bits); Z.rem block (INDIRCOUNT bits)]
      else
        let block := block - INDIRCOUNT bits * INDIRCOUNT bits in
        [DIRCOUNT + 2; Z.quot (Z.quot block (INDIRCOUNT bits)) (INDIRCOUNT bits);
         Z.rem (Z.quot block (INDIRCOUNT bits)) (INDIRCOUNT bits); Z.rem block (INDIRCOUNT bits)].

(** [gas_blocks]: blocks of a file of [size] bytes, indirect blocks included. [todo]
    is [--i]. *)
Fixpoint gas_blocks_loop (todo : nat) (per blocks direct res : Z) : Z :=
  match todo with
  | O => res
  | S todo =>
      if direct <? blocks then
        let blocks := u32 (blocks - direct) in
        let blocks := u32 (blocks + (per - 1)) in
        let blocks := blocks / per in
        gas_blocks_loop todo per blocks 1 (u32 (res + blocks))
      else res
  end.

Definition gas_blocks (size bits : Z) : Z :=
  let blocks := u32 (Z.shiftr (size + 2 ^ bits - 1) (10 + (bits - 10))) in
  gas_blocks_loop (Z.to_nat (DEPTH - 1)) (2 ^ bits / 4) blocks DIRECT blocks.

(** ** Pointers *)

Inductive ptr : Set :=
| PInode (k : Z)          (* word [k] of [i_data(inode)] *)
| PBuf (b k : Z)          (* word [k] of the buffer of block [b] *)
| PVar (v : Z).           (* a local variable with value [v] *)

Record Indirect := Ind { p : ptr; key : Z; bh : option Z }.

Definition set_blkaddr (i : inode) (l : list Z) : inode :=
  Inode (i_ino i) (i_mode i) (i_nlink i) (i_uid i) (i_gid i) (i_size i) (i_atime i) (i_mtime i)
    (i_ctime i) (i_rdev i) l (a_ops i) (i_op i) (i_fop i).
Definition set_ctime (t : Z) (i : inode) : inode :=
  Inode (i_ino i) (i_mode i) (i_nlink i) (i_uid i) (i_gid i) (i_size i) (i_atime i) (i_mtime i)
    t (i_rdev i) (blkaddr i) (a_ops i) (i_op i) (i_fop i).
Definition set_mtime (t : Z) (i : inode) : inode :=
  Inode (i_ino i) (i_mode i) (i_nlink i) (i_uid i) (i_gid i) (i_size i) (i_atime i) t
    (i_ctime i) (i_rdev i) (blkaddr i) (a_ops i) (i_op i) (i_fop i).

(** [*p] *)
Definition ptr_read (inode : Z) (q : ptr) : K Z :=
  match q with
  | PInode k => i ← iref inode; klift (if 0 <=? k then blkaddr i !! Z.to_nat k else None)
  | PBuf b k => m ← bh_data b; klift (load 4 m (4 * k))
  | PVar v => mret v
  end.

(** [*p = v]; a local variable is not read again. *)
Definition ptr_write (inode : Z) (q : ptr) (v : Z) : K unit :=
  match q with
  | PInode k =>
      i ← iref inode;
      if (0 <=? k) && (k <? Z.of_nat (length (blkaddr i)))
      then iput_data inode (set_blkaddr i (<[Z.to_nat k := v]> (blkaddr i))) else klift None
  | PBuf b k => m ← bh_data b; m ← klift (store 4 m (4 * k) v); bh_put b m
  | PVar _ => mret tt
  end.

Section itree.
Context `{KernelApi}.
Variables (gas_new_block : K (Z * option errno)) (gas_free_block : Z -> K unit) (other_tasks : K unit).

Definition add_chain (inode : Z) (bh : option Z) (v : ptr) : K Indirect :=
  k ← ptr_read inode v; mret (Ind v k bh).

Fixpoint verify_chain (inode : Z) (l : list Indirect) : K bool :=
  match l with
  | [] => mret true
  | from :: l => v ← ptr_read inode (p from); if key from =? v then verify_chain inode l else mret false
  end.

(** The result of [get_branch]: the chain, whether it is complete (NULL is returned in
    C), and the error. [last] is its last entry. *)
Fixpoint get_branch_loop (inode : Z) (offsets : list Z) (chain : list Indirect) (last : Indirect)
  : K (list Indirect * bool * option errno) :=
  match offsets with
  | [] => mret (chain, true, None)
  | o :: offsets =>
      bh ← sb_bread (key last);
      _ ← other_tasks;
      match bh with
      | None => mret (chain, false, Some EIO)
      | Some b =>
          ok ← verify_chain inode chain;
          if negb ok then _ ← brelse (Some b); mret (chain, false, Some EAGAIN)
          else
            q ← add_chain inode (Some b) (PBuf b o);
            if key q =? 0 then mret (chain ++ [q], false, None)
            else get_branch_loop inode offsets (chain ++ [q]) q
      end
  end.

Definition get_branch (inode : Z) (offsets : list Z) : K (list Indirect * bool * option errno) :=
  match offsets with
  | [] => klift None
  | o :: offsets =>
      q ← add_chain inode None (PInode o);
      if key q =? 0 then mret ([q], false, None) else get_branch_loop inode offsets [q] q
  end.

(** [sb_getblk]: the buffer of a block, not read. *)
Definition sb_getblk (b : Z) : K unit := kmod (fun s => with_ref (k_ref s ⊎ {[+ b +]}) s).

Definition forget (bh : option Z) : K unit :=
  match bh with Some b => bforget b | None => mret tt end.

(** [for (...) f(x)] over the entries of a list *)
Fixpoint kfor {A} (l : list A) (f : A -> K unit) : K unit :=
  match l with [] => mret tt | x :: l => _ ← f x; kfor l f end.

(** The loop of [alloc_branch]: link a new block for each of [offsets] under
    [parent]; the entries made and whether none is missing. *)
Fixpoint alloc_loop (offsets : list Z) (parent : Z) (branch : list Indirect) : K (list Indirect * bool) :=
  match offsets with
  | [] => mret (branch, true)
  | o :: offsets =>
      '(nr, _) ← gas_new_block;
      let nr := s32 nr in
      if nr =? 0 then mret (branch, false)
      else
        _ ← sb_getblk parent;
        size ← kget (fun s => 2 ^ s_blocksize_bits s);
        m ← klift (store 4 (zeroes size) (4 * o) (u32 nr));
        _ ← bh_put parent m;
        _ ← mark_buffer_dirty parent;
        alloc_loop offsets nr (branch ++ [Ind (PBuf parent o) (u32 nr) (Some parent)])
  end.

(** [alloc_branch]: fill [branch], whose first entry is [first], for the offsets below
    it; on failure give back what was allocated. *)
Definition alloc_branch (first : Indirect) (offsets : list Z) : K (list Indirect * option errno) :=
  '(parent, _) ← gas_new_block;
  let parent := s32 parent in
  let b0 := Ind (p first) (u32 parent) (bh first) in
  '(branch, done) ← (if negb (parent =? 0) then alloc_loop offsets parent [b0] else mret ([], false));
  if done : bool then mret (branch, None)
  else
    _ ← kfor (tail branch) (fun e => forget (bh e));
    _ ← kfor branch (fun e => gas_free_block (key e));
    mret (branch, Some ENOSPC).

Definition splice_branch (inode : Z) (chain branch : list Indirect) : K (option errno) :=
  match branch with
  | [] => klift None
  | where_ :: rest =>
      ok ← verify_chain inode chain;
      vacant ← (if ok : bool then v ← ptr_read inode (p where_); mret (v =? 0) else mret false);
      if negb vacant then
        _ ← kfor rest (fun e => forget (bh e));
        _ ← kfor branch (fun e => gas_free_block (key e));
        mret (Some EAGAIN)
      else
        _ ← ptr_write inode (p where_) (key where_);
        i ← iref inode;
        now ← kget current_time;
        _ ← iput_data inode (set_ctime now i);
        _ ← (match bh where_ with Some b => mark_buffer_dirty b | None => mret tt end);
        _ ← mark_inode_dirty inode;
        mret None
  end.

(** [while (partial > chain) brelse(partial->bh)]: from the last entry to the second. *)
Definition release_chain (chain : list Indirect) : K unit :=
  kfor (rev (tail chain)) (fun e => brelse (bh e)).

(** [gas_get_block]: the error and the mapping, with the new flag. [fuel] bounds the
    jumps to [reread]. *)
Fixpoint get_block_loop (fuel : nat) (inode : Z) (offsets : list Z) (create : bool)
  : K (option errno * option (Z * bool)) :=
  match fuel with
  | O => klift None
  | S fuel =>
      '(chain, complete, err) ← get_branch inode offsets;
      if complete : bool then
        e ← klift (list.last chain);
        _ ← release_chain chain;
        mret (err, Some (key e, false))
      else if negb create || bool_decide (err = Some EIO) then
        _ ← release_chain chain;
        mret (err, None)
      else if bool_decide (err = Some EAGAIN) then
        _ ← release_chain chain;
        get_block_loop fuel inode offsets create
      else
        partial ← klift (list.last chain);
        let above := removelast chain in
        '(branch, err) ← alloc_branch partial (drop (length chain) offsets);
        match err with
        | Some e =>
            _ ← release_chain chain;
            mret (Some e, None)
        | None =>
            _ ← other_tasks;
            r ← splice_branch inode above branch;
            match r with
            | Some _ =>
                _ ← release_chain chain;
                get_block_loop fuel inode offsets create
            | None =>
                e ← klift (list.last branch);
                _ ← release_chain (above ++ branch);
                mret (None, Some (key e, true))
            end
        end
  end.

Definition gas_get_block (fuel : nat) (inode block : Z) (create : bool)
  : K (option errno * option (Z * bool)) :=
  sbi ← GAS_SB;
  bits ← kget s_blocksize_bits;
  match block_to_path (s_nblocks sbi) bits block with
  | [] => mret (Some EIO, None)
  | offsets => get_block_loop fuel inode offsets create
  end.

(** *** Truncation *)

(** [all_zeroes]: the words [i ..] of a buffer, [todo] of them, are 0. *)
Fixpoint all_zeroes (todo : nat) (m : bytes) (i : Z) : option bool :=
  match todo with
  | O => Some true
  | S todo => w ← load 4 m (4 * i); if negb (w =? 0) then Some false else all_zeroes todo m (i + 1)
  end.

(** The first loop of [find_shared]: trailing zero offsets are left out of the path. *)
Fixpoint shared_depth (offsets : list Z) (k : nat) : nat :=
  match k with
  | S (S _ as k') => if nth k' offsets 0 =? 0 then shared_depth offsets k' else k
  | _ => k
  end.

(** [while (p > chain && all_zeroes(p->bh->b_data, p->p)) p--] on a chain, last entry
    first: the entries passed and the rest, which starts at [p]. *)
Fixpoint find_top (rchain : list Indirect) : K (list Indirect * list Indirect) :=
  match rchain with
  | [] => klift None
  | [e] => mret ([], [e])
  | e :: rest =>
      z ← (match bh e, p e with
           | Some b, PBuf _ o => m ← bh_data b; klift (all_zeroes (Z.to_nat o) m 0)
           | _, _ => klift None
           end);
      if z : bool then '(passed, kept) ← find_top rest; mret (e :: passed, kept)
      else mret ([], e :: rest)
  end.

(** [p--] *)
Definition ptr_pred (q : ptr) : ptr :=
  match q with PInode k => PInode (k - 1) | PBuf b k => PBuf b (k - 1) | PVar v => PVar v end.

(** [find_shared]: the chain down to [partial], and [*top]. *)
Definition find_shared (inode : Z) (offsets : list Z) : K (list Indirect * Z) :=
  let k := shared_depth offsets (length offsets) in
  '(chain, _, _) ← get_branch inode (take k offsets);
  partial ← klift (list.last chain);
  v ← ptr_read inode (p partial);
  if (key partial =? 0) && negb (v =? 0) then mret (chain, 0)
  else
    '(passed, kept) ← find_top (rev chain);
    match kept with
    | [] => klift None
    | e :: above =>
        '(kept, top) ←
          (if (length kept =? k)%nat && (1 <? length kept)%nat
           then mret (Ind (ptr_pred (p e)) (key e) (bh e) :: above, 0)
           else top ← ptr_read inode (p e); _ ← ptr_write inode (p e) 0; mret (kept, top));
        _ ← kfor passed (fun e => brelse (bh e));
        mret (rev kept, top)
    end.

(** [free_data] on the words [ptrs]. *)
Definition free_data (inode : Z) (ptrs : list ptr) : K unit :=
  kfor ptrs (fun q =>
    nr ← ptr_read inode q;
    if negb (nr =? 0) then _ ← ptr_write inode q 0; gas_free_block nr else mret tt).

(** The words [k ..] of a buffer, up to [block_end]. *)
Definition words_from (size b k : Z) : list ptr := PBuf b <$> seqZ k (size / 4 - k).

(** [free_branches]: free the blocks the words [ptrs] point to and what is below, [depth]
    levels of pointers. A subtree that cannot be read is unlinked but not freed. *)
Fixpoint free_branches (depth : nat) (inode : Z) (ptrs : list ptr) : K unit :=
  match depth with
  | O => free_data inode ptrs
  | S depth =>
      kfor ptrs (fun q =>
        nr ← ptr_read inode q;
        if nr =? 0 then mret tt
        else
          _ ← ptr_write inode q 0;
          bh ← sb_bread nr;
          match bh with
          | None => mret tt
          | Some b =>
              size ← kget (fun s => 2 ^ s_blocksize_bits s);
              _ ← free_branches depth inode (words_from size b 0);
              _ ← bforget b;
              _ ← gas_free_block nr;
              mark_inode_dirty inode
          end)
  end.

(** The second loop of [gas_truncate_inode]: free what is to the right of the shared
    branch. [rchain] is the chain from [partial] up, the entry of the inode left out. *)
Fixpoint clear_ends (inode : Z) (n : nat) (rchain : list Indirect) : K unit :=
  match rchain with
  | [] => mret tt
  | e :: above =>
      size ← kget (fun s => 2 ^ s_blocksize_bits s);
      match bh e, p e with
      | Some b, PBuf _ o =>
          _ ← free_branches (n - length rchain - 1) inode (words_from size b (o + 1));
          _ ← mark_buffer_dirty b;
          _ ← brelse (Some b);
          clear_ends inode n above
      | _, _ => klift None
      end
  end.

(** [do_indirects]: kill the whole subtrees from word [DIRECT + first_whole] on; [todo] is
    [DEPTH - 1 - first_whole]. *)
Fixpoint do_indirects (todo : nat) (inode first_whole : Z) : K unit :=
  match todo with
  | O => mret tt
  | S todo =>
      nr ← ptr_read inode (PInode (DIRECT + first_whole));
      _ ← (if negb (nr =? 0) then
             _ ← ptr_write inode (PInode (DIRECT + first_whole)) 0;
             _ ← mark_inode_dirty inode;
             free_branches (Z.to_nat (first_whole + 1)) inode [PVar nr]
           else mret tt);
      do_indirects todo inode (first_whole + 1)
  end.

(** [gas_truncate_inode] on a path of several levels: free the subtree [find_shared] cut
    off, then clear the ends of the blocks on the shared branch. *)
Definition free_shared (inode : Z) (offsets : list Z) : K unit :=
  '(chain, nr) ← find_shared inode offsets;
  partial ← klift (list.last chain);
  _ ← (if negb (nr =? 0) then
         _ ← (match tail chain, bh partial with
              | [], _ => mark_inode_dirty inode
              | _, Some b => mark_buffer_dirty b
              | _, None => klift None
              end);
         free_branches (length offsets - length chain) inode [PVar nr]
       else mret tt);
  clear_ends inode (length offsets) (rev (tail chain)).

(** [gas_truncate_inode]. [block_truncate_page inode size] is the kernel's. *)
Definition gas_truncate_inode (block_truncate_page : Z -> Z -> K unit) (inode : Z) : K unit :=
  sbi ← GAS_SB;
  bits ← kget s_blocksize_bits;
  i ← iref inode;
  let iblock := Z.shiftr (i_size i + 2 ^ bits - 1) bits in
  _ ← block_truncate_page inode (i_size i);
  match block_to_path (s_nblocks sbi) bits iblock with
  | [] => mret tt
  | o :: rest =>
      first_whole ←
        (match rest with
         | [] => _ ← free_data inode (PInode <$> seqZ o (DIRECT - o)); mret 0
         | _ =>
             _ ← free_shared inode (o :: rest);
             mret (o + 1 - DIRECT)
         end);
      _ ← do_indirects (Z.to_nat (DEPTH - 1 - first_whole)) inode first_whole;
      now ← kget current_time;
      i ← iref inode;
      _ ← iput_data inode (set_mtime now (set_ctime now i));
      mark_inode_dirty inode
  end.

(** [gas_truncate] and [gas_evict_inode] (kern/gas_inode.c); the page cache and the
    inode cache are the kernel's. *)
Definition gas_truncate (block_truncate_page : Z -> Z -> K unit) (inode : Z) : K unit :=
  i ← iref inode;
  if negb (S_ISREG (i_mode i) || S_ISDIR (i_mode i) || S_ISLNK (i_mode i)) then mret tt
  else gas_truncate_inode block_truncate_page inode.

Definition set_size (v : Z) (i : inode) : inode :=
  Inode (i_ino i) (i_mode i) (i_nlink i) (i_uid i) (i_gid i) v (i_atime i) (i_mtime i)
    (i_ctime i) (i_rdev i) (blkaddr i) (a_ops i) (i_op i) (i_fop i).

Definition gas_evict_inode (truncate_inode_pages invalidate_inode_buffers clear_inode gas_free_inode : Z -> K unit)
    (block_truncate_page : Z -> Z -> K unit) (inode : Z) : K unit :=
  _ ← truncate_inode_pages inode;
  i ← iref inode;
  _ ← (if i_nlink i =? 0 then
         _ ← iput_data inode (set_size 0 i);
         gas_truncate block_truncate_page inode
       else mret tt);
  _ ← invalidate_inode_buffers inode;
  _ ← clear_inode inode;
  i ← iref inode;
  if i_nlink i =? 0 then gas_free_inode inode else mret tt.
End itree.

(** ** Paths *)

Definition ic_of (bits : Z) : Z := 2 ^ (bits - 2).

(** Levels of indirect blocks below word [o] of the inode. *)
Definition levels (o : Z) : nat := Z.to_nat (o - 5).

Definition valid_path (ic : Z) (l : list Z) : Prop :=
  match l with
  | [] => False
  | o :: rest => 0 <= o <= 8 /\ (length rest <= levels o)%nat /\ Forall (fun k => 0 <= k < ic) rest
  end.

Definition full_path (ic : Z) (l : list Z) : Prop :=
  match l with
  | [] => False
  | o :: rest => 0 <= o <= 8 /\ length rest = levels o /\ Forall (fun k => 0 <= k < ic) rest
  end.

(** The block at the end of a full path. *)
Definition path_block (ic : Z) (l : list Z) : Z :=
  match l with
  | [_; a] => DIRCOUNT + a
  | [_; a; b] => DIRCOUNT + ic + a * ic + b
  | [_; a; b; c] => DIRCOUNT + ic + ic * ic + (a * ic + b) * ic + c
  | o :: _ => o
  | [] => 0
  end.

Definition max_blocks (ic : Z) : Z := DIRCOUNT + ic + ic * ic + ic * ic * ic.

Lemma INDIRCOUNT_eq bits : 2 <= bits -> INDIRCOUNT bits = ic_of bits.
Proof. intros. unfold INDIRCOUNT, ic_of. by rewrite Z.shiftl_1_l. Qed.

Lemma split_index ic x n : 0 < ic -> 0 <= x < n * ic ->
  Z.quot x ic = x / ic /\ Z.rem x ic = x mod ic /\ 0 <= x / ic < n /\ 0 <= x mod ic < ic /\
  x / ic * ic + x mod ic = x.
Proof.
  intros Hic Hx. rewrite Z.quot_div_nonneg, Z.rem_mod_nonneg by lia.
  pose proof (Z.div_mod x ic ltac:(lia)). pose proof (Z.mod_pos_bound x ic Hic).
  repeat split; try lia; [by apply Z.div_pos; lia|apply Z.div_lt_upper_bound; lia].
Qed.

Ltac path_case :=
  split; [split; [lia|split; [unfold levels; cbn; lia|repeat constructor; lia]]|cbn; unfold DIRCOUNT; lia].

Lemma block_to_path_run nblocks bits block :
  9 <= bits <= 12 -> nblocks <= max_blocks (ic_of bits) -> 0 <= block < nblocks ->
  full_path (ic_of bits) (block_to_path nblocks bits block) /\
  path_block (ic_of bits) (block_to_path nblocks bits block) = block.
Proof.
  intros Hbits Hn Hb. unfold block_to_path, max_blocks in *. rewrite INDIRCOUNT_eq by lia.
  assert (Hic : 0 < ic_of bits) by (apply Z.pow_pos_nonneg; lia).
  generalize dependent (ic_of bits). intros ic Hn Hic. unfold DIRCOUNT in *.
  rewrite (proj2 (Z.ltb_ge block 0)), (proj2 (Z.leb_gt nblocks block)) by lia.
  destruct (Z.ltb_spec block 6); [path_case|]. destruct (Z.ltb_spec (block - 6) ic); [path_case|].
  destruct (Z.ltb_spec (block - 6 - ic) (ic * ic)).
  - destruct (split_index ic (block - 6 - ic) ic) as (-> & -> & ? & ? & ?); [lia|lia|]. path_case.
  - destruct (split_index ic (block - 6 - ic - ic * ic) (ic * ic)) as (-> & -> & ? & ? & ?); [lia|nia|].
    destruct (split_index ic ((block - 6 - ic - ic * ic) / ic) ic) as (-> & -> & ? & ? & ?); [lia|lia|]. path_case.
Qed.

(** A full path is determined by its block. *)
Lemma div_mod_inj ic a b c d : 0 <= b < ic -> 0 <= d < ic -> a * ic + b = c * ic + d -> a = c /\ b = d.
Proof. intros Hb Hd E. assert (a = c) by nia. subst. lia. Qed.

Lemma path_block_inj ic l1 l2 :
  0 < ic -> full_path ic l1 -> full_path ic l2 -> path_block ic l1 = path_block ic l2 -> l1 = l2.
Proof.
  intros Hic F1 F2 E.
  assert (Hshape : forall l, full_path ic l ->
    (exists o, l = [o] /\ 0 <= o < 6) \/ (exists a, l = [6; a] /\ 0 <= a < ic) \/
    (exists a b, l = [7; a; b] /\ 0 <= a < ic /\ 0 <= b < ic) \/
    (exists a b c, l = [8; a; b; c] /\ 0 <= a < ic /\ 0 <= b < ic /\ 0 <= c < ic)).
  { intros [|o rest]; [done|]. intros (Ho & Hl & Hf). unfold levels in Hl.
    destruct rest as [|a [|b [|c [|d rest]]]]; cbn in Hl; rewrite ?List.Forall_cons_iff in Hf; try lia.
    - left. exists o. split; [done|lia].
    - right. left. exists a. split; [f_equal; lia|tauto].
    - right. right. left. exists a, b. split; [f_equal; lia|tauto].
    - right. right. right. exists a, b, c. split; [f_equal; lia|tauto]. }
  destruct (Hshape l1 F1) as [(o1 & -> & ?)|[(a1 & -> & ?)|[(a1 & b1 & -> & ? & ?)|(a1 & b1 & c1 & -> & ? & ? & ?)]]],
    (Hshape l2 F2) as [(o2 & -> & ?)|[(a2 & -> & ?)|[(a2 & b2 & -> & ? & ?)|(a2 & b2 & c2 & -> & ? & ? & ?)]]];
    cbn in E; unfold DIRCOUNT in *; try (exfalso; nia); try (by repeat f_equal; lia).
  - destruct (div_mod_inj ic a1 b1 a2 b2) as [-> ->]; [done|done|lia|done].
  - destruct (div_mod_inj ic (a1 * ic + b1) c1 (a2 * ic + b2) c2) as [E1 ->]; [done|done|lia|].
    by destruct (div_mod_inj ic a1 b1 a2 b2) as [-> ->].
Qed.

(** C27: [block_to_path] is a bijection between the blocks of a file and the full paths
    of the tree: every path has the depth its first offset calls for and offsets
    inside the blocks they index, it leads back to its block, and different blocks
    have different paths; a negative or too big block has none. *)
Theorem block_to_path_bijection nblocks bits block :
  9 <= bits <= 12 -> nblocks <= max_blocks (ic_of bits) ->
  (~ 0 <= block < nblocks -> block_to_path nblocks bits block = []) /\
  (0 <= block < nblocks ->
     full_path (ic_of bits) (block_to_path nblocks bits block) /\
     path_block (ic_of bits) (block_to_path nblocks bits block) = block /\
     forall l, full_path (ic_of bits) l -> path_block (ic_of bits) l = block ->
       l = block_to_path nblocks bits block).
Proof.
  intros Hbits Hn. split.
  - intros Hb. unfold block_to_path. destruct (Z.ltb_spec block 0); [done|].
    destruct (Z.leb_spec nblocks block); [done|lia].
  - intros Hb. destruct (block_to_path_run nblocks bits block Hbits Hn Hb) as [F E].
    split; [done|]. split; [done|]. intros l Fl El. apply (path_block_inj (ic_of bits)); try done; [|congruence].
    apply Z.pow_pos_nonneg; lia.
Qed.

(** ** The size of a tree *)

Fixpoint leading_zeros (l : list Z) : Z :=
  match l with k :: l => if k =? 0 then 1 + leading_zeros l else 0 | [] => 0 end.

(** The indirect blocks that the block with path [l] is the first one below. *)
Definition opened (l : list Z) : Z := leading_zeros (rev (tail l)).

(** Data and indirect blocks of a file whose first [d] blocks are present. *)
Fixpoint tree_nodes (nblocks bits : Z) (d : nat) : Z :=
  match d with
  | O => 0
  | S d => 1 + opened (block_to_path nblocks bits (Z.of_nat d)) + tree_nodes nblocks bits d
  end.

(** Blocks of pointers needed for [n] blocks beyond the first [direct]. *)
Definition above (ic direct n : Z) : Z := if direct <? n then (n - direct + (ic - 1)) / ic else 0.

Lemma above_step ic direct n : 0 < ic -> 0 <= direct -> 0 <= n ->
  above ic direct (n + 1) = above ic direct n + (if (direct <=? n) && ((n - direct) mod ic =? 0) then 1 else 0) /\
  (direct <= n -> (n - direct) mod ic = 0 -> above ic direct n = (n - direct) / ic).
Proof.
  intros Hic Hd Hn. unfold above. split.
  - destruct (Z.leb_spec direct n); cbn [andb].
    2: { rewrite !(proj2 (Z.ltb_ge _ _)) by lia. lia. }
    rewrite (proj2 (Z.ltb_lt direct (n + 1))) by lia. destruct (Z.ltb_spec direct n).
    + pose proof (Z.div_mod (n - direct) ic ltac:(lia)). pose proof (Z.mod_pos_bound (n - direct) ic Hic).
      replace (n + 1 - direct + (ic - 1)) with (n - direct + 1 * ic) by lia. rewrite Z.div_add by lia.
      destruct (Z.eqb_spec ((n - direct) mod ic) 0) as [E|E].
      * f_equal. apply (Z.div_unique _ _ _ (ic - 1)); lia.
      * rewrite Z.add_0_r. apply (Z.div_unique _ _ _ ((n - direct) mod ic - 1)); lia.
    + replace (n - direct) with 0 by lia. rewrite Z.mod_0_l by lia. cbn.
      symmetry. apply (Z.div_unique _ _ _ 0); lia.
  - intros Hle Hm. pose proof (Z.div_mod (n - direct) ic ltac:(lia)).
    destruct (Z.ltb_spec direct n).
    + symmetry. apply (Z.div_unique _ _ _ (ic - 1)); lia.
    + replace (n - direct) with 0 by lia. by rewrite Z.div_0_l by lia.
Qed.

Definition blocks_of (ic d : Z) : Z :=
  let n1 := above ic 6 d in let n2 := above ic 1 n1 in d + n1 + n2 + above ic 1 n2.

Lemma above_range ic direct n : 0 < ic -> 0 <= n -> 0 <= direct -> 0 <= above ic direct n <= n.
Proof.
  intros Hic Hn Hd. unfold above. destruct (Z.ltb_spec direct n); [|lia].
  split; [apply Z.div_pos; lia|]. apply Z.div_le_upper_bound; nia.
Qed.

(** One more block: itself and the indirect blocks it opens. *)
Lemma blocks_of_step nblocks bits d :
  9 <= bits <= 12 -> nblocks <= max_blocks (ic_of bits) -> 0 <= d < nblocks ->
  blocks_of (ic_of bits) (d + 1) = blocks_of (ic_of bits) d + 1 + opened (block_to_path nblocks bits d).
Proof.
  intros Hbits Hn Hd.
  assert (Hic : 2 < ic_of bits). { unfold ic_of. assert (2 ^ 7 <= 2 ^ (bits - 2)) by (apply Z.pow_le_mono_r; lia). lia. }
  destruct (block_to_path_run nblocks bits d Hbits Hn Hd) as [F E].
  generalize dependent (ic_of bits). intros ic Hn Hic F E. unfold blocks_of.
  destruct (above_step ic 6 d) as [E1 V1]; [lia|lia|lia|]. rewrite E1.
  pose proof (above_range ic 6 d ltac:(lia) ltac:(lia) ltac:(lia)) as R1.
  destruct (above_step ic 1 (above ic 6 d)) as [E2 V2]; [lia|lia|lia|].
  pose proof (above_range ic 1 (above ic 6 d) ltac:(lia) ltac:(lia) ltac:(lia)) as R2.
  destruct (above_step ic 1 (above ic 1 (above ic 6 d))) as [E3 _]; [lia|lia|lia|].
  destruct (block_to_path nblocks bits d) as [|o rest]; [done|]. destruct F as (Ho & Hl & Hf). unfold levels in Hl.
  unfold opened. cbn [tail].
  destruct rest as [|a [|b [|c [|]]]]; cbn in Hl; rewrite ?List.Forall_cons_iff in Hf; try lia.
  all: cbn [path_block] in E; unfold DIRCOUNT in E; cbn [rev app leading_zeros].
  - rewrite (proj2 (Z.leb_gt 6 d)) by lia. cbn [andb]. rewrite !Z.add_0_r. lia.
  - rewrite (proj2 (Z.leb_le 6 d)) in * by lia. cbn [andb] in *.
    replace (d - 6) with a in * by lia. rewrite (Z.mod_small a) in * by lia.
    destruct (Z.eqb_spec a 0) as [->|].
    + rewrite Z.div_0_l in V1 by lia. rewrite V1 in * by lia.
      unfold above. cbn. rewrite ?Z.add_0_r. lia.
    + rewrite !Z.add_0_r. lia.
  - rewrite (proj2 (Z.leb_le 6 d)) in * by lia. cbn [andb] in *.
    assert (Hd6 : d - 6 = b + (a + 1) * ic) by lia. rewrite Hd6 in *.
    rewrite Z.mod_add, (Z.mod_small b) in * by lia.
    destruct (Z.eqb_spec b 0) as [->|]; [|rewrite !Z.add_0_r; lia].
    rewrite Z.div_add, (Z.div_small 0) in V1 by lia. rewrite V1 in * by lia.
    replace (0 + (a + 1)) with (a + 1) in * by lia.
    rewrite E2. rewrite (proj2 (Z.leb_le 1 (a + 1))) in * by lia. cbn [andb] in *.
    replace (a + 1 - 1) with a in * by lia. rewrite (Z.mod_small a) in * by lia.
    destruct (Z.eqb_spec a 0) as [->|]; [|rewrite ?Z.add_0_r; lia].
    change (0 + 1) with 1. change (above ic 1 1) with 0. change (above ic 1 (0 + 1)) with 0.
    change (above ic 1 0) with 0. lia.
  - rewrite (proj2 (Z.leb_le 6 d)) in * by lia. cbn [andb] in *.
    assert (Hd6 : d - 6 = c + (b + (a + 1) * ic + 1) * ic) by lia. rewrite Hd6 in *.
    rewrite Z.mod_add, (Z.mod_small c) in * by lia.
    destruct (Z.eqb_spec c 0) as [->|]; [|rewrite !Z.add_0_r; lia].
    rewrite Z.div_add, (Z.div_small 0) in V1 by lia. rewrite V1 in * by lia.
    replace (0 + (b + (a + 1) * ic + 1)) with (b + (a + 1) * ic + 1) in * by lia.
    rewrite E2. rewrite (proj2 (Z.leb_le 1 (b + (a + 1) * ic + 1))) in * by nia. cbn [andb] in *.
    replace (b + (a + 1) * ic + 1 - 1) with (b + (a + 1) * ic) in * by lia.
    rewrite Z.mod_add, (Z.mod_small b) in * by lia.
    destruct (Z.eqb_spec b 0) as [->|]; [|rewrite ?Z.add_0_r; lia].
    rewrite Z.div_add, (Z.div_small 0) in V2 by lia. rewrite V2 in * by nia.
    replace (0 + (a + 1)) with (a + 1) in * by lia.
    rewrite E3. rewrite (proj2 (Z.leb_le 1 (a + 1))) by lia. cbn [andb].
    replace (a + 1 - 1) with a by lia. rewrite (Z.mod_small a) by lia.
    destruct (Z.eqb_spec a 0); lia.
Qed.

Lemma blocks_of_nodes nblocks bits d :
  9 <= bits <= 12 -> nblocks <= max_blocks (ic_of bits) -> Z.of_nat d <= nblocks ->
  blocks_of (ic_of bits) (Z.of_nat d) = tree_nodes nblocks bits d.
Proof.
  intros Hbits Hn. induction d as [|d IH]; intros Hd; [done|]. cbn [tree_nodes].
  replace (Z.of_nat (S d)) with (Z.of_nat d + 1) by lia.
  rewrite (blocks_of_step nblocks) by (done || lia). rewrite IH by lia. lia.
Qed.

Lemma above_small ic direct n : 128 <= ic -> 0 <= n -> 0 <= direct -> 128 * above ic direct n <= n + 127.
Proof.
  intros Hic Hn Hd. unfold above. destruct (Z.ltb_spec direct n); [|lia].
  pose proof (Z.div_mod (n - direct + (ic - 1)) ic ltac:(lia)).
  pose proof (Z.mod_pos_bound (n - direct + (ic - 1)) ic ltac:(lia)).
  assert (0 <= (n - direct + (ic - 1)) / ic) by (apply Z.div_pos; lia). nia.
Qed.

(** One turn of the loop of [gas_blocks]. *)
Lemma gas_blocks_loop_step todo ic n direct res :
  128 <= ic <= 1024 -> 0 <= n < 2 ^ 31 -> 0 <= direct ->
  gas_blocks_loop (S todo) ic n direct res =
    if direct <? n then gas_blocks_loop todo ic (above ic direct n) 1 (u32 (res + above ic direct n)) else res.
Proof.
  intros Hic Hn Hd. cbn [gas_blocks_loop]. destruct (Z.ltb_spec direct n); [|done].
  rewrite (u32_small (n - direct)), (u32_small (n - direct + _)) by lia.
  unfold above. by rewrite (proj2 (Z.ltb_lt _ _)) by lia.
Qed.

(** C30: [gas_blocks] is exact: for a file of [size] bytes it is the number of its data
    blocks plus the indirect blocks that hold pointers to them. *)
Theorem gas_blocks_exact nblocks bits size :
  9 <= bits <= 12 -> nblocks <= max_blocks (ic_of bits) -> nblocks < 2 ^ 31 ->
  0 <= size <= nblocks * 2 ^ bits ->
  gas_blocks size bits = tree_nodes nblocks bits (Z.to_nat ((size + 2 ^ bits - 1) / 2 ^ bits)).
Proof.
  intros Hbits Hn Hn31 Hs. assert (Hp : 0 < 2 ^ bits) by (apply Z.pow_pos_nonneg; lia).
  unfold gas_blocks. replace (10 + (bits - 10)) with bits by lia. rewrite Z.shiftr_div_pow2 by lia.
  assert (Hd : 0 <= (size + 2 ^ bits - 1) / 2 ^ bits <= nblocks).
  { split; [apply Z.div_pos; lia|]. transitivity ((nblocks * 2 ^ bits + (2 ^ bits - 1)) / 2 ^ bits).
    - apply Z.div_le_mono; lia.
    - rewrite Z.div_add_l, Z.div_small by lia. lia. }
  set (d := (size + 2 ^ bits - 1) / 2 ^ bits) in *. clearbody d.
  rewrite <- (blocks_of_nodes nblocks) by (done || lia). rewrite Z2Nat.id, (u32_small d) by lia.
  replace (2 ^ bits / 4) with (ic_of bits).
  2: { unfold ic_of. replace bits with (bits - 2 + 2) at 2 by lia. rewrite Z.pow_add_r by lia.
       by rewrite Z.div_mul. }
  assert (Hic : 128 <= ic_of bits <= 1024).
  { unfold ic_of. split; [change 128 with (2 ^ 7)|change 1024 with (2 ^ 10)]; apply Z.pow_le_mono_r; lia. }
  generalize dependent (ic_of bits). intros ic Hn Hic. change (Z.to_nat (DEPTH - 1)) with 3%nat. unfold DIRECT, blocks_of.
  pose proof (above_range ic 6 d ltac:(lia) ltac:(lia) ltac:(lia)).
  pose proof (above_small ic 6 d ltac:(lia) ltac:(lia) ltac:(lia)).
  pose proof (above_range ic 1 (above ic 6 d) ltac:(lia) ltac:(lia) ltac:(lia)).
  pose proof (above_small ic 1 (above ic 6 d) ltac:(lia) ltac:(lia) ltac:(lia)).
  pose proof (above_range ic 1 (above ic 1 (above ic 6 d)) ltac:(lia) ltac:(lia) ltac:(lia)).
  pose proof (above_small ic 1 (above ic 1 (above ic 6 d)) ltac:(lia) ltac:(lia) ltac:(lia)).
  assert (Hz : forall n m, m <= n -> above ic n m = 0) by (intros n m Hm; unfold above; by rewrite (proj2 (Z.ltb_ge _ _))).
  rewrite gas_blocks_loop_step by lia. destruct (Z.ltb_spec 6 d).
  2: { rewrite (Hz 6 d), (Hz 1 0) by lia. rewrite (Hz 1 0) by lia. lia. }
  rewrite gas_blocks_loop_step by lia. destruct (Z.ltb_spec 1 (above ic 6 d)).
  2: { rewrite (Hz 1 (above ic 6 d)), (Hz 1 0) by lia. rewrite u32_small; lia. }
  rewrite gas_blocks_loop_step by lia. cbn [gas_blocks_loop].
  rewrite (u32_small (d + _)), (u32_small (d + _ + _)) by lia.
  destruct (Z.ltb_spec 1 (above ic 1 (above ic 6 d))); [rewrite u32_small; lia|].
  rewrite (Hz 1 (above ic 1 _)) by lia. lia.
Qed.
