(* ===== verification/Tree.v ===== *)
(** * Lookup in the block tree

    The tree of an inode as a function from paths to blocks, its well-formedness, and
    what [get_branch] and [gas_get_block] without [create] return, whatever other tasks
    do while they sleep. *)

From S2P Require Import Prelude Mem Layout Kernel Alloc Itree.

(** ** The tree as a function on paths *)

(** The block reached from block [v] along the offsets [rest]; 0 is a hole. *)
Fixpoint walk (buf : gmap Z bytes) (v : Z) (rest : list Z) : option Z :=
  match rest with
  | [] => Some v
  | o :: rest =>
      if v =? 0 then Some 0
      else m ← buf !! v; w ← load 4 m (4 * o); walk buf w rest
  end.

Definition node (buf : gmap Z bytes) (l : list Z) (pre : list Z) : option Z :=
  match pre with
  | [] => None
  | o :: rest => v ← l !! Z.to_nat o; walk buf v rest
  end.

Lemma walk_snoc buf v rest o :
  walk buf v (rest ++ [o]) = w ← walk buf v rest; walk buf w [o].
Proof.
  revert v. induction rest as [|a rest IH]; intros v; [done|]. cbn [app walk].
  destruct (Z.eqb_spec v 0) as [->|]; [done|].
  destruct (buf !! v) as [m|]; [|done]. cbn [mbind option_bind].
  destruct (load 4 m (4 * a)); [|done]. cbn [mbind option_bind]. apply IH.
Qed.

Lemma node_snoc buf l pre o : pre <> [] -> node buf l (pre ++ [o]) = w ← node buf l pre; walk buf w [o].
Proof.
  destruct pre as [|a rest]; [done|]. intros _. cbn [app node].
  destruct (l !! Z.to_nat a); [|done]. cbn [mbind option_bind]. apply walk_snoc.
Qed.

Lemma valid_snoc ic pre o : pre <> [] -> valid_path ic (pre ++ [o]) -> valid_path ic pre /\ 0 <= o < ic.
Proof.
  destruct pre as [|a rest]; [done|]. intros _. cbn [app valid_path]. rewrite length_app, List.Forall_app.
  cbn [length]. intros (Ha & Hl & Hf & Ho). inversion Ho; subst. split; [|done]. split; [done|]. split; [lia|done].
Qed.

Lemma valid_take ic l n : valid_path ic l -> (0 < n)%nat -> valid_path ic (take n l).
Proof.
  destruct l as [|a rest]; [done|]. destruct n; [lia|]. cbn. rewrite length_take. intros (? & ? & Hf) _.
  split; [done|]. split; [lia|]. apply List.Forall_forall. intros x Hx. rewrite List.Forall_forall in Hf.
  apply Hf. rewrite <- (take_drop n rest). apply in_or_app. by left.
Qed.

Lemma full_valid ic l : full_path ic l -> valid_path ic l.
Proof. destruct l; [done|]. intros (? & ? & ?). split; [done|]. split; [lia|done]. Qed.

Section tree.
Context `{KernelLaws} {new : K (Z * option errno)} {free : Z -> K unit} `{!BlockAllocator new free}.

(** A well-formed tree: every block it reaches is a data block in use, and no block is
    reached twice. *)
Record tree_ok (sbi : gas_sb_info) (s : kst) (l : list Z) : Prop := {
  to_len : length l = 9%nat;
  to_zone : forall pre v, valid_path (ic_of (s_blocksize_bits s)) pre -> node (k_buf s) l pre = Some v ->
    v <> 0 -> in_zone sbi v /\ ba_used sbi s v = true;
  to_tree : forall pre1 pre2 v, valid_path (ic_of (s_blocksize_bits s)) pre1 ->
    valid_path (ic_of (s_blocksize_bits s)) pre2 ->
    node (k_buf s) l pre1 = Some v -> node (k_buf s) l pre2 = Some v -> v <> 0 -> pre1 = pre2 }.

Lemma zone_pos s sbi v : mounted s sbi -> in_zone sbi v -> 0 < v /\ v < 2 ^ 31 /\
  exists m, k_buf s !! v = Some m /\ blen m = 4 * ic_of (s_blocksize_bits s).
Proof.
  intros M [H1 H2]. assert (G := mt_geom _ _ M). pose proof (g_counts _ _ G). pose proof (g_list _ _ G).
  pose proof (g_data _ _ G). pose proof (g_nblocks _ _ G). pose proof (g_bits _ _ G).
  split; [lia|]. split; [lia|]. destruct (mt_buf _ _ M v) as (m & Hm & Hl); [lia|]. exists m. split; [done|].
  unfold is_block, ic_of in *. rewrite Hl. replace (s_blocksize_bits s) with (2 + (s_blocksize_bits s - 2)) at 1 by lia.
  by rewrite Z.pow_add_r by lia.
Qed.

(** Every valid prefix leads somewhere. *)
Lemma node_total s sbi l pre :
  mounted s sbi -> tree_ok sbi s l -> valid_path (ic_of (s_blocksize_bits s)) pre ->
  exists v, node (k_buf s) l pre = Some v.
Proof.
  intros M T. induction pre as [|o pre IH] using rev_ind; [done|]. intros V.
  destruct pre as [|a pre].
  - cbn in V |- *. destruct (lookup_lt_is_Some_2 l (Z.to_nat o)) as [v Hv]; [rewrite (to_len _ _ _ T); lia|].
    rewrite Hv. by exists v.
  - destruct (valid_snoc (ic_of (s_blocksize_bits s)) (a :: pre) o) as [V' Ho]; [done|done|].
    destruct (IH V') as (v & Hv). rewrite node_snoc, Hv by done. cbn [mbind option_bind walk].
    destruct (Z.eqb_spec v 0); [by exists 0|].
    destruct (to_zone _ _ _ T _ _ V' Hv) as [Hz _]; [done|].
    destruct (zone_pos s sbi v M Hz) as (_ & _ & m & -> & Hl). cbn [mbind option_bind].
    rewrite load_in_range by (apply in_range_spec; lia). by eexists.
Qed.

Definition nodev (s : kst) (l pre : list Z) : Z := default 0 (node (k_buf s) l pre).

Lemma nodev_eq s l pre v : node (k_buf s) l pre = Some v -> nodev s l pre = v.
Proof. unfold nodev. by intros ->. Qed.

(** Entry [k] of the chain along [offs]. *)
Definition entry (s : kst) (l offs : list Z) (k : nat) : Indirect :=
  let o := nth k offs 0 in
  match k with
  | O => Ind (PInode o) (nodev s l (take 1 offs)) None
  | S _ => Ind (PBuf (nodev s l (take k offs)) o) (nodev s l (take (S k) offs)) (Some (nodev s l (take k offs)))
  end.

Definition entries (s : kst) (l offs : list Z) (n : nat) : list Indirect := entry s l offs <$> seq 0 n.

Lemma entries_S s l offs n : entries s l offs (S n) = entries s l offs n ++ [entry s l offs n].
Proof. unfold entries. rewrite seq_S, fmap_app. done. Qed.

(** References the chain of [n] entries holds. *)
Definition chain_refs (s : kst) (l offs : list Z) (n : nat) : list Z :=
  (fun k => nodev s l (take k offs)) <$> seq 1 (n - 1).

Lemma take_S_nth (offs : list Z) k : (k < length offs)%nat -> take (S k) offs = take k offs ++ [nth k offs 0].
Proof.
  intros Hk. destruct (lookup_lt_is_Some_2 offs k Hk) as [x Hx]. rewrite (take_S_r _ _ x) by done.
  do 2 f_equal. symmetry. by apply nth_lookup_Some.
Qed.
End tree.

(** ** Following a chain *)

(** Buffers that a chain holds. *)
Definition held (chain : list Indirect) : list Z := omap bh (tail chain).

Lemma held_snoc chain q : chain <> [] -> held (chain ++ [q]) = held chain ++ omap bh [q].
Proof. destruct chain; [done|]. intros _. unfold held. cbn [app tail]. by rewrite omap_app. Qed.

Lemma kfor_app {A} (l1 l2 : list A) f s :
  kfor (l1 ++ l2) f s = (kfor l1 f ≫= fun _ => kfor l2 f) s.
Proof.
  revert s. induction l1 as [|x l1 IH]; intros s; [done|]. cbn [app kfor]. rewrite !K_bind_eq.
  destruct (f x s) as [[[] s1]|]; [|done]. by rewrite IH.
Qed.

Lemma kfor_brelse `{KernelApi} l s :
  kfor l (fun e => brelse (bh e)) s = Some (tt, with_ref (k_ref s ∖ refs (omap bh l)) s).
Proof.
  revert s. induction l as [|e l IH]; intros s; cbn [kfor].
  - cbn [omap list_omap]. rewrite refs_drop_0. by destruct s.
  - cbn [omap list_omap]. destruct (bh e) as [b|]; cbn [brelse].
    + rewrite K_bind_mod, IH. cbn [k_ref with_ref]. by rewrite refs_drop.
    + by rewrite (K_bind_some _ _ s tt s), IH.
Qed.

(** [release_chain] gives back what the chain holds. *)
Lemma release_chain_run `{KernelApi} chain r s :
  release_chain chain (with_ref (r ⊎ refs (held chain)) s) = Some (tt, with_ref r s).
Proof.
  unfold release_chain. rewrite kfor_brelse. cbn [k_ref with_ref]. do 2 f_equal.
  assert (P : omap bh (rev (tail chain)) ≡ₚ held chain).
  { unfold held. symmetry. rewrite <- Permutation_rev. done. }
  rewrite (refs_perm _ _ P), refs_cancel. done.
Qed.

Section lookup.
Context `{KL : KernelLaws} {new : K (Z * option errno)} {free : Z -> K unit} `{BA : !BlockAllocator new free}.

(** In state [s] the inode [ino] is in memory with the block pointers [l], which root
    a well-formed tree of the file system [sbi]. *)
Definition tree_at (sbi : gas_sb_info) (ino : Z) (s : kst) (l : list Z) : Prop :=
  ba_inv sbi s /\ tree_ok sbi s l /\ exists i, k_inodes s !! ino = Some i /\ blkaddr i = l.

Lemma tree_at_ref sbi ino s l r : tree_at sbi ino s l -> tree_at sbi ino (with_ref r s) l.
Proof.
  intros (I & T & E). destruct (ba_stable sbi s (with_ref r s) I) as [I' U].
  { apply mounted_with_ref. by apply ba_mounted. } { done. }
  split; [done|]. split; [|done]. destruct T as [T1 T2 T3]. split; [done| |done].
  intros pre v V Hn Hv. destruct (T2 pre v V Hn Hv) as [Hz Hu]. split; [done|]. by rewrite U.
Qed.

(** Reading the pointer of an entry gives the node below it. *)
Lemma entry_read sbi ino s l offs k :
  tree_at sbi ino s l -> valid_path (ic_of (s_blocksize_bits s)) offs -> (k < length offs)%nat ->
  (k <> 0%nat -> nodev s l (take k offs) <> 0) ->
  ptr_read ino (p (entry s l offs k)) s = Some (nodev s l (take (S k) offs), s).
Proof.
  intros (I & T & i & Hi & Hl) V Hk Hnz. pose proof (ba_mounted _ _ I) as M.
  assert (Vk : valid_path (ic_of (s_blocksize_bits s)) (take (S k) offs)) by (apply valid_take; [done|lia]).
  destruct (node_total s sbi l _ M T Vk) as [v Hv]. rewrite (nodev_eq _ _ _ _ Hv).
  destruct k as [|k].
  - destruct offs as [|o offs]; [cbn in Hk; lia|]. cbn [entry nth p]. unfold ptr_read.
    erewrite K_bind_some by (unfold iref; by rewrite Hi).
    change (take 1 (o :: offs)) with [o] in Vk, Hv. cbn in Vk, Hv. rewrite (proj2 (Z.leb_le 0 o)) by lia.
    rewrite Hl. unfold klift. destruct (l !! Z.to_nat o); [|done]. cbn in Hv |- *. by simplify_eq.
  - specialize (Hnz ltac:(lia)). cbn [entry p]. unfold ptr_read.
    rewrite (take_S_nth offs (S k)) in Hv, Vk by done.
    assert (Vp : valid_path (ic_of (s_blocksize_bits s)) (take (S k) offs)) by (apply valid_take; [done|lia]).
    destruct (node_total s sbi l _ M T Vp) as [w Hw]. rewrite (nodev_eq _ _ _ _ Hw) in *.
    rewrite node_snoc, Hw in Hv by (destruct offs; [cbn in Hk; lia|done]). cbn [mbind option_bind walk] in Hv.
    rewrite (proj2 (Z.eqb_neq w 0)) in Hv by done.
    destruct (k_buf s !! w) as [m|] eqn:Em; [|done]. cbn [mbind option_bind] in Hv.
    erewrite K_bind_some by (unfold bh_data; by rewrite Em). unfold klift.
    destruct (load 4 m _); [|done]. cbn in Hv |- *. by simplify_eq.
Qed.

Lemma nodev_range sbi ino s l pre :
  tree_at sbi ino s l -> valid_path (ic_of (s_blocksize_bits s)) pre -> nodev s l pre <> 0 ->
  in_zone sbi (nodev s l pre) /\ ba_used sbi s (nodev s l pre) = true /\
  exists m, k_buf s !! nodev s l pre = Some m.
Proof.
  intros (I & T & _) V Hnz. pose proof (ba_mounted _ _ I) as M. destruct (node_total s sbi l _ M T V) as [v Hv].
  rewrite (nodev_eq _ _ _ _ Hv) in *. destruct (to_zone _ _ _ T _ _ V Hv Hnz) as [Z1 Z2].
  split; [done|]. split; [done|]. destruct (zone_pos s sbi v M Z1) as (_ & _ & m & ? & _). by exists m.
Qed.

Lemma verify_chain_app ino l1 l2 s :
  verify_chain ino (l1 ++ l2) s = (verify_chain ino l1 ≫= fun ok => if ok : bool then verify_chain ino l2 else mret false) s.
Proof.
  revert s. induction l1 as [|e l1 IH]; intros s; [done|]. cbn [app verify_chain]. rewrite !K_bind_eq.
  destruct (ptr_read ino (p e) s) as [[v s1]|]; [|done]. destruct (key e =? v); [apply IH|done].
Qed.

(** [verify_chain] tells whether a chain made in another state still is the one of the
    present state. *)
Lemma verify_chain_run sbi ino s l s0 l0 offs n :
  tree_at sbi ino s l -> valid_path (ic_of (s_blocksize_bits s)) offs -> (n <= length offs)%nat ->
  (forall k, (0 < k < n)%nat -> nodev s0 l0 (take k offs) <> 0) ->
  exists ok : bool, verify_chain ino (entries s0 l0 offs n) s = Some (ok, s) /\
    (ok = true <-> entries s0 l0 offs n = entries s l offs n).
Proof.
  intros T V. induction n as [|n IH]; intros Hn Hnz; [by exists true|].
  destruct IH as (ok & E & Hok); [lia|intros; apply Hnz; lia|].
  rewrite !entries_S, verify_chain_app. erewrite K_bind_some by exact E. destruct ok.
  - destruct Hok as [Heq _]. specialize (Heq eq_refl). cbn [verify_chain].
    assert (Hprev : n <> 0%nat -> nodev s0 l0 (take n offs) = nodev s l (take n offs)).
    { intros Hn0. destruct n as [|k]; [done|]. rewrite !entries_S in Heq. apply app_inj_tail in Heq as [_ Heq].
      apply (f_equal key) in Heq. destruct k; exact Heq. }
    assert (Hp : p (entry s0 l0 offs n) = p (entry s l offs n)).
    { destruct n as [|k]; [done|]. cbn [entry p]. by rewrite Hprev. }
    rewrite Hp, K_bind_eq, (entry_read sbi ino s l offs n T V) by (lia || (intros; rewrite <- Hprev by done; apply Hnz; lia)).
    assert (Hk : key (entry s0 l0 offs n) = nodev s0 l0 (take (S n) offs)) by (by destruct n).
    rewrite Hk. destruct (Z.eqb_spec (nodev s0 l0 (take (S n) offs)) (nodev s l (take (S n) offs))) as [Hv|Hv].
    + exists true. split; [done|]. split; [|done]. intros _. rewrite Heq. do 2 f_equal.
      destruct n as [|k]; cbn [entry]; rewrite Hv; [done|]. by rewrite Hprev.
    + exists false. split; [done|]. split; [done|]. intros Hd. apply app_inj_tail in Hd as [_ Hd].
      apply (f_equal key) in Hd. rewrite Hk in Hd. destruct n; by destruct Hv.
  - exists false. split; [done|]. split; [done|]. intros Hd. apply app_inj_tail in Hd as [Hd _].
    destruct Hok as [_ Hok]. by specialize (Hok Hd).
Qed.
End lookup.

(** ** [get_branch] among other tasks *)

Section interference.
Context `{KL : KernelLaws} {new : K (Z * option errno)} {free : Z -> K unit} `{BA : !BlockAllocator new free}.
Variables (sbi : gas_sb_info) (ino : Z) (other_tasks : K unit) (R : kst -> kst -> Prop).

(** A [tree_at] up to the positions where the allocators start to search. *)
Definition live (s : kst) (l : list Z) : Prop := exists sbi', same_sb sbi sbi' /\ tree_at sbi' ino s l.

(** What other tasks may do: any steps of [R] that leave the inode in memory and its tree
    well formed, and the references of this task alone. *)
Record rely : Prop := {
  rl_refl : forall s, R s s;
  rl_trans : forall s1 s2 s3, R s1 s2 -> R s2 s3 -> R s1 s3;
  rl_ref : forall s1 s2 r, R s1 s2 -> R (with_ref r s1) (with_ref r s2);
  rl_run : forall s l, live s l -> kwp other_tasks s (fun _ s' =>
    R s s' /\ k_ref s' = k_ref s /\ s_blocksize_bits s' = s_blocksize_bits s /\ exists l', live s' l') }.

(** The chains [get_branch] returns when it ends in state [s1]: the block is there, there
    is a hole, an indirect block that was in the tree when this task began to read it
    cannot be read, or the chain was changed under it. *)
Inductive branch (s s1 : kst) (offs : list Z) : list Indirect -> bool -> option errno -> Prop :=
| branch_found l1 :
    live s1 l1 -> nodev s1 l1 offs <> 0 -> branch s s1 offs (entries s1 l1 offs (length offs)) true None
| branch_hole l1 n :
    live s1 l1 -> (0 < n <= length offs)%nat ->
    (forall k, (0 < k < n)%nat -> nodev s1 l1 (take k offs) <> 0) -> nodev s1 l1 (take n offs) = 0 ->
    branch s s1 offs (entries s1 l1 offs n) false None
| branch_eio s0 l0 l1 n :
    R s s0 -> R s0 s1 -> live s0 l0 -> live s1 l1 -> (0 < n < length offs)%nat ->
    nodev s0 l0 (take n offs) <> 0 -> read_ok (nodev s0 l0 (take n offs)) = false ->
    branch s s1 offs (entries s0 l0 offs n) false (Some EIO)
| branch_changed s0 l0 l1 n :
    R s s0 -> R s0 s1 -> live s0 l0 -> live s1 l1 -> (0 < n < length offs)%nat ->
    entries s0 l0 offs n <> entries s1 l1 offs n ->
    branch s s1 offs (entries s0 l0 offs n) false (Some EAGAIN).

Hypothesis Hrely : rely.

Lemma live_ref s l r : live s l -> live (with_ref r s) l.
Proof. intros (sbi' & Hs & T). exists sbi'. split; [done|]. by apply tree_at_ref. Qed.

(** Other tasks run while this one holds the references [r]. *)
Lemma other_run s l r : live s l -> kwp other_tasks (with_ref r s) (fun _ s' => exists s1 l1,
  s' = with_ref r s1 /\ R s s1 /\ k_ref s1 = k_ref s /\ s_blocksize_bits s1 = s_blocksize_bits s /\ live s1 l1).
Proof.
  intros L. eapply kwp_mono; [apply (rl_run Hrely _ l), (live_ref _ _ r L)|].
  intros _ s' (HR & Hr & Hb & l' & L'). exists (with_ref (k_ref s) s'), l'.
  cbn [k_ref s_blocksize_bits with_ref] in *. split; [by destruct s'; cbn in *; subst|].
  split; [|split; [done|split; [done|by apply live_ref]]].
  apply (rl_ref Hrely _ _ (k_ref s)) in HR. by destruct s.
Qed.

(** One step of [get_branch_loop] reads the next entry. *)
Lemma add_chain_run s l offs n r b :
  live s l -> valid_path (ic_of (s_blocksize_bits s)) offs -> (0 < n < length offs)%nat ->
  b = nodev s l (take n offs) -> b <> 0 ->
  add_chain ino (Some b) (PBuf b (nth n offs 0)) (with_ref r s) = Some (entry s l offs n, with_ref r s).
Proof.
  intros (sbi' & _ & T) V Hn -> Hnz. unfold add_chain.
  replace (PBuf (nodev s l (take n offs)) (nth n offs 0)) with (p (entry (with_ref r s) l offs n))
    by (destruct n; [lia|done]).
  rewrite K_bind_eq, (entry_read sbi' ino) by (apply tree_at_ref, T || done || lia). destruct n; [lia|done].
Qed.

Lemma branch_mono s s0 s1 offs chain c e : R s s0 -> branch s0 s1 offs chain c e -> branch s s1 offs chain c e.
Proof.
  intros HR B. destruct B; [by apply branch_found|by apply branch_hole|eapply branch_eio|eapply branch_changed]; try done;
    by eapply rl_trans.
Qed.

Lemma key_entry s l offs n : key (entry s l offs n) = nodev s l (take (S n) offs).
Proof. by destruct n. Qed.

Lemma held_entries_S s l offs n : (0 < n)%nat ->
  held (entries s l offs (S n)) = held (entries s l offs n) ++ [nodev s l (take n offs)].
Proof. intros Hn. rewrite entries_S, held_snoc by (destruct n; [lia|done]). destruct n; [lia|done]. Qed.

Lemma entries_nodev s l s1 l1 offs n k : entries s l offs n = entries s1 l1 offs n -> (0 < k <= n)%nat ->
  nodev s l (take k offs) = nodev s1 l1 (take k offs).
Proof.
  intros E Hk. rewrite <- (Nat.succ_pred_pos k), <- !key_entry by lia.
  assert (HH : forall s l, entries s l offs n !! Nat.pred k = Some (entry s l offs (Nat.pred k))).
  { intros s' l'. unfold entries. rewrite list_lookup_fmap, lookup_seq_lt by lia. done. }
  pose proof (HH s l) as H1. rewrite E, HH in H1. congruence.
Qed.

Lemma get_branch_loop_run offs rest : forall s l n r,
  live s l -> valid_path (ic_of (s_blocksize_bits s)) offs -> (0 < n <= length offs)%nat ->
  drop n offs = rest -> (forall k, (0 < k <= n)%nat -> nodev s l (take k offs) <> 0) ->
  kwp (get_branch_loop other_tasks ino rest (entries s l offs n) (entry s l offs (n - 1)))
    (with_ref (r ⊎ refs (held (entries s l offs n))) s)
    (fun res s' => let '(chain, complete, err) := res in exists s1, s' = with_ref (r ⊎ refs (held chain)) s1 /\
      R s s1 /\ k_ref s1 = k_ref s /\ s_blocksize_bits s1 = s_blocksize_bits s /\ branch s s1 offs chain complete err).
Proof.
  induction rest as [|o rest IH]; intros s l n r L V Hn Hrest Hnz; cbn [get_branch_loop].
  - assert (n = length offs) as ->. { apply (f_equal length) in Hrest. rewrite length_drop in Hrest. cbn in Hrest. lia. }
    apply kwp_ret. exists s. split; [done|]. split; [apply (rl_refl Hrely)|]. do 2 (split; [done|]).
    apply branch_found; [done|]. specialize (Hnz (length offs) ltac:(lia)). by rewrite firstn_all in Hnz.
  - assert (Hlen : (n < length offs)%nat).
    { apply (f_equal length) in Hrest. rewrite length_drop in Hrest. cbn in Hrest. lia. }
    assert (Ho : o = nth n offs 0).
    { symmetry. apply nth_lookup_Some. apply (f_equal (lookup 0%nat)) in Hrest. by rewrite lookup_drop, Nat.add_0_r in Hrest. }
    assert (Hrest' : drop (S n) offs = rest).
    { rewrite <- Nat.add_1_r, <- drop_drop, Hrest. done. }
    rewrite key_entry. replace (S (n - 1)) with n by lia. pose proof (Hnz n ltac:(lia)) as Hb.
    destruct L as (sbi' & Hs & T). assert (L : live s l) by (by exists sbi').
    destruct (nodev_range sbi' ino s l (take n offs) T) as (_ & _ & m & Hm); [apply valid_take; [done|lia]|done|].
    apply kwp_bind, kwp_bread; cycle 1.
    { intros [Hr|Hr]; cbn [k_buf with_ref] in Hr; [|congruence]. apply kwp_bind.
      eapply kwp_mono; [by apply (other_run s l)|]. intros _ s' (s1 & l1 & -> & HR & Hr1 & Hb1 & L1).
      apply kwp_ret. exists s1. do 4 (split; [done|]).
      apply (branch_eio s s1 offs s l l1 n); try done; [apply (rl_refl Hrely)|lia]. }
    intros _ _. cbn [k_ref with_ref]. apply kwp_bind.
    eapply kwp_mono; [by apply (other_run s l)|]. intros _ s' (s1 & l1 & -> & HR & Hr1 & Hb1 & L1).
    destruct L1 as (sbi1 & Hs1 & T1). assert (L1 : live s1 l1) by (by exists sbi1).
    set (b := nodev s l (take n offs)) in *. set (r1 := r ⊎ refs (held (entries s l offs n)) ⊎ {[+ b +]}).
    destruct (verify_chain_run sbi1 ino (with_ref r1 s1) l1 s l offs n) as (ok & Ev & Hok).
    { by apply tree_at_ref. } { cbn [s_blocksize_bits with_ref]. by rewrite Hb1. } { lia. }
    { intros k Hk. apply Hnz. lia. }
    apply kwp_bind. eexists _, _. split; [exact Ev|]. cbn beta. change (entries (with_ref r1 s1)) with (entries s1) in Hok.
    destruct ok; cbn [negb].
    + destruct Hok as [Heq _]. specialize (Heq eq_refl).
      assert (Eb : b = nodev s1 l1 (take n offs)) by (apply (entries_nodev s l s1 l1 offs n); [done|lia]).
      apply kwp_bind. eexists _, _. split; [subst o; apply (add_chain_run s1 l1 offs n r1 b); [done|by rewrite Hb1|lia|done|done]|].
      rewrite key_entry, Heq, <- entries_S.
      assert (Hr : with_ref r1 s1 = with_ref (r ⊎ refs (held (entries s1 l1 offs (S n)))) s1).
      { unfold r1. f_equal. rewrite held_entries_S, Heq, <- Eb by lia.
        rewrite <- refs_app. change (refs [b]) with ({[+ b +]} ⊎ (∅ : gmultiset Z)). by rewrite (right_id_L ∅ (⊎)). }
      rewrite Hr. destruct (Z.eqb_spec (nodev s1 l1 (take (S n) offs)) 0) as [H0|H0].
      * apply kwp_ret. exists s1. do 4 (split; [done|]). apply branch_hole; [done|lia| |done].
        intros k Hk. rewrite <- (entries_nodev s l s1 l1 offs n) by (done || lia). apply Hnz. lia.
      * pose proof (IH s1 l1 (S n) r) as IH1. rewrite Nat.sub_1_r in IH1. cbn [Nat.pred] in IH1.
        eapply kwp_mono; [apply IH1; [done|by rewrite Hb1|lia|done|]|].
        { intros k Hk. destruct (decide (k = S n)) as [->|]; [done|].
          rewrite <- (entries_nodev s l s1 l1 offs n) by (done || lia). apply Hnz. lia. }
        intros [[chain c] e] s' (s2 & -> & HR2 & Hr2 & Hb2 & B). exists s2.
        split; [done|]. split; [by eapply (rl_trans Hrely)|]. split; [congruence|]. split; [congruence|].
        by eapply branch_mono.
    + apply kwp_bind. eapply kwp_mod. cbn [k_ref with_ref]. apply kwp_ret. exists s1. split.
      { cbn [k_ref with_ref]. change (with_ref ?x (with_ref _ s1)) with (with_ref x s1). f_equal. unfold r1.
        generalize (r ⊎ refs (held (entries s l offs n))). clear. intros X. multiset_solver. }
      do 3 (split; [done|]). eapply (branch_changed s s1 offs s l l1 n); try done; [apply (rl_refl Hrely)|lia|].
      intros Hd. by apply Hok in Hd.
Qed.

(** [get_branch] ends in one of the four ways, and holds the buffers of the chain. *)
Lemma get_branch_run offs s l r :
  live s l -> valid_path (ic_of (s_blocksize_bits s)) offs ->
  kwp (get_branch other_tasks ino offs) (with_ref r s)
    (fun res s' => let '(chain, complete, err) := res in exists s1, s' = with_ref (r ⊎ refs (held chain)) s1 /\
      R s s1 /\ k_ref s1 = k_ref s /\ s_blocksize_bits s1 = s_blocksize_bits s /\ branch s s1 offs chain complete err).
Proof.
  intros L V. destruct offs as [|o offs]; [done|]. cbn [get_branch]. destruct L as (sbi' & Hs & T).
  assert (L : live s l) by (by exists sbi'). apply kwp_bind. unfold add_chain. apply kwp_bind.
  eexists _, _. split; [apply (entry_read sbi' ino (with_ref r s) l (o :: offs) 0)|]; [by apply tree_at_ref|done|cbn; lia|done|].
  apply kwp_ret. cbn [key]. change (nodev (with_ref r s)) with (nodev s).
  change (Ind (PInode o) (nodev s l (take 1 (o :: offs))) None) with (entry s l (o :: offs) 0).
  assert (Hr : with_ref r s = with_ref (r ⊎ refs (held [entry s l (o :: offs) 0])) s).
  { f_equal. change (refs (held _)) with (∅ : gmultiset Z). by rewrite (right_id_L ∅ (⊎)). }
  rewrite Hr. destruct (Z.eqb_spec (nodev s l (take 1 (o :: offs))) 0) as [H0|H0].
  - apply kwp_ret. exists s. split; [done|]. split; [apply (rl_refl Hrely)|]. do 2 (split; [done|]).
    apply (branch_hole s s (o :: offs) l 1); [done|cbn; lia|lia|done].
  - apply (get_branch_loop_run (o :: offs) offs s l 1 r); [done|done|cbn; lia|done|].
    intros k Hk. by replace k with 1%nat by lia.
Qed.

(** What a lookup along [path] that started in state [s] and ended in [s1] returns. *)
Inductive mapping (s s1 : kst) (path : list Z) : option errno -> option (Z * bool) -> Prop :=
| mapping_found l1 :
    live s1 l1 -> nodev s1 l1 path <> 0 -> mapping s s1 path None (Some (nodev s1 l1 path, false))
| mapping_hole l1 : live s1 l1 -> nodev s1 l1 path = 0 -> mapping s s1 path None None
| mapping_unreadable s0 l0 n :
    R s s0 -> R s0 s1 -> live s0 l0 -> (0 < n < length path)%nat -> nodev s0 l0 (take n path) <> 0 ->
    read_ok (nodev s0 l0 (take n path)) = false -> mapping s s1 path (Some EIO) None
| mapping_changed s0 l0 l1 n :
    R s s0 -> R s0 s1 -> live s0 l0 -> live s1 l1 -> (0 < n < length path)%nat ->
    entries s0 l0 path n <> entries s1 l1 path n -> mapping s s1 path (Some EAGAIN) None.
End interference.

Lemma walk_zero buf rest : walk buf 0 rest = Some 0.
Proof. by destruct rest. Qed.

Lemma walk_app buf v r1 r2 : walk buf v (r1 ++ r2) = w ← walk buf v r1; walk buf w r2.
Proof.
  revert v. induction r1 as [|a r1 IH]; intros v; [done|]. cbn [app walk].
  destruct (Z.eqb_spec v 0) as [->|]; [cbn [mbind option_bind]; by rewrite walk_zero|].
  destruct (buf !! v) as [m|]; [|done]. cbn [mbind option_bind]. destruct (load 4 m (4 * a)); [|done].
  cbn [mbind option_bind]. apply IH.
Qed.

(** Below a hole there is nothing. *)
Lemma nodev_below s l pre n : (0 < n)%nat -> node (k_buf s) l (take n pre) = Some 0 -> nodev s l pre = 0.
Proof.
  destruct pre as [|o rest]; [done|]. destruct n as [|n]; [lia|]. intros _. cbn [take node]. unfold nodev. cbn [node].
  destruct (l !! Z.to_nat o) as [v|]; [|done]. cbn [mbind option_bind]. intros E.
  rewrite <- (take_drop n rest), walk_app, E. cbn [mbind option_bind]. by rewrite walk_zero.
Qed.

(** [entries] are released as they were taken; the chain of a found block is not empty. *)
Lemma entries_last s l offs n : (0 < n)%nat -> list.last (entries s l offs n) = Some (entry s l offs (n - 1)).
Proof. destruct n; [lia|]. intros _. rewrite entries_S, last_snoc. do 3 f_equal. lia. Qed.

Section lookups.
Context `{KL : KernelLaws} {new : K (Z * option errno)} {free : Z -> K unit} `{BA : !BlockAllocator new free}.

Lemma live_info sbi ino s l : live sbi ino s l ->
  9 <= s_blocksize_bits s <= 12 /\ exists sbi', s_fs_info s = Some sbi' /\ s_nblocks sbi' = s_nblocks sbi.
Proof.
  intros (sbi' & (v & w & ->) & I & _). apply ba_mounted in I.
  split; [apply (g_bits _ _ (mt_geom _ _ I))|]. eexists. split; [apply (mt_info _ _ I)|done].
Qed.

(** Other tasks that do nothing. *)
Lemma quiet_rely sbi ino other : (forall s, other s = Some (tt, s)) -> rely sbi ino other eq.
Proof.
  intros Hq. split; [done|by intros ??? -> ->|by intros ??? ->|].
  intros s l L. exists tt, s. split; [apply Hq|]. do 3 (split; [done|]). by exists l.
Qed.

Lemma with_own_ref s : with_ref (k_ref s) s = s.
Proof. by destruct s. Qed.

(** The lookup part of [get_block_loop]. *)
Lemma lookup_run sbi ino other R s l path fuel :
  rely sbi ino other R -> live sbi ino s l -> valid_path (ic_of (s_blocksize_bits s)) path ->
  kwp (get_block_loop new free other (S fuel) ino path false) s (fun res s' =>
    R s s' /\ k_ref s' = k_ref s /\ mapping sbi ino R s s' path (fst res) (snd res)).
Proof.
  intros HR L V. cbn [get_block_loop]. apply kwp_bind. rewrite <- (with_own_ref s) at 1.
  eapply kwp_mono; [by apply (get_branch_run sbi ino other R HR path s l)|].
  intros [[chain c] e] s' (s1 & -> & HR1 & Hr & Hb & B).
  assert (Hrel : release_chain chain (with_ref (k_ref s ⊎ refs (held chain)) s1) = Some (tt, s1)).
  { rewrite release_chain_run, <- Hr, with_own_ref. done. }
  destruct c.
  - assert (Hl : (0 < length path)%nat) by (destruct path; [done|cbn; lia]). inversion B; subst.
    apply kwp_bind. eapply kwp_lift; [by apply entries_last|]. apply kwp_bind. eexists _, _. split; [exact Hrel|].
    apply kwp_ret. do 2 (split; [done|]). cbn [fst snd]. rewrite key_entry.
    replace (S (length path - 1)) with (length path) by lia. rewrite firstn_all. by apply mapping_found.
  - cbn [negb orb]. apply kwp_bind. eexists _, _. split; [exact Hrel|]. apply kwp_ret. do 2 (split; [done|]).
    cbn [fst snd]. inversion B; subst.
    + apply (mapping_hole _ _ _ _ _ _ l1); [done|]. match goal with L1 : live _ _ _ l1 |- _ => destruct L1 as (sbi1 & ? & T) end.
      apply (nodev_below _ _ _ n); [lia|].
      destruct (node_total s1 sbi1 l1 (take n path)) as [v Hv]; [apply ba_mounted, T|apply T|rewrite Hb; apply valid_take; [done|lia]|].
      apply nodev_eq in Hv as Hv'. congruence.
    + by eapply mapping_unreadable.
    + by eapply mapping_changed.
Qed.

Lemma gas_get_block_lookup_run sbi ino other R s l block fuel :
  rely sbi ino other R -> live sbi ino s l -> s_nblocks sbi <= max_blocks (ic_of (s_blocksize_bits s)) ->
  kwp (gas_get_block new free other (S fuel) ino block false) s (fun res s' =>
    R s s' /\ k_ref s' = k_ref s /\
    if (0 <=? block) && (block <? s_nblocks sbi)
    then mapping sbi ino R s s' (block_to_path (s_nblocks sbi) (s_blocksize_bits s) block) (fst res) (snd res)
    else res = (Some EIO, None) /\ s' = s).
Proof.
  intros HR L Hn. destruct (live_info _ _ _ _ L) as (Hbits & sbi' & Hfs & Hnb). unfold gas_get_block.
  apply kwp_bind. eapply kwp_sb; [exact Hfs|]. apply kwp_bind, kwp_get. rewrite Hnb.
  destruct ((0 <=? block) && (block <? s_nblocks sbi)) eqn:Eb.
  - bools. destruct (block_to_path_run (s_nblocks sbi) (s_blocksize_bits s) block) as [F _]; [done|done|lia|].
    apply full_valid in F. destruct (block_to_path _ _ block) as [|o path]; [done|].
    by apply (lookup_run sbi ino other R s l).
  - assert (E : block_to_path (s_nblocks sbi) (s_blocksize_bits s) block = []).
    { unfold block_to_path. destruct (Z.ltb_spec block 0); [done|]. destruct (Z.leb_spec (s_nblocks sbi) block); [done|].
      apply andb_false_iff in Eb as [Eb|Eb]; bools; lia. }
    rewrite E. apply kwp_ret. split; [apply (rl_refl _ _ _ _ HR)|]. done.
Qed.

(** C8: A lookup ([create] off) is linearizable: whatever other tasks do while it sleeps,
    also in a read that fails, it returns, gives back every buffer it took, changes
    nothing itself, and its answer is the one of the tree in a state during the call: a
    block or a hole is there in the state it ends in; EIO means that an indirect block
    that cannot be read was on the path when the lookup began to read it; EAGAIN is
    only returned when another task changed the chain under it. *)
Theorem gas_get_block_lookup sbi ino other R s l block fuel :
  rely sbi ino other R -> live sbi ino s l -> s_nblocks sbi <= max_blocks (ic_of (s_blocksize_bits s)) ->
  kwp (gas_get_block new free other (S fuel) ino block false) s (fun res s' =>
    R s s' /\ k_ref s' = k_ref s /\
    if (0 <=? block) && (block <? s_nblocks sbi)
    then mapping sbi ino R s s' (block_to_path (s_nblocks sbi) (s_blocksize_bits s) block) (fst res) (snd res)
    else res = (Some EIO, None) /\ s' = s).
Proof. apply gas_get_block_lookup_run. Qed.
End lookups.
