(* ===== verification/TreeEdit.v ===== *)
(** * Growing the block tree

    Writing a pointer of the tree, allocating a branch, splicing it in:
    [alloc_branch], [splice_branch] and [gas_get_block] with [create]. *)

From S2P Require Import Prelude Mem Layout Kernel Alloc Itree Tree.

(** ** Frames *)

Lemma K_bind_kwp_mod {B} f (k : unit -> K B) s Q : kwp (kmod f ≫= k) s Q = kwp (k tt) (f s) Q.
Proof. done. Qed.

Lemma kwp_bind2 {A B C} (c1 : K A) (c2 : K B) (k : K C) s Q :
  kwp (_ ← c1; c2) s (fun _ s' => kwp k s' Q) -> kwp (_ ← c1; _ ← c2; k) s Q.
Proof.
  intros (b & s' & E & HQ). rewrite K_bind_eq in E. destruct (c1 s) as [[a s1]|] eqn:E1; [|done].
  apply kwp_bind. exists a, s1. split; [done|]. apply kwp_bind. by exists b, s'.
Qed.

Lemma K_bind_kwp_get {A B} (f : kst -> A) (k : A -> K B) s Q : kwp (kget f ≫= k) s Q = kwp (k (f s)) s Q.
Proof. done. Qed.

Section frames.
Context `{KL : KernelLaws} {new : K (Z * option errno)} {free : Z -> K unit} `{BA : !BlockAllocator new free}.

(** The allocator does not see changes outside of its blocks. *)
Lemma ba_ext sbi s s' :
  ba_inv sbi s -> s_fs_info s' = s_fs_info s -> s_blocksize_bits s' = s_blocksize_bits s -> k_buf s' = k_buf s ->
  ba_inv sbi s' /\ forall x, in_zone sbi x -> ba_used sbi s' x = ba_used sbi s x.
Proof.
  intros I E1 E2 E3. apply ba_stable; [done| |by rewrite E3]. apply ba_mounted in I. by apply (mounted_ext s).
Qed.

Lemma mounted_put_buf s sbi b m :
  mounted s sbi -> is_block (s_blocksize_bits s) m -> mounted (with_buf (<[b := m]> (k_buf s)) s) sbi.
Proof.
  intros [M1 M2 M3] Hl. split; [done|done|]. cbn [k_buf with_buf s_blocksize_bits]. intros c Hc.
  destruct (Z.eq_dec c b) as [->|]; [exists m; by rewrite lookup_insert_eq|].
  rewrite lookup_insert_ne by done. by apply M3.
Qed.

Lemma ba_put sbi s b m :
  ba_inv sbi s -> in_zone sbi b -> is_block (s_blocksize_bits s) m ->
  ba_inv sbi (with_buf (<[b := m]> (k_buf s)) s) /\
  forall x, in_zone sbi x -> ba_used sbi (with_buf (<[b := m]> (k_buf s)) s) x = ba_used sbi s x.
Proof.
  intros I [Hz _] Hm. apply ba_stable; [done|apply mounted_put_buf; [by apply ba_mounted|done]|].
  intros c Hc. cbn [k_buf with_buf]. by rewrite lookup_insert_ne by lia.
Qed.

Lemma zone_small sbi s b : ba_inv sbi s -> in_zone sbi b -> 0 < b < 2 ^ 31 /\ s32 b = b /\ u32 b = b.
Proof.
  intros I Hz. apply ba_mounted in I. destruct (zone_pos s sbi b I Hz) as (H1 & H2 & _).
  rewrite s32_small, u32_small; lia.
Qed.

Lemma block_words s sbi m : mounted s sbi -> is_block (s_blocksize_bits s) m <-> blen m = 4 * ic_of (s_blocksize_bits s).
Proof.
  intros M. pose proof (g_bits _ _ (mt_geom _ _ M)). unfold is_block, ic_of.
  replace (2 ^ s_blocksize_bits s) with (4 * 2 ^ (s_blocksize_bits s - 2)); [done|].
  replace (s_blocksize_bits s) with (2 + (s_blocksize_bits s - 2)) at 2 by lia. by rewrite Z.pow_add_r by lia.
Qed.

(** Freeing a list of data blocks. *)
Lemma free_list {A} (f : A -> Z) (l : list A) : forall sbi s,
  ba_inv sbi s -> Forall (fun e => in_zone sbi (f e)) l ->
  kwp (kfor l (fun e => free (f e))) s (fun _ s' =>
    ba_inv sbi s' /\ alloc_frame sbi s s' /\
    forall x, in_zone sbi x -> ba_used sbi s' x = negb (bool_decide (x ∈ f <$> l)) && ba_used sbi s x).
Proof.
  induction l as [|e l IH]; intros sbi s I Hl; cbn [kfor].
  - apply kwp_ret. split; [done|]. split; [apply alloc_frame_refl|]. done.
  - inversion_clear Hl as [|? ? He Hl']. apply kwp_bind. eapply kwp_mono; [by apply ba_free|].
    intros _ s1 (I1 & F1 & U1). eapply kwp_mono; [by apply (IH sbi s1)|]. intros _ s2 (I2 & F2 & U2).
    split; [done|]. split; [by eapply alloc_frame_trans|]. intros x Hx. rewrite U2, U1 by done.
    rewrite fmap_cons. rewrite andb_assoc, <- negb_orb. f_equal. f_equal.
    destruct (Z.eqb_spec x (f e)) as [->|Hne]; [rewrite orb_true_r; by rewrite bool_decide_eq_true_2 by left|].
    rewrite orb_false_r. apply bool_decide_ext. rewrite elem_of_cons. naive_solver.
Qed.

Lemma forget_list (l : list Indirect) : forall s,
  exists d, kfor l (fun e => forget (bh e)) s = Some (tt, with_dirty d (with_ref (k_ref s ∖ refs (omap bh l)) s)).
Proof.
  induction l as [|e l IH]; intros s; cbn [kfor omap list_omap].
  - exists (k_dirty s). rewrite refs_drop_0. by destruct s.
  - destruct (bh e) as [b|]; cbn [forget].
    + unfold bforget. rewrite K_bind_mod. destruct (IH (with_dirty (k_dirty s ∖ {[b]}) (with_ref (k_ref s ∖ {[+ b +]}) s))) as (d & ->).
      exists d. cbn [k_ref with_ref with_dirty]. by rewrite refs_drop.
    + rewrite (K_bind_some _ _ s tt s) by done. apply IH.
Qed.
End frames.

(** ** A branch of new blocks *)

(** Block [k] holds the next of [keys] at the first of [offs] and nothing else, and so on
    down the branch. *)
Fixpoint spine (ic : Z) (buf : gmap Z bytes) (k : Z) (offs keys : list Z) : Prop :=
  match offs, keys with
  | o :: offs, k' :: keys =>
      (exists m, buf !! k = Some m /\ blen m = 4 * ic /\
         forall a, 0 <= a < ic -> load 4 m (4 * a) = Some (if a =? o then k' else 0)) /\
      spine ic buf k' offs keys
  | _, _ => True
  end.

(** The node of the branch reached along [rest]. *)
Fixpoint spine_node (k : Z) (offs keys rest : list Z) {struct rest} : Z :=
  match rest, offs, keys with
  | [], _, _ => k
  | a :: rest, o :: offs, k' :: keys => if a =? o then spine_node k' offs keys rest else 0
  | _, _, _ => 0
  end.

Lemma spine_walk ic buf rest : forall k offs keys,
  spine ic buf k offs keys -> length keys = length offs -> (length rest <= length offs)%nat ->
  Forall (fun a => 0 <= a < ic) rest -> k <> 0 -> Forall (fun k => k <> 0) keys ->
  walk buf k rest = Some (spine_node k offs keys rest).
Proof.
  induction rest as [|a rest IH]; intros k offs keys S Hl Hr Hf Hk Hn; [done|].
  destruct offs as [|o offs], keys as [|k' keys]; cbn in Hl, Hr; try lia. cbn [walk spine_node].
  rewrite (proj2 (Z.eqb_neq k 0)) by done. destruct S as [(m & -> & _ & Hm) S]. inversion_clear Hf as [|? ? Ha Hf'].
  inversion_clear Hn as [|? ? Hk' Hn']. cbn [mbind option_bind]. rewrite Hm by done. cbn [mbind option_bind].
  destruct (a =? o); [apply IH; done || lia|apply walk_zero].
Qed.

Lemma spine_ext ic buf buf' : forall offs k keys,
  (forall b, b ∈ take (length keys) (k :: keys) -> buf' !! b = buf !! b) ->
  spine ic buf k offs keys -> spine ic buf' k offs keys.
Proof.
  induction offs as [|o offs IH]; intros k [|k' keys] E; try done. cbn [spine]. intros [(m & Hm & Hb) Sp]. split.
  - exists m. rewrite E; [done|]. cbn. by left.
  - apply IH; [|done]. intros b Hb'. apply E. change (length (k' :: keys)) with (S (length keys)).
    rewrite firstn_cons. by right.
Qed.

Fixpoint branch_entries (parent : Z) (offs keys : list Z) : list Indirect :=
  match offs, keys with
  | o :: offs, k :: keys => Ind (PBuf parent o) k (Some parent) :: branch_entries k offs keys
  | _, _ => []
  end.

Lemma branch_entries_keys : forall offs parent keys, (length keys <= length offs)%nat ->
  key <$> branch_entries parent offs keys = keys.
Proof.
  induction offs as [|o offs IH]; intros parent [|k keys]; cbn; intros Hl; try (done || lia).
  f_equal. apply IH. lia.
Qed.

Lemma branch_entries_bhs : forall offs parent keys, (length keys <= length offs)%nat ->
  omap bh (branch_entries parent offs keys) = take (length keys) (parent :: keys).
Proof.
  induction offs as [|o offs IH]; intros parent [|k keys]; cbn [length]; intros Hl; try (done || lia).
  cbn [branch_entries omap list_omap bh]. change (take (S (length keys)) (parent :: k :: keys)) with (parent :: take (length keys) (k :: keys)).
  f_equal. apply IH. lia.
Qed.

(** ** Allocating a branch *)

Section alloc.
Context `{KL : KernelLaws} {new : K (Z * option errno)} {free : Z -> K unit} `{BA : !BlockAllocator new free}.

(** The buffer written for one new block. *)
Lemma new_pointer_block ic o k m :
  0 <= o < ic -> 0 <= k < 2 ^ 32 -> store 4 (zeroes (4 * ic)) (4 * o) k = Some m ->
  blen m = 4 * ic /\ forall a, 0 <= a < ic -> load 4 m (4 * a) = Some (if a =? o then k else 0).
Proof.
  intros Ho Hk Hm. assert (Hl := store_blen _ _ _ _ _ Hm). rewrite blen_zeroes in Hl by lia. split; [done|].
  intros a Ha. destruct (Z.eqb_spec a o) as [->|Hne].
  - rewrite (load_store_same _ _ _ _ _ Hm). by rewrite Z.mod_small by lia.
  - rewrite (load_store_other _ _ _ _ _ _ _ Hm) by lia. apply load_zeroes; lia.
Qed.

(** What [alloc_loop] has done when it has allocated [keys] for the first of [offs]. *)
Record grown (sbi : gas_sb_info) (s : kst) (parent : Z) (offs keys : list Z) (sbi' : gas_sb_info) (s' : kst) : Prop := {
  gr_sb : same_sb sbi sbi';
  gr_inv : ba_inv sbi' s';
  gr_len : (length keys <= length offs)%nat;
  gr_nodup : NoDup keys;
  gr_new : Forall (fun k => in_zone sbi k /\ ba_used sbi s k = false) keys;
  gr_used : forall x, in_zone sbi x -> ba_used sbi' s' x = bool_decide (x ∈ keys) || ba_used sbi s x;
  gr_ref : k_ref s' = k_ref s ⊎ refs (take (length keys) (parent :: keys));
  gr_inodes : k_inodes s' = k_inodes s;
  gr_bits : s_blocksize_bits s' = s_blocksize_bits s;
  gr_buf : forall b, s_data_block_start sbi <= b -> b ∉ take (length keys) (parent :: keys) ->
    k_buf s' !! b = k_buf s !! b;
  gr_spine : spine (ic_of (s_blocksize_bits s)) (k_buf s') parent offs keys }.

Lemma grown_nil sbi s parent offs : ba_inv sbi s -> grown sbi s parent offs [] sbi s.
Proof.
  intros I. split; try done; [apply same_sb_refl|cbn; lia|constructor| |by destruct offs].
  cbn. change (refs []) with (∅ : gmultiset Z). by rewrite (right_id_L ∅ (⊎)).
Qed.

(** One round of [alloc_loop]: the new block [b] and the buffer [m] of its parent. *)
Definition linked (parent : Z) (m : bytes) (s : kst) : kst :=
  with_dirty ({[parent]} ∪ k_dirty s) (with_buf (<[parent := m]> (k_buf s)) (with_ref (k_ref s ⊎ {[+ parent +]}) s)).

Lemma grown_cons sbi s sbi1 s1 parent b o offs m keys sbi' s' :
  ba_inv sbi s -> in_zone sbi parent -> ba_used sbi s parent = true ->
  in_zone sbi b -> ba_used sbi s b = false -> same_sb sbi sbi1 -> alloc_frame sbi s s1 ->
  (forall x, in_zone sbi x -> ba_used sbi1 s1 x = (x =? b) || ba_used sbi s x) ->
  (forall x, in_zone sbi x -> ba_used sbi1 (linked parent m s1) x = ba_used sbi1 s1 x) ->
  blen m = 4 * ic_of (s_blocksize_bits s) ->
  (forall a, 0 <= a < ic_of (s_blocksize_bits s) -> load 4 m (4 * a) = Some (if a =? o then b else 0)) ->
  grown sbi1 (linked parent m s1) b offs keys sbi' s' -> grown sbi s parent (o :: offs) (b :: keys) sbi' s'.
Proof.
  intros I Hp Hpu Hb Hbu Hsb F U1 U2 Hl Hm G. pose proof (af_bits _ _ _ F) as Hbits.
  assert (Hz : forall x, in_zone sbi1 x <-> in_zone sbi x) by (intros x; by apply in_zone_same).
  assert (Hd : s_data_block_start sbi1 = s_data_block_start sbi) by (by destruct Hsb as (v & w & ->)).
  assert (Hpb : parent <> b) by congruence.
  assert (Hbk : b ∉ keys).
  { intros Hk. destruct (Forall_in _ _ b (gr_new _ _ _ _ _ _ _ G) Hk) as [_ HH]. rewrite U2, U1, Z.eqb_refl in HH by done. done. }
  assert (Hpk : parent ∉ keys).
  { intros Hk. destruct (Forall_in _ _ parent (gr_new _ _ _ _ _ _ _ G) Hk) as [_ HH].
    rewrite U2, U1, Hpu, orb_true_r in HH by done. done. }
  assert (Hpt : parent ∉ take (length keys) (b :: keys)).
  { intros [->|Hk]%elem_take%elem_of_cons; done. }
  split.
  - eapply same_sb_trans; [done|]. apply G.
  - apply G.
  - cbn. apply le_n_S, G.
  - constructor; [done|]. apply G.
  - constructor; [done|]. eapply List.Forall_impl; [|apply G]. intros k [H1 H2]. apply Hz in H1. split; [done|].
    rewrite U2, U1 in H2 by done. by apply orb_false_iff in H2 as [_ ?].
  - intros x Hx. rewrite (gr_used _ _ _ _ _ _ _ G) by (by apply Hz). rewrite U2, U1 by done. rewrite orb_assoc. f_equal.
    destruct (Z.eqb_spec x b) as [->|Hne]; [rewrite orb_true_r; by rewrite bool_decide_eq_true_2 by left|].
    rewrite orb_false_r. apply bool_decide_ext. rewrite elem_of_cons. naive_solver.
  - rewrite (gr_ref _ _ _ _ _ _ _ G). unfold linked. cbn [k_ref with_dirty with_buf with_ref].
    rewrite (af_ref _ _ _ F), refs_take. done.
  - rewrite (gr_inodes _ _ _ _ _ _ _ G). apply F.
  - rewrite (gr_bits _ _ _ _ _ _ _ G). apply F.
  - intros x Hx Hn. cbn [length] in Hn. rewrite firstn_cons in Hn. apply not_elem_of_cons in Hn as [Hn1 Hn2].
    rewrite (gr_buf _ _ _ _ _ _ _ G) by (done || lia). unfold linked. cbn [k_buf with_dirty with_buf with_ref].
    rewrite lookup_insert_ne by done. by apply F.
  - cbn [spine]. split.
    + exists m. split; [|done]. rewrite (gr_buf _ _ _ _ _ _ _ G); [|rewrite Hd; apply Hp|done].
      unfold linked. cbn [k_buf with_dirty with_buf with_ref]. by rewrite lookup_insert_eq.
    + rewrite <- Hbits. apply G.
Qed.

Lemma alloc_loop_run offs : forall sbi s parent branch,
  ba_inv sbi s -> in_zone sbi parent -> ba_used sbi s parent = true ->
  Forall (fun o => 0 <= o < ic_of (s_blocksize_bits s)) offs ->
  kwp (alloc_loop new offs parent branch) s (fun res s' => exists sbi' keys,
    grown sbi s parent offs keys sbi' s' /\ fst res = branch ++ branch_entries parent offs keys /\
    (if snd res : bool then length keys = length offs
     else (length keys < length offs)%nat /\ forall x, in_zone sbi x -> ba_used sbi' s' x = true)).
Proof.
  induction offs as [|o offs IH]; intros sbi s parent branch I Hp Hpu Hf; cbn [alloc_loop].
  - apply kwp_ret. exists sbi, []. split; [by apply grown_nil|]. by rewrite app_nil_r.
  - inversion_clear Hf as [|? ? Ho Hf']. apply kwp_bind. eapply kwp_mono; [by apply ba_new|]. intros [b [e|]] s1.
    + intros (_ & -> & -> & Hfull). apply kwp_ret. exists sbi, []. split; [by apply grown_nil|].
      cbn [branch_entries fst snd length]. rewrite app_nil_r. split; [done|]. split; [lia|done].
    + intros (Hb & Hbu & sbi1 & Hsb & I1 & F & U1). destruct (zone_small sbi s b I Hb) as (Hb0 & -> & Eu).
      rewrite (proj2 (Z.eqb_neq b 0)) by lia. rewrite Eu. unfold sb_getblk.
      assert (Hp1 : in_zone sbi1 parent) by (by apply (in_zone_same sbi)).
      pose proof (ba_mounted _ _ I) as M. pose proof (af_bits _ _ _ F) as Hbits.
      assert (Hsz : 2 ^ s_blocksize_bits s1 = 4 * ic_of (s_blocksize_bits s)).
      { rewrite Hbits. pose proof (g_bits _ _ (mt_geom _ _ M)). unfold ic_of.
        replace (s_blocksize_bits s) with (2 + (s_blocksize_bits s - 2)) at 1 by lia. by rewrite Z.pow_add_r by lia. }
      destruct (store_fits 4 (zeroes (4 * ic_of (s_blocksize_bits s))) (4 * o) b) as (m & Hm & _).
      { lia. } { rewrite blen_zeroes; lia. }
      destruct (new_pointer_block _ o b m Ho ltac:(lia) Hm) as [Hlm Hload].
      rewrite K_bind_kwp_mod, K_bind_kwp_get. cbn [s_blocksize_bits with_ref]. rewrite Hsz.
      apply kwp_bind. eapply kwp_lift; [exact Hm|]. unfold bh_put, mark_buffer_dirty.
      rewrite !K_bind_kwp_mod. cbn [k_buf k_dirty with_ref with_buf].
      change (with_dirty _ _) with (linked parent m s1).
      destruct (ba_put sbi1 s1 parent m I1 Hp1) as [I2 U2].
      { apply (block_words s1 sbi1 m (ba_mounted _ _ I1)). by rewrite Hbits. }
      destruct (ba_ext sbi1 _ (linked parent m s1) I2) as [I3 U3]; [done|done|done|].
      assert (U4 : forall x, in_zone sbi x -> ba_used sbi1 (linked parent m s1) x = ba_used sbi1 s1 x).
      { intros x Hx. rewrite U3, U2 by (by apply (in_zone_same sbi)). done. }
      eapply kwp_mono; [apply (IH sbi1); [done|by apply (in_zone_same sbi)| |]|].
      { rewrite U4, U1, Z.eqb_refl by done. done. }
      { change (s_blocksize_bits (linked parent m s1)) with (s_blocksize_bits s1). by rewrite Hbits. }
      intros [br ok] s' (sbi' & keys & G & -> & Hok). exists sbi', (b :: keys). split.
      { by eapply grown_cons. }
      cbn [branch_entries fst snd] in *. rewrite <- app_assoc. split; [done|]. destruct ok; [cbn; lia|].
      destruct Hok as [Hlen Hok]. split; [cbn; lia|]. intros x Hx. apply Hok. by apply (in_zone_same sbi).
Qed.

(** A branch of new blocks [k :: keys] has been made along [offs]. *)
Record planted (sbi : gas_sb_info) (s : kst) (offs : list Z) (k : Z) (keys : list Z) (sbi' : gas_sb_info) (s' : kst) : Prop := {
  pl_sb : same_sb sbi sbi';
  pl_inv : ba_inv sbi' s';
  pl_len : length keys = length offs;
  pl_nodup : NoDup (k :: keys);
  pl_new : Forall (fun k => in_zone sbi k /\ ba_used sbi s k = false) (k :: keys);
  pl_used : forall x, in_zone sbi x -> ba_used sbi' s' x = bool_decide (x ∈ k :: keys) || ba_used sbi s x;
  pl_inodes : k_inodes s' = k_inodes s;
  pl_bits : s_blocksize_bits s' = s_blocksize_bits s;
  pl_buf : forall b, s_data_block_start sbi <= b -> b ∉ k :: keys -> k_buf s' !! b = k_buf s !! b;
  pl_spine : spine (ic_of (s_blocksize_bits s)) (k_buf s') k offs keys }.

(** Nothing is left of an allocation that failed for want of [n] free blocks. *)
Record uprooted (sbi : gas_sb_info) (s : kst) (n : nat) (sbi' : gas_sb_info) (s' : kst) : Prop := {
  up_sb : same_sb sbi sbi';
  up_inv : ba_inv sbi' s';
  up_used : forall x, in_zone sbi x -> ba_used sbi' s' x = ba_used sbi s x;
  up_inodes : k_inodes s' = k_inodes s;
  up_bits : s_blocksize_bits s' = s_blocksize_bits s;
  up_buf : forall b, in_zone sbi b -> ba_used sbi s b = true -> k_buf s' !! b = k_buf s !! b;
  up_full : exists l, (length l < n)%nat /\ forall x, in_zone sbi x -> ba_used sbi s x = false -> x ∈ l }.

(** The references of this task do not matter. *)
Lemma planted_ref sbi s r offs k keys sbi' s' :
  ba_inv sbi s -> planted sbi (with_ref r s) offs k keys sbi' s' -> planted sbi s offs k keys sbi' s'.
Proof.
  intros I [P1 P2 P3 P4 P5 P6 P7 P8 P9 P10]. destruct (ba_ext sbi s (with_ref r s) I) as [_ U]; [done..|].
  split; try done.
  - eapply List.Forall_impl; [|exact P5]. intros x [Hx Hu]. by rewrite U in Hu.
  - intros x Hx. by rewrite P6, U.
Qed.

Lemma uprooted_ref sbi s r n sbi' s' :
  ba_inv sbi s -> uprooted sbi (with_ref r s) n sbi' s' -> uprooted sbi s n sbi' s'.
Proof.
  intros I [P1 P2 P3 P4 P5 P6 (x & Hx & HF)]. destruct (ba_ext sbi s (with_ref r s) I) as [_ U]; [done..|].
  split; try done.
  - intros y Hy. by rewrite P3, U.
  - intros b Hb Hu. apply P6; [done|]. by rewrite U.
  - exists x. split; [done|]. intros y Hy Hu. apply HF; [done|]. by rewrite U.
Qed.

Lemma grown_planted sbi s sbi1 s1 k offs keys sbi' s' :
  in_zone sbi k -> ba_used sbi s k = false -> same_sb sbi sbi1 -> alloc_frame sbi s s1 ->
  (forall x, in_zone sbi x -> ba_used sbi1 s1 x = (x =? k) || ba_used sbi s x) ->
  grown sbi1 s1 k offs keys sbi' s' ->
  NoDup (k :: keys) /\ Forall (fun k => in_zone sbi k /\ ba_used sbi s k = false) (k :: keys) /\
  (forall x, in_zone sbi x -> ba_used sbi' s' x = bool_decide (x ∈ k :: keys) || ba_used sbi s x) /\
  (length keys = length offs -> planted sbi s offs k keys sbi' s').
Proof.
  intros Hk Hku Hsb F U1 G. assert (Hz : forall x, in_zone sbi1 x <-> in_zone sbi x) by (intros x; by apply in_zone_same).
  assert (Hd : s_data_block_start sbi1 = s_data_block_start sbi) by (by destruct Hsb as (v & w & ->)).
  assert (HN : Forall (fun k => in_zone sbi k /\ ba_used sbi1 s1 k = false) keys).
  { eapply List.Forall_impl; [|apply G]. intros x [H1 H2]. apply Hz in H1. done. }
  assert (Hnd : NoDup (k :: keys)).
  { constructor; [|apply G]. intros Hk'. destruct (Forall_in _ _ k HN Hk') as [_ HH]. by rewrite U1, Z.eqb_refl in HH. }
  assert (Hnew : Forall (fun k => in_zone sbi k /\ ba_used sbi s k = false) (k :: keys)).
  { constructor; [done|]. eapply List.Forall_impl; [|exact HN]. intros x [H1 H2]. split; [done|].
    rewrite U1 in H2 by done. by apply orb_false_iff in H2 as [_ ?]. }
  assert (Hu : forall x, in_zone sbi x -> ba_used sbi' s' x = bool_decide (x ∈ k :: keys) || ba_used sbi s x).
  { intros x Hx. rewrite (gr_used _ _ _ _ _ _ _ G) by (by apply Hz). rewrite U1 by done. rewrite orb_assoc. f_equal.
    destruct (Z.eqb_spec x k) as [->|Hne]; [rewrite orb_true_r; by rewrite bool_decide_eq_true_2 by left|].
    rewrite orb_false_r. apply bool_decide_ext. rewrite elem_of_cons. naive_solver. }
  split; [done|]. split; [done|]. split; [done|]. intros Hl. split; try done.
  - eapply same_sb_trans; [done|]. apply G.
  - apply G.
  - rewrite (gr_inodes _ _ _ _ _ _ _ G). apply F.
  - rewrite (gr_bits _ _ _ _ _ _ _ G). apply F.
  - intros x Hx Hn. rewrite (gr_buf _ _ _ _ _ _ _ G); [by apply F|lia|]. intros Ht. apply Hn. by eapply elem_take.
  - rewrite <- (af_bits _ _ _ F). apply G.
Qed.

(** Giving back the blocks of a branch, as the failure paths of [alloc_branch] and
    [splice_branch] do. *)
Lemma prune_run sbi s k offs keys r first :
  ba_inv sbi s -> (length keys <= length offs)%nat -> k_ref s = r ⊎ refs (take (length keys) (k :: keys)) ->
  Forall (in_zone sbi) (k :: keys) ->
  let branch := Ind (p first) k (bh first) :: branch_entries k offs keys in
  kwp (_ ← kfor (tail branch) (fun e => forget (bh e)); kfor branch (fun e => free (key e))) s (fun _ s' =>
    ba_inv sbi s' /\ k_ref s' = r /\ k_inodes s' = k_inodes s /\ s_blocksize_bits s' = s_blocksize_bits s /\
    (forall b, s_data_block_start sbi <= b -> k_buf s' !! b = k_buf s !! b) /\
    forall x, in_zone sbi x -> ba_used sbi s' x = negb (bool_decide (x ∈ k :: keys)) && ba_used sbi s x).
Proof.
  intros I Hl Hr Hz branch. apply kwp_bind. cbn [tail branch].
  destruct (forget_list (branch_entries k offs keys) s) as (d & Ed). eexists _, _. split; [exact Ed|].
  set (s1 := with_dirty d _). destruct (ba_ext sbi s s1 I) as [I1 U1]; [done|done|done|].
  assert (Hkeys : key <$> branch = k :: keys) by (unfold branch; rewrite fmap_cons; f_equal; by apply branch_entries_keys).
  eapply kwp_mono; [apply (free_list key branch sbi s1 I1)|].
  { apply (proj1 (Forall_fmap key (in_zone sbi) branch)). by rewrite Hkeys. }
  intros _ s2 (I2 & F & U2). rewrite Hkeys in U2. split; [done|]. split.
  { rewrite (af_ref _ _ _ F). unfold s1. cbn [k_ref with_dirty with_ref].
    rewrite branch_entries_bhs, Hr by done. apply refs_cancel. }
  split; [apply F|]. split; [apply F|]. split; [intros b Hb; by rewrite (af_buf _ _ _ F)|].
  intros x Hx. by rewrite U2, U1.
Qed.

Lemma alloc_branch_run sbi s first offs :
  ba_inv sbi s -> Forall (fun o => 0 <= o < ic_of (s_blocksize_bits s)) offs ->
  kwp (alloc_branch new free first offs) s (fun res s' =>
    match snd res with
    | None => exists k keys sbi', planted sbi s offs k keys sbi' s' /\
        k_ref s' = k_ref s ⊎ refs (take (length keys) (k :: keys)) /\
        fst res = Ind (p first) k (bh first) :: branch_entries k offs keys
    | Some e => e = ENOSPC /\ k_ref s' = k_ref s /\ exists sbi', uprooted sbi s (S (length offs)) sbi' s'
    end).
Proof.
  intros I Hf. unfold alloc_branch. apply kwp_bind. eapply kwp_mono; [by apply ba_new|]. intros [k [e|]] s1.
  - intros (_ & -> & -> & Hfull). change (negb (s32 0 =? 0)) with false. cbn match.
    apply kwp_bind, kwp_ret. cbn [tail kfor]. apply kwp_bind, kwp_ret, kwp_bind, kwp_ret, kwp_ret. split; [done|]. split; [done|]. exists sbi.
    split; try done; [apply same_sb_refl|]. exists []. split; [cbn; lia|]. intros x Hx Hu. by rewrite Hfull in Hu.
  - intros (Hk & Hku & sbi1 & Hsb & I1 & F & U1). destruct (zone_small sbi s k I Hk) as (Hk0 & -> & Eu).
    rewrite (proj2 (Z.eqb_neq k 0)), Eu by lia. cbn [negb].
    apply kwp_bind. eapply kwp_mono.
    { apply (alloc_loop_run offs sbi1 s1 k [Ind (p first) k (bh first)] I1); [by apply (in_zone_same sbi)| |].
      - by rewrite U1, Z.eqb_refl.
      - by rewrite (af_bits _ _ _ F). }
    intros [br ok] s2 (sbi2 & keys & G & E & Hok). cbn [fst snd] in *.
    destruct (grown_planted sbi s sbi1 s1 k offs keys sbi2 s2) as (Hnd & Hnew & Hu & Hp); try done.
    subst br. destruct ok.
    + apply kwp_ret. cbn [fst snd]. exists k, keys, sbi2. split; [by apply Hp|].
      split; [by rewrite (gr_ref _ _ _ _ _ _ _ G), (af_ref _ _ _ F)|done].
    + destruct Hok as [Hlen Hfull].
      assert (Hsb2 : same_sb sbi sbi2) by (eapply same_sb_trans; [done|apply G]).
      assert (Hd2 : s_data_block_start sbi2 = s_data_block_start sbi) by (by destruct Hsb2 as (v & w & ->)).
      apply kwp_bind2. eapply kwp_mono; [apply (prune_run sbi2 s2 k offs keys (k_ref s) first)|].
      { apply G. } { lia. } { by rewrite (gr_ref _ _ _ _ _ _ _ G), (af_ref _ _ _ F). }
      { eapply List.Forall_impl; [|exact Hnew]. intros x [Hx _]. by apply (in_zone_same sbi). }
      intros _ s3 (I3 & Hr & Hi & Hb & Hbuf & U3). apply kwp_ret. split; [done|]. split; [done|].
      exists sbi2. split; try done.
      * intros x Hx. rewrite U3, Hu by (done || by apply (in_zone_same sbi)).
        case_bool_decide as Hin; [|done]. by destruct (Forall_in _ _ x Hnew Hin) as [_ ->].
      * by rewrite Hi, (gr_inodes _ _ _ _ _ _ _ G), (af_inodes _ _ _ F).
      * by rewrite Hb, (gr_bits _ _ _ _ _ _ _ G), (af_bits _ _ _ F).
      * intros b Hbz Hbu. assert (Hbn : b ∉ k :: keys).
        { intros Hin. destruct (Forall_in _ _ b Hnew Hin) as [_ HH]. congruence. }
        rewrite Hbuf by (rewrite Hd2; apply Hbz).
        rewrite (gr_buf _ _ _ _ _ _ _ G); [by apply F; apply Hbz| |intros Ht; apply Hbn; by eapply elem_take].
        destruct Hsb as (v & w & ->). apply Hbz.
      * exists (k :: keys). split; [cbn; lia|]. intros x Hx Hux. specialize (Hfull x ltac:(by apply (in_zone_same sbi))).
        rewrite Hu, Hux, orb_false_r in Hfull by done. by apply bool_decide_eq_true in Hfull.
Qed.
End alloc.

(** ** Writing a pointer of the tree *)

Lemma node_app buf l pre rest : pre <> [] -> node buf l (pre ++ rest) = w ← node buf l pre; walk buf w rest.
Proof.
  destruct pre as [|o pre]; [done|]. intros _. cbn [app node]. destruct (l !! Z.to_nat o); [|done].
  cbn [mbind option_bind]. apply walk_app.
Qed.

(** A change of blocks that are no blocks of pointers of the tree does not change it. *)
Lemma node_same_inner ic buf buf' l :
  (forall pre o v, pre <> [] -> valid_path ic (pre ++ [o]) -> node buf l pre = Some v -> v <> 0 -> buf' !! v = buf !! v) ->
  forall pre, valid_path ic pre -> node buf' l pre = node buf l pre.
Proof.
  intros E pre. induction pre as [|o pre IH] using rev_ind; [done|]. intros V.
  destruct pre as [|a pre]; [cbn; by destruct (l !! Z.to_nat o)|].
  destruct (valid_snoc ic (a :: pre) o) as [V' _]; [done|done|]. rewrite !node_snoc, IH by done.
  destruct (node buf l (a :: pre)) as [w|] eqn:Ew; [|done]. cbn [mbind option_bind walk].
  destruct (Z.eqb_spec w 0); [done|]. by rewrite (E (a :: pre) o w).
Qed.

Lemma node_same ic buf buf' l :
  (forall pre v, valid_path ic pre -> node buf l pre = Some v -> v <> 0 -> buf' !! v = buf !! v) ->
  forall pre, valid_path ic pre -> node buf' l pre = node buf l pre.
Proof.
  intros E. apply node_same_inner. intros pre o v Hpre V. apply E. by apply valid_snoc in V as [? _].
Qed.

Section writing.
Context `{KL : KernelLaws} {new : K (Z * option errno)} {free : Z -> K unit} `{BA : !BlockAllocator new free}.

(** The pointer at the end of path [hp] of the tree [l] now is [v]; nothing else differs. *)
Record wrote (sbi : gas_sb_info) (ino : Z) (s : kst) (l hp : list Z) (v : Z) (s' : kst) (l' : list Z) : Prop := {
  wr_inodes : exists i, k_inodes s !! ino = Some i /\ blkaddr i = l /\ k_inodes s' = <[ino := set_blkaddr i l']> (k_inodes s);
  wr_len : length l' = length l;
  wr_ref : k_ref s' = k_ref s;
  wr_bits : s_blocksize_bits s' = s_blocksize_bits s;
  wr_mounted : mounted s' sbi;
  wr_buf : forall b, ~ in_zone sbi b \/ b <> nodev s l (removelast hp) -> k_buf s' !! b = k_buf s !! b;
  wr_below : forall rest, node (k_buf s') l' (hp ++ rest) = walk (k_buf s') v rest;
  wr_other : forall pre, valid_path (ic_of (s_blocksize_bits s)) pre -> ~ hp `prefix_of` pre ->
    node (k_buf s') l' pre = node (k_buf s) l pre }.

Lemma set_blkaddr_same i : set_blkaddr i (blkaddr i) = i.
Proof. by destruct i. Qed.

Lemma write_root sbi ino s l o v :
  tree_at sbi ino s l -> 0 <= o <= 8 ->
  kwp (ptr_write ino (PInode o) v) s (fun _ s' => exists l', wrote sbi ino s l [o] v s' l').
Proof.
  intros (I & T & i & Hi & Hl) Ho. unfold ptr_write. apply kwp_bind. eapply kwp_iref; [exact Hi|].
  pose proof (to_len _ _ _ T) as Hlen. rewrite Hl, Hlen, (proj2 (Z.leb_le 0 o)), (proj2 (Z.ltb_lt o _)) by lia.
  cbn [andb]. apply kwp_mod. exists (<[Z.to_nat o := v]> l). split; try done.
  - by exists i.
  - by rewrite length_insert.
  - apply mounted_with_inodes. by apply ba_mounted.
  - intros rest. cbn [app node]. rewrite list_lookup_insert_eq by lia. done.
  - intros [|a pre]; [done|]. intros (Ha & _) Hp. cbn [node]. rewrite list_lookup_insert_ne; [done|].
    intros E. apply Hp. replace a with o by lia. by exists pre.
Qed.

Lemma write_inner sbi ino s l pre o v w :
  tree_at sbi ino s l -> pre <> [] -> valid_path (ic_of (s_blocksize_bits s)) (pre ++ [o]) ->
  node (k_buf s) l pre = Some w -> w <> 0 -> 0 <= v < 2 ^ 32 ->
  kwp (ptr_write ino (PBuf w o) v) s (fun _ s' => exists l', wrote sbi ino s l (pre ++ [o]) v s' l').
Proof.
  intros (I & T & i & Hi & Hl) Hpre V Hw Hw0 Hv. pose proof (ba_mounted _ _ I) as M.
  destruct (valid_snoc _ _ _ Hpre V) as [V' Ho]. destruct (to_zone _ _ _ T _ _ V' Hw Hw0) as [Hz _].
  destruct (zone_pos s sbi w M Hz) as (_ & _ & m & Hm & Hlm). unfold ptr_write. apply kwp_bind.
  eapply kwp_data; [exact Hm|]. destruct (store_fits 4 m (4 * o) v) as (m' & Hm' & Hlm'); [lia|lia|].
  apply kwp_bind. eapply kwp_lift; [exact Hm'|]. apply kwp_mod. exists l.
  assert (Hother : forall q, valid_path (ic_of (s_blocksize_bits s)) q -> ~ (pre ++ [o]) `prefix_of` q ->
    node (<[w := m']> (k_buf s)) l q = node (k_buf s) l q).
  { intros q. induction q as [|a q IH] using rev_ind; [done|]. intros Vq Hp.
    destruct q as [|a0 q]; [cbn; by destruct (l !! Z.to_nat a)|].
    destruct (valid_snoc _ (a0 :: q) a ltac:(done) Vq) as [Vq' Ha]. rewrite !node_snoc by done.
    rewrite IH; [|done|intros Hp'; apply Hp; by apply prefix_app_r].
    destruct (node (k_buf s) l (a0 :: q)) as [x|] eqn:Ex; [|done]. cbn [mbind option_bind walk].
    destruct (Z.eqb_spec x 0); [done|]. destruct (Z.eq_dec x w) as [->|Hne]; [|by rewrite lookup_insert_ne].
    rewrite lookup_insert_eq, Hm. cbn [mbind option_bind].
    assert (E : a0 :: q = pre) by (by eapply (to_tree _ _ _ T)). rewrite E in Hp.
    rewrite (load_store_other _ _ _ _ _ _ _ Hm'); [done|].
    assert (a <> o) by (intros ->; by apply Hp). lia. }
  split; try done.
  - exists i. split; [done|]. split; [done|]. cbn [k_inodes with_buf]. rewrite <- Hl, set_blkaddr_same.
    symmetry. by apply insert_id.
  - apply mounted_put_buf; [done|]. apply (block_words s sbi _ M). lia.
  - intros b Hb. cbn [k_buf with_buf]. rewrite lookup_insert_ne; [done|]. intros <-. destruct Hb as [Hb|Hb]; [done|].
    rewrite removelast_last in Hb. apply Hb. symmetry. by apply nodev_eq.
  - intros rest. cbn [k_buf with_buf]. rewrite node_app by (by destruct pre). rewrite node_snoc by done.
    rewrite Hother, Hw; [|done|]; cycle 1.
    { intros Hp%prefix_length. rewrite length_app in Hp. cbn in Hp. lia. }
    cbn [mbind option_bind walk]. rewrite (proj2 (Z.eqb_neq w 0)), lookup_insert_eq by done.
    cbn [mbind option_bind]. rewrite (load_store_same _ _ _ _ _ Hm'). cbn [mbind option_bind].
    by rewrite Z.mod_small by lia.
Qed.

(** Writing through the last entry of a chain. *)
Lemma write_entry sbi ino s l path n v :
  tree_at sbi ino s l -> valid_path (ic_of (s_blocksize_bits s)) path -> (0 < n <= length path)%nat ->
  (forall k, (0 < k < n)%nat -> nodev s l (take k path) <> 0) -> 0 <= v < 2 ^ 32 ->
  kwp (ptr_write ino (p (entry s l path (n - 1))) v) s (fun _ s' => exists l', wrote sbi ino s l (take n path) v s' l').
Proof.
  intros T V Hn Hnz Hv. destruct n as [|[|n]]; [lia| |].
  - destruct path as [|o path]; [cbn in Hn; lia|]. change (take 1 (o :: path)) with [o]. apply write_root; [done|apply V].
  - cbn [Nat.sub entry p]. rewrite (take_S_nth path (S n)) by lia.
    assert (V1 : valid_path (ic_of (s_blocksize_bits s)) (take (S n) path)) by (apply valid_take; [done|lia]).
    destruct (node_total s sbi l (take (S n) path)) as [w Hw]; [apply ba_mounted, T|apply T|done|].
    apply (write_inner sbi ino s l); [done| | | |apply Hnz; lia|done].
    + destruct path; [cbn in Hn; lia|done].
    + rewrite <- take_S_nth by lia. apply valid_take; [done|lia].
    + by rewrite (nodev_eq _ _ _ _ Hw).
Qed.
End writing.

(** ** The tree after a branch has been spliced in *)

Lemma spine_node_inv rest : forall k offs keys v,
  spine_node k offs keys rest = v -> v <> 0 -> rest `prefix_of` offs /\ (k :: keys) !! length rest = Some v.
Proof.
  induction rest as [|a rest IH]; intros k offs keys v E Hv; cbn in E.
  - subst v. split; [apply prefix_nil|done].
  - destruct offs as [|o offs], keys as [|k' keys]; try (by subst v). destruct (Z.eqb_spec a o) as [->|]; [|by subst v].
    destruct (IH k' offs keys v E Hv) as [Hp Hl]. split; [by apply prefix_cons|done].
Qed.

Lemma spine_node_full : forall offs k keys, length keys = length offs ->
  Some (spine_node k offs keys offs) = list.last (k :: keys).
Proof.
  induction offs as [|o offs IH]; intros k [|k' keys]; cbn [length]; intros Hl; try (done || lia).
  cbn [spine_node]. rewrite Z.eqb_refl. rewrite IH by lia. done.
Qed.

Lemma spine_node_take offs : forall k keys j, length keys = length offs -> (j <= length offs)%nat ->
  (k :: keys) !! j = Some (spine_node k offs keys (take j offs)).
Proof.
  induction offs as [|o offs IH]; intros k [|k' keys] j; cbn [length]; intros Hl Hj; try (done || lia).
  - by replace j with 0%nat by lia.
  - destruct j as [|j]; [done|]. cbn [take spine_node]. rewrite Z.eqb_refl.
      change ((k :: k' :: keys) !! S j) with ((k' :: keys) !! j). apply IH; lia.
Qed.

Section growth.
Context `{KL : KernelLaws} {new : K (Z * option errno)} {free : Z -> K unit} `{BA : !BlockAllocator new free}.

Lemma tree_at_ext sbi ino s s' l :
  tree_at sbi ino s l -> s_fs_info s' = s_fs_info s -> s_blocksize_bits s' = s_blocksize_bits s ->
  k_buf s' = k_buf s -> (exists i, k_inodes s' !! ino = Some i /\ blkaddr i = l) -> tree_at sbi ino s' l.
Proof.
  intros (I & T & _) E1 E2 E3 Hi. destruct (ba_ext sbi s s' I E1 E2 E3) as [I' U]. split; [done|]. split; [|done].
  destruct T as [T1 T2 T3]. split; rewrite ?E2, ?E3; [done| |done].
  intros pre v V Hn Hv. destruct (T2 pre v V Hn Hv) as [Hz Hu]. split; [done|]. by rewrite U.
Qed.

Lemma planted_tree sbi ino s l offs k keys sbi1 s1 :
  tree_at sbi ino s l -> planted sbi s offs k keys sbi1 s1 ->
  tree_at sbi1 ino s1 l /\
  forall pre, valid_path (ic_of (s_blocksize_bits s)) pre -> node (k_buf s1) l pre = node (k_buf s) l pre.
Proof.
  intros (I & T & i & Hi & Hl) P.
  assert (Hn : forall pre, valid_path (ic_of (s_blocksize_bits s)) pre -> node (k_buf s1) l pre = node (k_buf s) l pre).
  { apply node_same. intros pre v V Hv Hv0. destruct (to_zone _ _ _ T _ _ V Hv Hv0) as [Hz Hu].
    apply (pl_buf _ _ _ _ _ _ _ P); [apply Hz|]. intros Hin.
    destruct (Forall_in _ _ v (pl_new _ _ _ _ _ _ _ P) Hin) as [_ HH]. congruence. }
  split; [|done]. split; [apply P|]. split.
  - split; [apply T| |]; rewrite (pl_bits _ _ _ _ _ _ _ P).
    + intros pre v V. rewrite Hn by done. intros Hv Hv0. destruct (to_zone _ _ _ T _ _ V Hv Hv0) as [Hz Hu].
      split; [apply (in_zone_same sbi); [apply P|done]|]. by rewrite (pl_used _ _ _ _ _ _ _ P), Hu, orb_true_r.
    + intros pre1 pre2 v V1 V2. rewrite !Hn by done. by apply T.
  - exists i. by rewrite (pl_inodes _ _ _ _ _ _ _ P).
Qed.

(** Hypotheses: a hole at [take n path] is filled with a branch for the rest of [path]. *)
Context (sbi sbi1 : gas_sb_info) (ino : Z) (s s1 s2 : kst) (l l' path keys : list Z) (n : nat) (k : Z).
Hypothesis T0 : tree_at sbi ino s l.
Hypothesis Hfull : full_path (ic_of (s_blocksize_bits s)) path.
Hypothesis Hn : (0 < n <= length path)%nat.
Hypothesis Hhole : nodev s l (take n path) = 0.
Hypothesis P : planted sbi s (drop n path) k keys sbi1 s1.
Hypothesis W : wrote sbi1 ino s1 l (take n path) k s2 l'.

Let ic := ic_of (s_blocksize_bits s).

Lemma splice_inv : ba_inv sbi1 s2 /\ forall x, in_zone sbi x -> ba_used sbi1 s2 x = ba_used sbi1 s1 x.
Proof using All.
  destruct (ba_stable sbi1 s1 s2) as [I U]; [apply P|apply W| |].
  - intros b Hb. apply (wr_buf _ _ _ _ _ _ _ _ W). left. intros [? _]. lia.
  - split; [done|]. intros x Hx. apply U. apply (in_zone_same sbi); [apply P|done].
Qed.

Lemma new_nonzero x : x ∈ k :: keys -> x <> 0 /\ in_zone sbi x /\ ba_used sbi s x = false.
Proof using All.
  intros Hx. destruct (Forall_in _ _ x (pl_new _ _ _ _ _ _ _ P) Hx) as [Hz Hu]. split; [|done].
  destruct T0 as [I _]. destruct (zone_small sbi s x I Hz) as [? _]. lia.
Qed.

Lemma splice_spine : spine ic (k_buf s2) k (drop n path) keys.
Proof using All.
  eapply spine_ext; [|apply (pl_spine _ _ _ _ _ _ _ P)]. intros b Hb%elem_take.
  apply (wr_buf _ _ _ _ _ _ _ _ W). destruct (new_nonzero b Hb) as (Hb0 & Hz & Hu). right. intros E.
  destruct (planted_tree sbi ino s l _ k keys sbi1 s1 T0 P) as [T1 Hsame]. destruct T0 as (I & T & _).
  assert (Hne : removelast (take n path) <> []) .
  { intros E0. rewrite E0 in E. by subst b. }
  assert (Hrl : removelast (take n path) = take (n - 1) path).
  { rewrite removelast_firstn_len, length_take, take_take. f_equal. lia. }
  rewrite Hrl in *. assert (V : valid_path ic (take (n - 1) path)).
  { apply valid_take; [by apply full_valid|]. destruct n as [|[|]]; cbn in *; [lia|done|lia]. }
  destruct (node_total s sbi l _ (ba_mounted _ _ I) T V) as [v Hv]. unfold nodev in E. rewrite Hsame, Hv in E by done.
  cbn in E. subst v. destruct (to_zone _ _ _ T _ _ V Hv Hb0) as [_ HH]. congruence.
Qed.

Lemma splice_node pre : valid_path ic pre ->
  node (k_buf s2) l' pre =
    if decide (take n path `prefix_of` pre) then Some (spine_node k (drop n path) keys (drop n pre))
    else node (k_buf s) l pre.
Proof using All.
  intros V. destruct (planted_tree sbi ino s l _ k keys sbi1 s1 T0 P) as [_ Hsame]. case_decide as Hp.
  - destruct Hp as [rest ->]. rewrite (wr_below _ _ _ _ _ _ _ _ W).
    rewrite (drop_app_length' (take n path) rest n) by (rewrite length_take; lia).
    assert (HF : Forall (fun x => 0 <= x < ic) rest /\ (length rest <= length (drop n path))%nat).
    { destruct path as [|o offs]; [cbn in Hn; lia|]. destruct n as [|m]; [lia|]. cbn [take app] in V.
      destruct V as (Ho & Hlen & HF). destruct Hfull as (_ & Hfl & _). rewrite length_app, length_take in Hlen.
      rewrite length_drop. cbn [length] in *. apply List.Forall_app in HF as [_ HF]. split; [done|lia]. }
    eapply spine_walk; [apply splice_spine|apply P|apply HF|apply HF|apply new_nonzero; by left|].
    apply List.Forall_forall. intros x Hx. apply new_nonzero. right. by apply list_elem_of_In.
  - rewrite (wr_other _ _ _ _ _ _ _ _ W); [by apply Hsame| |done]. by rewrite (pl_bits _ _ _ _ _ _ _ P).
Qed.

(** A node of the new tree is a node of the old one or one of the new blocks, on the path. *)
Lemma splice_node_cases pre v : valid_path ic pre -> node (k_buf s2) l' pre = Some v -> v <> 0 ->
  (node (k_buf s) l pre = Some v /\ ba_used sbi s v = true /\ in_zone sbi v) \/
  (exists j, (k :: keys) !! j = Some v /\ pre = take (n + j) path /\ in_zone sbi v /\ ba_used sbi s v = false).
Proof using All.
  intros V. rewrite splice_node by done. case_decide as Hp; intros E Hv.
  - right. apply (inj Some) in E. destruct (spine_node_inv _ _ _ _ _ E Hv) as [Hd Hl].
    exists (length (drop n pre)). split; [done|]. destruct (new_nonzero v) as (_ & ? & ?); [by eapply list_elem_of_lookup_2|].
    split; [|done]. destruct Hp as [rest ->]. rewrite (drop_app_length' (take n path) rest n) in * by (rewrite length_take; lia).
    destruct Hd as [suf Hd]. rewrite <- (take_take_drop path n (length rest)), Hd. by rewrite take_app_length.
  - left. split; [done|]. destruct T0 as (_ & T & _). destruct (to_zone _ _ _ T _ _ V E Hv). done.
Qed.

Lemma splice_tree_ok : tree_ok sbi1 s2 l'.
Proof using All.
  destruct splice_inv as [_ U2]. destruct T0 as (_ & T & _).
  assert (Hb : s_blocksize_bits s2 = s_blocksize_bits s) by (by rewrite (wr_bits _ _ _ _ _ _ _ _ W), (pl_bits _ _ _ _ _ _ _ P)).
  split.
  - rewrite (wr_len _ _ _ _ _ _ _ _ W). apply T.
  - rewrite Hb. intros pre v V E Hv.
    assert (HH : in_zone sbi v /\ ba_used sbi1 s1 v = true).
    { destruct (splice_node_cases pre v V E Hv) as [(_ & Hu & Hz)|(j & Hj & _ & Hz & _)]; (split; [done|]).
      - by rewrite (pl_used _ _ _ _ _ _ _ P), Hu, orb_true_r.
      - rewrite (pl_used _ _ _ _ _ _ _ P), bool_decide_eq_true_2; [done| |done]. by eapply list_elem_of_lookup_2. }
    split; [apply (in_zone_same sbi); [apply P|apply HH]|]. rewrite U2; apply HH.
  - rewrite Hb. intros pre1 pre2 v V1 V2 E1 E2 Hv.
    destruct (splice_node_cases pre1 v V1 E1 Hv) as [(E1' & Hu1 & Hz)|(j1 & Hj1 & -> & _ & Hu1)];
      destruct (splice_node_cases pre2 v V2 E2 Hv) as [(E2' & Hu2 & _)|(j2 & Hj2 & -> & _ & Hu2)]; try congruence.
    + by eapply (to_tree _ _ _ T).
    + do 2 f_equal. eapply NoDup_lookup; [apply P|done|done].
Qed.

Lemma splice_path j : (n <= j <= length path)%nat -> (k :: keys) !! (j - n)%nat = Some (nodev s2 l' (take j path)).
Proof using All.
  intros Hj. rewrite (spine_node_take (drop n path)); [|apply P|rewrite length_drop; lia].
  unfold nodev. rewrite splice_node by (apply valid_take; [by apply full_valid|lia]). rewrite decide_True.
  2: { replace n with (n `min` j)%nat by lia. rewrite <- take_take. by eexists; rewrite take_drop. }
  cbn. do 2 f_equal. rewrite <- skipn_firstn_comm. done.
Qed.
End growth.

(** ** Splicing *)

Lemma release_chain_held `{KernelApi} chain r s :
  k_ref s = r ⊎ refs (held chain) -> release_chain chain s = Some (tt, with_ref r s).
Proof. intros E. rewrite <- (release_chain_run chain r s), <- E. by rewrite with_own_ref. Qed.

Lemma held_app_ne c1 c2 : c1 <> [] -> held (c1 ++ c2) = held c1 ++ omap bh c2.
Proof. destruct c1; [done|]. intros _. unfold held. cbn [app tail]. by rewrite omap_app. Qed.

Section splicing.
Context `{KL : KernelLaws} {new : K (Z * option errno)} {free : Z -> K unit} `{BA : !BlockAllocator new free}.

Lemma entries_same s s1 l path n :
  (forall j, (0 < j <= n)%nat -> nodev s1 l (take j path) = nodev s l (take j path)) ->
  entries s1 l path n = entries s l path n.
Proof.
  induction n as [|n IH]; intros E; [done|]. rewrite !entries_S, IH by (intros; apply E; lia). do 2 f_equal.
  destruct n as [|n]; cbn [entry]; rewrite !E by lia; done.
Qed.

Lemma nodev_same s s1 l pre : node (k_buf s1) l pre = node (k_buf s) l pre -> nodev s1 l pre = nodev s l pre.
Proof. unfold nodev. by intros ->. Qed.

(** [splice_branch] links the branch [k] and stamps the inode. *)
Lemma splice_branch_run sbi ino s l path n k bhs rest :
  tree_at sbi ino s l -> valid_path (ic_of (s_blocksize_bits s)) path -> (0 < n <= length path)%nat ->
  (forall j, (0 < j < n)%nat -> nodev s l (take j path) <> 0) -> nodev s l (take n path) = 0 -> 0 <= k < 2 ^ 32 ->
  kwp (splice_branch free ino (entries s l path (n - 1)) (Ind (p (entry s l path (n - 1))) k bhs :: rest)) s
    (fun r s' => r = None /\ exists s2 l' i now, wrote sbi ino s l (take n path) k s2 l' /\
       s_fs_info s' = s_fs_info s2 /\ s_blocksize_bits s' = s_blocksize_bits s2 /\ k_buf s' = k_buf s2 /\
       k_ref s' = k_ref s2 /\ k_inodes s !! ino = Some i /\
       k_inodes s' = <[ino := set_ctime now (set_blkaddr i l')]> (k_inodes s)).
Proof.
  intros T V Hn Hnz Hhole Hk. unfold splice_branch. cbn [p key bh].
  destruct (verify_chain_run sbi ino s l s l path (n - 1) T V) as (ok & Ev & Hok); [lia|intros; apply Hnz; lia|].
  destruct ok; [|destruct Hok as [_ Hok]; by specialize (Hok eq_refl)].
  apply kwp_bind. eexists _, _. split; [exact Ev|]. apply kwp_bind, kwp_bind. eexists _, _.
  split; [apply (entry_read sbi ino s l path (n - 1) T V); [lia|intros; apply Hnz; lia]|].
  apply kwp_ret. replace (S (n - 1)) with n by lia. rewrite Hhole. cbn [negb Z.eqb].
  apply kwp_bind. eapply kwp_mono; [by apply (write_entry sbi ino s l path n k)|]. intros _ s2 (l' & W).
  destruct (wr_inodes _ _ _ _ _ _ _ _ W) as (i & Hi & Hl & Hi2).
  apply kwp_bind. eapply kwp_iref; [rewrite Hi2; apply lookup_insert_eq|]. apply kwp_bind, kwp_get.
  apply kwp_bind, kwp_mod, kwp_bind. set (s3 := with_inodes _ s2).
  assert (Hd : exists d, (match bhs with Some b => mark_buffer_dirty b | None => mret tt end) s3 = Some (tt, with_dirty d s3)).
  { destruct bhs as [b|]; [by eexists|]. exists (k_dirty s3). done. }
  destruct Hd as (d & Ed). eexists _, _. split; [exact Ed|]. apply kwp_bind, kwp_mod, kwp_ret. split; [done|].
  exists s2, l', i, (current_time s2). split; [done|]. do 4 (split; [done|]). split; [done|].
  cbn [k_inodes with_idirty with_dirty s3 with_inodes]. rewrite Hi2. by rewrite insert_insert_eq.
Qed.

(** C31: When the chain a branch was made for has changed, or the slot has been filled,
    [splice_branch] returns EAGAIN, frees exactly the blocks of the branch and drops the
    references of the branch; no pointer and no inode changes. *)
Theorem splice_branch_changed sbi ino s l s0 l0 path n k offs keys r :
  tree_at sbi ino s l -> valid_path (ic_of (s_blocksize_bits s)) path -> (0 < n <= length path)%nat ->
  (forall j, (0 < j < n)%nat -> nodev s0 l0 (take j path) <> 0) ->
  entries s0 l0 path (n - 1) <> entries s l path (n - 1) \/ nodev s l (take n path) <> 0 ->
  (length keys <= length offs)%nat -> Forall (in_zone sbi) (k :: keys) ->
  k_ref s = r ⊎ refs (take (length keys) (k :: keys)) ->
  let first := entry s0 l0 path (n - 1) in
  kwp (splice_branch free ino (entries s0 l0 path (n - 1)) (Ind (p first) k (bh first) :: branch_entries k offs keys)) s
    (fun res s' => res = Some EAGAIN /\ ba_inv sbi s' /\ k_ref s' = r /\ k_inodes s' = k_inodes s /\
       (forall b, s_data_block_start sbi <= b -> k_buf s' !! b = k_buf s !! b) /\
       forall x, in_zone sbi x -> ba_used sbi s' x = negb (bool_decide (x ∈ k :: keys)) && ba_used sbi s x).
Proof.
  intros T V Hn Hnz Hch Hlen Hz Hr first. unfold splice_branch. cbn [p].
  destruct (verify_chain_run sbi ino s l s0 l0 path (n - 1) T V) as (ok & Ev & Hok); [lia|intros; apply Hnz; lia|].
  apply kwp_bind. eexists _, _. split; [exact Ev|]. apply kwp_bind.
  assert (Hv : (if ok then v ← ptr_read ino (p first); mret (v =? 0) else mret false) s = Some (false, s)).
  { destruct ok; [|done]. destruct Hok as [Hok _]. specialize (Hok eq_refl). destruct Hch as [Hch|Hch]; [done|].
    assert (Hp : forall j, (0 < j < n)%nat -> nodev s0 l0 (take j path) = nodev s l (take j path)).
    { intros j Hj. apply (entries_nodev s0 l0 s l path (n - 1)); [done|lia]. }
    assert (Ep : p first = p (entry s l path (n - 1))).
    { unfold first. destruct n as [|[|m]]; [lia|done|]. cbn [Nat.sub entry p]. by rewrite Hp by lia. }
    rewrite Ep, K_bind_eq, (entry_read sbi ino s l path (n - 1) T V); [|lia|intros; rewrite <- Hp by lia; apply Hnz; lia].
    replace (S (n - 1)) with n by lia. by rewrite (proj2 (Z.eqb_neq _ 0)). }
  eexists _, _. split; [exact Hv|]. cbn [negb]. apply kwp_bind2.
  eapply kwp_mono; [by apply (prune_run sbi s k offs keys r first); [apply T| | | ]|].
  intros _ s' (I' & Hr' & Hi' & _ & Hb' & Hu'). by apply kwp_ret.
Qed.

(** What [gas_get_block] with [create] has done when it mapped a hole of [path] to a new
    block: the first [n - 1] blocks of the path were there, the others are new and are the
    only new ones; the inode has a new time stamp. *)
Record mapped (sbi : gas_sb_info) (ino : Z) (s : kst) (l path : list Z) (n : nat) (sbi' : gas_sb_info) (s' : kst) (l' : list Z) : Prop := {
  mp_sb : same_sb sbi sbi';
  mp_tree : tree_at sbi' ino s' l';
  mp_hole : (0 < n <= length path)%nat /\ nodev s l (take n path) = 0 /\
    forall j, (0 < j < n)%nat -> nodev s l (take j path) <> 0;
  mp_path : forall j, (0 < j <= length path)%nat -> nodev s' l' (take j path) <> 0 /\
    ((j < n)%nat -> nodev s' l' (take j path) = nodev s l (take j path)) /\
    ((n <= j)%nat -> ba_used sbi s (nodev s' l' (take j path)) = false);
  mp_other : forall path', full_path (ic_of (s_blocksize_bits s)) path' -> path' <> path -> nodev s' l' path' = nodev s l path';
  mp_nodes : forall pre v, valid_path (ic_of (s_blocksize_bits s)) pre -> node (k_buf s') l' pre = Some v -> v <> 0 ->
    node (k_buf s) l pre = Some v \/ ba_used sbi s v = false;
  mp_used : forall x, in_zone sbi x -> ba_used sbi' s' x = true <->
    ba_used sbi s x = true \/ exists j, (n <= j <= length path)%nat /\ nodev s' l' (take j path) = x;
  mp_ref : k_ref s' = k_ref s;
  mp_bits : s_blocksize_bits s' = s_blocksize_bits s;
  mp_buf : forall b, in_zone sbi b -> ba_used sbi s b = true -> b <> nodev s l (take (n - 1) path) ->
    k_buf s' !! b = k_buf s !! b;
  mp_inodes : exists i now, k_inodes s !! ino = Some i /\ blkaddr i = l /\
    k_inodes s' = <[ino := set_ctime now (set_blkaddr i l')]> (k_inodes s) }.

Lemma mapped_intro sbi ino s l path n k keys sbi1 s1 s2 l' s' i now :
  tree_at sbi ino s l -> full_path (ic_of (s_blocksize_bits s)) path -> (0 < n <= length path)%nat ->
  nodev s l (take n path) = 0 -> (forall j, (0 < j < n)%nat -> nodev s l (take j path) <> 0) ->
  planted sbi s (drop n path) k keys sbi1 s1 -> wrote sbi1 ino s1 l (take n path) k s2 l' ->
  s_fs_info s' = s_fs_info s2 -> s_blocksize_bits s' = s_blocksize_bits s2 -> k_buf s' = k_buf s2 -> k_ref s' = k_ref s ->
  k_inodes s1 !! ino = Some i -> k_inodes s' = <[ino := set_ctime now (set_blkaddr i l')]> (k_inodes s1) ->
  mapped sbi ino s l path n sbi1 s' l'.
Proof.
  intros T F Hn Hhole Hnz P W E1 E2 E3 E4 Hi Hi'.
  assert (Hb : s_blocksize_bits s2 = s_blocksize_bits s) by (by rewrite (wr_bits _ _ _ _ _ _ _ _ W), (pl_bits _ _ _ _ _ _ _ P)).
  destruct (splice_inv sbi sbi1 ino s s1 s2 l l' path keys n k T F Hn Hhole P W) as [I2 U2].
  pose proof (splice_tree_ok sbi sbi1 ino s s1 s2 l l' path keys n k T F Hn Hhole P W) as T2.
  pose proof (splice_node sbi sbi1 ino s s1 s2 l l' path keys n k T F Hn Hhole P W) as N2.
  destruct (ba_ext sbi1 s2 s' I2 E1 E2 E3) as [I' U'].
  assert (Hpath : forall j, (n <= j <= length path)%nat -> (k :: keys) !! (j - n)%nat = Some (nodev s' l' (take j path))).
  { intros j Hj. unfold nodev. rewrite E3.
    exact (splice_path sbi sbi1 ino s s1 s2 l l' path keys n k T F Hn Hhole P W j Hj). }
  assert (Hlow : forall j, (0 < j < n)%nat -> nodev s' l' (take j path) = nodev s l (take j path)).
  { intros j Hj. unfold nodev. rewrite E3, N2 by (apply valid_take; [by apply full_valid|lia]). rewrite decide_False; [done|].
    intros Hp%prefix_length. rewrite !length_take in Hp. lia. }
  assert (Hnew : forall x, x ∈ k :: keys -> x <> 0 /\ in_zone sbi x /\ ba_used sbi s x = false)
    by exact (new_nonzero sbi sbi1 ino s s1 s2 l l' path keys n k T F Hn Hhole P W).
  split; [apply P| |done| | | | |done|congruence| |].
  - split; [done|]. split; [|rewrite Hi', lookup_insert_eq; by eexists].
    destruct T2 as [A1 A2 A3]. split; rewrite ?E2, ?E3; [done| |done]. intros pre v V Hv Hv0.
    destruct (A2 pre v V Hv Hv0) as [Hz Hu]. by rewrite U'.
  - intros j Hj. destruct (Nat.lt_ge_cases j n).
    + rewrite Hlow by lia. split; [apply Hnz; lia|]. split; [done|intros; lia].
    + destruct (Hnew (nodev s' l' (take j path))) as (? & _ & ?); [eapply list_elem_of_lookup_2, Hpath; lia|].
      split; [done|]. split; [intros; lia|done].
  - intros path' F' Hne. unfold nodev. rewrite E3, N2 by (by apply full_valid). case_decide as Hp; [|done].
    destruct T as (IT & T & _). destruct Hp as [rest ->]. destruct (node_total s sbi l (take n path)) as [v Hv];
      [by apply ba_mounted|done|apply valid_take; [by apply full_valid|lia]|].
    apply nodev_eq in Hv as Hv'. rewrite Hhole in Hv'. subst v. rewrite node_app, Hv by (destruct path, n; cbn in *; lia || done).
    cbn [mbind option_bind]. rewrite walk_zero, drop_app_length' by (rewrite length_take; lia). cbn.
    destruct (Z.eq_dec (spine_node k (drop n path) keys rest) 0) as [|Hd]; [done|].
    destruct (spine_node_inv _ _ _ _ _ eq_refl Hd) as [Hp _]. exfalso. apply Hne.
    rewrite <- (take_drop n path) at 2. f_equal. apply prefix_length_eq; [done|].
    assert (Hlen : length (take n path ++ rest) = length path).
    { destruct path as [|o offs], n as [|m]; cbn [length take] in *; try lia. destruct F as (_ & F1 & _). destruct F' as (_ & F2 & _).
      cbn [app length]. lia. }
    rewrite length_app, length_take in Hlen. rewrite length_drop. lia.
  - intros pre v V. rewrite E3. intros Hv Hv0.
    destruct (splice_node_cases sbi sbi1 ino s s1 s2 l l' path keys n k T F Hn Hhole P W pre v V Hv Hv0) as [(? & _)|(_ & _ & _ & _ & ?)]; auto.
  - intros x Hx. rewrite U' by (apply (in_zone_same sbi); [apply P|done]). rewrite U2, (pl_used _ _ _ _ _ _ _ P), orb_true_iff, bool_decide_eq_true by done.
    split; intros [Hin|Hin].
    + right. apply list_elem_of_lookup in Hin as [m Hm]. exists (n + m)%nat.
      assert (Hml : (m < length (k :: keys))%nat) by (by eapply lookup_lt_Some). cbn in Hml.
      rewrite (pl_len _ _ _ _ _ _ _ P), length_drop in Hml. split; [lia|].
      specialize (Hpath (n + m)%nat ltac:(lia)). replace (n + m - n)%nat with m in Hpath by lia. congruence.
    + by left.
    + by right.
    + left. destruct Hin as (j & Hj & <-). eapply list_elem_of_lookup_2, Hpath. lia.
  - intros b Hz Hu Hne. rewrite E3, (wr_buf _ _ _ _ _ _ _ _ W).
    + apply (pl_buf _ _ _ _ _ _ _ P); [apply Hz|]. intros Hin. destruct (Hnew b Hin) as (_ & _ & HH). congruence.
    + right. rewrite removelast_firstn_len, length_take, take_take. replace (Nat.pred (n `min` length path) `min` n)%nat with (n - 1)%nat by lia.
      destruct (planted_tree sbi ino s l _ k keys sbi1 s1 T P) as [_ Hsame]. unfold nodev in *.
      destruct (decide (n = 1%nat)) as [->|]; [done|]. rewrite Hsame; [done|]. apply valid_take; [by apply full_valid|lia].
  - exists i, now. rewrite <- (pl_inodes _ _ _ _ _ _ _ P). split; [done|]. split; [|done].
    destruct T as (_ & _ & i' & Hi2 & <-). rewrite (pl_inodes _ _ _ _ _ _ _ P) in Hi. congruence.
Qed.

(** A failed allocation leaves the tree as it was. *)
Lemma uprooted_tree sbi ino s l n sbi' s' r :
  tree_at sbi ino s l -> uprooted sbi s n sbi' s' -> tree_at sbi' ino (with_ref r s') l /\
  forall pre, valid_path (ic_of (s_blocksize_bits s)) pre -> nodev s' l pre = nodev s l pre.
Proof.
  intros (I & T & i & Hi & Hl) P.
  assert (Hn : forall pre, valid_path (ic_of (s_blocksize_bits s)) pre -> node (k_buf s') l pre = node (k_buf s) l pre).
  { apply node_same. intros pre v V Hv Hv0. destruct (to_zone _ _ _ T _ _ V Hv Hv0) as [Hz Hu].
    by apply (up_buf _ _ _ _ _ P). }
  split; [apply tree_at_ref; split; [apply P|]; split|].
  - split; [apply T| |]; rewrite (up_bits _ _ _ _ _ P).
    + intros pre v V. rewrite Hn by done. intros Hv Hv0. destruct (to_zone _ _ _ T _ _ V Hv Hv0) as [Hz Hu].
      split; [apply (in_zone_same sbi); [apply P|done]|]. by rewrite (up_used _ _ _ _ _ P).
    + intros pre1 pre2 v V1 V2. rewrite !Hn by done. by apply T.
  - exists i. by rewrite (up_inodes _ _ _ _ _ P).
  - intros pre V. by apply nodev_same, Hn.
Qed.

(** What [gas_get_block] with [create] returns: the block that was there, a new block, no
    space, or an I/O error. *)
Inductive creation (sbi : gas_sb_info) (ino : Z) (s : kst) (l path : list Z) (s' : kst)
  : option errno -> option (Z * bool) -> Prop :=
| creation_there :
    s' = s -> nodev s l path <> 0 -> creation sbi ino s l path s' None (Some (nodev s l path, false))
| creation_new n sbi' l' :
    mapped sbi ino s l path n sbi' s' l' -> creation sbi ino s l path s' None (Some (nodev s' l' path, true))
| creation_full n sbi' s1 :
    nodev s l path = 0 -> (0 < n <= length path)%nat -> nodev s l (take n path) = 0 ->
    s' = with_ref (k_ref s) s1 -> uprooted sbi s (S (length path - n)) sbi' s1 -> tree_at sbi' ino s' l ->
    (forall pre, valid_path (ic_of (s_blocksize_bits s)) pre -> nodev s' l pre = nodev s l pre) ->
    creation sbi ino s l path s' (Some ENOSPC) None
| creation_unreadable n :
    s' = s -> (0 < n < length path)%nat -> nodev s l (take n path) <> 0 ->
    read_ok (nodev s l (take n path)) = false -> creation sbi ino s l path s' (Some EIO) None.

Lemma live_unique sbi ino s l l1 : tree_at sbi ino s l -> live sbi ino s l1 -> l1 = l.
Proof. intros (_ & _ & i & Hi & <-) (? & _ & _ & _ & j & Hj & <-). congruence. Qed.

Lemma hole_below sbi ino s l path n :
  tree_at sbi ino s l -> valid_path (ic_of (s_blocksize_bits s)) path -> (0 < n <= length path)%nat ->
  nodev s l (take n path) = 0 -> nodev s l path = 0.
Proof.
  intros (I & T & _) V Hn H0. apply (nodev_below _ _ _ n); [lia|].
  destruct (node_total s sbi l (take n path)) as [v Hv]; [by apply ba_mounted|done|apply valid_take; [done|lia]|].
  apply nodev_eq in Hv as Hv'. congruence.
Qed.

Lemma removelast_entries s l path n : (0 < n)%nat -> removelast (entries s l path n) = entries s l path (n - 1).
Proof. destruct n; [lia|]. intros _. rewrite entries_S, removelast_last. f_equal. lia. Qed.

Lemma held_branch s l path n k rest : (0 < n)%nat ->
  held (entries s l path (n - 1) ++ Ind (p (entry s l path (n - 1))) k (bh (entry s l path (n - 1))) :: rest) =
  held (entries s l path n) ++ omap bh rest.
Proof.
  intros Hn. destruct n as [|[|n]]; [lia|done|]. cbn [Nat.sub]. rewrite (entries_S s l path (S n)).
  rewrite !held_app_ne by (by rewrite entries_S; destruct (entries s l path n)). rewrite <- app_assoc. f_equal.
Qed.

(** [alloc_branch] and [splice_branch] on a hole, the references of the chain held. *)
Lemma fill_hole_run sbi ino s l path n other fuel :
  (forall st, other st = Some (tt, st)) -> tree_at sbi ino s l -> full_path (ic_of (s_blocksize_bits s)) path ->
  (0 < n <= length path)%nat -> (forall j, (0 < j < n)%nat -> nodev s l (take j path) <> 0) ->
  nodev s l (take n path) = 0 ->
  let chain := entries s l path n in
  kwp ('(branch, err) ← alloc_branch new free (entry s l path (n - 1)) (drop (length chain) path);
       match err with
       | Some e => _ ← release_chain chain; mret (Some e, None)
       | None =>
           _ ← other;
           r ← splice_branch free ino (removelast chain) branch;
           match r with
           | Some _ => _ ← release_chain chain; get_block_loop new free other fuel ino path true
           | None => e ← klift (list.last branch); _ ← release_chain (removelast chain ++ branch);
               mret (None, Some (key e, true))
           end
       end) (with_ref (k_ref s ⊎ refs (held chain)) s)
    (fun res s' => k_ref s' = k_ref s /\ creation sbi ino s l path s' (fst res) (snd res)).
Proof.
  intros Hq T F Hn Hnz Hhole chain. assert (Hlen : length chain = n).
  { unfold chain, entries. by rewrite length_fmap, length_seq. }
  rewrite Hlen. set (r := k_ref s ⊎ refs (held chain)). pose proof (full_valid _ _ F) as V.
  pose proof (tree_at_ref sbi ino s l r T) as Tr. pose proof (proj1 T) as I.
  assert (HF : Forall (fun o => 0 <= o < ic_of (s_blocksize_bits s)) (drop n path)).
  { destruct path as [|o offs]; [done|]. destruct n as [|m]; [lia|]. destruct V as (_ & _ & HF). cbn [drop].
    apply List.Forall_forall. intros x Hx. apply (Forall_in _ _ x HF). rewrite <- (take_drop m offs).
    apply elem_of_app. right. by apply list_elem_of_In. }
  apply kwp_bind. eapply kwp_mono; [by apply (alloc_branch_run sbi (with_ref r s) (entry s l path (n - 1)) (drop n path)), HF; apply Tr|].
  intros [branch [e|]] s1; cbn [fst snd].
  - intros (-> & Hr & sbi' & U). apply kwp_bind. exists tt, (with_ref (k_ref s) s1). split.
    { by apply release_chain_held. }
    apply kwp_ret. split; [done|]. cbn [fst snd]. apply uprooted_ref in U; [|done].
    destruct (uprooted_tree sbi ino s l _ sbi' s1 (k_ref s) T U) as [T1 N1]. rewrite length_drop in U.
    apply (creation_full _ _ _ _ _ _ n sbi' s1); try done. by eapply hole_below.
  - intros (k & keys & sbi1 & P & Hr & ->). apply planted_ref in P; [|done]. apply kwp_bind. exists tt, s1. split; [by apply Hq|].
    destruct (planted_tree sbi ino s l _ k keys sbi1 s1 T P) as [T1 N1].
    assert (Ee : forall m, (m <= length path)%nat -> entries s1 l path m = entries s l path m).
    { intros m Hm. apply entries_same. intros j Hj. apply nodev_same, N1. apply valid_take; [done|lia]. }
    assert (Ep : entry s1 l path (n - 1) = entry s l path (n - 1)).
    { specialize (Ee n ltac:(lia)). replace n with (S (n - 1)) in Ee by lia. rewrite !entries_S in Ee. by apply app_inj_tail in Ee as [_ ?]. }
    unfold chain. rewrite removelast_entries by lia. rewrite <- (Ee (n - 1)%nat) by lia. rewrite <- Ep.
    apply kwp_bind. eapply kwp_mono.
    { assert (Hk : 0 <= k < 2 ^ 32).
      { destruct (Forall_in _ _ k (pl_new _ _ _ _ _ _ _ P)) as [Hz _]; [by left|]. destruct (zone_small sbi s k I Hz) as [? _]. lia. }
      apply (splice_branch_run sbi1 ino s1 l path n k _ _ T1); [by rewrite (pl_bits _ _ _ _ _ _ _ P)|done| | |done].
      - intros j Hj. rewrite (nodev_same s s1) by (apply N1, valid_take; [done|lia]). by apply Hnz.
      - rewrite (nodev_same s s1) by (apply N1, valid_take; [done|lia]). done. }
    intros rr s3 (-> & s2 & l' & i & now & W & E1 & E2 & E3 & E4 & Hi & Hi'). apply kwp_bind.
    pose proof (pl_len _ _ _ _ _ _ _ P) as Hkl.
    assert (Hlast : exists e, list.last (Ind (p (entry s1 l path (n - 1))) k (bh (entry s1 l path (n - 1))) :: branch_entries k (drop n path) keys) = Some e /\
      Some (key e) = list.last (k :: keys)).
    { destruct (list.last (Ind _ k _ :: _)) as [e|] eqn:El; [|by apply last_None in El].
      exists e. split; [done|]. apply (f_equal (fmap key)) in El. rewrite <- fmap_last in El. cbn [fmap list_fmap key option_fmap option_map] in El.
      rewrite <- El. change (list_fmap _ _ key (branch_entries k (drop n path) keys)) with (key <$> branch_entries k (drop n path) keys).
      rewrite branch_entries_keys by lia. done. }
    destruct Hlast as (e & He & Hke). eapply kwp_lift; [exact He|]. apply kwp_bind.
    exists tt, (with_ref (k_ref s) s3). split.
    { apply release_chain_held. rewrite held_branch, Ee, branch_entries_bhs by lia. rewrite <- refs_app.
      rewrite E4, (wr_ref _ _ _ _ _ _ _ _ W). exact Hr. }
    apply kwp_ret. split; [done|]. cbn [fst snd].
    assert (M : mapped sbi ino s l path n sbi1 (with_ref (k_ref s) s3) l').
    { by eapply (mapped_intro sbi ino s l path n k keys sbi1 s1 s2 l' _ i now). }
    replace (key e) with (nodev (with_ref (k_ref s) s3) l' path); [by eapply creation_new|].
    pose proof (splice_path sbi sbi1 ino s s1 s2 l l' path keys n k T F Hn Hhole P W (length path) ltac:(lia)) as Hp.
    rewrite last_lookup in Hke. cbn [length Nat.pred] in Hke. rewrite Hkl, length_drop, Hp, firstn_all in Hke.
    unfold nodev in *. cbn [k_buf with_ref]. rewrite E3. congruence.
Qed.

Lemma gas_get_block_create_run sbi ino s l other fuel block :
  (forall st, other st = Some (tt, st)) -> tree_at sbi ino s l ->
  s_nblocks sbi <= max_blocks (ic_of (s_blocksize_bits s)) -> 0 <= block < s_nblocks sbi ->
  kwp (gas_get_block new free other (S fuel) ino block true) s (fun res s' =>
    k_ref s' = k_ref s /\
    creation sbi ino s l (block_to_path (s_nblocks sbi) (s_blocksize_bits s) block) s' (fst res) (snd res)).
Proof.
  intros Hq T Hmax Hb. pose proof (ba_mounted _ _ (proj1 T)) as M. pose proof (g_bits _ _ (mt_geom _ _ M)) as Hbits.
  unfold gas_get_block. apply kwp_bind. eapply kwp_sb; [apply (mt_info _ _ M)|]. apply kwp_bind, kwp_get.
  destruct (block_to_path_run (s_nblocks sbi) (s_blocksize_bits s) block) as [F _]; [done|done|lia|].
  destruct (block_to_path _ _ block) as [|o offs]; [done|]. set (path := o :: offs) in *. clearbody path.
  pose proof (full_valid _ _ F) as V. cbn [get_block_loop]. apply kwp_bind. rewrite <- (with_own_ref s) at 1.
  assert (L : live sbi ino s l) by (exists sbi; split; [apply same_sb_refl|done]).
  eapply kwp_mono; [by apply (get_branch_run sbi ino other eq (quiet_rely sbi ino other Hq) path s l)|].
  intros [[chain c] e] s' (s1 & -> & <- & _ & _ & B).
  assert (Hrel : release_chain chain (with_ref (k_ref s ⊎ refs (held chain)) s) = Some (tt, s))
    by (by rewrite release_chain_run, with_own_ref).
  inversion B as [l1 L1 Hnz|l1 n L1 Hn Hnz Hhole|s0 l0 l1 n <- _ L0 L1 Hn Hnz Hrd|s0 l0 l1 n <- _ L0 L1 Hn Hne]; subst chain c e.
  - rewrite (live_unique _ _ _ _ _ T L1) in *. assert (Hl : (0 < length path)%nat) by (destruct path; [done|cbn; lia]).
    apply kwp_bind. eapply kwp_lift; [by apply entries_last|]. apply kwp_bind. eexists _, _. split; [exact Hrel|].
    apply kwp_ret. split; [done|]. cbn [fst snd]. rewrite key_entry. replace (S (length path - 1)) with (length path) by lia.
    rewrite firstn_all. by apply creation_there.
  - rewrite (live_unique _ _ _ _ _ T L1) in *. cbn [negb orb]. rewrite !bool_decide_eq_false_2 by done.
    apply kwp_bind. eapply kwp_lift; [apply entries_last; lia|]. by apply (fill_hole_run sbi).
  - rewrite (live_unique _ _ _ _ _ T L0) in *. cbn [negb orb]. rewrite bool_decide_eq_true_2 by done.
    apply kwp_bind. eexists _, _. split; [exact Hrel|]. apply kwp_ret. split; [done|]. by eapply creation_unreadable.
  - rewrite (live_unique _ _ _ _ _ T L1), (live_unique _ _ _ _ _ T L0) in Hne. done.
Qed.

(** C4: [gas_get_block] with [create], no other task interfering, returns a block for every
    block of the file the layout allows, or ENOSPC or EIO, and gives back every buffer.
    A block that is there is returned as it is. A hole gets a fresh block, with the
    indirect blocks that are missing above it: they were free, they are the only ones
    that become used, no other block of the file is mapped differently, no other
    buffer in use changes and the tree stays well formed. ENOSPC is only returned when
    the free blocks do not suffice, and then every block allocated on the way is free
    again and the tree is as before. *)
Theorem gas_get_block_create sbi ino s l other fuel block :
  (forall st, other st = Some (tt, st)) -> tree_at sbi ino s l ->
  s_nblocks sbi <= max_blocks (ic_of (s_blocksize_bits s)) -> 0 <= block < s_nblocks sbi ->
  kwp (gas_get_block new free other (S fuel) ino block true) s (fun res s' =>
    k_ref s' = k_ref s /\
    creation sbi ino s l (block_to_path (s_nblocks sbi) (s_blocksize_bits s) block) s' (fst res) (snd res)).
Proof. apply gas_get_block_create_run. Qed.
End splicing.
