(* ===== verification/Trunc.v ===== *)
(** * Truncation

    [gas_truncate_inode] and what it is made of. A step that unlinks a pointer of the tree
    and frees what was below it is a [cut]; the whole of a truncation is a sequence of
    cuts, at paths that are to the right of the new end of the file. *)

From S2P Require Import Prelude Mem Layout Kernel Alloc Itree Tree TreeEdit.

(** ** The blocks of a subtree *)

Definition word (buf : gmap Z bytes) (v k : Z) : Z := default 0 (m ← buf !! v; load 4 m (4 * k)).

(** Block [v] and the blocks below it, [d] levels of pointers. *)
Fixpoint nodes (ic : Z) (buf : gmap Z bytes) (d : nat) (v : Z) : list Z :=
  if v =? 0 then []
  else v :: match d with O => [] | S d => seqZ 0 ic ≫= fun k => nodes ic buf d (word buf v k) end.

Lemma nodes_S ic buf d v : v <> 0 ->
  nodes ic buf (S d) v = v :: (seqZ 0 ic ≫= fun k => nodes ic buf d (word buf v k)).
Proof. intros Hv. cbn [nodes]. by rewrite (proj2 (Z.eqb_neq v 0)). Qed.

Lemma nodes_0 ic buf d : nodes ic buf d 0 = [].
Proof. by destruct d. Qed.

Lemma nodes_ext ic buf buf' d : forall v,
  (forall b, b ∈ nodes ic buf d v -> buf' !! b = buf !! b) -> nodes ic buf' d v = nodes ic buf d v.
Proof.
  induction d as [|d IH]; intros v E; [done|]. destruct (Z.eq_dec v 0) as [->|Hv]; [done|].
  rewrite !nodes_S in * by done. f_equal.
  assert (Ev : forall k, word buf' v k = word buf v k) by (intros k; unfold word; rewrite E; [done|by left]).
  apply bind_ext_in. intros k Hk. rewrite Ev. apply IH. intros b Hb. apply E.
  right. apply list_elem_of_bind. by exists k.
Qed.

(** In terms of paths. *)
Definition valid_rest (ic : Z) (d : nat) (rest : list Z) : Prop :=
  (length rest <= d)%nat /\ Forall (fun k => 0 <= k < ic) rest.

Lemma valid_rest_nil ic d : valid_rest ic d [].
Proof. split; [cbn; lia|constructor]. Qed.

Lemma valid_rest_cons ic d k rest : valid_rest ic (S d) (k :: rest) <-> 0 <= k < ic /\ valid_rest ic d rest.
Proof.
  unfold valid_rest. cbn [length]. rewrite List.Forall_cons_iff. split; [intros (? & ? & ?)|intros (? & ? & ?)]; (split; [lia|]); [split|]; auto; lia.
Qed.

Lemma walk_word buf v k rest x : v <> 0 -> x <> 0 ->
  walk buf v (k :: rest) = Some x <-> walk buf (word buf v k) rest = Some x.
Proof.
  intros Hv Hx. cbn [walk]. rewrite (proj2 (Z.eqb_neq v 0)) by done. unfold word.
  destruct (buf !! v) as [m|]; cbn [mbind option_bind default]; [|rewrite walk_zero; split; congruence].
  destruct (load 4 m (4 * k)); cbn [mbind option_bind default]; [done|rewrite walk_zero; split; congruence].
Qed.

Lemma nodes_walk ic buf d x : forall v,
  x ∈ nodes ic buf d v <-> x <> 0 /\ exists rest, valid_rest ic d rest /\ walk buf v rest = Some x.
Proof.
  assert (Hz : x <> 0 /\ (exists rest, walk buf 0 rest = Some x) -> False).
  { intros (Hx & rest & Hw). rewrite walk_zero in Hw. congruence. }
  induction d as [|d IH]; intros v; (destruct (Z.eq_dec v 0) as [->|Hv];
    [rewrite nodes_0, elem_of_nil; split; [done|intros (Hx & rest & _ & Hw); apply Hz; eauto]|]).
  - cbn [nodes]. rewrite (proj2 (Z.eqb_neq v 0)), list_elem_of_singleton by done. split.
    + intros ->. split; [done|]. exists []. split; [apply valid_rest_nil|done].
    + intros (Hx & [|k rest] & [Hl _] & Hw); [cbn in Hw; congruence|cbn in Hl; lia].
  - rewrite nodes_S, elem_of_cons, list_elem_of_bind by done. split.
    + intros [->|(k & Hk & Hin)]; [split; [done|]; exists []; split; [apply valid_rest_nil|done]|].
      apply IH in Hk as (Hx & rest & V & Hw). apply elem_of_seqZ in Hin. split; [done|]. exists (k :: rest).
      split; [apply valid_rest_cons; split; [lia|done]|]. by apply walk_word.
    + intros (Hx & [|k rest] & V & Hw); [left; cbn in Hw; congruence|]. right. apply valid_rest_cons in V as [Hk V].
      exists k. rewrite elem_of_seqZ. split; [|lia]. apply IH. split; [done|]. exists rest. split; [done|]. by apply walk_word in Hw.
Qed.

(** A subtree whose paths lead to different blocks lists no block twice. *)
Lemma nodes_NoDup ic buf d : forall v,
  (forall r1 r2 x, valid_rest ic d r1 -> valid_rest ic d r2 -> walk buf v r1 = Some x -> walk buf v r2 = Some x ->
     x <> 0 -> r1 = r2) -> NoDup (nodes ic buf d v).
Proof.
  induction d as [|d IH]; intros v Inj; (destruct (Z.eq_dec v 0) as [->|Hv]; [rewrite nodes_0; constructor|]).
  { cbn [nodes]. rewrite (proj2 (Z.eqb_neq v 0)) by done. apply NoDup_singleton. }
  assert (Hup : forall k rest x, 0 <= k < ic -> valid_rest ic d rest -> x <> 0 -> walk buf (word buf v k) rest = Some x ->
    valid_rest ic (S d) (k :: rest) /\ walk buf v (k :: rest) = Some x).
  { intros k rest x Hk V Hx Hw. split; [by apply valid_rest_cons|]. by apply walk_word. }
  rewrite nodes_S by done. constructor.
  - intros Hin. apply list_elem_of_bind in Hin as (k & Hin & Hk). apply elem_of_seqZ in Hk.
    apply nodes_walk in Hin as (_ & rest & V & Hw). destruct (Hup k rest v) as [V' Hw']; [lia|done|done|done|].
    enough (E : [] = k :: rest) by done. by apply (Inj _ _ v); [apply valid_rest_nil| | | |].
  - apply NoDup_bind; [| |apply NoDup_seqZ].
    + intros k1 k2 x Hk1 Hk2 Hx1 Hx2. apply elem_of_seqZ in Hk1, Hk2.
      apply nodes_walk in Hx1 as (Hx & r1 & V1 & W1). apply nodes_walk in Hx2 as (_ & r2 & V2 & W2).
      destruct (Hup k1 r1 x) as [V1' W1']; [lia|done..|]. destruct (Hup k2 r2 x) as [V2' W2']; [lia|done..|].
      pose proof (Inj _ _ x V1' V2' W1' W2' Hx). congruence.
    + intros k Hk. apply elem_of_seqZ in Hk. apply IH. intros r1 r2 x V1 V2 W1 W2 Hx.
      destruct (Hup k r1 x) as [V1' W1']; [lia|done..|]. destruct (Hup k r2 x) as [V2' W2']; [lia|done..|].
      pose proof (Inj _ _ x V1' V2' W1' W2' Hx). congruence.
Qed.

(** ** Freeing a subtree *)

Section freeing.
Context `{KL : KernelLaws} {new : K (Z * option errno)} {free : Z -> K unit} `{BA : !BlockAllocator new free}.

(** The body of the loop of [free_branches]. *)
Definition free_one (depth : nat) (ino : Z) (q : ptr) : K unit :=
  match depth with
  | O => nr ← ptr_read ino q; if negb (nr =? 0) then _ ← ptr_write ino q 0; free nr else mret tt
  | S depth =>
      nr ← ptr_read ino q;
      if nr =? 0 then mret tt
      else
        _ ← ptr_write ino q 0;
        bh ← sb_bread nr;
        match bh with
        | None => mret tt
        | Some b =>
            size ← kget (fun s => 2 ^ s_blocksize_bits s);
            _ ← free_branches free depth ino (words_from size b 0);
            _ ← bforget b;
            _ ← free nr;
            mark_inode_dirty ino
        end
  end.

Lemma free_branches_one depth ino ptrs : free_branches free depth ino ptrs = kfor ptrs (free_one depth ino).
Proof. by destruct depth. Qed.

Lemma free_one_split depth ino q s :
  free_one depth ino q s =
    (nr ← ptr_read ino q; if nr =? 0 then mret tt else _ ← ptr_write ino q 0; free_one depth ino (PVar nr)) s.
Proof.
  destruct depth; cbn [free_one]; rewrite !K_bind_eq; destruct (ptr_read ino q s) as [[v s1]|]; try done.
  - destruct (v =? 0) eqn:Ev; [done|]. cbn [negb]. rewrite !K_bind_eq. destruct (ptr_write ino q 0 s1) as [[[] s2]|]; [|done].
    cbn [ptr_read]. rewrite K_bind_eq. cbn. by rewrite Ev.
  - destruct (v =? 0) eqn:Ev; [done|]. rewrite !K_bind_eq. destruct (ptr_write ino q 0 s1) as [[[] s2]|]; [|done].
    cbn [ptr_read]. rewrite (K_bind_eq (mret v)). cbn [mret K_ret]. rewrite Ev. done.
Qed.

(** The blocks [ns] have been freed; outside of the metadata, only the buffers [ts] changed. *)
Record freed (sbi : gas_sb_info) (ts ns : list Z) (s s' : kst) : Prop := {
  fr_inv : ba_inv sbi s';
  fr_used : forall x, in_zone sbi x -> ba_used sbi s' x = negb (bool_decide (x ∈ ns)) && ba_used sbi s x;
  fr_buf : forall b, s_data_block_start sbi <= b -> b ∉ ts -> k_buf s' !! b = k_buf s !! b;
  fr_ref : k_ref s' = k_ref s;
  fr_inodes : k_inodes s' = k_inodes s;
  fr_bits : s_blocksize_bits s' = s_blocksize_bits s }.

Lemma freed_refl sbi s ts : ba_inv sbi s -> freed sbi ts [] s s.
Proof. intros I. by split. Qed.

Lemma freed_trans sbi ts1 ns1 ts2 ns2 ts s s1 s2 :
  freed sbi ts1 ns1 s s1 -> freed sbi ts2 ns2 s1 s2 -> ts1 ⊆ ts -> ts2 ⊆ ts -> freed sbi ts (ns1 ++ ns2) s s2.
Proof.
  intros [A1 A2 A3 A4 A5 A6] [B1 B2 B3 B4 B5 B6] H1 H2. split; [exact B1| | |congruence..].
  - intros x Hx. rewrite B2, A2, andb_assoc, <- negb_orb by done. f_equal. f_equal.
    rewrite orb_comm, <- bool_decide_or. apply bool_decide_ext. by rewrite elem_of_app.
  - intros b Hb Hn. rewrite B3, A3; auto.
Qed.

(** A step that only touches data buffers, dirty marks and references. *)
Lemma freed_touch sbi ts s s' :
  ba_inv sbi s -> mounted s' sbi -> (forall b, b ∉ ts -> k_buf s' !! b = k_buf s !! b) -> Forall (in_zone sbi) ts ->
  k_ref s' = k_ref s -> k_inodes s' = k_inodes s -> s_blocksize_bits s' = s_blocksize_bits s -> freed sbi ts [] s s'.
Proof.
  intros I M Hb Hts Hr Hi Hbits. destruct (ba_stable sbi s s' I M) as [I' U].
  { intros b Hlt. apply Hb. intros Hin. destruct (Forall_in _ _ b Hts Hin). lia. }
  split; try done. intros b _. apply Hb.
Qed.

Lemma read_word sbi s ino v k : ba_inv sbi s -> in_zone sbi v -> 0 <= k < ic_of (s_blocksize_bits s) ->
  ptr_read ino (PBuf v k) s = Some (word (k_buf s) v k, s).
Proof.
  intros I Hz Hk. destruct (zone_pos s sbi v (ba_mounted _ _ I) Hz) as (_ & _ & m & Hm & Hl).
  unfold ptr_read, word. erewrite K_bind_some by (unfold bh_data; by rewrite Hm). rewrite Hm. cbn [mbind option_bind].
  by rewrite load_in_range by (apply in_range_spec; lia).
Qed.

(** Clearing a word of a data block. *)
Lemma clear_word sbi s ino v k : ba_inv sbi s -> in_zone sbi v -> 0 <= k < ic_of (s_blocksize_bits s) ->
  exists s1, ptr_write ino (PBuf v k) 0 s = Some (tt, s1) /\ freed sbi [v] [] s s1 /\
    forall j, j <> k -> word (k_buf s1) v j = word (k_buf s) v j.
Proof.
  intros I Hz Hk. pose proof (ba_mounted _ _ I) as M. destruct (zone_pos s sbi v M Hz) as (_ & _ & m & Hm & Hl).
  destruct (store_fits 4 m (4 * k) 0) as (m' & Hm' & Hl'); [lia|lia|]. exists (with_buf (<[v := m']> (k_buf s)) s).
  unfold ptr_write. erewrite K_bind_some by (unfold bh_data; by rewrite Hm).
  erewrite K_bind_some by (unfold klift; by rewrite Hm'). split; [done|]. split.
  - apply freed_touch; try done.
    + apply mounted_put_buf; [done|]. apply (block_words s sbi _ M). lia.
    + intros b Hb. cbn [k_buf with_buf]. rewrite lookup_insert_ne; [done|]. intros ->. apply Hb. by left.
    + by constructor.
  - intros j Hj. unfold word. cbn [k_buf with_buf]. rewrite lookup_insert_eq, Hm. cbn [mbind option_bind].
    by rewrite (load_store_other _ _ _ _ _ _ _ Hm') by lia.
Qed.

(** What can be freed: distinct data blocks that can be read. *)
Definition freeable (sbi : gas_sb_info) (ns : list Z) : Prop :=
  NoDup ns /\ Forall (fun x => in_zone sbi x /\ read_ok x = true) ns.

Lemma freeable_app sbi ns1 ns2 : freeable sbi (ns1 ++ ns2) <->
  freeable sbi ns1 /\ freeable sbi ns2 /\ forall x, x ∈ ns1 -> x ∉ ns2.
Proof. unfold freeable. rewrite list.NoDup_app, List.Forall_app. naive_solver. Qed.

Definition sub_freed (sbi : gas_sb_info) (ino : Z) (d : nat) : Prop := forall s v,
  ba_inv sbi s -> let ns := nodes (ic_of (s_blocksize_bits s)) (k_buf s) d v in freeable sbi ns ->
  kwp (free_one d ino (PVar v)) s (fun _ s' => freed sbi ns ns s s').

(** The loop of [free_branches] over words of a block [v] of pointers. *)
Lemma free_words sbi ino d v ks : sub_freed sbi ino d -> NoDup ks -> forall s,
  ba_inv sbi s -> in_zone sbi v -> Forall (fun k => 0 <= k < ic_of (s_blocksize_bits s)) ks ->
  let ns := ks ≫= (fun k => nodes (ic_of (s_blocksize_bits s)) (k_buf s) d (word (k_buf s) v k)) in
  freeable sbi ns -> v ∉ ns ->
  kwp (kfor (PBuf v <$> ks) (free_one d ino)) s (fun _ s' => freed sbi (v :: ns) ns s s').
Proof.
  intros Hsub. induction 1 as [|k ks Hk Hnd IH]; intros s I Hz Hks ns Hfr Hv; cbn [fmap list_fmap kfor].
  - apply kwp_ret. by apply freed_refl.
  - inversion_clear Hks as [|? ? Hk0 Hks']. apply kwp_bind. unfold ns in *. rewrite bind_cons in *.
    set (ic := ic_of (s_blocksize_bits s)) in *. set (nk := nodes ic (k_buf s) d (word (k_buf s) v k)) in *.
    apply freeable_app in Hfr as (Hf1 & Hf2 & Hdis). apply not_elem_of_app in Hv as [Hv1 Hv2].
    assert (Hstep : kwp (free_one d ino (PBuf v k)) s (fun _ s' => freed sbi (v :: nk) nk s s' /\
      forall j, j <> k -> word (k_buf s') v j = word (k_buf s) v j)).
    { unfold kwp. rewrite free_one_split. rewrite (K_bind_some _ _ _ _ _ (read_word sbi s ino v k I Hz Hk0)).
      destruct (Z.eqb_spec (word (k_buf s) v k) 0) as [H0|H0].
      - exists tt, s. split; [done|]. split; [|done]. unfold nk. rewrite H0, nodes_0. by apply freed_refl.
      - destruct (clear_word sbi s ino v k I Hz Hk0) as (s1 & E1 & F1 & W1). rewrite (K_bind_some _ _ _ _ _ E1).
        assert (Hn1 : nodes ic (k_buf s1) d (word (k_buf s) v k) = nk).
        { apply nodes_ext. intros b Hb. apply (fr_buf _ _ _ _ _ F1); [apply (Forall_in _ _ b (proj2 Hf1) Hb)|].
          intros ->%list_elem_of_singleton. done. }
        eapply kwp_mono; [apply (Hsub s1 (word (k_buf s) v k)); [apply F1|]|].
        { rewrite (fr_bits _ _ _ _ _ F1). fold ic. by rewrite Hn1. }
        intros [] s2. rewrite (fr_bits _ _ _ _ _ F1). fold ic. rewrite Hn1. intros F2. split.
        + apply (freed_trans sbi [v] [] nk nk _ s s1 s2 F1 F2); [intros x ->%list_elem_of_singleton; by left|intros x ?; by right].
        + intros j Hj. rewrite <- W1 by done. unfold word. rewrite (fr_buf _ _ _ _ _ F2); [done|apply Hz|done]. }
    eapply kwp_mono; [exact Hstep|]. intros [] s1 (F1 & W1). pose proof (fr_bits _ _ _ _ _ F1) as Hb1.
    assert (Hns : ks ≫= (fun j => nodes ic (k_buf s1) d (word (k_buf s1) v j)) =
      ks ≫= (fun j => nodes ic (k_buf s) d (word (k_buf s) v j))).
    { apply bind_ext_in. intros j Hj. rewrite W1 by (by intros ->). apply nodes_ext. intros b Hb.
      assert (Hin : b ∈ ks ≫= (fun j => nodes ic (k_buf s) d (word (k_buf s) v j))) by (apply list_elem_of_bind; by exists j).
      apply (fr_buf _ _ _ _ _ F1); [apply (Forall_in _ _ b (proj2 Hf2) Hin)|].
      intros [->|Hb']%elem_of_cons; [done|]. by apply (Hdis b). }
    eapply kwp_mono; [apply (IH s1); [apply F1|done|by rewrite Hb1| |]|]; rewrite Hb1; fold ic; rewrite Hns; [done|done|].
    intros [] s2 F2. eapply freed_trans; [exact F1|exact F2| |]; intros x; rewrite !elem_of_cons, elem_of_app; tauto.
Qed.

Lemma free_sub sbi ino d : sub_freed sbi ino d.
Proof.
  induction d as [|d IH]; intros s v I ns Hfr; (destruct (Z.eq_dec v 0) as [->|Hv];
    [unfold kwp; exists tt, s; split; [done|]; unfold ns; rewrite nodes_0; by apply freed_refl|]).
  - unfold ns in *. cbn [nodes] in *. rewrite (proj2 (Z.eqb_neq v 0)) in * by done. cbn [free_one ptr_read ptr_write].
    apply kwp_bind, kwp_ret. rewrite (proj2 (Z.eqb_neq v 0)) by done. cbn [negb]. apply kwp_bind, kwp_ret.
    destruct (Forall_in _ _ v (proj2 Hfr)) as [Hz _]; [by left|]. eapply kwp_mono; [by apply ba_free|].
    intros [] s' (I' & F & U). split; try apply F; [done| |].
    + intros x Hx. rewrite U by done. f_equal. f_equal. destruct (Z.eqb_spec x v) as [->|]; symmetry;
        [apply bool_decide_eq_true|apply bool_decide_eq_false]; by rewrite list_elem_of_singleton.
    + intros b Hb _. by apply (af_buf _ _ _ F).
  - unfold ns in *. rewrite nodes_S in * by done. set (ic := ic_of (s_blocksize_bits s)) in *.
    change (v :: ?l) with ([v] ++ l) in Hfr. apply freeable_app in Hfr as (Hf1 & Hf2 & Hdis).
    destruct (Forall_in _ _ v (proj2 Hf1)) as [Hz Hrd]; [by left|]. pose proof (ba_mounted _ _ I) as M.
    destruct (zone_pos s sbi v M Hz) as (_ & _ & m & Hm & _).
    cbn [free_one ptr_read ptr_write]. apply kwp_bind, kwp_ret. rewrite (proj2 (Z.eqb_neq v 0)) by done.
    apply kwp_bind, kwp_ret, kwp_bind, kwp_bread; [|intros [Hr|Hr]; congruence]. intros _ _.
    set (s1 := with_ref _ s). apply kwp_bind, kwp_get. rewrite free_branches_one. apply kwp_bind.
    assert (Hw : words_from (2 ^ s_blocksize_bits s1) v 0 = PBuf v <$> seqZ 0 ic).
    { unfold words_from. rewrite Z.sub_0_r. do 2 f_equal. unfold ic, ic_of. pose proof (g_bits _ _ (mt_geom _ _ M)).
      change (s_blocksize_bits s1) with (s_blocksize_bits s). replace (s_blocksize_bits s) with (s_blocksize_bits s - 2 + 2) at 1 by lia.
      rewrite Z.pow_add_r by lia. by rewrite Z.div_mul. }
    rewrite Hw. destruct (ba_ext sbi s s1 I) as [I1 U1]; [done..|].
    eapply kwp_mono; [apply (free_words sbi ino d v (seqZ 0 ic) IH (NoDup_seqZ _ _) s1 I1 Hz)|].
    + apply List.Forall_forall. intros k Hk%list_elem_of_In%elem_of_seqZ. change (ic_of (s_blocksize_bits s1)) with ic. lia.
    + exact Hf2.
    + apply Hdis. by left.
    + change (ic_of (s_blocksize_bits s1)) with ic. change (k_buf s1) with (k_buf s).
      set (nb := seqZ 0 ic ≫= _) in *. intros [] s2 F2. apply kwp_bind, kwp_mod.
      set (s3 := with_dirty _ _). destruct (ba_ext sbi s2 s3) as [I3 U3]; [apply F2|done..|].
      apply kwp_bind. eapply kwp_mono; [by apply ba_free|]. intros [] s4 (I4 & F4 & U4). apply kwp_mod.
      set (s5 := with_idirty _ s4). destruct (ba_ext sbi s4 s5 I4) as [I5 U5]; [done..|].
      split.
      * done.
      * intros x Hx. rewrite U5, U4, U3, (fr_used _ _ _ _ _ F2), U1, andb_assoc, <- negb_orb by done. f_equal. f_equal.
        destruct (Z.eqb_spec x v) as [->|]; [cbn; symmetry; apply bool_decide_eq_true; by left|].
        cbn [orb]. apply bool_decide_ext. rewrite elem_of_cons. naive_solver.
      * intros b Hb Hn. apply not_elem_of_cons in Hn as Hn'. destruct Hn' as [Hn1 Hn2].
        change (k_buf s5) with (k_buf s4). rewrite (af_buf _ _ _ F4) by done. change (k_buf s3) with (k_buf s2).
        by rewrite (fr_buf _ _ _ _ _ F2).
      * change (k_ref s5) with (k_ref s4). rewrite (af_ref _ _ _ F4). unfold s3. cbn [k_ref with_dirty with_ref].
        rewrite (fr_ref _ _ _ _ _ F2). unfold s1. cbn [k_ref with_ref]. generalize (k_ref s). clear. intros X. multiset_solver.
      * change (k_inodes s5) with (k_inodes s4). rewrite (af_inodes _ _ _ F4). apply F2.
      * change (s_blocksize_bits s5) with (s_blocksize_bits s4). rewrite (af_bits _ _ _ F4). apply F2.
Qed.
End freeing.
Arguments free_one {_} free depth%_nat ino q.

(** ** Cuts *)

(** Levels of pointers below the end of path [hp]. *)
Definition depth_below (hp : list Z) : nat :=
  match hp with [] => 0 | o :: rest => levels o - length rest end.

Lemma valid_path_app ic hp rest : hp <> [] -> valid_path ic hp ->
  valid_path ic (hp ++ rest) <-> valid_rest ic (depth_below hp) rest.
Proof.
  destruct hp as [|o r]; [done|]. intros _ (Ho & Hl & Hf). cbn [app valid_path depth_below]. unfold valid_rest.
  rewrite length_app, List.Forall_app. split; [intros (_ & ? & _ & ?)|intros (? & ?)].
  - split; [lia|done].
  - split; [done|]. split; [lia|done].
Qed.

(** The paths at or below one of [hps]. *)
Definition killed (hps : list (list Z)) (pre : list Z) : bool :=
  existsb (fun hp => bool_decide (hp `prefix_of` pre)) hps.

Lemma killed_true hps pre : killed hps pre = true <-> exists hp, hp ∈ hps /\ hp `prefix_of` pre.
Proof.
  unfold killed. rewrite existsb_exists. split; intros (hp & H1 & H2); exists hp.
  - apply bool_decide_eq_true in H2. by rewrite list_elem_of_In.
  - rewrite bool_decide_eq_true. by rewrite <- list_elem_of_In.
Qed.

Lemma killed_app h1 h2 pre : killed (h1 ++ h2) pre = killed h1 pre || killed h2 pre.
Proof. apply existsb_app. Qed.

Lemma killed_one hp pre : killed [hp] pre = bool_decide (hp `prefix_of` pre).
Proof. cbn. by rewrite orb_false_r. Qed.

Section cutting.
Context `{KL : KernelLaws} {new : K (Z * option errno)} {free : Z -> K unit} `{BA : !BlockAllocator new free}.

(** The pointers at [hps] are gone from the tree [l], and exactly the blocks at and below
    them have been freed. Of the other blocks only blocks of pointers of this tree have
    changed. *)
Record cut (sbi : gas_sb_info) (ino : Z) (s : kst) (l : list Z) (hps : list (list Z)) (s' : kst) (l' : list Z) : Prop := {
  ct_tree : tree_at sbi ino s' l';
  ct_node : forall pre, valid_path (ic_of (s_blocksize_bits s)) pre ->
    nodev s' l' pre = if killed hps pre then 0 else nodev s l pre;
  ct_used : forall x, in_zone sbi x -> ba_used sbi s' x = true <-> ba_used sbi s x = true /\
    ~ exists pre, valid_path (ic_of (s_blocksize_bits s)) pre /\ killed hps pre = true /\ nodev s l pre = x;
  ct_buf : forall b, in_zone sbi b ->
    (forall pre, valid_path (ic_of (s_blocksize_bits s)) pre -> nodev s l pre = b ->
       full_path (ic_of (s_blocksize_bits s)) pre /\ killed hps pre = false) -> k_buf s' !! b = k_buf s !! b;
  ct_ref : k_ref s' = k_ref s;
  ct_bits : s_blocksize_bits s' = s_blocksize_bits s;
  ct_inodes : exists i, k_inodes s !! ino = Some i /\ k_inodes s' = <[ino := set_blkaddr i l']> (k_inodes s) }.

Lemma cut_refl sbi ino s l : tree_at sbi ino s l -> cut sbi ino s l [] s l.
Proof.
  intros T. split; try done.
  - intros x Hx. split; [intros Hu; split; [done|]; by intros (pre & _ & ? & _)|by intros [? _]].
  - destruct T as (_ & _ & i & Hi & <-). exists i. split; [done|]. rewrite set_blkaddr_same. by rewrite insert_id.
Qed.

Lemma zone_nonzero sbi ino s l x : tree_at sbi ino s l -> in_zone sbi x -> x <> 0.
Proof. intros [I _] Hx. destruct (zone_small sbi s x I Hx). lia. Qed.

Lemma cut_trans sbi ino s l h1 s1 l1 h2 s2 l2 :
  tree_at sbi ino s l -> cut sbi ino s l h1 s1 l1 -> cut sbi ino s1 l1 h2 s2 l2 -> cut sbi ino s l (h1 ++ h2) s2 l2.
Proof.
  intros T [A1 A2 A3 A4 A5 A6 A7] [B1 B2 B3 B4 B5 B6 B7]. rewrite A6 in *. split; try congruence; try done.
  - intros pre V. rewrite B2, A2, killed_app by done. by destruct (killed h1 pre), (killed h2 pre).
  - intros x Hx. rewrite B3, A3 by done. pose proof (zone_nonzero _ _ _ _ _ T Hx) as Hx0. split.
    + intros [[Hu N1] N2]. split; [done|]. intros (pre & V & Hk & Hn). rewrite killed_app in Hk.
      destruct (killed h1 pre) eqn:E1; [apply N1; eauto|]. apply N2. exists pre. rewrite A2, E1 by done. eauto.
    + intros [Hu N]. split; [split; [done|]|].
      * intros (pre & V & Hk & Hn). apply N. exists pre. rewrite killed_app, Hk. eauto.
      * intros (pre & V & Hk & Hn). rewrite A2 in Hn by done. destruct (killed h1 pre) eqn:E1; [congruence|].
        apply N. exists pre. rewrite killed_app, Hk, orb_true_r. eauto.
  - intros b Hb Hp. rewrite B4, A4; [done|done| |done|].
    + intros pre V Hn. destruct (Hp pre V Hn) as [? Hk]. split; [done|]. rewrite killed_app in Hk. by apply orb_false_iff in Hk as [? _].
    + intros pre V Hn. rewrite A2 in Hn by done. pose proof (zone_nonzero _ _ _ _ _ T Hb).
      destruct (killed h1 pre); [congruence|]. destruct (Hp pre V Hn) as [? Hk]. split; [done|]. rewrite killed_app in Hk.
      by apply orb_false_iff in Hk as [_ ?].
  - destruct A7 as (i & Hi & E1), B7 as (j & Hj & E2). exists i. split; [done|]. rewrite E1, lookup_insert_eq in Hj. simplify_eq.
    rewrite E2, E1, insert_insert_eq. done.
Qed.

(** Unlinking pointer [hp] (that held [v]) and freeing what was below it. *)
Section detach.
Context (sbi : gas_sb_info) (ino : Z) (s s1 : kst) (l l1 hp : list Z) (v : Z).
Hypothesis T : tree_at sbi ino s l.
Hypothesis Hhp : hp <> [].
Hypothesis V : valid_path (ic_of (s_blocksize_bits s)) hp.
Hypothesis Hv : node (k_buf s) l hp = Some v.
Hypothesis W : wrote sbi ino s l hp 0 s1 l1.
Let ic := ic_of (s_blocksize_bits s).
Let ns := nodes ic (k_buf s) (depth_below hp) v.

Lemma detach_nodes x : x ∈ ns <-> x <> 0 /\ exists pre, valid_path ic pre /\ hp `prefix_of` pre /\ node (k_buf s) l pre = Some x.
Proof using All.
  unfold ns. rewrite nodes_walk. split; intros (Hx & HH); (split; [done|]).
  - destruct HH as (rest & Vr & Hw). exists (hp ++ rest). split; [by apply valid_path_app|]. split; [by exists rest|].
    by rewrite node_app, Hv.
  - destruct HH as (pre & Vp & [rest ->] & Hn). exists rest. split; [by apply valid_path_app in Vp|].
    by rewrite node_app, Hv in Hn.
Qed.

Lemma detach_inj x pre : x ∈ ns -> valid_path ic pre -> node (k_buf s) l pre = Some x -> hp `prefix_of` pre.
Proof using All.
  intros (Hx & p2 & V2 & Hp & N2)%detach_nodes Vp Hn. destruct T as (_ & Tk & _).
  by rewrite (to_tree _ _ _ Tk pre p2 x).
Qed.

Lemma detach_holder x : x ∈ ns -> in_zone sbi x /\ ba_used sbi s x = true /\ x <> nodev s l (removelast hp).
Proof using All.
  intros Hx. pose proof Hx as Hx'. apply detach_nodes in Hx' as (Hx0 & p2 & V2 & Hp & N2). destruct T as (I & Tk & _).
  destruct (to_zone _ _ _ Tk _ _ V2 N2 Hx0) as [Hz Hu]. split; [done|]. split; [done|]. intros E.
  destruct (exists_last Hhp) as (r & o & Ehp). destruct (decide (r = [])) as [->|Hr].
  { rewrite Ehp in E. done. }
  assert (Vr : valid_path ic r) by (rewrite Ehp in V; by apply valid_snoc in V as [? _]).
  destruct (node_total s sbi l r (ba_mounted _ _ I) Tk Vr) as [w Hw]. rewrite Ehp, removelast_last, (nodev_eq _ _ _ _ Hw) in E. subst w.
  pose proof (detach_inj x r Hx Vr Hw) as Hpre. apply prefix_length in Hpre. rewrite Ehp, length_app in Hpre. cbn in Hpre. lia.
Qed.

Lemma detach_nodes_after : nodes ic (k_buf s1) (depth_below hp) v = ns.
Proof using All.
  apply nodes_ext. intros b Hb. apply (wr_buf _ _ _ _ _ _ _ _ W). right. by apply detach_holder.
Qed.

Lemma detach_inv : ba_inv sbi s1 /\ forall x, in_zone sbi x -> ba_used sbi s1 x = ba_used sbi s x.
Proof using All.
  apply ba_stable; [apply T|apply W|]. intros b Hb. apply (wr_buf _ _ _ _ _ _ _ _ W). left. intros [? _]. lia.
Qed.

Lemma detach_freeable : (forall x, in_zone sbi x -> read_ok x = true) -> freeable sbi ns.
Proof using All.
  intros Hrd. split.
  - apply nodes_NoDup. intros r1 r2 x V1 V2 W1 W2 Hx. destruct T as (_ & Tk & _).
    assert (E : hp ++ r1 = hp ++ r2); [|by apply app_inv_head in E].
    apply (to_tree _ _ _ Tk _ _ x); try (by apply valid_path_app); try done; by rewrite node_app, Hv.
  - apply List.Forall_forall. intros x Hx%list_elem_of_In. destruct (detach_holder x Hx) as [Hz _]. auto.
Qed.

(** The tree after the pointer was cleared and the blocks below were freed. *)
Lemma detach_cut s2 : freed sbi ns ns s1 s2 -> cut sbi ino s l [hp] s2 l1.
Proof using All.
  intros F. destruct detach_inv as [I1 U1]. destruct T as (I & Tk & i0 & Hi0 & Hl0).
  assert (Hb : s_blocksize_bits s2 = s_blocksize_bits s) by (rewrite (fr_bits _ _ _ _ _ F); apply W).
  assert (N1 : forall pre, valid_path ic pre -> node (k_buf s1) l1 pre = if decide (hp `prefix_of` pre) then Some 0 else node (k_buf s) l pre).
  { intros pre Vp. case_decide as Hp; [|by apply (wr_other _ _ _ _ _ _ _ _ W)].
    destruct Hp as [rest ->]. rewrite (wr_below _ _ _ _ _ _ _ _ W). apply walk_zero. }
  assert (N2 : forall pre, valid_path ic pre -> node (k_buf s2) l1 pre = node (k_buf s1) l1 pre).
  { apply node_same. intros pre x Vp. rewrite N1 by done. case_decide as Hp; [congruence|]. intros Hn Hx.
    destruct (to_zone _ _ _ Tk _ _ Vp Hn Hx) as [Hz _]. apply (fr_buf _ _ _ _ _ F); [apply Hz|].
    intros Hin. apply Hp. by eapply detach_inj. }
  assert (Hkeep : forall pre x, valid_path ic pre -> node (k_buf s2) l1 pre = Some x -> x <> 0 ->
    node (k_buf s) l pre = Some x /\ x ∉ ns).
  { intros pre x Vp. rewrite N2, N1 by done. case_decide as Hp; [congruence|]. intros Hn Hx. split; [done|].
    intros Hin. apply Hp. by eapply detach_inj. }
  split.
  - split; [apply F|]. split.
    + split; rewrite ?Hb.
      * rewrite (wr_len _ _ _ _ _ _ _ _ W). apply Tk.
      * intros pre x Vp Hn Hx. destruct (Hkeep pre x Vp Hn Hx) as [Hn' Hin]. destruct (to_zone _ _ _ Tk _ _ Vp Hn' Hx) as [Hz Hu].
        split; [done|]. by rewrite (fr_used _ _ _ _ _ F), bool_decide_eq_false_2, U1.
      * intros p1 p2 x V1 V2 E1 E2 Hx. destruct (Hkeep p1 x V1 E1 Hx), (Hkeep p2 x V2 E2 Hx). by apply (to_tree _ _ _ Tk p1 p2 x).
    + destruct (wr_inodes _ _ _ _ _ _ _ _ W) as (i & Hi & _ & Ei). rewrite (fr_inodes _ _ _ _ _ F), Ei, lookup_insert_eq. by eexists.
  - intros pre Vp. unfold nodev. rewrite N2, N1, killed_one by done. case_decide as Hp.
    + by rewrite bool_decide_eq_true_2.
    + by rewrite bool_decide_eq_false_2.
  - intros x Hx. rewrite (fr_used _ _ _ _ _ F), U1, andb_true_iff, negb_true_iff, bool_decide_eq_false by done.
    rewrite detach_nodes. pose proof (zone_nonzero sbi ino s l x T Hx) as Hx0. split.
    + intros [Hn Hu]. split; [done|]. intros (pre & Vp & Hk & <-). rewrite killed_one, bool_decide_eq_true in Hk.
      apply Hn. split; [done|]. exists pre. split; [done|]. split; [done|].
      destruct (node_total s sbi l pre (ba_mounted _ _ I) Tk Vp) as [w Hw]. by rewrite (nodev_eq _ _ _ _ Hw).
    + intros [Hu Hn]. split; [|done]. intros (_ & pre & Vp & Hp & Hw). apply Hn. exists pre. split; [done|].
      rewrite killed_one, bool_decide_eq_true. split; [done|]. by apply nodev_eq.
  - intros b Hz Hp. rewrite (fr_buf _ _ _ _ _ F); [|apply Hz|].
    + apply (wr_buf _ _ _ _ _ _ _ _ W). right. intros E. destruct (exists_last Hhp) as (r & o & Ehp).
      destruct (decide (r = [])) as [->|Hr]; [rewrite Ehp in E; cbn in E; by apply (zone_nonzero sbi ino s l b T Hz)|].
      rewrite Ehp, removelast_last in E. assert (Vr : valid_path ic r) by (rewrite Ehp in V; by apply valid_snoc in V as [? _]).
      destruct (Hp r Vr (eq_sym E)) as [Hfull _]. rewrite Ehp in V. destruct r as [|a r]; [done|]. destruct V as (_ & Hlen & _).
      destruct Hfull as (_ & Hlen2 & _). rewrite length_app in Hlen. cbn in Hlen. lia.
    + intros (_ & pre & Vp & Hpre & Hn)%detach_nodes. destruct (Hp pre Vp) as [_ Hk]; [by apply nodev_eq|].
      rewrite killed_one, bool_decide_eq_false in Hk. done.
  - rewrite (fr_ref _ _ _ _ _ F). apply W.
  - done.
  - destruct (wr_inodes _ _ _ _ _ _ _ _ W) as (i & Hi & _ & Ei). exists i. split; [done|]. by rewrite (fr_inodes _ _ _ _ _ F).
Qed.
End detach.

(** Nothing below the paths: nothing to cut. *)
Lemma cut_hole sbi ino s l hps : tree_at sbi ino s l ->
  (forall pre, valid_path (ic_of (s_blocksize_bits s)) pre -> killed hps pre = true -> nodev s l pre = 0) ->
  cut sbi ino s l hps s l.
Proof.
  intros T Hz. destruct (cut_refl sbi ino s l T) as [C1 C2 C3 C4 C5 C6 C7]. split; try done.
  - intros pre V. destruct (killed hps pre) eqn:E; [by apply Hz|done].
  - intros x Hx. split; [|by intros [? _]]. intros Hu. split; [done|]. intros (pre & V & Hk & Hn).
    rewrite Hz in Hn by done. by apply (zone_nonzero sbi ino s l x T Hx).
Qed.

Lemma nodev_node sbi ino s l pre : tree_at sbi ino s l -> valid_path (ic_of (s_blocksize_bits s)) pre ->
  node (k_buf s) l pre = Some (nodev s l pre).
Proof.
  intros (I & T & _) V. destruct (node_total s sbi l pre (ba_mounted _ _ I) T V) as [w Hw]. by rewrite (nodev_eq _ _ _ _ Hw).
Qed.

Lemma below_hole sbi ino s l hp pre : tree_at sbi ino s l -> hp <> [] -> valid_path (ic_of (s_blocksize_bits s)) hp ->
  nodev s l hp = 0 -> hp `prefix_of` pre -> nodev s l pre = 0.
Proof.
  intros T Hhp V H0 [rest ->]. pose proof (nodev_node sbi ino s l hp T V) as Hn. rewrite H0 in Hn.
  unfold nodev. rewrite node_app, Hn by done. cbn [mbind option_bind]. by rewrite walk_zero.
Qed.

Section readable.
Context (sbi : gas_sb_info).
Hypothesis Hread : forall x, in_zone sbi x -> read_ok x = true.

(** Freeing the subtree at [hp] after its pointer was cleared. *)
Lemma free_top_cut ino s l hp s1 l1 :
  tree_at sbi ino s l -> hp <> [] -> valid_path (ic_of (s_blocksize_bits s)) hp ->
  wrote sbi ino s l hp 0 s1 l1 ->
  kwp (free_one free (depth_below hp) ino (PVar (nodev s l hp))) s1 (fun _ s2 => cut sbi ino s l [hp] s2 l1).
Proof.
  intros T Hhp V W. pose proof (nodev_node sbi ino s l hp T V) as Hv.
  destruct (detach_inv sbi ino s s1 l l1 hp _ T Hhp V Hv W) as [I1 _].
  pose proof (detach_nodes_after sbi ino s s1 l l1 hp _ T Hhp V Hv W) as En.
  eapply kwp_mono; [apply (free_sub sbi ino (depth_below hp) s1 (nodev s l hp) I1)|].
  - rewrite (wr_bits _ _ _ _ _ _ _ _ W), En.
    by apply (detach_freeable sbi ino s s1 l l1 hp _ T Hhp V Hv W), Hread.
  - intros [] s2. rewrite (wr_bits _ _ _ _ _ _ _ _ W), En. by apply (detach_cut sbi ino s s1 l l1 hp _ T Hhp V Hv W).
Qed.

Lemma free_one_cut ino s l hp q :
  tree_at sbi ino s l -> hp <> [] -> valid_path (ic_of (s_blocksize_bits s)) hp ->
  ptr_read ino q s = Some (nodev s l hp, s) ->
  kwp (ptr_write ino q 0) s (fun _ s1 => exists l1, wrote sbi ino s l hp 0 s1 l1) ->
  kwp (free_one free (depth_below hp) ino q) s (fun _ s2 => exists l2, cut sbi ino s l [hp] s2 l2).
Proof.
  intros T Hhp V Hr Hw. unfold kwp. rewrite free_one_split. rewrite (K_bind_some _ _ _ _ _ Hr).
  destruct (Z.eqb_spec (nodev s l hp) 0) as [H0|H0].
  - exists tt, s. split; [done|]. exists l. apply cut_hole; [done|]. intros pre Vp. rewrite killed_one, bool_decide_eq_true.
    by apply (below_hole sbi ino s l hp).
  - apply kwp_bind. eapply kwp_mono; [exact Hw|]. intros [] s1 (l1 & W). eapply kwp_mono; [by apply (free_top_cut ino s l hp s1 l1)|].
    intros [] s2 C. by exists l1.
Qed.

(** One word of the inode. *)
Lemma cut_root ino s l o : tree_at sbi ino s l -> 0 <= o <= 8 ->
  kwp (free_one free (levels o) ino (PInode o)) s (fun _ s2 => exists l2, cut sbi ino s l [[o]] s2 l2).
Proof.
  intros T Ho. assert (V : valid_path (ic_of (s_blocksize_bits s)) [o]) by (split; [done|]; split; [cbn; lia|constructor]).
  replace (levels o) with (depth_below [o]) by (cbn; lia).
  apply free_one_cut; try done; [|by apply write_root].
  by apply (entry_read sbi ino s l [o] 0); [|done|cbn; lia|].
Qed.

Lemma cut_roots ino ks : Forall (fun o => 0 <= o <= 5) ks -> forall s l, tree_at sbi ino s l ->
  kwp (kfor (PInode <$> ks) (free_one free 0 ino)) s (fun _ s2 => exists l2, cut sbi ino s l ((fun o => [o]) <$> ks) s2 l2).
Proof.
  induction 1 as [|o ks Ho Hks IH]; intros s l T; cbn [fmap list_fmap kfor].
  - apply kwp_ret. exists l. by apply cut_refl.
  - apply kwp_bind. replace 0%nat with (levels o) by (unfold levels; lia).
    eapply kwp_mono; [apply (cut_root ino s l o T); lia|]. intros [] s1 (l1 & C1).
    replace (levels o) with 0%nat by (unfold levels; lia).
    eapply kwp_mono; [apply (IH s1 l1), C1|]. intros [] s2 (l2 & C2). exists l2. by apply (cut_trans sbi ino s l [[o]] s1 l1 _ s2 l2).
Qed.

(** Words of a block of pointers of the tree. *)
Lemma cut_word ino s l pre k : tree_at sbi ino s l -> pre <> [] -> nodev s l pre <> 0 ->
  valid_path (ic_of (s_blocksize_bits s)) (pre ++ [k]) ->
  kwp (free_one free (depth_below pre - 1) ino (PBuf (nodev s l pre) k)) s (fun _ s2 => exists l2, cut sbi ino s l [pre ++ [k]] s2 l2).
Proof.
  intros T Hpre Hw V. replace (depth_below pre - 1)%nat with (depth_below (pre ++ [k])).
  2: { destruct pre as [|o r]; [done|]. cbn [app depth_below]. rewrite length_app. cbn. lia. }
  destruct (valid_snoc _ pre k Hpre V) as [Vp Hk]. pose proof (nodev_node sbi ino s l pre T Vp) as Hn.
  apply free_one_cut; try done; [by destruct pre| |].
  - pose proof (entry_read sbi ino s l (pre ++ [k]) (length pre) T V) as Hrd. rewrite length_app in Hrd.
    assert (Ht : take (length pre) (pre ++ [k]) = pre) by apply take_app_length.
    assert (Ht' : take (S (length pre)) (pre ++ [k]) = pre ++ [k]) by (apply take_ge; rewrite length_app; cbn; lia).
    rewrite Ht, Ht' in Hrd. rewrite <- Hrd; [|cbn; lia|done]. f_equal.
    assert (Hnth : nth (length pre) (pre ++ [k]) 0 = k) by (by rewrite app_nth2, Nat.sub_diag by lia).
    destruct (length pre) as [|j] eqn:El; [by destruct pre|]. cbn [entry p]. by rewrite Ht, Hnth.
  - by eapply write_inner.
Qed.

Lemma cut_words ino pre w ks : pre <> [] -> w <> 0 -> forall s l, tree_at sbi ino s l -> nodev s l pre = w ->
  Forall (fun k => valid_path (ic_of (s_blocksize_bits s)) (pre ++ [k])) ks ->
  kwp (kfor (PBuf w <$> ks) (free_one free (depth_below pre - 1) ino)) s
    (fun _ s2 => exists l2, cut sbi ino s l ((fun k => pre ++ [k]) <$> ks) s2 l2).
Proof.
  intros Hpre Hw0. induction ks as [|k ks IH]; intros s l T Hw Hks; cbn [fmap list_fmap kfor].
  - apply kwp_ret. exists l. by apply cut_refl.
  - inversion_clear Hks as [|? ? Vk Hks']. apply kwp_bind. rewrite <- Hw.
    eapply kwp_mono; [apply (cut_word ino s l pre k T Hpre); congruence|]. intros [] s1 (l1 & C1). rewrite Hw.
    eapply kwp_mono; [apply (IH s1 l1); [apply C1| |by rewrite (ct_bits _ _ _ _ _ _ _ C1)]|].
    + rewrite (ct_node _ _ _ _ _ _ _ C1), killed_one by (by apply valid_snoc in Vk as [? _]).
      rewrite bool_decide_eq_false_2; [done|]. intros Hp%prefix_length. rewrite length_app in Hp. cbn in Hp. lia.
    + intros [] s2 (l2 & C2). exists l2. by apply (cut_trans sbi ino s l [pre ++ [k]] s1 l1 _ s2 l2).
Qed.
End readable.
End cutting.

(** ** States that differ in references and dirty marks only *)

Record same_tree (s s' : kst) : Prop := {
  st_info : s_fs_info s' = s_fs_info s;
  st_bits : s_blocksize_bits s' = s_blocksize_bits s;
  st_buf : k_buf s' = k_buf s;
  st_inodes : k_inodes s' = k_inodes s }.

Lemma same_tree_ref s r : same_tree s (with_ref r s).
Proof. done. Qed.

Section same.
Context `{KL : KernelLaws} {new : K (Z * option errno)} {free : Z -> K unit} `{BA : !BlockAllocator new free}.

Lemma tree_at_same sbi ino s s' l : same_tree s s' -> tree_at sbi ino s l -> tree_at sbi ino s' l.
Proof.
  intros [S1 S2 S3 S4] T. apply (tree_at_ext sbi ino s); try done. rewrite S4. apply T.
Qed.

Lemma nodev_same_tree s s' l pre : same_tree s s' -> nodev s' l pre = nodev s l pre.
Proof. intros [_ _ E _]. unfold nodev. by rewrite E. Qed.

Lemma wrote_same sbi ino s l hp v s1 l1 s' s1' :
  wrote sbi ino s l hp v s1 l1 -> same_tree s s' -> same_tree s1 s1' -> k_ref s1' = k_ref s' ->
  wrote sbi ino s' l hp v s1' l1.
Proof.
  intros [W1 W2 W3 W4 W5 W6 W7 W8] S T Hr. split.
  - destruct W1 as (i & Hi & Hl & E). exists i. rewrite (st_inodes _ _ S), (st_inodes _ _ T). done.
  - done.
  - done.
  - rewrite (st_bits _ _ T), (st_bits _ _ S). done.
  - apply (mounted_ext s1); [done|apply T|apply T|apply T].
  - intros b Hb. rewrite (st_buf _ _ T), (st_buf _ _ S). apply W6. by rewrite (nodev_same_tree _ _ _ _ S) in Hb.
  - rewrite (st_buf _ _ T). done.
  - rewrite (st_buf _ _ T), (st_buf _ _ S), (st_bits _ _ S). done.
Qed.

Lemma cut_same sbi ino s l hps s1 l1 s' s1' : tree_at sbi ino s l ->
  cut sbi ino s l hps s1 l1 -> same_tree s s' -> same_tree s1 s1' -> k_ref s1' = k_ref s' ->
  cut sbi ino s' l hps s1' l1.
Proof.
  intros T0 C S T Hr. pose proof (ct_tree _ _ _ _ _ _ _ C) as T1.
  destruct (ba_ext sbi s s' (proj1 T0)) as [_ U0]; [apply S..|].
  destruct (ba_ext sbi s1 s1' (proj1 T1)) as [_ U1]; [apply T..|]. destruct C as [C1 C2 C3 C4 C5 C6 C7].
  split; rewrite ?(st_bits _ _ S).
  - by apply (tree_at_same sbi ino s1).
  - intros pre V. rewrite (nodev_same_tree _ _ _ _ S), (nodev_same_tree _ _ _ _ T). by apply C2.
  - intros x Hx. rewrite U0, U1, C3 by done. split; (intros [Hu N]; split; [done|]); intros (pre & V & Hk & Hn); apply N;
      exists pre; (split; [done|]); (split; [done|]); by rewrite (nodev_same_tree _ _ _ _ S) in *.
  - intros b Hb Hp. rewrite (st_buf _ _ T), (st_buf _ _ S). apply C4; [done|]. intros pre V Hn. apply Hp; [done|].
    by rewrite (nodev_same_tree _ _ _ _ S).
  - done.
  - rewrite (st_bits _ _ T). done.
  - destruct C7 as (i & Hi & E). exists i. rewrite (st_inodes _ _ S), (st_inodes _ _ T). done.
Qed.
End same.
