(* ===== verification/Truncate.v ===== *)
(** * Truncation of an inode

    [gas_truncate_inode] composes the cuts of Trunc.v: [find_shared] detaches the subtree
    at the new end of the file, [clear_ends] frees what is to the right of the branch
    that is kept, [do_indirects] the subtrees of the inode behind it. The order of the
    blocks of a file is the lexicographic order of their paths. *)

From S2P Require Import Prelude Mem Layout Kernel Alloc Itree Tree TreeEdit Trunc.

(** ** Blocks and paths in order *)

Fixpoint lexlt (l1 l2 : list Z) : bool :=
  match l1, l2 with
  | a :: l1, b :: l2 => (a <? b) || ((a =? b) && lexlt l1 l2)
  | _, _ => false
  end.

Lemma path_block_lex ic l1 l2 : 0 < ic -> full_path ic l1 -> full_path ic l2 ->
  lexlt l1 l2 = (path_block ic l1 <? path_block ic l2).
Proof.
  intros Hic. destruct l1 as [|o1 r1], l2 as [|o2 r2]; try done. intros (H1 & E1 & F1) (H2 & E2 & F2).
  unfold levels in *.
  destruct r1 as [|a1 [|b1 [|c1 [|]]]]; cbn in E1; try lia;
  destruct r2 as [|a2 [|b2 [|c2 [|]]]]; cbn in E2; try lia;
  rewrite ?List.Forall_cons_iff in F1; rewrite ?List.Forall_cons_iff in F2; cbn [lexlt path_block]; unfold DIRCOUNT;
  repeat match goal with |- context [?a <? ?b] => destruct (Z.ltb_spec a b) | |- context [?a =? ?b] => destruct (Z.eqb_spec a b) end;
  try done; exfalso; nia.
Qed.

Lemma lexlt_split l1 l2 : lexlt l1 l2 = true -> exists m a b r1 r2,
  l1 = take m l1 ++ a :: r1 /\ l2 = take m l1 ++ b :: r2 /\ a < b /\ (m < length l1)%nat /\ (m < length l2)%nat.
Proof.
  revert l2. induction l1 as [|a l1 IH]; intros [|b l2] E; try done. cbn in E. apply orb_true_iff in E as [E|E]; bools.
  - exists 0%nat, a, b, l1, l2. cbn. repeat split; done || lia.
  - subst b. destruct (IH l2) as (m & x & y & r1 & r2 & E1 & E2 & Hlt & L1 & L2); [done|].
    exists (S m), x, y, r1, r2. cbn [take app]. repeat split; try (f_equal; done); cbn; done || lia.
Qed.

Lemma lexlt_trichotomy ic l1 l2 : full_path ic l1 -> full_path ic l2 ->
  l1 = l2 \/ lexlt l1 l2 = true \/ lexlt l2 l1 = true.
Proof.
  assert (HH : forall l1 l2, length l1 = length l2 -> l1 = l2 \/ lexlt l1 l2 = true \/ lexlt l2 l1 = true).
  { clear. induction l1 as [|a l1 IH]; intros [|b l2] Hl; cbn in Hl; try lia; [by left|]. cbn.
    destruct (Z.lt_trichotomy a b) as [H|[->|H]].
    - right. left. rewrite (proj2 (Z.ltb_lt a b)) by lia. done.
    - rewrite Z.ltb_irrefl, Z.eqb_refl. cbn. destruct (IH l2 ltac:(lia)) as [->|[?|?]]; auto.
    - right. right. rewrite (proj2 (Z.ltb_lt b a)) by lia. done. }
  destruct l1 as [|o1 r1], l2 as [|o2 r2]; try done. intros (_ & E1 & _) (_ & E2 & _).
  destruct (Z.lt_trichotomy o1 o2) as [H|[->|H]].
  - right. left. cbn. rewrite (proj2 (Z.ltb_lt o1 o2)) by lia. done.
  - apply HH. cbn. congruence.
  - right. right. cbn. rewrite (proj2 (Z.ltb_lt o2 o1)) by lia. done.
Qed.

(** ** The searches of [find_shared] *)

Lemma all_zeroes_run m ic todo : forall i, blen m = 4 * ic -> 0 <= i -> i + Z.of_nat todo <= ic ->
  exists z : bool, all_zeroes todo m i = Some z /\
    (z = true <-> forall a, i <= a < i + Z.of_nat todo -> load 4 m (4 * a) = Some 0).
Proof.
  induction todo as [|todo IH]; intros i Hl Hi Ht; cbn [all_zeroes].
  - exists true. split; [done|]. split; [intros _ a Ha; lia|done].
  - destruct (load 4 m (4 * i)) as [w|] eqn:Ew; [|by rewrite load_in_range in Ew by (apply in_range_spec; lia)].
    cbn [mbind option_bind]. destruct (Z.eqb_spec w 0) as [->|Hw]; cbn [negb].
    + destruct (IH (i + 1) Hl ltac:(lia) ltac:(lia)) as (z & -> & Hz). exists z. split; [done|]. rewrite Hz. split.
      * intros HH a Ha. destruct (Z.eq_dec a i) as [->|]; [done|]. apply HH. lia.
      * intros HH a Ha. apply HH. lia.
    + exists false. split; [done|]. split; [done|]. intros HH. specialize (HH i ltac:(lia)). congruence.
Qed.

Lemma shared_depth_run P k : (0 < k <= length P)%nat ->
  (0 < shared_depth P k <= k)%nat /\ forall j, (shared_depth P k <= j < k)%nat -> nth j P 0 = 0.
Proof.
  induction k as [|[|k] IH]; intros Hk; [lia|cbn; split; [lia|intros; lia]|].
  change (shared_depth P (S (S k))) with (if nth (S k) P 0 =? 0 then shared_depth P (S k) else S (S k)).
  destruct (Z.eqb_spec (nth (S k) P 0) 0) as [H0|H0]; [|split; [lia|intros; lia]].
  destruct IH as [H1 H2]; [lia|]. split; [lia|]. intros j Hj. destruct (decide (j = S k)) as [->|]; [done|]. apply H2. lia.
Qed.

Section shared.
Context `{KL : KernelLaws} {new : K (Z * option errno)} {free : Z -> K unit} `{BA : !BlockAllocator new free}.

Definition entries_from (s : kst) (l offs : list Z) (i m : nat) : list Indirect := entry s l offs <$> seq i (m - i).

Lemma find_top_run sbi ino s l offs m st :
  tree_at sbi ino s l -> valid_path (ic_of (s_blocksize_bits s)) offs -> (0 < m <= length offs)%nat ->
  (forall j, (0 < j < m)%nat -> nodev s l (take j offs) <> 0) -> k_buf st = k_buf s ->
  exists i, (0 < i <= m)%nat /\
    find_top (rev (entries s l offs m)) st = Some ((rev (entries_from s l offs i m), rev (entries s l offs i)), st) /\
    forall j, (i <= j < m)%nat -> forall a, 0 <= a < nth j offs 0 -> word (k_buf s) (nodev s l (take j offs)) a = 0.
Proof.
  intros T V Hm Hnz Hst. induction m as [|m IH]; [lia|]. rewrite entries_S, rev_app_distr. cbn [rev app].
  destruct (decide (m = 0%nat)) as [->|Hm0].
  { exists 1%nat. split; [lia|]. split; [done|]. intros; lia. }
  destruct IH as (i & Hi & E & Hz); [lia|intros; apply Hnz; lia|].
  assert (Hne : exists e r, rev (entries s l offs m) = e :: r).
  { destruct m as [|m']; [lia|]. rewrite entries_S, rev_app_distr. by eexists _, _. }
  destruct Hne as (e & r & Er). rewrite Er in *.
  change (find_top (entry s l offs m :: e :: r)) with
    (z ← (match bh (entry s l offs m), p (entry s l offs m) with
           | Some b, PBuf _ o => mm ← bh_data b; klift (all_zeroes (Z.to_nat o) mm 0)
           | _, _ => klift None
           end);
      if z : bool then '(passed, kept) ← find_top (e :: r); mret (entry s l offs m :: passed, kept)
      else mret ([], entry s l offs m :: e :: r)).
  set (b := nodev s l (take m offs)). assert (Hb : b <> 0) by (apply Hnz; lia).
  assert (Vm : valid_path (ic_of (s_blocksize_bits s)) (take m offs)) by (apply valid_take; [done|lia]).
  assert (Ho : 0 <= nth m offs 0 < ic_of (s_blocksize_bits s)).
  { assert (Hv1 : valid_path (ic_of (s_blocksize_bits s)) (take (S m) offs)) by (apply valid_take; [done|lia]).
    rewrite take_S_nth in Hv1 by lia. apply valid_snoc in Hv1 as [_ ?]; [done|]. destruct offs, m; cbn in *; lia || done. }
  destruct (nodev_range sbi ino s l _ T Vm Hb) as (Hzone & _ & _).
  destruct (zone_pos s sbi b (ba_mounted _ _ (proj1 T)) Hzone) as (_ & _ & mb & Emb & Hlb).
  destruct (all_zeroes_run mb _ (Z.to_nat (nth m offs 0)) 0 Hlb) as (z & Ez & Hzz); [lia|lia|].
  assert (Hbm : bh (entry s l offs m) = Some b /\ p (entry s l offs m) = PBuf b (nth m offs 0)) by (by destruct m).
  destruct Hbm as [-> ->]. rewrite <- Hst in Emb.
  assert (Estep : (mm ← bh_data b; klift (all_zeroes (Z.to_nat (nth m offs 0)) mm 0)) st = Some (z, st)).
  { erewrite K_bind_some by (unfold bh_data; by rewrite Emb). unfold klift. by rewrite Ez. }
  rewrite (K_bind_some _ _ _ _ _ Estep). rewrite Hst in Emb. destruct z.
  - exists i. split; [lia|]. split.
    + erewrite K_bind_some by exact E. cbn. do 3 f_equal. unfold entries_from. replace (S m - i)%nat with (S (m - i)) by lia.
      rewrite seq_S, fmap_app, rev_app_distr. replace (i + (m - i))%nat with m by lia. done.
    + intros j Hj a Ha. destruct (decide (j = m)) as [->|]; [|apply Hz; lia || done].
      unfold word. fold b. rewrite Emb. cbn [mbind option_bind]. destruct Hzz as [Hzz _]. by rewrite Hzz by (done || lia).
  - exists (S m). split; [lia|]. split; [|intros; lia]. unfold entries_from. rewrite Nat.sub_diag. cbn [seq fmap list_fmap rev].
    rewrite entries_S, rev_app_distr, Er. done.
Qed.
End shared.

Lemma entries_take s l P k m : (m <= k)%nat -> (k <= length P)%nat -> entries s l (take k P) m = entries s l P m.
Proof.
  intros Hm Hk. unfold entries. apply list_fmap_ext. intros i j Hj.
  apply lookup_seq in Hj as [-> Hj]. cbn [Nat.add] in *.
  assert (Ht : forall a, (a <= k)%nat -> take a (take k P) = take a P) by (intros a Ha; rewrite take_take; f_equal; lia).
  assert (Hnth : nth i (take k P) 0 = nth i P 0).
  { rewrite <- (take_drop k P) at 2. rewrite app_nth1; [done|]. rewrite length_take. lia. }
  destruct i as [|i]; cbn [entry]; rewrite Hnth, !Ht by lia; done.
Qed.

(** The entry that [clear_ends] meets at depth [j], with its pointer at word [c]. *)
Definition end_entry (s : kst) (l P : list Z) (c : nat -> Z) (j : nat) : Indirect :=
  Ind (PBuf (nodev s l (take j P)) (c j)) (nodev s l (take (S j) P)) (Some (nodev s l (take j P))).

Lemma tail_entries s l P i : tail (entries s l P i) = end_entry s l P (fun j => nth j P 0) <$> seq 1 (i - 1).
Proof.
  destruct i as [|i]; [done|]. unfold entries. cbn [seq fmap list_fmap tail]. rewrite Nat.sub_succ, Nat.sub_0_r.
  apply list_fmap_ext. intros a j Hj. apply lookup_seq in Hj as [-> Hj]. done.
Qed.

Lemma omap_end_entries s l P c i a : omap bh (end_entry s l P c <$> seq a i) = (fun j => nodev s l (take j P)) <$> seq a i.
Proof. revert a. induction i as [|i IH]; intros a; [done|]. cbn. f_equal. apply IH. Qed.

Section truncating.
Context `{KL : KernelLaws} {new : K (Z * option errno)} {free : Z -> K unit} `{BA : !BlockAllocator new free}.
Context (sbi : gas_sb_info) (ino : Z) (other : K unit).
Hypothesis Hread : forall x, in_zone sbi x -> read_ok x = true.
Hypothesis Hq : forall st, other st = Some (tt, st).

Lemma quiet_branch s l offs : tree_at sbi ino s l -> valid_path (ic_of (s_blocksize_bits s)) offs ->
  kwp (get_branch other ino offs) s (fun res s' => exists m c, res = (entries s l offs m, c, None) /\
    s' = with_ref (k_ref s ⊎ refs (held (entries s l offs m))) s /\ (0 < m <= length offs)%nat /\
    (forall j, (0 < j < m)%nat -> nodev s l (take j offs) <> 0) /\
    (m = length offs \/ nodev s l (take m offs) = 0)).
Proof.
  intros T V. assert (L : live sbi ino s l) by (exists sbi; split; [apply same_sb_refl|done]).
  pose proof (get_branch_run sbi ino other eq (quiet_rely sbi ino other Hq) offs s l (k_ref s) L V) as G.
  rewrite with_own_ref in G. eapply kwp_mono; [exact G|].
  intros [[chain c] e] s' (s1 & -> & <- & _ & _ & B).
  assert (Hlen : (0 < length offs)%nat) by (destruct offs; [done|cbn; lia]).
  inversion B as [l1 L1 Hnz|l1 m L1 Hm Hnz Hhole|s0 l0 l1 m <- _ L0 L1 Hm Hnz Hrd|s0 l0 l1 m <- _ L0 L1 Hm Hne]; subst chain c e.
  - rewrite (live_unique _ _ _ _ _ T L1) in *. exists (length offs), true. do 3 (split; [done || lia|]). split; [|by left].
    intros j Hj H0. apply Hnz. apply (hole_below sbi ino s l offs j); [done|done|lia|done].
  - rewrite (live_unique _ _ _ _ _ T L1) in *. exists m, false. do 2 (split; [done|]). split; [lia|]. split; [done|by right].
  - rewrite (live_unique _ _ _ _ _ T L0) in *. destruct (nodev_range sbi ino s l (take m offs) T) as (Hz & _ & _);
      [apply valid_take; [done|lia]|done|]. by rewrite Hread in Hrd.
  - rewrite (live_unique _ _ _ _ _ T L1), (live_unique _ _ _ _ _ T L0) in Hne. done.
Qed.

(** Where [find_shared] cuts: at depth [i]; the words to the left on the path below are
    empty. *)
Definition empty_left (s : kst) (l P : list Z) (i m : nat) : Prop :=
  (forall j, (i <= j < m)%nat -> forall a, 0 <= a < nth j P 0 -> word (k_buf s) (nodev s l (take j P)) a = 0) /\
  (m = shared_depth P (length P) \/ nodev s l (take m P) = 0).

(** What [find_shared] has done: it stepped back from a full last level, or it detached
    the subtree at [take i P]. *)
Inductive shared (s : kst) (l P : list Z) : list Indirect -> Z -> kst -> nat -> (nat -> Z) -> Prop :=
| shared_step k : k = shared_depth P (length P) -> (1 < k)%nat ->
    shared s l P (entries s l P (k - 1) ++ [end_entry s l P (fun j => nth j P 0 - 1) (k - 1)]) 0
      (with_ref (k_ref s ⊎ refs (held (entries s l P k))) s) k
      (fun j => if (j =? k - 1)%nat then nth j P 0 - 1 else nth j P 0)
| shared_cut i s1 l1 : (0 < i)%nat -> wrote sbi ino s l (take i P) 0 s1 l1 ->
    shared s l P (entries s l P i) (nodev s l (take i P))
      (with_ref (k_ref s ⊎ refs (held (entries s l P i))) s1) i (fun j => nth j P 0).

Lemma held_split s l P i m : (0 < i <= m)%nat ->
  held (entries s l P m) = held (entries s l P i) ++ omap bh (entries_from s l P i m).
Proof.
  intros Hi. assert (E : entries s l P m = entries s l P i ++ entries_from s l P i m).
  { unfold entries, entries_from. rewrite <- fmap_app. f_equal. replace m with (i + (m - i))%nat at 1 by lia.
    by rewrite seq_app. }
  rewrite E. apply held_app_ne. destruct i; [lia|]. by rewrite entries_S; destruct (entries s l P i).
Qed.

Lemma rev_entries s l P i : (0 < i)%nat -> rev (entries s l P i) = entry s l P (i - 1) :: rev (entries s l P (i - 1)).
Proof. destruct i; [lia|]. intros _. rewrite entries_S, rev_app_distr. cbn [Nat.sub]. by rewrite Nat.sub_0_r. Qed.

Lemma find_shared_run s l P : tree_at sbi ino s l -> full_path (ic_of (s_blocksize_bits s)) P ->
  kwp (find_shared other ino P) s (fun res s' => exists i c m, shared s l P (fst res) (snd res) s' i c /\
    (0 < i <= m)%nat /\ (m <= shared_depth P (length P))%nat /\
    (forall j, (0 < j < i)%nat -> nodev s l (take j P) <> 0) /\ empty_left s l P i m).
Proof.
  intros T F. pose proof (full_valid _ _ F) as V. assert (HP : (0 < length P)%nat) by (destruct P; [done|cbn; lia]).
  destruct (shared_depth_run P (length P)) as [Hk _]; [lia|]. unfold find_shared. set (k := shared_depth P (length P)) in *.
  assert (Ht : forall j, (j <= k)%nat -> take j (take k P) = take j P) by (intros j Hj; rewrite take_take; f_equal; lia).
  assert (Hlk : length (take k P) = k) by (rewrite length_take; lia).
  apply kwp_bind. eapply kwp_mono; [apply (quiet_branch s l (take k P) T); apply valid_take; [done|lia]|].
  intros res s' (m & c & -> & -> & Hm & Hnz & Hend). rewrite Hlk in Hm, Hend. rewrite entries_take by lia.
  rewrite Ht in Hend by lia. set (sr := with_ref _ s). assert (Tr : tree_at sbi ino sr l) by (by apply tree_at_ref).
  assert (Hnz' : forall j, (0 < j < m)%nat -> nodev s l (take j P) <> 0).
  { intros j Hj. rewrite <- Ht by lia. by apply Hnz. }
  apply kwp_bind. eapply kwp_lift; [apply entries_last; lia|]. apply kwp_bind.
  assert (Hread1 : forall i, (0 < i <= m)%nat -> ptr_read ino (p (entry s l P (i - 1))) sr = Some (nodev s l (take i P), sr)).
  { intros i Hi. change (entry s l) with (entry sr l). rewrite (entry_read sbi ino sr l P (i - 1) Tr V); [|lia|].
    - by replace (S (i - 1)) with i by lia.
    - intros Hi0. apply Hnz'. lia. }
  eexists _, _. split; [apply Hread1; lia|]. cbv beta. rewrite key_entry. replace (S (m - 1)) with m by lia.
  replace ((nodev s l (take m P) =? 0) && negb (nodev s l (take m P) =? 0)) with false by (by destruct (_ =? 0)).
  destruct (find_top_run sbi ino s l P m sr T V) as (i & Hi & Etop & Hzero); [lia|done|done|].
  apply kwp_bind. eexists _, _. split; [exact Etop|]. cbv beta. rewrite rev_entries by lia.
  assert (Hleft : empty_left s l P i m).
  { split; [done|]. destruct Hend as [->|?]; [by left|by right]. }
  assert (Hlen : length (entry s l P (i - 1) :: rev (entries s l P (i - 1))) = i).
  { rewrite <- rev_entries, length_rev by lia. unfold entries. by rewrite length_fmap, length_seq. }
  rewrite Hlen. apply kwp_bind. destruct (Nat.eqb_spec i k) as [Eik|Eik], (Nat.ltb_spec 1 i) as [H1|H1]; cbn [andb].
  { assert (Em : m = k) by lia. apply kwp_ret. unfold entries_from. replace (m - i)%nat with 0%nat by lia. cbn [seq fmap list_fmap rev kfor].
    apply kwp_bind, kwp_ret, kwp_ret. exists i, (fun j => if (j =? i - 1)%nat then nth j P 0 - 1 else nth j P 0), m.
    split; [|split; [lia|split; [lia|split; [intros; apply Hnz'; lia|done]]]].
    cbn [fst snd]. rewrite rev_involutive.
    assert (Ee : Ind (ptr_pred (p (entry s l P (i - 1)))) (key (entry s l P (i - 1))) (bh (entry s l P (i - 1))) =
      end_entry s l P (fun j => nth j P 0 - 1) (i - 1)).
    { destruct (i - 1)%nat eqn:E; [lia|]. done. }
    rewrite Ee. unfold sr. replace m with i by lia. by apply shared_step. }
  all: apply kwp_bind; eexists _, _; (split; [apply Hread1; lia|]); cbv beta;
    apply kwp_bind; (eapply kwp_mono; [apply (write_entry sbi ino sr l P i 0 Tr V); [lia|intros; apply Hnz'; lia|lia]|]);
    intros [] s1 (l1 & W); apply kwp_ret, kwp_bind; eexists _, _; (split; [apply kfor_brelse|]); cbv beta; apply kwp_ret;
    exists i, (fun j => nth j P 0), m; (split; [|split; [lia|split; [lia|split; [intros; apply Hnz'; lia|done]]]]);
    cbn [fst snd]; rewrite <- rev_entries, rev_involutive by lia.
  all: assert (Er : k_ref s1 ∖ refs (omap bh (rev (entries_from s l P i m))) = k_ref s ⊎ refs (held (entries s l P i)))
    by (rewrite (wr_ref _ _ _ _ _ _ _ _ W); unfold sr; cbn [k_ref with_ref]; rewrite (held_split s l P i m), <- refs_app by lia;
        rewrite (refs_perm (omap bh (rev _)) (omap bh (entries_from s l P i m))) by (by rewrite <- Permutation_rev); apply refs_cancel).
  all: rewrite Er; apply (shared_cut s l P i (with_ref (k_ref s) s1) l1); [lia|].
  all: apply (wrote_same sbi ino sr l _ 0 s1 l1); done.
Qed.

(** The pointers [clear_ends] clears: behind word [c j] in the block at depth [j]. *)
Definition level_ends (ic : Z) (P : list Z) (c : nat -> Z) (j : nat) : list (list Z) :=
  (fun a => take j P ++ [a]) <$> seqZ (c j + 1) (ic - (c j + 1)).

Fixpoint ends (ic : Z) (P : list Z) (c : nat -> Z) (i : nat) : list (list Z) :=
  match i with O => [] | S i' => level_ends ic P c i ++ ends ic P c i' end.

Lemma take_valid_word ic P j a : full_path ic P -> (0 < j < length P)%nat -> 0 <= a < ic ->
  valid_path ic (take j P ++ [a]) /\ (depth_below (take j P) - 1 = length P - j - 1)%nat.
Proof.
  intros F Hj Ha. destruct P as [|o r]; [done|]. destruct j as [|j]; [lia|]. destruct F as (Ho & Hl & HF). cbn [length] in *.
  cbn [take app valid_path depth_below]. rewrite length_app, !length_take. cbn [length]. split; [|lia].
  split; [done|]. split; [lia|]. apply List.Forall_app. split; [|by constructor].
  apply List.Forall_forall. intros x Hx%list_elem_of_In%elem_take. by apply (Forall_in _ _ x HF).
Qed.

Lemma level_run s l P c j : tree_at sbi ino s l -> full_path (ic_of (s_blocksize_bits s)) P -> (0 < j < length P)%nat ->
  nodev s l (take j P) <> 0 -> -1 <= c j ->
  kwp (free_branches free (length P - j - 1) ino (words_from (2 ^ s_blocksize_bits s) (nodev s l (take j P)) (c j + 1))) s
    (fun _ s' => exists l', cut sbi ino s l (level_ends (ic_of (s_blocksize_bits s)) P c j) s' l').
Proof.
  intros T F Hj Hnz Hc. set (ic := ic_of (s_blocksize_bits s)) in *.
  assert (Hw : 2 ^ s_blocksize_bits s / 4 = ic).
  { pose proof (g_bits _ _ (mt_geom _ _ (ba_mounted _ _ (proj1 T)))). unfold ic, ic_of.
    replace (s_blocksize_bits s) with (s_blocksize_bits s - 2 + 2) at 1 by lia. rewrite Z.pow_add_r by lia. by rewrite Z.div_mul. }
  assert (Hic : 0 < ic) by (pose proof (g_bits _ _ (mt_geom _ _ (ba_mounted _ _ (proj1 T)))); apply Z.pow_pos_nonneg; lia).
  unfold words_from. rewrite Hw, free_branches_one.
  destruct (take_valid_word ic P j 0 F Hj) as [_ <-]; [lia|].
  apply (cut_words sbi Hread ino (take j P)); try done; [destruct P, j; cbn in *; lia || done|].
  apply List.Forall_forall. intros a Ha%list_elem_of_In%elem_of_seqZ. apply take_valid_word; [done|done|lia].
Qed.

Lemma killed_level_take ic P c j m : (0 < m <= j)%nat -> (j <= length P)%nat -> killed (level_ends ic P c j) (take m P) = false.
Proof.
  intros Hm Hj. apply not_true_is_false. intros (hp & Hin & Hp)%killed_true. unfold level_ends in Hin.
  apply list_elem_of_fmap in Hin as (a & -> & _). apply prefix_length in Hp. rewrite length_app, !length_take in Hp. cbn in Hp. lia.
Qed.

Lemma clear_ends_run P c i : forall s l s0 l0, tree_at sbi ino s l -> full_path (ic_of (s_blocksize_bits s)) P ->
  (i < length P)%nat -> (forall j, (0 < j <= i)%nat -> nodev s0 l0 (take j P) <> 0 /\ nodev s l (take j P) = nodev s0 l0 (take j P) /\ -1 <= c j) ->
  forall st, same_tree s st -> k_ref st = k_ref s ⊎ refs ((fun j => nodev s0 l0 (take j P)) <$> seq 1 i) ->
  kwp (clear_ends free ino (length P) (rev (end_entry s0 l0 P c <$> seq 1 i))) st
    (fun _ s' => exists l', cut sbi ino s l (ends (ic_of (s_blocksize_bits s)) P c i) s' l').
Proof.
  induction i as [|i IH]; intros s l s0 l0 T F Hi Hnz st S Hr.
  - apply kwp_ret. exists l. apply (cut_same sbi ino s l [] s l s st); try done; [by apply cut_refl|].
    cbn [seq fmap list_fmap] in Hr. change (refs []) with (∅ : gmultiset Z) in Hr. by rewrite (right_id_L ∅ (⊎)) in Hr.
  - rewrite seq_S, !fmap_app in *. cbn [fmap list_fmap] in *. rewrite rev_app_distr. cbn [rev app Nat.add clear_ends].
    destruct (Hnz (Datatypes.S i) ltac:(lia)) as (Hn0 & Hn & Hc).
    apply kwp_bind, kwp_get. cbn [bh p end_entry length]. rewrite length_rev, length_fmap, length_seq. apply kwp_bind. rewrite (st_bits _ _ S), <- Hn.
    pose proof (tree_at_same sbi ino s st l S T) as Tst.
    pose proof (level_run st l P c (Datatypes.S i) Tst) as Hl. rewrite (st_bits _ _ S), (nodev_same_tree s st) in Hl by done.
    eapply kwp_mono; [apply Hl; [done|lia|congruence|done]|]. intros [] s1 (l1 & C1).
    assert (Hkeep : forall j, (0 < j <= i)%nat -> nodev s1 l1 (take j P) = nodev s l (take j P)).
    { intros j Hj. rewrite (ct_node _ _ _ _ _ _ _ C1), killed_level_take, (nodev_same_tree s st); try done; try lia.
      rewrite (st_bits _ _ S). apply valid_take; [by apply full_valid|lia]. }
    apply kwp_bind, kwp_mod, kwp_bind, kwp_mod. set (s2 := with_ref _ _).
    assert (S1 : same_tree (with_ref (k_ref s) s1) s2) by done.
    assert (C1' : cut sbi ino s l (level_ends (ic_of (s_blocksize_bits s)) P c (Datatypes.S i)) (with_ref (k_ref s) s1) l1).
    { apply (cut_same sbi ino st l _ s1 l1); try done. destruct S as [X1 X2 X3 X4]. by split. }
    assert (Hb1 : s_blocksize_bits (with_ref (k_ref s) s1) = s_blocksize_bits s) by apply C1'.
    eapply kwp_mono; [apply (IH (with_ref (k_ref s) s1) l1 s0 l0); [apply C1'|by rewrite Hb1|lia| |exact S1|]|].
    + intros j Hj. destruct (Hnz j ltac:(lia)) as (H1 & H2 & H3). change (nodev (with_ref (k_ref s) s1)) with (nodev s1).
      by rewrite Hkeep.
    + unfold s2. cbn [k_ref with_ref with_dirty]. rewrite (ct_ref _ _ _ _ _ _ _ C1), Hr, Hn, <- refs_app.
      change (refs [nodev s0 l0 (take (1 + i) P)]) with ({[+ nodev s0 l0 (take (1 + i) P) +]} ⊎ (∅ : gmultiset Z)).
      cbn [Nat.add]. generalize (refs ((fun j => nodev s0 l0 (take j P)) <$> seq 1 i)). clear. intros X. multiset_solver.
    + intros [] s3 (l3 & C3). rewrite Hb1 in C3. exists l3. cbn [ends].
      by apply (cut_trans sbi ino s l _ (with_ref (k_ref s) s1) l1 _ s3 l3).
Qed.

Lemma do_indirects_run todo : forall fw s l, tree_at sbi ino s l -> 0 <= fw -> fw + Z.of_nat todo <= 3 ->
  kwp (do_indirects free todo ino fw) s (fun _ s' => exists l',
    cut sbi ino s l ((fun o => [o]) <$> seqZ (6 + fw) (Z.of_nat todo)) s' l').
Proof.
  induction todo as [|todo IH]; intros fw s l T Hfw Ht; cbn [do_indirects].
  - apply kwp_ret. exists l. by apply cut_refl.
  - unfold DIRECT. assert (V : valid_path (ic_of (s_blocksize_bits s)) [6 + fw]) by (split; [lia|]; split; [cbn; lia|constructor]).
    assert (Hrd : ptr_read ino (PInode (6 + fw)) s = Some (nodev s l [6 + fw], s))
      by (by apply (entry_read sbi ino s l [6 + fw] 0); [|done|cbn; lia|]).
    apply kwp_bind. eexists _, _. split; [exact Hrd|]. cbv beta. apply kwp_bind.
    assert (Hstep : kwp (if negb (nodev s l [6 + fw] =? 0) then
             _ ← ptr_write ino (PInode (6 + fw)) 0; _ ← mark_inode_dirty ino;
             free_branches free (Z.to_nat (fw + 1)) ino [PVar (nodev s l [6 + fw])] else mret tt) s
        (fun _ s' => exists l', cut sbi ino s l [[6 + fw]] s' l')).
    { destruct (Z.eqb_spec (nodev s l [6 + fw]) 0) as [H0|H0]; cbn [negb].
      - apply kwp_ret. exists l. apply cut_hole; [done|]. intros pre Vp. rewrite killed_one, bool_decide_eq_true.
        by apply (below_hole sbi ino s l).
      - apply kwp_bind. eapply kwp_mono; [apply (write_root sbi ino s l (6 + fw) 0 T); lia|]. intros [] s1 (l1 & W).
        apply kwp_bind, kwp_mod. set (s2 := with_idirty _ s1).
        assert (W2 : wrote sbi ino s l [6 + fw] 0 s2 l1) by (apply (wrote_same sbi ino s l _ 0 s1 l1); try done; apply W).
        rewrite free_branches_one. cbn [kfor]. apply kwp_bind.
        replace (Z.to_nat (fw + 1)) with (depth_below [6 + fw]) by (cbn; unfold levels; lia).
        eapply kwp_mono; [by apply (free_top_cut sbi Hread ino s l [6 + fw] s2 l1)|]. intros [] s3 C. apply kwp_ret. by exists l1. }
    eapply kwp_mono; [exact Hstep|]. intros [] s1 (l1 & C1).
    eapply kwp_mono; [apply (IH (fw + 1) s1 l1); [apply C1|lia|lia]|]. intros [] s2 (l2 & C2). exists l2.
    rewrite Nat2Z.inj_succ, seqZ_cons by lia. cbn [fmap list_fmap].
    replace (Z.succ (6 + fw)) with (6 + (fw + 1)) by lia. replace (Z.pred (Z.succ (Z.of_nat todo))) with (Z.of_nat todo) by lia.
    by apply (cut_trans sbi ino s l [[6 + fw]] s1 l1 _ s2 l2).
Qed.
End truncating.

(** ** Which blocks are cut *)

Lemma killed_ends ic P c i F : killed (ends ic P c i) F = true <->
  exists j a, (0 < j <= i)%nat /\ c j < a < ic /\ (take j P ++ [a]) `prefix_of` F.
Proof.
  induction i as [|i IH]; cbn [ends].
  - split; [done|]. intros (j & a & Hj & _). lia.
  - rewrite killed_app, orb_true_iff, IH, killed_true. unfold level_ends. split.
    + intros [(hp & Hin & Hp)|(j & a & Hj & Ha & Hp)]; [|exists j, a; split; [lia|done]].
      apply list_elem_of_fmap in Hin as (a & -> & Ha). apply elem_of_seqZ in Ha. exists (S i), a. split; [lia|]. split; [lia|done].
    + intros (j & a & Hj & Ha & Hp). destruct (decide (j = S i)) as [->|]; [left|right; exists j, a; split; [lia|done]].
      exists (take (S i) P ++ [a]). split; [|done]. apply list_elem_of_fmap. exists a. split; [done|]. apply elem_of_seqZ. lia.
Qed.

Lemma killed_roots a n o F : killed ((fun x => [x]) <$> seqZ a n) (o :: F) = bool_decide (a <= o < a + n).
Proof.
  apply eq_true_iff_eq. rewrite killed_true, bool_decide_eq_true. split.
  - intros (hp & Hin & Hp). apply list_elem_of_fmap in Hin as (x & -> & Hx). apply elem_of_seqZ in Hx.
    apply prefix_cons_inv_1 in Hp. lia.
  - intros Ho. exists [o]. split; [apply list_elem_of_fmap; exists o; split; [done|by apply elem_of_seqZ]|]. by exists F.
Qed.

(** Two paths, the first before the second, part at depth [m]. *)
Lemma lexlt_nth l1 l2 : lexlt l1 l2 = true -> exists m, (m < length l1)%nat /\ (m < length l2)%nat /\
  take m l1 = take m l2 /\ nth m l1 0 < nth m l2 0.
Proof.
  intros (m & a & b & r1 & r2 & E1 & E2 & Hab & L1 & L2)%lexlt_split. exists m.
  assert (Lt : length (take m l1) = m) by (rewrite length_take; lia). split; [done|]. split; [done|]. split.
  - rewrite E2. by rewrite take_app_length' by done.
  - rewrite E1 at 1. rewrite E2 at 1. rewrite !app_nth2, Lt, Nat.sub_diag by lia. cbn. lia.
Qed.

Lemma prefix_take_nth (P F : list Z) m : take m P = take m F -> (m < length F)%nat -> (take m P ++ [nth m F 0]) `prefix_of` F.
Proof. intros E Hm. rewrite E, <- take_S_nth by done. apply prefix_take. Qed.

Lemma prefix_word (P F : list Z) j a : (j <= length P)%nat -> (take j P ++ [a]) `prefix_of` F ->
  take j F = take j P /\ nth j F 0 = a /\ (j < length F)%nat.
Proof.
  intros Hj [r ->]. rewrite <- app_assoc. assert (Lt : length (take j P) = j) by (rewrite length_take; lia). split; [|split].
  - by rewrite take_app_length'.
  - rewrite app_nth2, Lt, Nat.sub_diag by lia. done.
  - rewrite !length_app, Lt. cbn. lia.
Qed.

Lemma prefix_eq_take (P F : list Z) i : (i <= length P)%nat -> take i P `prefix_of` F -> take i F = take i P.
Proof. intros Hi [r ->]. by rewrite take_app_length' by (rewrite length_take; lia). Qed.

(** Where two paths that agree up to [i] part. *)
Lemma part_after (F P : list Z) m i : (m < length F)%nat -> (m < length P)%nat -> nth m F 0 < nth m P 0 ->
  take i F = take i P -> (i <= m)%nat.
Proof.
  intros L1 L2 Hlt E. destruct (Nat.le_gt_cases i m); [done|]. exfalso.
  assert (HH : nth m F 0 = nth m P 0); [|lia].
  rewrite <- (take_drop i F), <- (take_drop i P), E. rewrite !app_nth1; [done|rewrite length_take; lia|rewrite <- E, length_take; lia].
Qed.

Lemma full_nth ic P j : full_path ic P -> (0 < j < length P)%nat -> 0 <= nth j P 0 < ic.
Proof.
  destruct P as [|o r]; [done|]. intros (_ & _ & HF) Hj. destruct j as [|j]; [lia|]. cbn in *.
  apply (Forall_in _ _ _ HF). apply list_elem_of_In, nth_In. lia.
Qed.

Section cutting_paths.
Context `{KL : KernelLaws} {new : K (Z * option errno)} {free : Z -> K unit} `{BA : !BlockAllocator new free}.
Context (sbi : gas_sb_info) (ino : Z) (s : kst) (l P : list Z).
Hypothesis T : tree_at sbi ino s l.
Hypothesis F : full_path (ic_of (s_blocksize_bits s)) P.
Let ic := ic_of (s_blocksize_bits s).
Let k := shared_depth P (length P).

Lemma nodev_word pre a : pre <> [] -> valid_path ic (pre ++ [a]) -> nodev s l pre <> 0 ->
  nodev s l (pre ++ [a]) = word (k_buf s) (nodev s l pre) a.
Proof using T.
  intros Hpre V H0. destruct (valid_snoc ic pre a Hpre V) as [Vp _]. pose proof (nodev_node sbi ino s l pre T Vp) as Hn.
  unfold nodev at 1. rewrite node_snoc, Hn by done. cbn [mbind option_bind walk]. rewrite (proj2 (Z.eqb_neq _ 0)) by done.
  unfold word. destruct (k_buf s !! nodev s l pre) as [m|]; [|done]. cbn [mbind option_bind]. by destruct (load 4 m (4 * a)).
Qed.

(** To the left of the path, below the depth at which it was cut, there is nothing. *)
Lemma left_empty i m F' mm : empty_left s l P i m -> (0 < i <= m)%nat -> (m <= k)%nat -> full_path ic F' ->
  (mm < length F')%nat -> (mm < length P)%nat -> take mm F' = take mm P -> nth mm F' 0 < nth mm P 0 -> (i <= mm)%nat ->
  nodev s l F' = 0.
Proof using T F.
  intros [Hz Hend] Hi Hm F2 L1 L2 E Hlt Him. pose proof (full_valid _ _ F2) as V2.
  destruct (shared_depth_run P (length P)) as [Hk Hk0]; [lia|]. fold k in Hk, Hk0.
  assert (Hne : forall j, (0 < j)%nat -> take j F' <> []) by (intros j Hj; destruct F', j; cbn in *; lia || done).
  destruct (Nat.lt_ge_cases mm m) as [Hmm|Hmm].
  - apply (below_hole sbi ino s l (take (S mm) F')); [done|apply Hne; lia|apply valid_take; [done|lia]| |apply prefix_take].
    assert (Vs : valid_path ic (take (S mm) F')) by (apply valid_take; [done|lia]).
    rewrite take_S_nth in * by done. destruct (Z.eq_dec (nodev s l (take mm F')) 0) as [H0|H0].
    + destruct (valid_snoc ic _ _ (Hne mm ltac:(lia)) Vs) as [Vm _].
      apply (below_hole sbi ino s l (take mm F')); [done|apply Hne; lia|done|done|]. by eexists.
    + rewrite nodev_word by (done || apply Hne; lia). rewrite E. apply Hz; [lia|].
      split; [|done]. apply (full_nth ic); [done|lia].
  - destruct Hend as [->|H0].
    + exfalso. fold k in Hmm. rewrite Hk0 in Hlt by lia. pose proof (full_nth ic F' mm F2). lia.
    + apply (below_hole sbi ino s l (take m P)); [done|destruct P, m; cbn in *; lia || done|apply valid_take; [by apply full_valid|lia]|done|].
      replace (take m P) with (take m F'); [apply prefix_take|].
      replace m with (m `min` mm)%nat by lia. by rewrite <- !take_take, E.
Qed.

(** The pointers cut by a truncation at [P], the inode's own words included. *)
Definition roots_from (o : Z) : list (list Z) := (fun x => [x]) <$> seqZ o (9 - o).

Lemma killed_roots_lt F' : full_path ic F' -> lexlt F' P = true -> killed (roots_from (hd 0 P + 1)) F' = false.
Proof using F.
  destruct F' as [|o r]; [done|]. destruct P as [|q r']; [done|]. intros _ Hlt. unfold roots_from. rewrite killed_roots.
  apply bool_decide_eq_false. cbn in Hlt |- *. apply orb_true_iff in Hlt as [Hlt|Hlt]; bools; lia.
Qed.

Lemma killed_roots_gt F' : full_path ic F' -> hd 0 P < hd 0 F' -> killed (roots_from (hd 0 P + 1)) F' = true.
Proof using F.
  destruct F' as [|o r]; [done|]. intros (Ho & _) Hlt. unfold roots_from. rewrite killed_roots. apply bool_decide_eq_true. cbn in *. lia.
Qed.

(** The case where [find_shared] detached the subtree at [take i P]. *)
Lemma cut_paths i m F' : empty_left s l P i m -> (0 < i <= m)%nat -> (m <= k)%nat -> full_path ic F' ->
  let hps := [take i P] ++ ends ic P (fun j => nth j P 0) (i - 1) ++ roots_from (hd 0 P + 1) in
  if lexlt F' P then killed hps F' = true -> nodev s l F' = 0 else killed hps F' = true.
Proof using T F.
  intros He Hi Hm F2 hps. assert (HP : (0 < length P)%nat) by (destruct P; [done|cbn; lia]).
  destruct (shared_depth_run P (length P)) as [Hk _]; [lia|]. fold k in Hk. unfold hps.
  rewrite !killed_app, killed_one. destruct (lexlt F' P) eqn:El.
  - rewrite (killed_roots_lt F' F2 El), orb_false_r, orb_true_iff, bool_decide_eq_true, killed_ends.
    destruct (lexlt_nth F' P El) as (mm & L1 & L2 & Et & Hlt). intros [Hp|(j & a & Hj & Ha & Hp)].
    + apply prefix_eq_take in Hp; [|lia]. apply (left_empty i m F' mm); try done. by apply (part_after F' P).
    + exfalso. apply prefix_word in Hp as (Ep & En & Lf); [|lia].
      assert (Hjm : (j <= mm)%nat) by (by apply (part_after F' P)). destruct (decide (j = mm)) as [->|]; [lia|].
      assert (HH : nth j F' 0 = nth j P 0); [|lia]. rewrite <- (take_drop mm F'), <- (take_drop mm P), Et.
      rewrite !app_nth1; [done|rewrite length_take; lia|rewrite <- Et, length_take; lia].
  - destruct (lexlt_trichotomy ic F' P F2 F) as [->|[?|Hgt]]; [|congruence|].
    + rewrite bool_decide_eq_true_2; [done|apply prefix_take].
    + destruct (lexlt_nth P F' Hgt) as (mm & L1 & L2 & Et & Hlt). rewrite !orb_true_iff.
      destruct (decide (mm = 0%nat)) as [->|]; [right; right; apply killed_roots_gt; [done|]; destruct P, F'; cbn in *; lia|].
      destruct (Nat.lt_ge_cases mm i); [right; left|left].
      * apply killed_ends. exists mm, (nth mm F' 0). split; [lia|]. split; [|by apply prefix_take_nth].
        pose proof (full_nth ic F' mm F2). lia.
      * apply bool_decide_eq_true. replace (take i P) with (take i F'); [apply prefix_take|].
        replace i with (i `min` mm)%nat by lia. by rewrite <- !take_take, Et.
Qed.

(** The case where it stepped back on the last level [k]. *)
Lemma step_paths F' : (1 < k)%nat -> full_path ic F' ->
  let hps := ends ic P (fun j => if (j =? k - 1)%nat then nth j P 0 - 1 else nth j P 0) (k - 1) ++ roots_from (hd 0 P + 1) in
  if lexlt F' P then killed hps F' = false else killed hps F' = true.
Proof using T F.
  intros Hk1 F2 hps. assert (HP : (0 < length P)%nat) by (destruct P; [done|cbn; lia]).
  destruct (shared_depth_run P (length P)) as [Hk Hk0]; [lia|]. fold k in Hk, Hk0. unfold hps. rewrite killed_app.
  destruct (lexlt F' P) eqn:El.
  - rewrite (killed_roots_lt F' F2 El), orb_false_r. destruct (lexlt_nth F' P El) as (mm & L1 & L2 & Et & Hlt).
    apply not_true_is_false. rewrite killed_ends. intros (j & a & Hj & Ha & Hp).
    apply prefix_word in Hp as (Ep & En & Lf); [|lia]. assert (Hjm : (j <= mm)%nat) by (by apply (part_after F' P)).
    assert (HH : (j < mm)%nat -> nth j F' 0 = nth j P 0).
    { intros Hlj. rewrite <- (take_drop mm F'), <- (take_drop mm P), Et.
      rewrite !app_nth1; [done|rewrite length_take; lia|rewrite <- Et, length_take; lia]. }
    destruct (Nat.eqb_spec j (k - 1)); [|destruct (decide (j = mm)) as [->|]; [lia|specialize (HH ltac:(lia)); lia]].
    destruct (decide (j = mm)) as [->|]; [lia|]. rewrite Hk0 in Hlt by lia. pose proof (full_nth ic F' mm F2). lia.
  - assert (Hge : P = F' \/ lexlt P F' = true) by (destruct (lexlt_trichotomy ic F' P F2 F) as [->|[?|?]]; [by left|congruence|by right]).
    assert (Hword : forall j a, (0 < j <= k - 1)%nat -> (if (j =? k - 1)%nat then nth j P 0 - 1 else nth j P 0) < a ->
      a = nth j F' 0 -> take j P = take j F' -> (j < length F')%nat ->
      killed (ends ic P (fun j => if (j =? k - 1)%nat then nth j P 0 - 1 else nth j P 0) (k - 1)) F' = true).
    { intros j a Hj Ha -> Et Lf. apply killed_ends. exists j, (nth j F' 0). split; [done|]. split; [|by apply prefix_take_nth].
      pose proof (full_nth ic F' j F2). lia. }
    rewrite orb_true_iff. destruct Hge as [<-|Hgt].
    + left. apply (Hword (k - 1)%nat (nth (k - 1) P 0)); [lia|rewrite Nat.eqb_refl; lia|done|done|lia].
    + destruct (lexlt_nth P F' Hgt) as (mm & L1 & L2 & Et & Hlt).
      destruct (decide (mm = 0%nat)) as [->|]; [right; apply killed_roots_gt; [done|]; destruct P, F'; cbn in *; lia|].
      left. destruct (Nat.lt_ge_cases mm k) as [Hmk|Hmk].
      * apply (Hword mm (nth mm F' 0)); try done; [lia|]. destruct (mm =? k - 1)%nat; lia.
      * assert (HH : nth (k - 1) P 0 = nth (k - 1) F' 0).
        { rewrite <- (take_drop mm F'), <- (take_drop mm P), Et.
          rewrite !app_nth1; [done|rewrite length_take; lia|rewrite <- Et, length_take; lia]. }
        apply (Hword (k - 1)%nat (nth (k - 1) P 0)); [lia|rewrite Nat.eqb_refl; lia|done| |lia].
        replace (k - 1)%nat with ((k - 1) `min` mm)%nat by lia. by rewrite <- !take_take, Et.
Qed.
End cutting_paths.

(** ** The whole truncation *)

Section truncation.
Context `{KL : KernelLaws} {new : K (Z * option errno)} {free : Z -> K unit} `{BA : !BlockAllocator new free}.
Context (sbi : gas_sb_info) (ino : Z) (other : K unit) (block_truncate_page : Z -> Z -> K unit).

(** Only contents of data blocks of the file have changed. *)
Record data_only (s : kst) (l : list Z) (s' : kst) : Prop := {
  do_info : s_fs_info s' = s_fs_info s;
  do_bits : s_blocksize_bits s' = s_blocksize_bits s;
  do_inodes : k_inodes s' = k_inodes s;
  do_ref : k_ref s' = k_ref s;
  do_len : forall b m, k_buf s !! b = Some m -> exists m', k_buf s' !! b = Some m' /\ blen m' = blen m;
  do_buf : forall b, ~ (exists path, full_path (ic_of (s_blocksize_bits s)) path /\ nodev s l path = b /\ b <> 0) ->
    k_buf s' !! b = k_buf s !! b }.

Lemma data_only_tree s l s' : tree_at sbi ino s l -> data_only s l s' ->
  tree_at sbi ino s' l /\ (forall pre, valid_path (ic_of (s_blocksize_bits s)) pre -> nodev s' l pre = nodev s l pre) /\
  forall x, in_zone sbi x -> ba_used sbi s' x = ba_used sbi s x.
Proof.
  intros T0 [D1 D2 D3 D4 D5 D6]. pose proof T0 as (I & T & i & Hi & Hl). pose proof (ba_mounted _ _ I) as M.
  assert (Hdata : forall path b, full_path (ic_of (s_blocksize_bits s)) path -> nodev s l path = b -> b <> 0 -> in_zone sbi b).
  { intros path b F <- Hb. by destruct (nodev_range sbi ino s l path T0 (full_valid _ _ F) Hb) as [? _]. }
  assert (M' : mounted s' sbi).
  { destruct M as [M1 M2 M3]. split; [congruence|by rewrite D2|]. intros b Hb. destruct (M3 b Hb) as (m & Hm & Hlm).
    destruct (D5 b m Hm) as (m' & Hm' & Hl'). exists m'. split; [done|]. unfold is_block in *. rewrite D2. congruence. }
  destruct (ba_stable sbi s s' I M') as [I' U].
  { intros b Hb. apply D6. intros (path & F & E & Hb0). destruct (Hdata path b F E Hb0). lia. }
  assert (N : forall pre, valid_path (ic_of (s_blocksize_bits s)) pre -> node (k_buf s') l pre = node (k_buf s) l pre).
  { apply node_same_inner. intros pre o v Hpre V Hv Hv0. apply D6. intros (path & F & E & _).
    destruct (valid_snoc _ pre o Hpre V) as [Vp _].
    pose proof (nodev_node sbi ino s l path T0 (full_valid _ _ F)) as Hn. rewrite E in Hn.
    assert (pre = path) as -> by (by apply (to_tree _ _ _ T pre path v); [|apply full_valid| | |]).
    destruct path as [|a r]; [done|]. destruct V as (_ & Hlen & _). destruct F as (_ & Hlen2 & _).
    rewrite length_app in Hlen. cbn in Hlen. lia. }
  split; [|split; [|done]].
  - split; [done|]. split; [|exists i; by rewrite D3]. split; rewrite ?D2; [apply T| |].
    + intros pre v V. rewrite N by done. intros Hv Hv0. destruct (to_zone _ _ _ T _ _ V Hv Hv0). split; [done|]. by rewrite U.
    + intros p1 p2 v V1 V2. rewrite !N by done. by apply T.
  - intros pre V. by apply nodev_same, N.
Qed.

(** The tree [l] of the inode has been truncated to [N] blocks. *)
Record truncated (N : Z) (s : kst) (l : list Z) (s' : kst) (l' : list Z) : Prop := {
  tr_tree : tree_at sbi ino s' l';
  tr_map : forall block, 0 <= block < s_nblocks sbi ->
    nodev s' l' (block_to_path (s_nblocks sbi) (s_blocksize_bits s) block) =
      if N <=? block then 0 else nodev s l (block_to_path (s_nblocks sbi) (s_blocksize_bits s) block);
  tr_nodes : forall pre, valid_path (ic_of (s_blocksize_bits s)) pre -> nodev s' l' pre = 0 \/ nodev s' l' pre = nodev s l pre;
  tr_empty : N = 0 -> forall pre, valid_path (ic_of (s_blocksize_bits s)) pre -> nodev s' l' pre = 0;
  tr_used : forall x, in_zone sbi x -> ba_used sbi s' x = true <-> ba_used sbi s x = true /\
    ~ exists pre, valid_path (ic_of (s_blocksize_bits s)) pre /\ nodev s l pre = x /\ nodev s' l' pre <> x;
  tr_buf : forall b, in_zone sbi b ->
    (forall pre, valid_path (ic_of (s_blocksize_bits s)) pre -> nodev s l pre = b ->
       full_path (ic_of (s_blocksize_bits s)) pre /\ nodev s' l' pre = b) -> k_buf s' !! b = k_buf s !! b;
  tr_ref : k_ref s' = k_ref s;
  tr_bits : s_blocksize_bits s' = s_blocksize_bits s;
  tr_inodes : exists i now, k_inodes s !! ino = Some i /\ blkaddr i = l /\
    k_inodes s' = <[ino := set_mtime now (set_ctime now (set_blkaddr i l'))]> (k_inodes s) }.

Lemma cut_truncated N s l hps s1 l1 s' now : tree_at sbi ino s l -> cut sbi ino s l hps s1 l1 ->
  (forall block, 0 <= block < s_nblocks sbi -> let path := block_to_path (s_nblocks sbi) (s_blocksize_bits s) block in
     valid_path (ic_of (s_blocksize_bits s)) path /\
     if N <=? block then killed hps path = true else killed hps path = true -> nodev s l path = 0) ->
  (N = 0 -> forall pre, valid_path (ic_of (s_blocksize_bits s)) pre -> killed hps pre = true) ->
  s_fs_info s' = s_fs_info s1 -> s_blocksize_bits s' = s_blocksize_bits s1 -> k_buf s' = k_buf s1 -> k_ref s' = k_ref s1 ->
  (forall i, k_inodes s1 !! ino = Some i -> k_inodes s' = <[ino := set_mtime now (set_ctime now i)]> (k_inodes s1)) ->
  truncated N s l s' l1.
Proof.
  intros T0 C Hp Hall E1 E2 E3 E4 E5. destruct (ct_inodes _ _ _ _ _ _ _ C) as (i & Hi & Ei).
  rewrite Ei, lookup_insert_eq in E5. specialize (E5 _ eq_refl). rewrite insert_insert_eq in E5.
  pose proof (ct_tree _ _ _ _ _ _ _ C) as T1. destruct (ba_ext sbi s1 s' (proj1 T1) E1 E2 E3) as [_ U].
  assert (Hn : forall pre, nodev s' l1 pre = nodev s1 l1 pre) by (intros pre; unfold nodev; by rewrite E3).
  split.
  - apply (tree_at_ext sbi ino s1); try done. rewrite E5, lookup_insert_eq. by eexists.
  - intros block Hb. destruct (Hp block Hb) as [V HH]. rewrite Hn, (ct_node _ _ _ _ _ _ _ C) by done.
    destruct (N <=? block); [by rewrite HH|]. destruct (killed hps _); [by rewrite HH|done].
  - intros pre V. rewrite Hn, (ct_node _ _ _ _ _ _ _ C) by done. destruct (killed hps pre); auto.
  - intros HN pre V. by rewrite Hn, (ct_node _ _ _ _ _ _ _ C), Hall by done.
  - intros x Hx. rewrite U, (ct_used _ _ _ _ _ _ _ C) by done. pose proof (zone_nonzero sbi ino s l x T0 Hx) as Hx0.
    split; (intros [Hu Hnot]; split; [done|]); intros (pre & V & H1 & H2); apply Hnot; exists pre; (split; [done|]).
    + rewrite Hn, (ct_node _ _ _ _ _ _ _ C) in H2 by done. by destruct (killed hps pre).
    + split; [done|]. rewrite Hn, (ct_node _ _ _ _ _ _ _ C), H1 by done. congruence.
  - intros b Hb HH. rewrite E3. apply (ct_buf _ _ _ _ _ _ _ C); [done|]. intros pre V Hpre.
    destruct (HH pre V Hpre) as [F H2]. split; [done|]. rewrite Hn, (ct_node _ _ _ _ _ _ _ C) in H2 by done.
    destruct (killed hps pre); [|done]. by destruct (zone_nonzero sbi ino s l b T0 Hb).
  - rewrite E4. apply C.
  - rewrite E2. apply C.
  - exists i, now. split; [done|]. split; [|done]. destruct T0 as (_ & _ & j & Hj & <-). congruence.
Qed.

Hypothesis Hread : forall x, in_zone sbi x -> read_ok x = true.
Hypothesis Hq : forall st, other st = Some (tt, st).

Lemma roots_run o s l : tree_at sbi ino s l -> 0 <= o <= 8 -> let fw := Z.max (o + 1 - DIRECT) 0 in
  kwp (do_indirects free (Z.to_nat (DEPTH - 1 - fw)) ino fw) s (fun _ s' => exists l',
    cut sbi ino s l (roots_from (Z.max (o + 1) 6)) s' l').
Proof using All.
  intros T Ho fw. unfold DIRECT, DEPTH in *.
  eapply kwp_mono; [apply (do_indirects_run sbi ino Hread (Z.to_nat (4 - 1 - fw)) fw s l T); lia|].
  intros [] s' (l' & C). exists l'. unfold roots_from. replace (Z.max (o + 1) 6) with (6 + fw) by lia.
  replace (9 - (6 + fw)) with (Z.of_nat (Z.to_nat (4 - 1 - fw))) by lia. done.
Qed.

Lemma refs_of_chain s l P i : (0 < i)%nat ->
  held (entries s l P i) = (fun j => nodev s l (take j P)) <$> seq 1 (i - 1).
Proof using KL. intros Hi. unfold held. rewrite tail_entries. apply omap_end_entries. Qed.

Definition good_cut (s : kst) (l P : list Z) (hps : list (list Z)) : Prop :=
  forall F, full_path (ic_of (s_blocksize_bits s)) F ->
    if lexlt F P then killed (hps ++ roots_from (hd 0 P + 1)) F = true -> nodev s l F = 0
    else killed (hps ++ roots_from (hd 0 P + 1)) F = true.

Lemma clear_shared s l P c i hps s1 l1 st : tree_at sbi ino s l -> full_path (ic_of (s_blocksize_bits s)) P ->
  cut sbi ino s l hps s1 l1 -> (0 < i <= length P)%nat ->
  (forall j, (0 < j < i)%nat -> nodev s l (take j P) <> 0 /\ killed hps (take j P) = false /\ -1 <= c j) ->
  same_tree s1 st -> k_ref st = k_ref s ⊎ refs (held (entries s l P i)) ->
  kwp (clear_ends free ino (length P) (rev (end_entry s l P c <$> seq 1 (i - 1)))) st (fun _ s' => exists l',
    cut sbi ino s l (hps ++ ends (ic_of (s_blocksize_bits s)) P c (i - 1)) s' l').
Proof using KL Hread.
  intros T F C Hi Hnz S Hr. pose proof (ct_bits _ _ _ _ _ _ _ C) as Hb.
  eapply kwp_mono; [apply (clear_ends_run sbi ino Hread P c (i - 1) s1 l1 s l); [apply C|by rewrite Hb|lia| |exact S|]|].
  - intros j Hj. destruct (Hnz j ltac:(lia)) as (H1 & H2 & H3). split; [done|]. split; [|done].
    rewrite (ct_node _ _ _ _ _ _ _ C), H2; [done|]. apply valid_take; [by apply full_valid|lia].
  - rewrite Hr, (ct_ref _ _ _ _ _ _ _ C). by rewrite refs_of_chain by lia.
  - intros [] s2 (l2 & C2). rewrite Hb in C2. exists l2. by apply (cut_trans sbi ino s l hps s1 l1 _ s2 l2).
Qed.

Lemma free_shared_run s l P : tree_at sbi ino s l -> full_path (ic_of (s_blocksize_bits s)) P ->
  kwp (free_shared free other ino P) s (fun _ s' => exists l' hps, cut sbi ino s l hps s' l' /\ good_cut s l P hps).
Proof using KL Hread Hq.
  intros T F. pose proof (full_valid _ _ F) as V. assert (HP : (0 < length P)%nat) by (destruct P; [done|cbn; lia]).
  destruct (shared_depth_run P (length P)) as [Hk _]; [lia|]. unfold free_shared. apply kwp_bind.
  eapply kwp_mono; [by apply (find_shared_run sbi ino other Hread Hq s l P)|].
  intros [chain nr] st (i & c & m & Sh & Hi & Hm & Hnz & Hleft). cbn [fst snd] in Sh.
  assert (Hnth : forall j, (0 < j < length P)%nat -> 0 <= nth j P 0) by (intros j Hj; by apply (full_nth _ P j F)).
  inversion Sh as [k Ek Hk1|i' s1 l1 Hi' W]; subst.
  - apply kwp_bind. eapply kwp_lift; [by apply last_snoc|]. apply kwp_bind, kwp_ret.
    set (k := shared_depth P (length P)) in *.
    assert (Etail : tail (entries s l P (k - 1) ++ [end_entry s l P (fun j => nth j P 0 - 1) (k - 1)]) =
      end_entry s l P (fun j => if (j =? k - 1)%nat then nth j P 0 - 1 else nth j P 0) <$> seq 1 (k - 1)).
    { replace (tail (entries s l P (k - 1) ++ [end_entry s l P (fun j => nth j P 0 - 1) (k - 1)]))
        with (tail (entries s l P (k - 1)) ++ [end_entry s l P (fun j => nth j P 0 - 1) (k - 1)]).
      2: { destruct (k - 1)%nat eqn:E; [lia|]. unfold entries. done. }
      assert (Eseq : seq 1 (k - 1) = seq 1 (k - 1 - 1) ++ [(k - 1)%nat]).
      { replace (k - 1)%nat with (S (k - 1 - 1)) at 1 by lia. rewrite seq_S. do 2 f_equal. lia. }
      rewrite tail_entries, Eseq, fmap_app. f_equal.
      - apply list_fmap_ext. intros a j Hj. apply lookup_seq in Hj as [-> Hj]. unfold end_entry.
        by rewrite (proj2 (Nat.eqb_neq _ _)) by lia.
      - cbn [fmap list_fmap]. unfold end_entry. by rewrite Nat.eqb_refl. }
    rewrite Etail. eapply kwp_mono; [apply (clear_shared s l P _ k [] s l _ T F); [by apply cut_refl|lia| |done|done]|].
    + intros j Hj. split; [apply Hnz; lia|]. split; [done|]. pose proof (Hnth j ltac:(lia)). destruct (j =? k - 1)%nat; lia.
    + intros [] s2 (l2 & C2). exists l2. eexists. split; [exact C2|]. intros F' F2.
      pose proof (step_paths sbi ino s l P T F F' Hk1 F2) as HH. cbn beta zeta in HH. fold k in HH. cbn [app].
      destruct (lexlt F' P); [by rewrite HH|done].
  - assert (Hlen : length (entries s l P i) = i) by (unfold entries; by rewrite length_fmap, length_seq). rewrite Hlen.
    apply kwp_bind. eapply kwp_lift; [apply entries_last; lia|]. rewrite tail_entries.
    set (r := k_ref s ⊎ refs (held (entries s l P i))).
    assert (Vi : valid_path (ic_of (s_blocksize_bits s)) (take i P)) by (apply valid_take; [done|lia]).
    assert (Hdb : (length P - i)%nat = depth_below (take i P)).
    { destruct P as [|o rest]; [cbn in HP; lia|]. destruct i as [|i]; [lia|]. destruct F as (_ & Fl & _). cbn [take depth_below length].
      rewrite length_take. cbn [length] in *. lia. }
    assert (Hne : take i P <> []) by (destruct P, i; cbn in *; lia || done).
    assert (Hfree : forall st', same_tree s1 st' -> k_ref st' = r ->
      kwp (free_one free (length P - i) ino (PVar (nodev s l (take i P)))) st' (fun _ s2 =>
        cut sbi ino s l [take i P] (with_ref (k_ref s) s2) l1 /\ k_ref s2 = r)).
    { intros st' S Hr. rewrite Hdb. eapply kwp_mono.
      - apply (free_top_cut sbi Hread ino (with_ref r s) l (take i P) st' l1); [by apply tree_at_ref|done|done|].
        by apply (wrote_same sbi ino s l _ 0 s1 l1).
      - intros [] s2 C. split; [|apply C]. apply (cut_same sbi ino (with_ref r s) l _ s2 l1); try done. by apply tree_at_ref. }
    apply kwp_bind. eapply (kwp_mono _ _ (fun _ s2 => cut sbi ino s l [take i P] (with_ref (k_ref s) s2) l1 /\ k_ref s2 = r)).
    + destruct (Z.eqb_spec (nodev s l (take i P)) 0) as [H0|H0]; cbn [negb].
      * specialize (Hfree (with_ref r s1) ltac:(done) eq_refl). rewrite H0 in Hfree. apply kwp_ret.
        assert (E0 : free_one free (length P - i) ino (PVar 0) (with_ref r s1) = Some (tt, with_ref r s1)) by (by destruct (length P - i)%nat).
        exact (kwp_eq _ _ _ _ E0 _ Hfree).
      * apply kwp_bind. rewrite free_branches_one. cbn [kfor].
        assert (Hmark : exists st', (match end_entry s l P (fun j => nth j P 0) <$> seq 1 (i - 1), bh (entry s l P (i - 1)) with
              | [], _ => mark_inode_dirty ino | _, Some b => mark_buffer_dirty b | _, None => klift None end) (with_ref r s1) = Some (tt, st') /\
              same_tree s1 st' /\ k_ref st' = r).
        { destruct i as [|[|i]]; [lia|by eexists|]. cbn [Nat.sub seq fmap list_fmap entry bh]. by eexists. }
        destruct Hmark as (st' & Est & S & Hr). eexists _, _. split; [exact Est|]. apply kwp_bind.
        eapply kwp_mono; [by apply (Hfree st')|]. intros [] s2 C. by apply kwp_ret.
    + intros [] s2 [C Hr2]. eapply kwp_mono.
      * apply (clear_shared s l P (fun j => nth j P 0) i [take i P] _ l1 s2 T F C); [lia| |done|done].
        intros j Hj. split; [by apply Hnz|]. split; [|pose proof (Hnth j ltac:(lia)); lia].
        rewrite killed_one. apply bool_decide_eq_false. intros Hp%prefix_length. rewrite !length_take in Hp. lia.
      * intros [] s3 (l3 & C3). exists l3. eexists. split; [exact C3|]. intros F' F2.
        pose proof (cut_paths sbi ino s l P T F i m F' Hleft Hi Hm F2) as HH. cbn beta zeta in HH. by rewrite <- app_assoc.
Qed.

(** The pointers of the inode behind a direct block. *)
Lemma direct_paths s l o F : full_path (ic_of (s_blocksize_bits s)) [o] -> full_path (ic_of (s_blocksize_bits s)) F ->
  let hps := ((fun x => [x]) <$> seqZ o (6 - o)) ++ roots_from 6 in
  if lexlt F [o] then killed hps F = true -> nodev s l F = 0 else killed hps F = true.
Proof using KL.
  intros (Ho & Hl & _) F2 hps. destruct F as [|x F]; [done|]. destruct F2 as (Hx & Hlx & _). cbn [length] in *. unfold levels in *.
  unfold hps, roots_from. rewrite killed_app, !killed_roots. cbn [lexlt].
  destruct (Z.ltb_spec x o); cbn [orb].
  - rewrite !bool_decide_eq_false_2 by lia. done.
  - destruct F; rewrite andb_false_r; apply orb_true_iff; rewrite !bool_decide_eq_true; lia.
Qed.

(** The first half of [gas_truncate_inode]: everything but the whole subtrees. *)
Lemma first_run s l o rest : tree_at sbi ino s l -> full_path (ic_of (s_blocksize_bits s)) (o :: rest) ->
  kwp (match rest with
       | [] => _ ← free_data free ino (PInode <$> seqZ o (DIRECT - o)); mret 0
       | _ => _ ← free_shared free other ino (o :: rest); mret (o + 1 - DIRECT)
       end) s (fun fw s' => fw = Z.max (o + 1 - DIRECT) 0 /\ exists l' hps, cut sbi ino s l hps s' l' /\
    (o = 0 -> forall pre, valid_path (ic_of (s_blocksize_bits s)) pre -> killed (hps ++ roots_from (Z.max (o + 1) 6)) pre = true) /\
    forall F, full_path (ic_of (s_blocksize_bits s)) F ->
      if lexlt F (o :: rest) then killed (hps ++ roots_from (Z.max (o + 1) 6)) F = true -> nodev s l F = 0
      else killed (hps ++ roots_from (Z.max (o + 1) 6)) F = true).
Proof using KL Hread Hq.
  intros T F. pose proof F as (Ho & Hl & _). unfold levels in Hl. destruct rest as [|o2 rest]; cbn [length] in Hl.
  - apply kwp_bind. change (free_data free ino) with (free_branches free 0 ino). rewrite free_branches_one.
    assert (Hks : Forall (fun x => 0 <= x <= 5) (seqZ o (DIRECT - o))).
    { apply List.Forall_forall. intros x Hx%list_elem_of_In%elem_of_seqZ. unfold DIRECT in Hx. lia. }
    eapply kwp_mono; [by apply (cut_roots sbi Hread ino _ Hks s l)|]. intros [] s' (l' & C). apply kwp_ret.
    split; [unfold DIRECT; lia|]. eexists l', _. split; [exact C|]. rewrite Z.max_r by lia. split; [|intros F' F2; by apply direct_paths].
    intros -> [|a pre]; [done|]. intros (Ha & _). unfold roots_from. rewrite killed_app, !killed_roots.
    apply orb_true_iff. unfold DIRECT. rewrite !bool_decide_eq_true. lia.
  - apply kwp_bind. eapply kwp_mono; [by apply (free_shared_run s l (o :: o2 :: rest))|].
    intros [] s' (l' & hps & C & G). apply kwp_ret. split; [unfold DIRECT; lia|]. exists l', hps. split; [done|].
    rewrite Z.max_l by lia. split; [lia|exact G].
Qed.

Lemma gas_truncate_inode_run s l i :
  tree_at sbi ino s l -> k_inodes s !! ino = Some i -> 0 <= i_size i ->
  s_nblocks sbi <= max_blocks (ic_of (s_blocksize_bits s)) ->
  kwp (block_truncate_page ino (i_size i)) s (fun _ s1 => data_only s l s1) ->
  let N := (i_size i + 2 ^ s_blocksize_bits s - 1) / 2 ^ s_blocksize_bits s in
  kwp (gas_truncate_inode free other block_truncate_page ino) s (fun _ s' => exists s1, data_only s l s1 /\
    if N <? s_nblocks sbi then exists l', truncated N s1 l s' l' else s' = s1).
Proof using KL Hread Hq.
  intros T Hi Hsz Hmax Hbtp N. pose proof (ba_mounted _ _ (proj1 T)) as M. pose proof (g_bits _ _ (mt_geom _ _ M)) as Hbits.
  assert (Hp : 0 < 2 ^ s_blocksize_bits s) by (apply Z.pow_pos_nonneg; lia).
  assert (HN : 0 <= N) by (apply Z.div_pos; lia).
  unfold gas_truncate_inode. apply kwp_bind. eapply kwp_sb; [apply (mt_info _ _ M)|]. apply kwp_bind, kwp_get.
  apply kwp_bind. eapply kwp_iref; [exact Hi|]. apply kwp_bind. eapply kwp_mono; [exact Hbtp|]. intros [] s1 D.
  rewrite Z.shiftr_div_pow2 by lia. fold N. destruct (Z.ltb_spec N (s_nblocks sbi)) as [Hlt|Hge].
  2: { assert (E : block_to_path (s_nblocks sbi) (s_blocksize_bits s) N = []).
       { unfold block_to_path. destruct (Z.ltb_spec N 0); [done|]. by rewrite (proj2 (Z.leb_le _ _)). }
       rewrite E. apply kwp_ret. by exists s1. }
  destruct (data_only_tree s l s1 T D) as (T1 & N1 & U1). pose proof (do_bits _ _ _ D) as Hb1.
  destruct (block_to_path_run (s_nblocks sbi) (s_blocksize_bits s) N) as [F EN]; [done|done|lia|].
  set (P := block_to_path (s_nblocks sbi) (s_blocksize_bits s) N) in *. rewrite <- Hb1 in F, EN.
  clearbody P. destruct P as [|o rest]; [done|].
  apply kwp_bind. eapply kwp_mono; [apply (first_run s1 l o rest T1 F)|].
  intros fw s2 (-> & l2 & hps & C2 & Hall & Hpaths). apply kwp_bind.
  eapply kwp_mono; [apply (roots_run o s2 l2); [apply C2|destruct F; lia]|]. intros [] s3 (l3 & C3).
  pose proof (cut_trans sbi ino s1 l hps s2 l2 _ s3 l3 T1 C2 C3) as C.
  destruct (ct_inodes _ _ _ _ _ _ _ C) as (j & Hj & Ej).
  apply kwp_bind, kwp_get, kwp_bind. eapply kwp_iref; [rewrite Ej; apply lookup_insert_eq|].
  apply kwp_bind, kwp_mod, kwp_mod. exists s1. split; [done|]. exists l3.
  apply (cut_truncated N s1 l _ s3 l3 _ (current_time s3) T1 C); try done.
  - intros block Hb path. unfold path. rewrite Hb1.
    destruct (block_to_path_run (s_nblocks sbi) (s_blocksize_bits s) block) as [F' EB]; [done|done|lia|].
    split; [by apply full_valid|]. rewrite <- Hb1 in *. specialize (Hpaths _ F').
    rewrite (path_block_lex (ic_of (s_blocksize_bits s1))) in Hpaths; [|apply Z.pow_pos_nonneg; lia|done|done].
    rewrite EB, EN in Hpaths. rewrite Z.leb_antisym. by destruct (block <? N).
  - intros E0 pre V. apply Hall; [|done]. destruct F as (Ho & Hl & HF). unfold levels in Hl. rewrite E0 in EN.
    destruct rest as [|x [|y [|z [|]]]]; cbn [length] in Hl; rewrite ?List.Forall_cons_iff in HF; cbn [path_block] in EN; unfold DIRCOUNT in EN; try nia.
  - intros i' Hi'. rewrite Ej, lookup_insert_eq in Hi'. simplify_eq. done.
Qed.
(** C5: [gas_truncate_inode] truncates: when every block can be read, all blocks of the
    file from the first block after its size on are unmapped and the others keep
    their mapping; exactly the blocks that are no longer in the tree are freed, data
    blocks and blocks of pointers; no block of another file changes, and of this file
    only blocks of pointers; the buffers taken are given back and the inode is
    stamped. A size beyond the device frees nothing. *)
Theorem gas_truncate_inode_spec s l i :
  tree_at sbi ino s l -> k_inodes s !! ino = Some i -> 0 <= i_size i ->
  s_nblocks sbi <= max_blocks (ic_of (s_blocksize_bits s)) ->
  kwp (block_truncate_page ino (i_size i)) s (fun _ s1 => data_only s l s1) ->
  let N := (i_size i + 2 ^ s_blocksize_bits s - 1) / 2 ^ s_blocksize_bits s in
  kwp (gas_truncate_inode free other block_truncate_page ino) s (fun _ s' => exists s1, data_only s l s1 /\
    if N <? s_nblocks sbi then exists l', truncated N s1 l s' l' else s' = s1).
Proof using KL Hread Hq. by apply gas_truncate_inode_run. Qed.

(** Eviction of a regular file, directory or symbolic link without links cuts the whole
    tree and ends in [gas_free_inode]. *)
Lemma gas_evict_inode_run (truncate_inode_pages invalidate_inode_buffers clear_inode gas_free_inode : Z -> K unit) s l i :
  tree_at sbi ino s l -> k_inodes s !! ino = Some i -> s_nblocks sbi <= max_blocks (ic_of (s_blocksize_bits s)) ->
  (forall st, truncate_inode_pages ino st = Some (tt, st)) -> (forall st, invalidate_inode_buffers ino st = Some (tt, st)) ->
  (forall st, clear_inode ino st = Some (tt, st)) ->
  S_ISREG (i_mode i) || S_ISDIR (i_mode i) || S_ISLNK (i_mode i) = true -> i_nlink i = 0 ->
  (forall st, tree_at sbi ino st l -> kwp (block_truncate_page ino 0) st (fun _ s1 => data_only st l s1)) ->
  let s0 := with_inodes (<[ino := set_size 0 i]> (k_inodes s)) s in
  exists s1 s2 l2,
    gas_evict_inode free other truncate_inode_pages invalidate_inode_buffers clear_inode gas_free_inode block_truncate_page ino s =
      gas_free_inode ino s2 /\ tree_at sbi ino s0 l /\ data_only s0 l s1 /\ truncated 0 s1 l s2 l2.
Proof using KL Hread Hq.
  intros T Hi Hmax H1 H2 H3 Hmode H0 Hbtp s0. unfold gas_evict_inode.
  rewrite (K_bind_some _ _ _ _ _ (H1 s)). assert (Ei : iref ino s = Some (i, s)) by (unfold iref; by rewrite Hi).
  rewrite (K_bind_some _ _ _ _ _ Ei), H0. cbn [Z.eqb]. assert (T0 : tree_at sbi ino s0 l).
  { apply (tree_at_ext sbi ino s); try done. unfold s0. cbn [k_inodes with_inodes]. rewrite lookup_insert_eq. eexists. split; [done|].
    destruct T as (_ & _ & j & Hj & <-). by simplify_eq. }
  assert (Hi0 : k_inodes s0 !! ino = Some (set_size 0 i)) by apply lookup_insert_eq.
  destruct (gas_truncate_inode_run s0 l (set_size 0 i) T0 Hi0) as ([] & s2 & E2 & s1 & D & HN); [done|done|by apply Hbtp|].
  pose proof (ba_mounted _ _ (proj1 T)) as M. pose proof (g_bits _ _ (mt_geom _ _ M)) as Hbits.
  assert (Hp : 0 < 2 ^ s_blocksize_bits s) by (apply Z.pow_pos_nonneg; lia).
  change (s_blocksize_bits s0) with (s_blocksize_bits s) in *. cbn [i_size set_size] in HN.
  rewrite (Z.div_small (0 + _ - 1)) in HN by lia. rewrite (proj2 (Z.ltb_lt 0 (s_nblocks sbi))) in HN.
  2: { pose proof (mt_geom _ _ M) as G. pose proof (g_nblocks _ _ G). pose proof (g_data _ _ G). pose proof (g_list _ _ G). pose proof (g_counts _ _ G). lia. }
  destruct HN as (l2 & R). exists s1, s2, l2. split; [|done].
  destruct (tr_inodes _ _ _ _ _ R) as (j & now & Hj & Hlj & Ej). rewrite (do_inodes _ _ _ D), Hi0 in Hj. injection Hj as <-.
  assert (Et : (_ ← iput_data ino (set_size 0 i); gas_truncate free other block_truncate_page ino) s = Some (tt, s2)).
  { rewrite K_bind_eq. cbn [iput_data kmod]. change (with_inodes _ s) with s0. unfold gas_truncate.
    erewrite K_bind_some by (unfold iref; by rewrite Hi0). cbn [i_mode set_size]. rewrite Hmode. exact E2. }
  rewrite (K_bind_some _ _ _ _ _ Et), (K_bind_some _ _ _ _ _ (H2 s2)), (K_bind_some _ _ _ _ _ (H3 s2)).
  erewrite K_bind_some by (unfold iref; rewrite Ej, lookup_insert_eq; done). cbn [i_nlink set_mtime set_ctime set_blkaddr set_size].
  by rewrite H0.
Qed.

(** C23: [gas_evict_inode] of a file with links left does nothing; of a regular file,
    directory or symbolic link without links it frees exactly the blocks of the file,
    blocks of pointers included, before it calls [gas_free_inode]. *)
Theorem gas_evict_inode_frees (truncate_inode_pages invalidate_inode_buffers clear_inode gas_free_inode : Z -> K unit) s l i :
  tree_at sbi ino s l -> k_inodes s !! ino = Some i -> s_nblocks sbi <= max_blocks (ic_of (s_blocksize_bits s)) ->
  (forall st, truncate_inode_pages ino st = Some (tt, st)) -> (forall st, invalidate_inode_buffers ino st = Some (tt, st)) ->
  (forall st, clear_inode ino st = Some (tt, st)) ->
  S_ISREG (i_mode i) || S_ISDIR (i_mode i) || S_ISLNK (i_mode i) = true ->
  (forall st, tree_at sbi ino st l -> kwp (block_truncate_page ino 0) st (fun _ s1 => data_only st l s1)) ->
  let evict := gas_evict_inode free other truncate_inode_pages invalidate_inode_buffers clear_inode gas_free_inode block_truncate_page ino in
  if i_nlink i =? 0 then
    exists s2, evict s = gas_free_inode ino s2 /\ k_ref s2 = k_ref s /\
      (forall x, in_zone sbi x -> ba_used sbi s2 x = true <-> ba_used sbi s x = true /\
         ~ exists pre, valid_path (ic_of (s_blocksize_bits s)) pre /\ nodev s l pre = x)
  else evict s = Some (tt, s).
Proof using KL Hread Hq.
  intros T Hi Hmax H1 H2 H3 Hmode Hbtp evict. destruct (Z.eqb_spec (i_nlink i) 0) as [H0|H0].
  2: { unfold evict, gas_evict_inode. assert (Ei : iref ino s = Some (i, s)) by (unfold iref; by rewrite Hi).
       rewrite (K_bind_some _ _ _ _ _ (H1 s)), (K_bind_some _ _ _ _ _ Ei), (proj2 (Z.eqb_neq _ _)) by done.
       erewrite K_bind_some by done. rewrite (K_bind_some _ _ _ _ _ (H2 s)), (K_bind_some _ _ _ _ _ (H3 s)), (K_bind_some _ _ _ _ _ Ei).
       by rewrite (proj2 (Z.eqb_neq _ _)). }
  destruct (gas_evict_inode_run truncate_inode_pages invalidate_inode_buffers clear_inode gas_free_inode s l i T Hi Hmax H1 H2 H3 Hmode H0 Hbtp)
    as (s1 & s2 & l2 & E & T0 & D & R). set (s0 := with_inodes _ s) in *. exists s2. split; [exact E|].
  split; [rewrite (tr_ref _ _ _ _ _ R); apply D|]. intros x Hx. destruct (data_only_tree s0 l s1 T0 D) as (T1 & N1 & U1).
  rewrite (tr_used _ _ _ _ _ R), U1 by done.
  destruct (ba_ext sbi s s0 (proj1 T)) as [_ U0]; [done..|]. rewrite U0 by done.
  pose proof (zone_nonzero sbi ino s l x T Hx) as Hx0. pose proof (do_bits _ _ _ D) as Hb1.
  change (s_blocksize_bits s0) with (s_blocksize_bits s) in *. rewrite Hb1.
  split; (intros [Hu Hn]; split; [done|]); intros (pre & V & Hpre); apply Hn; exists pre; (split; [done|]).
  - split; [by rewrite N1|]. rewrite (tr_empty _ _ _ _ _ R); [done|done|by rewrite Hb1].
  - destruct Hpre as [Hpre _]. by rewrite N1 in Hpre.
Qed.
End truncation.

(** ** A subtree that cannot be read *)

Section unreadable.
Context `{KL : KernelLaws} {new : K (Z * option errno)} {free : Z -> K unit} `{BA : !BlockAllocator new free}.

Lemma wrote_zero sbi ino s l hp s1 l1 : tree_at sbi ino s l -> wrote sbi ino s l hp 0 s1 l1 ->
  tree_at sbi ino s1 l1 /\ (forall x, in_zone sbi x -> ba_used sbi s1 x = ba_used sbi s x) /\
  forall pre, valid_path (ic_of (s_blocksize_bits s)) pre ->
    nodev s1 l1 pre = if bool_decide (hp `prefix_of` pre) then 0 else nodev s l pre.
Proof.
  intros T W. destruct T as (I & Tk & _). pose proof (wr_bits _ _ _ _ _ _ _ _ W) as Hb.
  destruct (ba_stable sbi s s1 I) as [I1 U1]; [apply W|intros b Hlt; apply (wr_buf _ _ _ _ _ _ _ _ W); left; intros [? _]; lia|].
  assert (N : forall pre, valid_path (ic_of (s_blocksize_bits s)) pre ->
    node (k_buf s1) l1 pre = if bool_decide (hp `prefix_of` pre) then Some 0 else node (k_buf s) l pre).
  { intros pre V. case_bool_decide as Hp; [|by apply (wr_other _ _ _ _ _ _ _ _ W)].
    destruct Hp as [rest ->]. rewrite (wr_below _ _ _ _ _ _ _ _ W). apply walk_zero. }
  split; [|split; [done|intros pre V; unfold nodev; rewrite N by done; by case_bool_decide]].
  split; [done|]. destruct (wr_inodes _ _ _ _ _ _ _ _ W) as (i & _ & _ & Ei).
  split; [|rewrite Ei, lookup_insert_eq; by eexists]. split; rewrite ?Hb.
  - rewrite (wr_len _ _ _ _ _ _ _ _ W). apply Tk.
  - intros pre v V. rewrite N by done. case_bool_decide; [congruence|]. intros Hv Hv0.
    destruct (to_zone _ _ _ Tk _ _ V Hv Hv0). split; [done|]. by rewrite U1.
  - intros p1 p2 v V1 V2. rewrite !N by done. do 2 case_bool_decide; try congruence. by apply Tk.
Qed.

(** A subtree whose root cannot be read is lost: [free_branches] clears the pointer to
    it, frees nothing, reports nothing, and afterwards the root is in use but on no path of
    the tree. *)
Theorem free_branches_unreadable sbi ino s l o :
  tree_at sbi ino s l -> 6 <= o <= 8 -> nodev s l [o] <> 0 -> read_ok (nodev s l [o]) = false ->
  kwp (free_branches free (levels o) ino [PInode o]) s (fun _ s' => exists l', tree_at sbi ino s' l' /\
    (forall x, in_zone sbi x -> ba_used sbi s' x = ba_used sbi s x) /\ ba_used sbi s' (nodev s l [o]) = true /\
    forall pre, valid_path (ic_of (s_blocksize_bits s)) pre -> nodev s' l' pre <> nodev s l [o]).
Proof.
  intros T Ho Hv Hrd. assert (V : valid_path (ic_of (s_blocksize_bits s)) [o]) by (split; [lia|]; split; [cbn; lia|constructor]).
  destruct (nodev_range sbi ino s l [o] T V Hv) as (Hz & Hu & _).
  assert (El : levels o = S (levels o - 1)) by (unfold levels; lia). rewrite El. cbn [free_branches kfor].
  apply kwp_bind, kwp_bind. eexists _, _. split; [by apply (entry_read sbi ino s l [o] 0 T V); [cbn; lia|]|]. cbv beta.
  change (take 1 [o]) with [o]. rewrite (proj2 (Z.eqb_neq _ 0)) by done. apply kwp_bind.
  eapply kwp_mono; [apply (write_root sbi ino s l o 0 T); lia|]. intros [] s1 (l1 & W).
  apply kwp_bind, kwp_bread; [intros Hr; congruence|]. intros _. apply kwp_ret, kwp_ret. exists l1.
  destruct (wrote_zero sbi ino s l [o] s1 l1 T W) as (T1 & U1 & N1). split; [done|]. split; [done|]. split; [by rewrite U1|].
  intros pre Vp. rewrite N1 by done. case_bool_decide as Hp; [congruence|]. intros E. apply Hp.
  destruct T as (I & Tk & Ti). assert (T0 : tree_at sbi ino s l) by done.
  rewrite (to_tree _ _ _ Tk pre [o] (nodev s l [o])); try done; [rewrite <- E|]; by apply (nodev_node sbi ino).
Qed.
End unreadable.
