(* ===== verification/Files.v ===== *)
(** * All files in memory

    The invariant of the block trees of all inodes in memory: each tree is in order and no
    block belongs to two files. [gas_get_block] and [gas_truncate_inode] keep it. *)

From S2P Require Import Prelude Mem Layout Kernel InodeTab Alloc Itree Tree TreeEdit Trunc Truncate.

Section files.
Context `{KL : KernelLaws} {new : K (Z * option errno)} {free : Z -> K unit} `{BA : !BlockAllocator new free}.

(** Block [v] is on a path of the tree with pointers [l]. *)
Definition owns (s : kst) (l : list Z) (v : Z) : Prop :=
  v <> 0 /\ exists pre, valid_path (ic_of (s_blocksize_bits s)) pre /\ node (k_buf s) l pre = Some v.

Record trees_ok (sbi : gas_sb_info) (s : kst) : Prop := {
  fo_max : s_nblocks sbi <= max_blocks (ic_of (s_blocksize_bits s));
  fo_ino : forall n i, k_inodes s !! n = Some i -> i_ino i = n /\ GAS_ROOT_INO <= n < s_ninodes sbi;
  fo_tree : forall n i, k_inodes s !! n = Some i -> tree_ok sbi s (blkaddr i);
  fo_apart : forall n1 n2 i1 i2 v, k_inodes s !! n1 = Some i1 -> k_inodes s !! n2 = Some i2 ->
    owns s (blkaddr i1) v -> owns s (blkaddr i2) v -> n1 = n2 }.

(** The allocator's invariant, and every file in order. *)
Definition files_ok (sbi : gas_sb_info) (s : kst) : Prop := ba_inv sbi s /\ trees_ok sbi s.

Lemma files_tree sbi s n i : files_ok sbi s -> k_inodes s !! n = Some i -> tree_at sbi n s (blkaddr i).
Proof. intros [I F] Hi. split; [done|]. split; [by eapply fo_tree|]. by exists i. Qed.

Lemma owns_used sbi s l v : tree_ok sbi s l -> owns s l v -> in_zone sbi v /\ ba_used sbi s v = true.
Proof. intros T (Hv & pre & V & E). by eapply to_zone. Qed.

(** A tree whose blocks have not changed and are in use is still in order. *)
Lemma tree_kept sbi sbi' s s' l : tree_ok sbi s l -> same_sb sbi sbi' -> s_blocksize_bits s' = s_blocksize_bits s ->
  (forall v, owns s l v -> k_buf s' !! v = k_buf s !! v /\ ba_used sbi' s' v = true) ->
  tree_ok sbi' s' l /\ forall v, owns s' l v <-> owns s l v.
Proof.
  intros T Hsb Hb HH.
  assert (N : forall pre, valid_path (ic_of (s_blocksize_bits s)) pre -> node (k_buf s') l pre = node (k_buf s) l pre).
  { apply node_same. intros pre v V E Hv. apply HH. split; [done|]. by exists pre. }
  split.
  - split; rewrite ?Hb; [apply T| |].
    + intros pre v V. rewrite N by done. intros E Hv. split.
      * apply (in_zone_same _ _ _ Hsb). by destruct (to_zone _ _ _ T pre v).
      * apply HH. split; [done|]. by exists pre.
    + intros p1 p2 v V1 V2. rewrite !N by done. by apply T.
  - intros v. unfold owns. rewrite Hb. split; intros (Hv & pre & V & E); (split; [done|]); exists pre; (split; [done|]).
    + by rewrite <- N.
    + by rewrite N.
Qed.

(** One inode has a new tree, with blocks of its old tree and blocks that were free; the
    blocks of the other files are untouched and in use. *)
Lemma trees_change sbi sbi' s s' ino i' :
  trees_ok sbi s -> same_sb sbi sbi' -> s_blocksize_bits s' = s_blocksize_bits s ->
  k_inodes s' = <[ino := i']> (k_inodes s) -> i_ino i' = ino -> GAS_ROOT_INO <= ino < s_ninodes sbi ->
  tree_ok sbi' s' (blkaddr i') ->
  (forall v, in_zone sbi v -> ba_used sbi s v = true -> (forall i, k_inodes s !! ino = Some i -> ~ owns s (blkaddr i) v) ->
     k_buf s' !! v = k_buf s !! v /\ ba_used sbi' s' v = true) ->
  (forall v, owns s' (blkaddr i') v ->
     (exists i, k_inodes s !! ino = Some i /\ owns s (blkaddr i) v) \/ ba_used sbi s v = false) ->
  trees_ok sbi' s'.
Proof.
  intros F Hsb Hb Hin Hino Hr T' Hkeep Hnew.
  assert (Hoth : forall n i, n <> ino -> k_inodes s !! n = Some i ->
    tree_ok sbi' s' (blkaddr i) /\ forall v, owns s' (blkaddr i) v <-> owns s (blkaddr i) v).
  { intros n i Hne Hi. pose proof (fo_tree _ _ F n i Hi) as T. apply (tree_kept sbi sbi' s s'); try done.
    intros v Hv. destruct (owns_used _ _ _ _ T Hv). apply Hkeep; [done|done|]. intros j Hj Hjv.
    apply Hne. by apply (fo_apart _ _ F n ino i j v). }
  assert (Hsep : forall n i v, n <> ino -> k_inodes s !! n = Some i -> owns s' (blkaddr i') v -> owns s' (blkaddr i) v -> False).
  { intros n i v Hne Hi Hv' Hv%(Hoth n i Hne Hi). destruct (owns_used _ _ _ _ (fo_tree _ _ F n i Hi) Hv) as [_ Hu].
    destruct (Hnew v Hv') as [(j & Hj & Hjv)|]; [|congruence]. apply Hne. by apply (fo_apart _ _ F n ino i j v). }
  assert (Esb : s_nblocks sbi' = s_nblocks sbi /\ s_ninodes sbi' = s_ninodes sbi) by (by destruct Hsb as (v & w & ->)).
  destruct Esb as [E1 E2]. split; rewrite ?Hb, ?E1, ?E2, ?Hin; [apply F| | |].
  - intros n i [[<- <-]|[Hne Hi]]%lookup_insert_Some; [done|]. by apply F.
  - intros n i [[<- <-]|[Hne Hi]]%lookup_insert_Some; [done|]. by eapply Hoth.
  - intros n1 n2 i1 i2 v [[<- <-]|[Hne1 Hi1]]%lookup_insert_Some [[<- <-]|[Hne2 Hi2]]%lookup_insert_Some H1 H2.
    + done.
    + exfalso. by eapply (Hsep n2).
    + exfalso. by eapply (Hsep n1).
    + apply (fo_apart _ _ F n1 n2 i1 i2 v); try done; [by apply (Hoth n1)|by apply (Hoth n2)].
Qed.

(** Nothing the trees depend on has changed. *)
Lemma trees_same sbi sbi' s s' :
  trees_ok sbi s -> same_sb sbi sbi' -> s_blocksize_bits s' = s_blocksize_bits s -> k_inodes s' = k_inodes s ->
  (forall v, in_zone sbi v -> ba_used sbi s v = true -> k_buf s' !! v = k_buf s !! v /\ ba_used sbi' s' v = true) ->
  trees_ok sbi' s'.
Proof.
  intros F Hsb Hb Hin Hkeep.
  assert (Hoth : forall n i, k_inodes s !! n = Some i ->
    tree_ok sbi' s' (blkaddr i) /\ forall v, owns s' (blkaddr i) v <-> owns s (blkaddr i) v).
  { intros n i Hi. pose proof (fo_tree _ _ F n i Hi) as T. apply (tree_kept sbi sbi' s s'); try done.
    intros v Hv. destruct (owns_used _ _ _ _ T Hv). by apply Hkeep. }
  assert (Esb : s_nblocks sbi' = s_nblocks sbi /\ s_ninodes sbi' = s_ninodes sbi) by (by destruct Hsb as (v & w & ->)).
  destruct Esb as [E1 E2]. split; rewrite ?Hb, ?E1, ?E2, ?Hin; [apply F|apply F| |].
  - intros n i Hi. by eapply Hoth.
  - intros n1 n2 i1 i2 v H1 H2 O1 O2. apply (fo_apart _ _ F n1 n2 i1 i2 v); try done; [by apply (Hoth n1)|by apply (Hoth n2)].
Qed.

(** An inode with other attributes. *)
Lemma files_attr sbi s s' n i i' : files_ok sbi s -> k_inodes s !! n = Some i -> blkaddr i' = blkaddr i -> i_ino i' = i_ino i ->
  s_fs_info s' = s_fs_info s -> s_blocksize_bits s' = s_blocksize_bits s -> k_buf s' = k_buf s ->
  k_inodes s' = <[n := i']> (k_inodes s) -> files_ok sbi s'.
Proof.
  intros [I F] Hi Hl Hino E1 E2 E3 E4. destruct (ba_ext sbi s s' I E1 E2 E3) as [I' U]. split; [done|].
  destruct (fo_ino _ _ F n i Hi) as [Hn Hr]. destruct (tree_kept sbi sbi s s' (blkaddr i)) as [T' O']; [by eapply fo_tree|apply same_sb_refl|done| |].
  { intros v Hv. rewrite E3. destruct (owns_used _ _ _ _ (fo_tree _ _ F n i Hi) Hv). by rewrite U. }
  apply (trees_change sbi sbi s s' n i'); try done; [apply same_sb_refl|congruence|by rewrite Hl| |].
  - intros v Hz Hu _. by rewrite E3, U.
  - intros v. rewrite Hl. intros Hv%O'. left. by exists i.
Qed.

(** ** Mapping blocks *)

Lemma create_files sbi ino s i path st' err r :
  files_ok sbi s -> k_inodes s !! ino = Some i -> full_path (ic_of (s_blocksize_bits s)) path -> k_ref st' = k_ref s ->
  creation sbi ino s (blkaddr i) path st' err r -> exists sbi', same_sb sbi sbi' /\ files_ok sbi' st'.
Proof.
  intros [I F] Hi Fp Hr C. pose proof (files_tree sbi s ino i (conj I F) Hi) as T.
  destruct (fo_ino _ _ F ino i Hi) as [Hino Hrange]. destruct C as [-> Hnz|n sbi' l' M|n sbi' s1 H0 Hl Hz -> U T' Hpre|n -> Hl Hnz Hrd].
  - exists sbi. split; [apply same_sb_refl|done].
  - exists sbi'. split; [apply M|]. destruct (mp_inodes _ _ _ _ _ _ _ _ _ M) as (i0 & now & Hi0 & _ & Hi'). simplify_eq.
    destruct (mp_tree _ _ _ _ _ _ _ _ _ M) as (I' & T' & _). split; [done|].
    apply (trees_change sbi sbi' s st' (i_ino i) (set_ctime now (set_blkaddr i l'))); try done; [apply M|apply M| |].
    + intros v Hz Hu Hnot. specialize (Hnot i Hi). assert (Hp := mp_hole _ _ _ _ _ _ _ _ _ M). split.
      * apply (mp_buf _ _ _ _ _ _ _ _ _ M); [done|done|]. intros E. destruct (decide (n = 1%nat)) as [->|Hn1].
        { assert (v = 0) as -> by (rewrite E; done). destruct (zone_small sbi s 0 I Hz). lia. }
        apply Hnot. assert (V : valid_path (ic_of (s_blocksize_bits s)) (take (n - 1) path)) by (apply valid_take; [by apply full_valid|lia]).
        split; [rewrite E; apply Hp; lia|]. exists (take (n - 1) path). split; [done|]. rewrite E. by apply (nodev_node sbi (i_ino i)).
      * apply (mp_used _ _ _ _ _ _ _ _ _ M); [done|]. by left.
    + intros v (Hv & pre & V & E). rewrite (mp_bits _ _ _ _ _ _ _ _ _ M) in V.
      destruct (mp_nodes _ _ _ _ _ _ _ _ _ M pre v V E Hv) as [E'|?]; [left|by right]. exists i. split; [done|]. split; [done|]. by exists pre.
  - exists sbi'. split; [apply U|]. split; [apply T'|]. destruct (ba_ext sbi' s1 (with_ref (k_ref s) s1)) as [_ U']; [apply U|done..|].
    apply (trees_same sbi sbi' s); [done|apply U|apply U|apply U|]. intros v Hz' Hu. split; [by apply (up_buf _ _ _ _ _ U)|].
    rewrite U' by (by apply (in_zone_same _ _ _ (up_sb _ _ _ _ _ U))). by rewrite (up_used _ _ _ _ _ U).
  - exists sbi. split; [apply same_sb_refl|done].
Qed.

Section create.
Variables (other : K unit) (fuel : nat).
Hypothesis other_idle : forall st, other st = Some (tt, st).

(** Nothing happens to the block maps and the trees; a range the file cannot have is an error. *)
Lemma get_block_files sbi ino s i block : files_ok sbi s -> k_inodes s !! ino = Some i -> 0 <= block ->
  kwp (gas_get_block new free other (S fuel) ino block true) s (fun res s' =>
    (exists sbi', same_sb sbi sbi' /\ files_ok sbi' s') /\ k_ref s' = k_ref s /\
    (block < s_nblocks sbi -> creation sbi ino s (blkaddr i) (block_to_path (s_nblocks sbi) (s_blocksize_bits s) block) s' (fst res) (snd res)) /\
    (s_nblocks sbi <= block -> s' = s /\ fst res = Some EIO)).
Proof using KL BA other_idle.
  intros FO Hi Hb. pose proof (files_tree sbi s ino i FO Hi) as T. assert (M := ba_mounted _ _ (proj1 T)).
  destruct (Z_lt_le_dec block (s_nblocks sbi)) as [Hlt|Hge].
  - eapply kwp_mono; [apply (gas_get_block_create_run sbi ino s (blkaddr i) other fuel block); [done|done|apply FO|done]|].
    intros res st' [Hr C]. split; [|split; [done|split; [done|lia]]]. eapply create_files; [done|done| |done|exact C].
    apply (block_to_path_run (s_nblocks sbi) (s_blocksize_bits s) block); [apply (g_bits _ _ (mt_geom _ _ M))|apply FO|lia].
  - unfold gas_get_block. apply kwp_bind. eapply kwp_sb; [apply (mt_info _ _ M)|]. apply kwp_bind, kwp_get.
    unfold block_to_path. rewrite (proj2 (Z.ltb_ge block 0)), (proj2 (Z.leb_le _ block)) by lia. apply kwp_ret.
    split; [|split; [done|split; [lia|done]]]. exists sbi. split; [apply same_sb_refl|done].
Qed.
End create.

(** ** Truncating *)

Lemma data_files sbi ino s i s1 : files_ok sbi s -> k_inodes s !! ino = Some i -> data_only s (blkaddr i) s1 ->
  files_ok sbi s1.
Proof.
  intros FO Hi D. pose proof (files_tree sbi s ino i FO Hi) as T. destruct FO as [I F].
  destruct (data_only_tree sbi ino s (blkaddr i) s1 T D) as ((I1 & T1 & _) & N1 & U1). split; [done|].
  destruct (fo_ino _ _ F ino i Hi) as [Hino Hr].
  apply (trees_change sbi sbi s s1 ino i); try done; [apply same_sb_refl|apply D|rewrite insert_id by done; apply D| |].
  - intros v Hz Hu Hnot. split; [|by rewrite U1]. apply (do_buf _ _ _ D). intros (path & Fp & E & Hv).
    apply (Hnot i Hi). split; [done|]. exists path. split; [by apply full_valid|]. subst v.
    by apply (nodev_node sbi ino); [|apply full_valid].
  - intros v (Hv & pre & V & E). rewrite (do_bits _ _ _ D) in V. left. exists i. split; [done|]. split; [done|].
    exists pre. split; [done|]. apply nodev_eq in E. rewrite N1 in E by done. subst v. by apply (nodev_node sbi ino).
Qed.

Lemma truncated_files sbi ino N s i s' l' : files_ok sbi s -> k_inodes s !! ino = Some i ->
  truncated sbi ino N s (blkaddr i) s' l' -> files_ok sbi s'.
Proof.
  intros FO Hi R. pose proof (files_tree sbi s ino i FO Hi) as T. destruct FO as [I F].
  destruct (tr_inodes _ _ _ _ _ _ _ R) as (i0 & now & Hi0 & _ & Hi'). simplify_eq.
  destruct (tr_tree _ _ _ _ _ _ _ R) as (I' & T' & j & Hj & Hl). split; [done|].
  assert (Hb : s_blocksize_bits s' = s_blocksize_bits s).
  { pose proof (tr_bits _ _ _ _ _ _ _ R). done. }
  destruct (fo_ino _ _ F ino i Hi) as [Hino Hr].
  assert (Hown : forall v, in_zone sbi v -> (forall pre, valid_path (ic_of (s_blocksize_bits s)) pre -> nodev s (blkaddr i) pre = v -> owns s (blkaddr i) v)).
  { intros v Hz pre V E. destruct (zone_small sbi s v I Hz). split; [lia|]. exists pre. split; [done|]. subst v.
    by apply (nodev_node sbi ino). }
  apply (trees_change sbi sbi s s' ino (set_mtime now (set_ctime now (set_blkaddr i l')))); try done; [apply same_sb_refl| |].
  - intros v Hz Hu Hnot. specialize (Hnot i Hi). split.
    + apply (tr_buf _ _ _ _ _ _ _ R); [done|]. intros pre V E. destruct Hnot. by eapply Hown.
    + apply (tr_used _ _ _ _ _ _ _ R); [done|]. split; [done|]. intros (pre & V & E & _). destruct Hnot. by eapply Hown.
  - intros v (Hv & pre & V & E). rewrite Hb in V. left. exists i. split; [done|]. split; [done|]. exists pre. split; [done|].
    apply nodev_eq in E. cbn [blkaddr set_mtime set_ctime set_blkaddr] in E.
    destruct (tr_nodes _ _ _ _ _ _ _ R pre V) as [E0|E0]; [congruence|]. rewrite E0 in E. subst v. by apply (nodev_node sbi ino).
Qed.
End files.
