(* ===== verification/FileSys.v ===== *)
(** * The files and inodes of the mounted file system

    The allocators of kern/bitmap.c and the block trees together: every inode in memory
    has its number in use and a tree in order, and no block belongs to two files.
    [gas_get_block], [gas_truncate_inode], [gas_new_inode] and [gas_evict_inode] keep
    this invariant. *)

From S2P Require Import Prelude Mem Layout Kernel InodeTab Alloc KBitmap Itree Tree TreeEdit Trunc Truncate Files.

(** ** The block allocator leaves the inode map alone *)

(** The numbers of [X] are in use, and the reserved ones. *)
Definition iam_inv (X : gset Z) (sbi : gas_sb_info) (s : kst) : Prop :=
  iam_reserved sbi s /\
  forall n, n ∈ X -> 0 <= n < s_iam_blocks sbi * s_bits_per_block sbi /\ iam_used sbi s n = true.

Section iam.
Context `{KernelLaws}.

Lemma iam_used_same s sbi s' sbi' x :
  mounted s sbi -> iam_bh sbi' = iam_bh sbi -> s_bits_per_block sbi' = s_bits_per_block sbi ->
  (forall b, s_bam_blocks sbi < b < s_inode_list_start sbi -> k_buf s' !! b = k_buf s !! b) ->
  0 <= x < s_iam_blocks sbi * s_bits_per_block sbi -> iam_used sbi' s' x = iam_used sbi s x.
Proof.
  intros M E1 E2 Hbuf Hx. assert (G := mt_geom _ _ M). assert (W := iam_wf _ _ M). pose proof (g_list _ _ G).
  unfold iam_used, map_used. rewrite E1, E2.
  destruct (map_index (s_iam_blocks sbi) (s_bits_per_block sbi) x) as [Hk _]; [apply W|done|].
  rewrite (iam_bh_geom _ _ _ G) by done. by rewrite Hbuf by lia.
Qed.

Lemma iam_inv_same X s sbi s' sbi' : mounted s sbi -> iam_bh sbi' = iam_bh sbi ->
  s_bits_per_block sbi' = s_bits_per_block sbi -> s_iam_blocks sbi' = s_iam_blocks sbi -> s_ninodes sbi' = s_ninodes sbi ->
  (forall b, s_bam_blocks sbi < b < s_inode_list_start sbi -> k_buf s' !! b = k_buf s !! b) ->
  iam_inv X sbi s -> iam_inv X sbi' s'.
Proof.
  intros M E1 E2 E3 E4 Hbuf [R HX]. split.
  - intros x. rewrite E2, E3, E4. intros Hx Hres. by rewrite (iam_used_same s sbi s' sbi'), R.
  - intros n Hn. rewrite E2, E3. destruct (HX n Hn) as [Hr Hu]. by rewrite (iam_used_same s sbi s' sbi').
Qed.

(** The allocator of Alloc.v, with the inode numbers of [X] in use. *)
Definition gas_allocator_with (X : gset Z) : BlockAllocator gas_new_block gas_free_block.
Proof.
  refine {| ba_inv := fun sbi s => bam_inv sbi s /\ iam_inv X sbi s; ba_used := bam_used |}.
  - intros sbi s [I _]. exact (ba_mounted _ _ I).
  - intros sbi s [I IX]. assert (M := ba_mounted _ _ I).
    assert (Q : kwp gas_new_block s (fun r s' => s' = s \/ exists k m', 0 <= k < s_bam_blocks sbi /\ s' = put_map s (set_bam_last k sbi) (1 + k) m')).
    { apply (gas_new_block_run s sbi _ M); [by left|]. intros x m m' k Hx Hu _ Hk _ _ _. right. by exists k, m'. }
    eapply kwp_mono; [exact (kwp_and _ _ _ _ (ba_new _ _ I) Q)|].
    intros [b [e|]] s' [Hnew Hs]; [done|]. destruct Hnew as (Hz & Hu & sbi' & Hsb & I' & F & Hx).
    split; [done|]. split; [done|]. exists sbi'. split; [done|]. split; [|done]. split; [done|].
    assert (Hbuf : forall b, s_bam_blocks sbi < b < s_inode_list_start sbi -> k_buf s' !! b = k_buf s !! b).
    { destruct Hs as [->|(k & m' & Hk & ->)]; [done|]. intros c Hc. cbn. by rewrite lookup_insert_ne by lia. }
    apply (iam_inv_same X s sbi); [done|by destruct Hsb as (v & w & ->)..|exact Hbuf|done].
  - intros sbi s b [I IX] Hz. assert (M := ba_mounted _ _ I).
    assert (Q : kwp (gas_free_block b) s (fun _ s' => exists k m', 0 <= k < s_bam_blocks sbi /\ s' = put_map s sbi (1 + k) m')).
    { apply (gas_free_block_run s sbi b _ M Hz). intros m m' _ _ Hk s' _. by eexists _, m'. }
    eapply kwp_mono; [exact (kwp_and _ _ _ _ (ba_free _ _ _ I Hz) Q)|].
    intros [] s' [(I' & F & Hx) (k & m' & Hk & ->)]. split; [|done]. split; [done|].
    apply (iam_inv_same X s sbi); try done. intros c Hc. cbn. by rewrite lookup_insert_ne by lia.
  - intros sbi s b [I _] Hb Hz. exact (ba_free_outside _ _ _ I Hb Hz).
  - intros sbi s s' [I IX] M' Hbuf. destruct (bam_stable sbi s s' I M' Hbuf) as [I' U]. split; [|done]. split; [done|].
    assert (M := ba_mounted _ _ I). apply (iam_inv_same X s sbi); try done. intros b Hb. apply Hbuf.
    pose proof (g_counts _ _ (mt_geom _ _ M)). pose proof (g_data _ _ (mt_geom _ _ M)). lia.
Defined.

(** The invariant: the allocators' invariants with the numbers of all inodes in memory in
    use, and the trees of all files. *)
Definition fs_ok (sbi : gas_sb_info) (s : kst) : Prop :=
  files_ok (BA := gas_allocator_with (dom (k_inodes s))) sbi s.

(** The trees do not depend on the inode numbers in use. *)
Lemma trees_with X Y sbi s : trees_ok (BA := gas_allocator_with X) sbi s -> trees_ok (BA := gas_allocator_with Y) sbi s.
Proof.
  intros [F1 F2 F3 F4]. split; [done|done| |done]. intros n i Hi. destruct (F3 n i Hi) as [T1 T2 T3]. by split.
Qed.
End iam.

Section operations.
Context `{KL : KernelLaws}.
Variables (other : K unit) (fuel : nat).
Hypothesis other_idle : forall st, other st = Some (tt, st).

Lemma fs_mounted sbi s : fs_ok sbi s -> mounted s sbi.
Proof. intros [[[M _] _] _]. exact M. Qed.

Lemma fs_tree sbi s n i : fs_ok sbi s -> k_inodes s !! n = Some i ->
  tree_at (BA := gas_allocator_with (dom (k_inodes s))) sbi n s (blkaddr i).
Proof. intros F Hi. by apply files_tree. Qed.

(** One inode in memory. *)
Lemma fs_ok_one sbi s n i : tree_at (BA := gas_allocator) sbi n s (blkaddr i) -> k_inodes s = {[n := i]} ->
  s_nblocks sbi <= max_blocks (ic_of (s_blocksize_bits s)) -> i_ino i = n -> GAS_ROOT_INO <= n < s_ninodes sbi ->
  iam_reserved sbi s -> iam_used sbi s n = true -> fs_ok sbi s.
Proof.
  intros (I & [T1 T2 T3] & _) Ei Hmax Hino Hr R Hu. assert (M := ba_mounted _ _ I). pose proof (g_iam_room _ _ (mt_geom _ _ M)).
  unfold GAS_ROOT_INO in *. split; [split; [done|split; [done|]]|].
  - intros m. rewrite Ei, dom_singleton_L. intros ->%elem_of_singleton. split; [lia|done].
  - split; rewrite ?Ei; [done| | |].
    + by intros m j [<- <-]%lookup_singleton_Some.
    + intros m j [<- <-]%lookup_singleton_Some. by split.
    + by intros n1 n2 i1 i2 v [<- <-]%lookup_singleton_Some [<- <-]%lookup_singleton_Some.
Qed.

(** Only attributes and block pointers of inode [ino] differ. *)
Definition inode_step (ino : Z) (s s' : kst) : Prop :=
  k_ref s' = k_ref s /\ (forall n, n <> ino -> k_inodes s' !! n = k_inodes s !! n) /\
  forall i, k_inodes s !! ino = Some i -> exists i', k_inodes s' !! ino = Some i' /\
    exists c l, i' = set_ctime c (set_blkaddr i l).

Lemma inode_step_dom ino s s' : inode_step ino s s' -> is_Some (k_inodes s !! ino) -> dom (k_inodes s') = dom (k_inodes s).
Proof.
  intros (_ & Hn & Hi) [i Ei]. destruct (Hi i Ei) as (i' & Ei' & _). apply set_eq. intros n. rewrite !elem_of_dom.
  destruct (decide (n = ino)) as [->|Hne]; [|by rewrite Hn]. rewrite Ei, Ei'. by split; eexists.
Qed.

Lemma same_inode_step ino s s' : k_ref s' = k_ref s -> k_inodes s' = k_inodes s -> inode_step ino s s'.
Proof.
  intros E1 E2. split; [done|]. split; [by rewrite E2|]. intros i Hi. exists i. split; [congruence|].
  exists (i_ctime i), (blkaddr i). by destruct i.
Qed.

Lemma creation_step (BA : BlockAllocator gas_new_block gas_free_block) sbi ino s i path s' err r :
  k_inodes s !! ino = Some i -> k_ref s' = k_ref s ->
  creation (BA := BA) sbi ino s (blkaddr i) path s' err r -> inode_step ino s s'.
Proof.
  intros Hi Hr C. destruct C as [-> Hnz|n sbi' l' M|n sbi' s1 H0 Hl Hz -> U T' Hpre|n -> Hl Hnz Hrd].
  - by apply same_inode_step.
  - destruct (mp_inodes _ _ _ _ _ _ _ _ _ M) as (i0 & now & Hi0 & _ & Hi'). split; [done|]. rewrite Hi'. split.
    + intros n' Hne. by rewrite lookup_insert_ne.
    + intros i1 Hi1. simplify_eq. rewrite lookup_insert_eq. eexists. split; [done|]. by eexists _, _.
  - apply same_inode_step; [done|apply U].
  - by apply same_inode_step.
Qed.

Lemma fs_get_block sbi ino s i block : fs_ok sbi s -> k_inodes s !! ino = Some i -> 0 <= block ->
  kwp (gas_get_block gas_new_block gas_free_block other (S fuel) ino block true) s (fun _ s' =>
    (exists sbi', same_sb sbi sbi' /\ fs_ok sbi' s') /\ inode_step ino s s').
Proof using KL other_idle.
  intros F Hi Hb. unfold fs_ok in F. set (BA := gas_allocator_with (dom (k_inodes s))) in *.
  eapply kwp_mono; [exact (get_block_files (BA := BA) other fuel other_idle sbi ino s i block F Hi Hb)|].
  intros res s' ((sbi' & Hsb & F') & Hr & C & Hout). assert (St : inode_step ino s s').
  { destruct (Z_lt_le_dec block (s_nblocks sbi)) as [Hlt|Hge]; [by eapply creation_step, C|].
    destruct (Hout Hge) as [-> _]. by apply same_inode_step. }
  split; [|done]. exists sbi'. split; [done|]. unfold fs_ok. rewrite (inode_step_dom _ _ _ St) by done. exact F'.
Qed.

Lemma fs_attr sbi s s' n i i' : fs_ok sbi s -> k_inodes s !! n = Some i -> blkaddr i' = blkaddr i -> i_ino i' = i_ino i ->
  s_fs_info s' = s_fs_info s -> s_blocksize_bits s' = s_blocksize_bits s -> k_buf s' = k_buf s ->
  k_inodes s' = <[n := i']> (k_inodes s) -> fs_ok sbi s'.
Proof.
  intros F Hi Hl Hino E1 E2 E3 E4. unfold fs_ok.
  replace (dom (k_inodes s')) with (dom (k_inodes s)).
  { by apply (files_attr (BA := gas_allocator_with (dom (k_inodes s))) sbi s s' n i i'). }
  rewrite E4, dom_insert_L. apply elem_of_dom_2 in Hi. clear -Hi. set_solver.
Qed.

(** ** Truncation *)

(** No block of the file after its size is mapped. *)
Definition cut_off (sbi : gas_sb_info) (s : kst) (i : inode) : Prop :=
  forall block, 0 <= block < s_nblocks sbi -> i_size i <= block * 2 ^ s_blocksize_bits s ->
    nodev s (blkaddr i) (block_to_path (s_nblocks sbi) (s_blocksize_bits s) block) = 0.

Lemma fs_truncate_run block_truncate_page sbi s ino i : (forall x, in_zone sbi x -> read_ok x = true) ->
  (forall (BA : BlockAllocator gas_new_block gas_free_block) l size st,
     tree_at (BA := BA) sbi ino st l -> kwp (block_truncate_page ino size) st (fun _ s1 => data_only st l s1)) ->
  fs_ok sbi s -> k_inodes s !! ino = Some i -> 0 <= i_size i ->
  kwp (gas_truncate_inode gas_free_block other block_truncate_page ino) s (fun _ s' => fs_ok sbi s' /\ k_ref s' = k_ref s /\
    exists i', k_inodes s' = <[ino := i']> (k_inodes s) /\ i_size i' = i_size i /\ i_mode i' = i_mode i /\ cut_off sbi s' i').
Proof using KL other_idle.
  intros Hread Hpage F Hi Hs. pose proof (g_bits _ _ (mt_geom _ _ (fs_mounted _ _ F))) as Hbits.
  unfold fs_ok in F. set (BA := gas_allocator_with (dom (k_inodes s))) in *.
  pose proof (files_tree sbi s ino i F Hi) as T.
  eapply kwp_mono; [apply (gas_truncate_inode_run (BA := BA) sbi ino other block_truncate_page Hread other_idle s (blkaddr i) i T Hi Hs);
    [apply F|by apply (Hpage BA)]|].
  intros [] s' (s1 & D & HN). pose proof (data_files sbi ino s i s1 F Hi D) as F1.
  assert (Ed : dom (k_inodes s1) = dom (k_inodes s)) by (by rewrite (do_inodes _ _ _ D)).
  assert (Hi1 : k_inodes s1 !! ino = Some i) by (by rewrite (do_inodes _ _ _ D)).
  assert (HC : forall block, i_size i <= block * 2 ^ s_blocksize_bits s ->
    (i_size i + 2 ^ s_blocksize_bits s - 1) / 2 ^ s_blocksize_bits s <= block).
  { intros block Hb. assert (0 < 2 ^ s_blocksize_bits s) by (apply Z.pow_pos_nonneg; lia).
    apply Z.lt_succ_r, Z.div_lt_upper_bound; [done|nia]. }
  destruct (Z.ltb_spec ((i_size i + 2 ^ s_blocksize_bits s - 1) / 2 ^ s_blocksize_bits s) (s_nblocks sbi)) as [Hlt|Hge].
  - destruct HN as (l' & R). pose proof (truncated_files sbi ino _ s1 i s' l' F1 Hi1 R) as F2.
    destruct (tr_inodes _ _ _ _ _ _ _ R) as (i0 & now & Hi0 & El & Ei). rewrite Hi1 in Hi0. injection Hi0 as <-.
    split; [|split; [by rewrite (tr_ref _ _ _ _ _ _ _ R); apply D|]].
    + unfold fs_ok. replace (dom (k_inodes s')) with (dom (k_inodes s)); [exact F2|].
      rewrite Ei, dom_insert_L, Ed. apply elem_of_dom_2 in Hi. clear -Hi. set_solver.
    + eexists. split; [by rewrite Ei, (do_inodes _ _ _ D)|]. split; [done|]. split; [done|]. intros block Hb Hsz.
      rewrite (tr_bits _ _ _ _ _ _ _ R) in Hsz |- *. rewrite (do_bits _ _ _ D) in Hsz.
      cbn [blkaddr set_mtime set_ctime set_blkaddr i_size] in *. rewrite (tr_map _ _ _ _ _ _ _ R) by done.
      by rewrite (proj2 (Z.leb_le _ _)) by by apply HC.
  - subst s'. split; [|split; [apply D|]]. { unfold fs_ok. rewrite Ed. exact F1. }
    exists i. split; [by rewrite (do_inodes _ _ _ D), insert_id|]. do 2 (split; [done|]). intros block Hb Hsz.
    rewrite (do_bits _ _ _ D) in Hsz. specialize (HC block Hsz). lia.
Qed.

(** ** New inodes *)

Lemma zero_owns (buf : gmap Z bytes) pre : default 0 (node buf (replicate 9 0) pre) = 0.
Proof.
  destruct pre as [|o pre]; [done|]. cbn [node]. destruct (replicate 9 0 !! Z.to_nat o) as [v|] eqn:E; [|done].
  apply lookup_replicate in E as [-> _]. cbn [mbind option_bind]. by rewrite walk_zero.
Qed.

Lemma zero_tree_ok (BA : BlockAllocator gas_new_block gas_free_block) sbi s : tree_ok (BlockAllocator0 := BA) sbi s (replicate 9 0).
Proof.
  assert (Hz : forall pre v, node (k_buf s) (replicate 9 0) pre = Some v -> v <> 0 -> False).
  { intros pre v E Hv. pose proof (zero_owns (k_buf s) pre) as H0. rewrite E in H0. done. }
  split; [done| |].
  - intros pre v _ E Hv. by destruct (Hz pre v E Hv).
  - intros p1 p2 v _ _ E _ Hv. by destruct (Hz p1 v E Hv).
Qed.

Lemma fs_new_inode sbi s dir mode : fs_ok sbi s -> is_Some (k_inodes s !! dir) ->
  kwp (gas_new_inode dir mode) s (fun '(r, err) s' =>
    match r with
    | None => s' = s /\ (err = Some ENOMEM \/ err = Some ENOSPC)
    | Some ino => err = None /\ k_inodes s !! ino = None /\
        exists sbi', inode_made s sbi mode ino s' sbi' /\ fs_ok sbi' s'
    end).
Proof using KL.
  intros F [d Hd]. assert (M := fs_mounted _ _ F). destruct F as [[[_ RB] [R HX]] T].
  assert (Hbam : forall x, in_zone sbi x -> 0 <= x < s_bam_blocks sbi * s_bits_per_block sbi).
  { intros x [? ?]. assert (G := mt_geom _ _ M). pose proof (g_data _ _ G). pose proof (g_list _ _ G).
    pose proof (g_counts _ _ G). pose proof (g_bam_room _ _ G). lia. }
  eapply kwp_mono; [by apply (gas_new_inode_made s sbi dir d mode)|]. intros [[ino|] err] s'.
  2: { intros (-> & [[-> _]|[-> _]]); auto. }
  intros (-> & sbi' & I). split; [done|].
  assert (Hfresh : k_inodes s !! ino = None).
  { apply eq_None_not_Some. intros Hin%elem_of_dom. destruct (HX ino Hin) as [_ Hu]. pose proof (im_free _ _ _ _ _ _ I). congruence. }
  split; [done|]. exists sbi'. split; [done|]. destruct (im_inodes _ _ _ _ _ _ I) as (i & Ei & Hino & Hnl & Hsz & Hbl & _).
  assert (Hsb := im_sb _ _ _ _ _ _ I).
  assert (Ebp : s_bits_per_block sbi' = s_bits_per_block sbi /\ s_iam_blocks sbi' = s_iam_blocks sbi /\
    s_bam_blocks sbi' = s_bam_blocks sbi /\ s_data_block_start sbi' = s_data_block_start sbi /\ s_nblocks sbi' = s_nblocks sbi)
    by (by destruct Hsb as (v & w & ->)).
  destruct Ebp as (E1 & E2 & E3 & E4 & E5).
  split; [split; [split; [apply I|]|split; [apply I|]]|].
  - intros x. rewrite E1, E3, E4, E5. intros Hx Hres. rewrite (im_bam _ _ _ _ _ _ I) by done. by apply RB.
  - intros n. rewrite Ei, dom_insert_L, E1, E2. intros [->%elem_of_singleton|Hn]%elem_of_union.
    + assert (Hr : 0 <= ino < s_iam_blocks sbi * s_bits_per_block sbi).
      { pose proof (im_range _ _ _ _ _ _ I). assert (G := mt_geom _ _ M). pose proof (g_iam_room _ _ G). unfold GAS_ROOT_INO in *. lia. }
      split; [done|]. by rewrite (im_iam _ _ _ _ _ _ I), Z.eqb_refl.
    + destruct (HX n Hn) as [Hr Hu]. split; [done|]. by rewrite (im_iam _ _ _ _ _ _ I), Hu, orb_true_r.
  - apply (trees_change (BA := gas_allocator_with _) sbi sbi' s s' ino i).
    + exact (trees_with _ _ _ _ T).
    + done.
    + apply I.
    + done.
    + done.
    + apply I.
    + rewrite Hbl. apply zero_tree_ok.
    + intros v Hz Hu _. split; [apply (im_buf _ _ _ _ _ _ I), Hz|].
      change (bam_used sbi' s' v = true). rewrite (im_bam _ _ _ _ _ _ I) by auto. exact Hu.
    + intros v (Hv & pre & _ & E). rewrite Hbl in E. pose proof (zero_owns (k_buf s') pre) as H0. by rewrite E in H0.
Qed.

(** One more inode without blocks. *)
Lemma fs_ok_add sbi s n i : fs_ok sbi s -> k_inodes s !! n = None -> i_ino i = n -> GAS_ROOT_INO <= n < s_ninodes sbi ->
  iam_used sbi s n = true -> blkaddr i = replicate 9 0 -> fs_ok sbi (with_inodes (<[n := i]> (k_inodes s)) s).
Proof.
  intros F Hn Hino Hr Hu Hbl. assert (M := fs_mounted _ _ F). pose proof (g_iam_room _ _ (mt_geom _ _ M)). destruct F as [[[_ RB] [R HX]] T].
  set (s' := with_inodes _ s). assert (Ed : dom (k_inodes s') = {[n]} ∪ dom (k_inodes s)) by apply dom_insert_L. unfold GAS_ROOT_INO in *.
  split; [split; [split; [by apply (mounted_ext s)|exact RB]|split; [exact R|]]|].
  - intros m. rewrite Ed. intros [->%elem_of_singleton|Hm]%elem_of_union; [split; [lia|done]|by apply HX].
  - apply (trees_change (BA := gas_allocator_with _) sbi sbi s s' n i); try done.
    + exact (trees_with _ _ _ _ T).
    + apply same_sb_refl.
    + rewrite Hbl. apply zero_tree_ok.
    + intros v (Hv & pre & _ & E). rewrite Hbl in E. pose proof (zero_owns (k_buf s') pre) as Hz. by rewrite E in Hz.
Qed.

(** ** Eviction *)

Section evict.
Context (truncate_inode_pages invalidate_inode_buffers clear_inode : Z -> K unit)
  (block_truncate_page : Z -> Z -> K unit).
Hypothesis pages_truncated : forall ino st, truncate_inode_pages ino st = Some (tt, st).
Hypothesis buffers_invalidated : forall ino st, invalidate_inode_buffers ino st = Some (tt, st).
Hypothesis inode_cleared : forall ino st, clear_inode ino st = Some (tt, st).
Hypothesis page_truncated : forall (BA : BlockAllocator gas_new_block gas_free_block) sbi ino l size st,
  tree_at (BA := BA) sbi ino st l -> kwp (block_truncate_page ino size) st (fun _ s1 => data_only st l s1).

Definition evict : Z -> K unit :=
  gas_evict_inode gas_free_block other truncate_inode_pages invalidate_inode_buffers clear_inode gas_free_inode block_truncate_page.

(** The inode is gone once the inode cache has dropped it. *)
Definition dropped (ino : Z) (s : kst) : kst := with_inodes (delete ino (k_inodes s)) s.

Lemma fs_truncate sbi s ino i : (forall x, in_zone sbi x -> read_ok x = true) -> fs_ok sbi s -> k_inodes s !! ino = Some i -> 0 <= i_size i ->
  kwp (gas_truncate_inode gas_free_block other block_truncate_page ino) s (fun _ s' => fs_ok sbi s' /\ k_ref s' = k_ref s).
Proof using All.
  intros Hread F Hi Hs. eapply kwp_mono; [apply (fs_truncate_run block_truncate_page sbi s ino i); [done|intros BA l size st; by apply (page_truncated BA sbi)|done..]|]. by intros [] s' (? & ? & _).
Qed.

Lemma fs_evict sbi s ino i : (forall x, in_zone sbi x -> read_ok x = true) -> fs_ok sbi s -> k_inodes s !! ino = Some i -> i_nlink i = 0 ->
  S_ISREG (i_mode i) || S_ISDIR (i_mode i) || S_ISLNK (i_mode i) = true ->
  kwp (evict ino) s (fun _ s' => fs_ok sbi (dropped ino s') /\ k_ref s' = k_ref s /\
    delete ino (k_inodes s') = delete ino (k_inodes s) /\ iam_used sbi (dropped ino s') ino = false).
Proof using All.
  intros Hread F Hi Hnl Hmode. pose proof (fs_mounted _ _ F) as M. unfold fs_ok in F. set (BA := gas_allocator_with (dom (k_inodes s))) in *.
  pose proof (files_tree sbi s ino i F Hi) as T. destruct (fo_ino _ _ (proj2 F) ino i Hi) as [Hino Hr].
  destruct (gas_evict_inode_run (BA := BA) sbi ino other block_truncate_page Hread other_idle truncate_inode_pages invalidate_inode_buffers
    clear_inode gas_free_inode s (blkaddr i) i T Hi (fo_max _ _ (proj2 F)) (pages_truncated ino) (buffers_invalidated ino)
    (inode_cleared ino) Hmode Hnl) as (s1 & s2 & l2 & E & T0 & D & R); [by intros; apply (page_truncated BA sbi)|].
  set (s0 := with_inodes _ s) in *. assert (Hi0 : k_inodes s0 !! ino = Some (set_size 0 i)) by apply lookup_insert_eq.
  assert (F0 : files_ok (BA := BA) sbi s0) by (by apply (files_attr sbi s s0 ino i (set_size 0 i))).
  pose proof (data_files sbi ino s0 (set_size 0 i) s1 F0 Hi0 D) as F1.
  assert (Hi1 : k_inodes s1 !! ino = Some (set_size 0 i)) by (by rewrite (do_inodes _ _ _ D)).
  pose proof (truncated_files sbi ino 0 s1 (set_size 0 i) s2 l2 F1 Hi1 R) as F2.
  destruct (tr_inodes _ _ _ _ _ _ _ R) as (i1 & now & Hi1' & _ & Ei2). rewrite Hi1 in Hi1'. injection Hi1' as <-.
  destruct F2 as [[[M2 RB2] [R2 HX2]] T2]. fold BA in T2.
  assert (Hi2 : k_inodes s2 !! ino = Some (set_mtime now (set_ctime now (set_blkaddr (set_size 0 i) l2)))) by (rewrite Ei2; apply lookup_insert_eq).
  destruct (gas_free_inode_freed s2 sbi ino _ M2 R2 Hr Hi2 Hino) as ([] & s' & E' & M' & R' & Ein & Eref & Eb & Hbuf & Hiam & Hbam & _).
  exists tt, s'. split; [unfold evict; congruence|].
  assert (Ed : delete ino (k_inodes s') = delete ino (k_inodes s)).
  { rewrite Ein, Ei2, (do_inodes _ _ _ D). unfold s0. cbn [k_inodes with_inodes]. by rewrite !delete_insert_eq. }
  split; [|split; [|split; [done|]]]. 2: { rewrite Eref, (tr_ref _ _ _ _ _ _ _ R). apply D. }
  2: { change (iam_used sbi s' ino = false). rewrite Hiam, Z.eqb_refl; [done|]. assert (G := mt_geom _ _ M2).
       pose proof (g_iam_room _ _ G). unfold GAS_ROOT_INO in Hr. lia. }
  assert (G := mt_geom _ _ M2). pose proof (g_data _ _ G). pose proof (g_list _ _ G). pose proof (g_counts _ _ G). pose proof (g_bam_room _ _ G).
  split; [split; [split|]|].
  - by apply (mounted_ext s').
  - intros x Hx Hres. change (bam_used sbi s' x = true). rewrite Hbam by done. by apply RB2.
  - cbn [k_inodes dropped with_inodes]. split; [exact R'|]. intros n. rewrite dom_delete_L. intros [Hn Hne]%elem_of_difference.
    assert (Hn0 : n ∈ dom (k_inodes s)).
    { rewrite Ein, Ei2, (do_inodes _ _ _ D), !dom_insert_L in Hn. apply elem_of_dom_2 in Hi. clear -Hn Hi. set_solver. }
    destruct (HX2 n Hn0) as [Hnr Hu]. split; [done|]. change (iam_used sbi s' n = true). rewrite Hiam, Hu by done.
    rewrite (proj2 (Z.eqb_neq _ _)); [done|]. intros ->. clear -Hne. set_solver.
  - assert (T' : trees_ok (BA := gas_allocator_with (dom (k_inodes (dropped ino s')))) sbi s').
    { apply (trees_same sbi sbi s2 s'); [exact (trees_with _ _ _ _ T2)|apply same_sb_refl|done|done|].
      intros v [Hz1 Hz2] Hu. split; [by apply Hbuf|]. change (bam_used sbi s' v = true). rewrite Hbam by lia. exact Hu. }
    destruct T' as [A1 A2 A3 A4]. split; unfold dropped; cbn [k_inodes with_inodes s_blocksize_bits]; [done| | |].
    + intros n j [_ Hj]%lookup_delete_Some. by apply A2.
    + intros n j [_ Hj]%lookup_delete_Some. destruct (A3 n j Hj) as [B1 B2 B3]. by split.
    + intros n1 n2 i1 i2 v [_ H1']%lookup_delete_Some [_ H2']%lookup_delete_Some. by apply A4.
Qed.

(** ** Everything that changes files *)

(** The operations on the files in memory, and when the module and the kernel call them. *)
Inductive fs_op : Set := OpMap (ino block : Z) | OpTruncate (ino : Z) | OpNew (dir mode : Z) | OpEvict (ino : Z).

Definition fs_enabled (s : kst) (op : fs_op) : Prop :=
  match op with
  | OpMap ino block => is_Some (k_inodes s !! ino) /\ 0 <= block
  | OpTruncate ino => exists i, k_inodes s !! ino = Some i /\ 0 <= i_size i
  | OpNew dir _ => is_Some (k_inodes s !! dir)
  | OpEvict ino => exists i, k_inodes s !! ino = Some i /\ i_nlink i = 0 /\
      S_ISREG (i_mode i) || S_ISDIR (i_mode i) || S_ISLNK (i_mode i) = true
  end.

Definition fs_run (op : fs_op) : K unit :=
  match op with
  | OpMap ino block => _ ← gas_get_block gas_new_block gas_free_block other (S fuel) ino block true; mret tt
  | OpTruncate ino => gas_truncate_inode gas_free_block other block_truncate_page ino
  | OpNew dir mode => _ ← gas_new_inode dir mode; mret tt
  | OpEvict ino => _ ← evict ino; kmod (dropped ino)
  end.

(** A step is an operation, or a change of the attributes of an inode. *)
Inductive fs_step (s : kst) : kst -> Prop :=
| step_op op s' : fs_enabled s op -> fs_run op s = Some (tt, s') -> fs_step s s'
| step_attr n i i' : k_inodes s !! n = Some i -> blkaddr i' = blkaddr i -> i_ino i' = i_ino i ->
    fs_step s (with_inodes (<[n := i']> (k_inodes s)) s).

Lemma fs_run_ok sbi s op : (forall x, in_zone sbi x -> read_ok x = true) -> fs_ok sbi s -> fs_enabled s op ->
  kwp (fs_run op) s (fun _ s' => exists sbi', same_sb sbi sbi' /\ fs_ok sbi' s' /\ k_ref s' = k_ref s).
Proof using All.
  intros Hread F He. destruct op as [ino block|ino|dir mode|ino]; cbn [fs_enabled fs_run] in *.
  - destruct He as [[i Hi] Hb]. apply kwp_bind. eapply kwp_mono; [by apply (fs_get_block sbi ino s i block)|].
    intros r s' ((sbi' & Hsb & F') & Hr & _). apply kwp_ret. by exists sbi'.
  - destruct He as (i & Hi & Hs). eapply kwp_mono; [by apply (fs_truncate sbi s ino i)|]. intros [] s' [F' Hr].
    exists sbi. split; [apply same_sb_refl|done].
  - apply kwp_bind. eapply kwp_mono; [by apply (fs_new_inode sbi s dir mode)|]. intros [[ino|] err] s'.
    + intros (_ & _ & sbi' & I & F'). apply kwp_ret. exists sbi'. split; [apply I|]. split; [done|apply I].
    + intros [-> _]. apply kwp_ret. exists sbi. split; [apply same_sb_refl|done].
  - destruct He as (i & Hi & Hnl & Hm). apply kwp_bind. eapply kwp_mono; [by apply (fs_evict sbi s ino i)|].
    intros [] s' (F' & Hr & _). apply kwp_mod. exists sbi. split; [apply same_sb_refl|done].
Qed.

Lemma fs_steps_ok s s' : rtc fs_step s s' -> forall sbi, (forall x, in_zone sbi x -> read_ok x = true) -> fs_ok sbi s ->
  exists sbi', same_sb sbi sbi' /\ fs_ok sbi' s' /\ k_ref s' = k_ref s.
Proof using All.
  induction 1 as [s|s1 s2 s3 Hst _ IH]; intros sbi Hread F.
  - exists sbi. split; [apply same_sb_refl|done].
  - assert (H2 : exists sbi2, same_sb sbi sbi2 /\ fs_ok sbi2 s2 /\ k_ref s2 = k_ref s1).
    { destruct Hst as [op s2 He E|n i i' Hi Hl Hino].
      - exact (kwp_eq _ _ _ _ E _ (fs_run_ok sbi s1 op Hread F He)).
      - exists sbi. split; [apply same_sb_refl|]. split; [|done]. by eapply (fs_attr sbi s1). }
    destruct H2 as (sbi2 & Hsb & F2 & Hr). destruct (IH sbi2) as (sbi3 & Hsb3 & F3 & Hr3); [|done|].
    + intros x Hz. apply Hread. by apply (in_zone_same _ _ _ Hsb).
    + exists sbi3. split; [by eapply same_sb_trans|]. split; [done|congruence].
Qed.

(** C2: Whatever sequence of block mappings, truncations, new inodes, evictions and changes
    of attributes runs on a mounted file system whose data blocks can be read, the files
    stay in order: every inode in memory has its number marked in use, its tree reaches
    only data blocks marked in use and none twice, no block belongs to two files, and
    no buffer stays referenced. The next operation always returns. *)
Theorem fs_reachable sbi s s' : (forall x, in_zone sbi x -> read_ok x = true) -> fs_ok sbi s -> rtc fs_step s s' ->
  exists sbi', same_sb sbi sbi' /\ fs_ok sbi' s' /\ k_ref s' = k_ref s /\
    (forall n i, k_inodes s' !! n = Some i -> iam_used sbi' s' n = true) /\
    (forall n1 n2 i1 i2 v, k_inodes s' !! n1 = Some i1 -> k_inodes s' !! n2 = Some i2 ->
       owns s' (blkaddr i1) v -> owns s' (blkaddr i2) v -> n1 = n2 /\ in_zone sbi v /\ bam_used sbi' s' v = true) /\
    forall op, fs_enabled s' op -> exists s2, fs_run op s' = Some (tt, s2).
Proof using All.
  intros Hread F St. destruct (fs_steps_ok s s' St sbi Hread F) as (sbi' & Hsb & F' & Hr). exists sbi'. split; [done|].
  split; [done|]. split; [done|]. assert (F2 := F'). destruct F2 as [[_ [_ HX]] T]. split; [|split].
  - intros n i Hi. apply HX. by eapply elem_of_dom_2.
  - intros n1 n2 i1 i2 v H1 H2 O1 O2. split; [by apply (fo_apart _ _ T n1 n2 i1 i2 v)|].
    destruct (owns_used _ _ _ _ (fo_tree _ _ T n1 i1 H1) O1) as [Hz Hu]. split; [by apply (in_zone_same _ _ _ Hsb)|exact Hu].
  - intros op He. destruct (fs_run_ok sbi' s' op) as ([] & s2 & E & _); [|done|done|by exists s2].
    intros x Hz. apply Hread. by apply (in_zone_same _ _ _ Hsb).
Qed.
End evict.
End operations.
