(* ===== verification/TreeDemo.v ===== *)
(** * A small tree

    The concrete file the witnesses of the block-tree theorems run on: inode 1 of the
    small file system of Kernel.v, with a direct block 5, a single indirect block 6
    and a data block 7 below it. The allocator is the one of KBitmap.v. *)

From S2P Require Import Prelude Mem Layout Kernel InodeTab Alloc KBitmap Itree Tree TreeEdit Trunc Truncate Files FileSys.

Definition demo_ptrs : list Z := [5; 0; 0; 0; 0; 0; 6; 0; 0].
Definition tree_bam : bytes := [Byte.xef; Byte.x00] ++ memset_buf Byte.xff 510.
(** Numbers 0 to 3 are in use. *)
Definition tree_iam : bytes := [Byte.x0f] ++ memset_buf Byte.xff 511.
Definition tree_ind : bytes := [Byte.x07] ++ zeroes 511.

Definition demo_tree : kst :=
  let s := with_buf (<[1 := tree_bam]> (k_buf demo_state)) demo_state in
  let s := with_buf (<[6 := tree_ind]> (k_buf s)) s in
  let s := with_buf (<[2 := tree_iam]> (k_buf s)) s in
  with_inodes {[1 := set_blkaddr demo_root demo_ptrs]} s.

Definition quiet_tasks : K unit := mret tt.
Definition keep_page (_ _ : Z) : K unit := mret tt.
Definition keep_inode (_ : Z) : K unit := mret tt.

Lemma demo_tree_mounted : mounted demo_tree demo_sbi.
Proof.
  apply mounted_with_inodes. do 2 (apply mounted_put_buf; [|vm_compute; reflexivity]).
  apply mounted_put_buf; [exact demo_mounted|vm_compute; reflexivity].
Qed.

(** For every kernel interface. *)
Section demo.
Context `{KL : KernelLaws}.

Lemma demo_tree_inv : ba_inv demo_sbi demo_tree.
Proof.
  split; [exact demo_tree_mounted|]. intros x Hx Hr. change (s_bam_blocks demo_sbi * s_bits_per_block demo_sbi) with 4096 in Hx.
  change (s_data_block_start demo_sbi) with 4 in Hr. change (s_nblocks demo_sbi) with 16 in Hr.
  assert (HF := forall_below (fun x => (4 <=? x) && (x <? 16) || bam_used demo_sbi demo_tree x) 4096
    ltac:(vm_compute; reflexivity) x Hx).
  apply orb_true_iff in HF as [HF|HF]; [bools; lia|exact HF].
Qed.

Lemma demo_nodes pre v : valid_path 128 pre -> node (k_buf demo_tree) demo_ptrs pre = Some v -> v <> 0 ->
  (pre, v) ∈ [([0], 5); ([6], 6); ([6; 0], 7)].
Proof.
  destruct pre as [|o rest]; [done|]. intros (Ho & Hl & Hf) Hn Hv. cbn [node] in Hn.
  assert (Hcase : o = 0 \/ o = 6 \/ demo_ptrs !! Z.to_nat o = Some 0).
  { assert (o = 0 \/ o = 1 \/ o = 2 \/ o = 3 \/ o = 4 \/ o = 5 \/ o = 6 \/ o = 7 \/ o = 8) as Hcase by lia.
    repeat destruct Hcase as [->|Hcase]; try (by auto). subst o. by auto. }
  destruct Hcase as [->|[->|E]].
  - destruct rest; [|cbn in Hl; change (levels 0) with 0%nat in Hl; lia]. cbn in Hn. simplify_eq. set_solver.
  - destruct rest as [|k [|]]; [cbn in Hn; simplify_eq; set_solver| |cbn in Hl; change (levels 6) with 1%nat in Hl; lia].
    change (demo_ptrs !! Z.to_nat 6) with (Some 6) in Hn. cbn [mbind option_bind walk] in Hn.
    change (6 =? 0) with false in Hn. change (k_buf demo_tree !! 6) with (Some tree_ind) in Hn. cbn [mbind option_bind] in Hn.
    apply List.Forall_cons_iff in Hf as [Hk _].
    assert (HF := forall_below (fun k => match load 4 tree_ind (4 * k) with Some w => (w =? 0) || ((k =? 0) && (w =? 7)) | None => false end)
      128 ltac:(vm_compute; reflexivity) k Hk). cbn beta in HF.
    destruct (load 4 tree_ind (4 * k)) as [w|]; [|done]. cbn [mbind option_bind] in Hn. simplify_eq.
    apply orb_true_iff in HF as [HF|HF]; bools; [done|]. subst k v. set_solver.
  - rewrite E in Hn. cbn [mbind option_bind] in Hn. rewrite walk_zero in Hn. congruence.
Qed.

Lemma demo_tree_at : tree_at demo_sbi 1 demo_tree demo_ptrs.
Proof.
  split; [exact demo_tree_inv|]. split; [|by eexists]. change (ic_of (s_blocksize_bits demo_tree)) with 128.
  split; [done| |]; change (ic_of (s_blocksize_bits demo_tree)) with 128.
  - intros pre v V Hn Hv. pose proof (demo_nodes pre v V Hn Hv) as HF. rewrite !elem_of_cons, elem_of_nil in HF.
    destruct HF as [HF|[HF|[HF|[]]]]; simplify_eq; (split; [split; vm_compute; congruence|vm_compute; reflexivity]).
  - intros p1 p2 v V1 V2 H1 H2 Hv. pose proof (demo_nodes p1 v V1 H1 Hv) as E1. pose proof (demo_nodes p2 v V2 H2 Hv) as E2.
    rewrite !elem_of_cons, elem_of_nil in E1, E2.
    destruct E1 as [E1|[E1|[E1|[]]]], E2 as [E2|[E2|[E2|[]]]]; congruence.
Qed.

End demo.

#[local] Existing Instance good_api.
#[local] Existing Instance good_laws.

Lemma demo_live : live demo_sbi 1 demo_tree demo_ptrs.
Proof. exists demo_sbi. split; [apply same_sb_refl|exact demo_tree_at]. Qed.

(** ** Witnesses *)

Lemma block_to_path_bijection_witness :
  block_to_path 16 9 7 = [6; 1] /\ path_block (ic_of 9) [6; 1] = 7.
Proof.
  destruct (block_to_path_bijection 16 9 7 ltac:(lia) ltac:(vm_compute; congruence)) as [_ H].
  destruct (H ltac:(lia)) as (_ & E & _). split; [reflexivity|exact E].
Defined.

Lemma gas_blocks_exact_witness : gas_blocks (10 * 512) 9 = tree_nodes 16 9 10.
Proof.
  apply (gas_blocks_exact 16 9 (10 * 512)); [lia|vm_compute; congruence|lia|vm_compute; split; congruence].
Defined.

Lemma gas_get_block_lookup_witness :
  kwp (gas_get_block gas_new_block gas_free_block quiet_tasks 1 1 6 false) demo_tree (fun res s' =>
    s' = demo_tree /\ snd res = Some (7, false)).
Proof.
  eapply kwp_mono.
  { apply (gas_get_block_lookup demo_sbi 1 quiet_tasks eq demo_tree demo_ptrs 6 0);
      [apply quiet_rely; reflexivity|exact demo_live|vm_compute; congruence]. }
  intros [e m] s' (<- & _ & H). split; [reflexivity|]. cbn [fst snd] in *.
  change ((0 <=? 6) && (6 <? s_nblocks demo_sbi)) with true in H. cbn match in H.
  change (block_to_path (s_nblocks demo_sbi) (s_blocksize_bits demo_tree) 6) with [6; 0] in H.
  inversion H as [l1 L1 Hn|l1 L1 Hn|s0 l0 n <- _ L0 Hn Hnz Hrd|s0 l0 l1 n <- _ L0 L1 Hn Hne]; subst.
  - rewrite (live_unique _ _ _ _ _ demo_tree_at L1). reflexivity.
  - rewrite (live_unique _ _ _ _ _ demo_tree_at L1) in Hn. discriminate Hn.
  - discriminate Hrd.
  - rewrite (live_unique _ _ _ _ _ demo_tree_at L1), (live_unique _ _ _ _ _ demo_tree_at L0) in Hne. by destruct Hne.
Defined.

Lemma gas_get_block_create_witness :
  kwp (gas_get_block gas_new_block gas_free_block quiet_tasks 1 1 8 true) demo_tree (fun res s' =>
    exists b sbi' l', res = (None, Some (b, true)) /\ tree_at sbi' 1 s' l' /\ bam_used demo_sbi demo_tree b = false).
Proof.
  eapply kwp_mono.
  { apply (gas_get_block_create demo_sbi 1 demo_tree demo_ptrs quiet_tasks 0 8); [reflexivity|exact demo_tree_at|vm_compute; congruence|].
    vm_compute. split; congruence. }
  intros [e m] s' (_ & H). cbn [fst snd] in H. change (block_to_path (s_nblocks demo_sbi) (s_blocksize_bits demo_tree) 8) with [6; 2] in H.
  inversion H as [Hs Hn|n sbi' l' M|n sbi' s1 H0 Hn Hz Hs U T' Hpre|n Hs Hn Hnz Hrd]; subst.
  - exfalso. by apply Hn.
  - exists (nodev s' l' [6; 2]), sbi', l'. split; [reflexivity|]. split; [apply M|].
    destruct (mp_path _ _ _ _ _ _ _ _ _ M 2%nat) as (_ & _ & Hu); [cbn; lia|]. apply Hu. apply M.
  - exfalso. destruct (up_full _ _ _ _ _ U) as (l & Hl & Hfree).
    assert (Hin : forall x, x ∈ [8; 9; 10; 11] -> x ∈ l).
    { intros x Hx. apply Hfree; rewrite !elem_of_cons, elem_of_nil in Hx; destruct Hx as [->|[->|[->|[->|[]]]]];
        first [split; vm_compute; congruence|vm_compute; reflexivity]. }
    cbn [length] in Hl. assert (Hlen : (length [8%Z; 9%Z; 10%Z; 11%Z] <= length l)%nat); [|cbn in Hlen; lia].
    apply submseteq_length. apply NoDup_submseteq; [|exact Hin]. repeat (constructor; [set_solver|]). constructor.
  - discriminate Hrd.
Defined.

(** A branch of one block that finds its slot taken. *)
Lemma splice_branch_changed_witness :
  kwp (splice_branch gas_free_block 1 [] [Ind (PInode 0) 7 None]) demo_tree (fun res s' =>
    res = Some EAGAIN /\ bam_used demo_sbi s' 7 = false).
Proof.
  eapply kwp_mono.
  { apply (splice_branch_changed (new := gas_new_block) demo_sbi 1 demo_tree demo_ptrs demo_tree demo_ptrs [0] 1 7 [] [] (k_ref demo_tree)).
    - exact demo_tree_at.
    - repeat split; [lia|vm_compute; congruence|cbn; lia|constructor].
    - cbn; lia.
    - intros j Hj. lia.
    - right. vm_compute. congruence.
    - cbn; lia.
    - constructor; [split; vm_compute; congruence|constructor].
    - cbn [length take]. change (refs []) with (∅ : gmultiset Z). symmetry. apply (right_id_L ∅ (⊎)). }
  intros res s' (Hr & _ & _ & _ & _ & Hu). split; [exact Hr|]. apply (Hu 7). split; vm_compute; congruence.
Defined.

Lemma demo_reads x : in_zone demo_sbi x -> read_ok x = true.
Proof. done. Qed.

Lemma quiet_ok st : quiet_tasks st = Some (tt, st).
Proof. done. Qed.

Lemma keep_page_ok size st l : tree_at demo_sbi 1 st l -> kwp (keep_page 1 size) st (fun _ s1 => data_only st l s1).
Proof. intros _. exists tt, st. split; [done|]. split; try done. intros b m Hm. by exists m. Qed.

Lemma gas_truncate_inode_spec_witness :
  kwp (gas_truncate_inode gas_free_block quiet_tasks keep_page 1) demo_tree (fun _ s' => exists l',
    tree_at demo_sbi 1 s' l' /\ nodev s' l' [0] = 5 /\ nodev s' l' [6; 0] = 0 /\ bam_used demo_sbi s' 7 <> true).
Proof.
  eapply kwp_mono.
  { apply (gas_truncate_inode_spec (new := gas_new_block) demo_sbi 1 quiet_tasks keep_page demo_reads quiet_ok
      demo_tree demo_ptrs (set_blkaddr demo_root demo_ptrs)).
    - exact demo_tree_at.
    - reflexivity.
    - vm_compute. congruence.
    - vm_compute. congruence.
    - apply keep_page_ok. exact demo_tree_at. }
  intros [] s' (s1 & D & H). change (_ <? _) with true in H.
  destruct H as (l' & R). destruct (data_only_tree demo_sbi 1 demo_tree demo_ptrs s1 demo_tree_at D) as (_ & N1 & _).
  exists l'. split; [apply R|]. pose proof (tr_map _ _ _ _ _ _ _ R) as Hmap. rewrite (do_bits _ _ _ D) in Hmap.
  assert (V0 : valid_path (ic_of (s_blocksize_bits demo_tree)) [0]) by (repeat split; [lia|vm_compute; congruence|cbn; lia|constructor]).
  assert (V6 : valid_path (ic_of (s_blocksize_bits demo_tree)) [6; 0]).
  { repeat split; [lia|vm_compute; congruence|cbn; vm_compute; lia|]. constructor; [split; vm_compute; congruence|constructor]. }
  pose proof (Hmap 0 ltac:(vm_compute; split; congruence)) as M0. pose proof (Hmap 6 ltac:(vm_compute; split; congruence)) as M6.
  change (block_to_path (s_nblocks demo_sbi) (s_blocksize_bits demo_tree) 0) with [0] in M0.
  change (block_to_path (s_nblocks demo_sbi) (s_blocksize_bits demo_tree) 6) with [6; 0] in M6.
  change (_ <=? 6) with true in M6. change (_ <=? 0) with false in M0. cbn match in M0, M6. rewrite N1 in M0 by exact V0.
  split; [rewrite M0; reflexivity|]. split; [exact M6|]. intros Hu.
  apply (tr_used _ _ _ _ _ _ _ R 7) in Hu as [_ Hn]; [|split; vm_compute; congruence]. apply Hn. exists [6; 0].
  rewrite (do_bits _ _ _ D). split; [exact V6|]. rewrite (N1 [6; 0] V6), M6. split; [reflexivity|congruence].
Defined.

Definition unlinked_tree : kst :=
  with_inodes {[1 := Inode 1 S_IFREG 0 0 0 520 0 0 0 0 demo_ptrs (Some gas_a_ops) (Some gas_file_inode_ops) (Some gas_file_ops)]} demo_tree.

Lemma unlinked_tree_at : tree_at demo_sbi 1 unlinked_tree demo_ptrs.
Proof. apply (tree_at_ext demo_sbi 1 demo_tree); [exact demo_tree_at|reflexivity|reflexivity|reflexivity|]. by eexists. Qed.

Lemma gas_evict_inode_frees_witness :
  exists s2, gas_evict_inode gas_free_block quiet_tasks keep_inode keep_inode keep_inode gas_free_inode keep_page 1 unlinked_tree
    = gas_free_inode 1 s2 /\ bam_used demo_sbi s2 6 <> true.
Proof.
  destruct (gas_evict_inode_frees (new := gas_new_block) demo_sbi 1 quiet_tasks keep_page demo_reads quiet_ok
    keep_inode keep_inode keep_inode gas_free_inode unlinked_tree demo_ptrs _ unlinked_tree_at eq_refl
    ltac:(vm_compute; congruence) ltac:(reflexivity) ltac:(reflexivity) ltac:(reflexivity) eq_refl
    (fun st T => keep_page_ok 0 st demo_ptrs T)) as (s2 & E & _ & Hu).
  exists s2. split; [exact E|]. intros H6. apply (Hu 6) in H6 as [_ Hn]; [|split; vm_compute; congruence]. apply Hn. exists [6].
  split; [|reflexivity]. repeat split; [lia|vm_compute; congruence|cbn; lia|constructor].
Defined.

Lemma demo_iam : iam_reserved demo_sbi demo_tree.
Proof.
  intros x Hx Hr. change (s_iam_blocks demo_sbi * s_bits_per_block demo_sbi) with 4096 in Hx.
  change (s_ninodes demo_sbi) with 8 in Hr. unfold GAS_ROOT_INO in Hr.
  assert (HF := forall_below (fun x => (1 <=? x) && (x <? 8) || iam_used demo_sbi demo_tree x) 4096
    ltac:(vm_compute; reflexivity) x Hx).
  apply orb_true_iff in HF as [HF|HF]; [bools; lia|exact HF].
Qed.

Lemma demo_fs_ok : fs_ok demo_sbi demo_tree.
Proof.
  apply (fs_ok_one demo_sbi demo_tree 1 (set_blkaddr demo_root demo_ptrs)); [exact demo_tree_at|reflexivity|vm_compute; congruence|
    reflexivity|vm_compute; split; congruence|exact demo_iam|vm_compute; reflexivity].
Qed.

Lemma keep_any_page (BA : BlockAllocator gas_new_block gas_free_block) sbi ino l size st :
  tree_at (BA := BA) sbi ino st l -> kwp (keep_page ino size) st (fun _ s1 => data_only st l s1).
Proof. intros _. exists tt, st. split; [done|]. split; try done. intros b m Hm. by exists m. Qed.

Definition demo_step := fs_step quiet_tasks 0 keep_inode keep_inode keep_inode keep_page.

Lemma demo_op sbi s op : same_sb demo_sbi sbi -> fs_ok sbi s -> fs_enabled s op ->
  exists s' sbi', demo_step s s' /\ same_sb demo_sbi sbi' /\ fs_ok sbi' s'.
Proof.
  intros Hsb F He. destruct (fs_run_ok quiet_tasks 0 quiet_ok keep_inode keep_inode keep_inode keep_page (fun _ _ => eq_refl)
    (fun _ _ => eq_refl) (fun _ _ => eq_refl) keep_any_page sbi s op) as ([] & s' & E & sbi' & Hsb' & F' & _); [done|done|done|].
  exists s', sbi'. split; [by eapply step_op|]. split; [by eapply same_sb_trans|done].
Qed.

(** A block is mapped. *)
Lemma fs_reachable_witness : exists s', rtc demo_step demo_tree s' /\ exists sbi', fs_ok sbi' s' /\ k_ref s' = ∅.
Proof.
  destruct (demo_op demo_sbi demo_tree (OpMap 1 8)) as (s1 & sbi1 & St1 & Hsb1 & F1);
    [apply same_sb_refl|exact demo_fs_ok|split; [by eexists|lia]|].
  exists s1. assert (St : rtc demo_step demo_tree s1) by (by apply rtc_once). split; [exact St|].
  destruct (fs_reachable quiet_tasks 0 quiet_ok keep_inode keep_inode keep_inode keep_page (fun _ _ => eq_refl)
    (fun _ _ => eq_refl) (fun _ _ => eq_refl) keep_any_page demo_sbi demo_tree s1 demo_reads demo_fs_ok St)
    as (sbi' & _ & F' & Hr & _). exists sbi'. split; [exact F'|]. rewrite Hr. reflexivity.
Defined.

(** A device that cannot read block 6. *)
Definition bad_api : KernelApi := demo_api (fun b => negb (b =? 6)) (fun _ => true).
Definition bad_laws : @KernelLaws bad_api := demo_laws _ _.

Lemma free_branches_unreadable_witness :
  kwp (@free_branches bad_api (@gas_free_block bad_api) 1 1 [PInode 6]) demo_tree (fun _ s' => bam_used demo_sbi s' 6 = true).
Proof.
  eapply kwp_mono.
  { apply (@free_branches_unreadable bad_api (@gas_new_block bad_api) (@gas_free_block bad_api)
      (@gas_allocator bad_api bad_laws) demo_sbi 1 demo_tree demo_ptrs 6); [exact demo_tree_at|lia|vm_compute; congruence|reflexivity]. }
  intros [] s' (l' & _ & _ & Hu & _). exact Hu.
Defined.
