(* ===== verification/Page.v ===== *)
(** * Reading and writing files (kern/gas_page.c)

    The address-space operations hand [gas_get_block] to functions of the kernel; a write
    that fails or falls short takes back the blocks it mapped after the end of the file.
    The kernel's functions are variables of the first section. Their results are C ints,
    negative for an error. *)

From S2P Require Import Prelude Mem Layout Kernel InodeTab Alloc KBitmap Itree Tree TreeEdit Trunc Truncate Files FileSys TreeDemo.

Definition get_block_t : Type := Z -> Z -> bool -> K (option errno * option (Z * bool)).

(** ** The operations *)

Section page.
Context `{KernelApi}.
Variables (gas_get_block : get_block_t) (block_truncate_page : Z -> Z -> K unit) (other : K unit).
(** A page is its inode and its index; a mapping is its inode. *)
Variables (block_write_full_page : Z * Z -> get_block_t -> K Z) (mpage_writepages : Z -> get_block_t -> K Z)
  (mpage_readpage : Z * Z -> get_block_t -> K Z) (mpage_readpages : Z -> list Z -> Z -> get_block_t -> K Z)
  (blockdev_direct_IO : Z -> Z -> Z -> Z -> get_block_t -> K Z) (generic_block_bmap : Z -> Z -> get_block_t -> K Z).
Variables (block_write_begin : Z -> Z -> Z -> Z -> get_block_t -> K (Z * option Z))
  (generic_write_end : Z -> Z -> Z -> Z -> Z * Z -> K Z) (truncate_pagecache : Z -> Z -> K unit).

Definition gas_writepage (page : Z * Z) : K Z := block_write_full_page page gas_get_block.
Definition gas_writepages (mapping : Z) : K Z := mpage_writepages mapping gas_get_block.
Definition gas_readpage (page : Z * Z) : K Z := mpage_readpage page gas_get_block.
Definition gas_readpages (mapping : Z) (pages : list Z) (nr_pages : Z) : K Z :=
  mpage_readpages mapping pages nr_pages gas_get_block.
Definition gas_direct_io (rw inode off nr_segs : Z) : K Z := blockdev_direct_IO rw inode off nr_segs gas_get_block.

Definition gas_write_failed (inode to : Z) : K unit :=
  i ← iref inode;
  if i_size i <? to then
    _ ← truncate_pagecache inode (i_size i);
    gas_truncate gas_free_block other block_truncate_page inode
  else mret tt.

Definition gas_write_begin (mapping pos len flags : Z) : K (Z * option Z) :=
  '(ret, page) ← block_write_begin mapping pos len flags gas_get_block;
  _ ← (if ret <? 0 then gas_write_failed mapping (pos + len) else mret tt);
  mret (ret, page).

(** [len] is unsigned, so the comparison converts [ret]. *)
Definition gas_write_end (mapping pos len copied : Z) (page : Z * Z) : K Z :=
  ret ← generic_write_end mapping pos len copied page;
  _ ← mark_inode_dirty mapping;
  _ ← (if u32 ret <? len then gas_write_failed mapping (pos + len) else mret tt);
  mret ret.

Definition gas_bmap (mapping block : Z) : K Z := generic_block_bmap mapping block gas_get_block.
End page.

(** ** What they rely on, and what they keep *)

Section page_facts.
Context `{KL : KernelLaws}.

(** File [ino] has changed from [i] to [i'], its size to [size]; everything is in order. *)
Record file_frame (ino size : Z) (sbi : gas_sb_info) (s : kst) (i : inode) (sbi' : gas_sb_info) (s' : kst) (i' : inode) : Prop := {
  ff_sb : same_sb sbi sbi';
  ff_ok : fs_ok sbi' s';
  ff_ref : k_ref s' = k_ref s;
  ff_other : forall n, n <> ino -> k_inodes s' !! n = k_inodes s !! n;
  ff_inode : k_inodes s' !! ino = Some i';
  ff_size : i_size i' = size;
  ff_mode : i_mode i' = i_mode i }.

Lemma ff_refl ino sbi s i : fs_ok sbi s -> k_inodes s !! ino = Some i -> file_frame ino (i_size i) sbi s i sbi s i.
Proof. intros F Hi. split; try done. apply same_sb_refl. Qed.

Lemma ff_trans ino z1 z2 b1 s1 i1 b2 s2 i2 b3 s3 i3 :
  file_frame ino z1 b1 s1 i1 b2 s2 i2 -> file_frame ino z2 b2 s2 i2 b3 s3 i3 -> file_frame ino z2 b1 s1 i1 b3 s3 i3.
Proof.
  intros [A1 A2 A3 A4 A5 A6 A7] [B1 B2 B3 B4 B5 B6 B7]. split; try done; try congruence.
  - by eapply same_sb_trans.
  - intros n Hn. by rewrite B4, A4.
Qed.

(** A step that keeps the files in order and touches only file [ino], not its size. *)
Definition file_step (ino : Z) (s s' : kst) : Prop :=
  forall sbi i, fs_ok sbi s -> k_inodes s !! ino = Some i -> exists sbi' i', file_frame ino (i_size i) sbi s i sbi' s' i'.

#[local] Instance file_step_preorder ino : PreOrder (file_step ino).
Proof.
  split.
  - intros s sbi i F Hi. exists sbi, i. by apply ff_refl.
  - intros s1 s2 s3 H1 H2 sbi i F Hi. destruct (H1 sbi i F Hi) as (b2 & i2 & F1). destruct (H2 b2 i2) as (b3 & i3 & F2); [apply F1..|].
    exists b3, i3. rewrite (ff_size _ _ _ _ _ _ _ _ F1) in F2. by eapply ff_trans.
Qed.

(** A kernel function that maps blocks of file [ino] with the function it is given. *)
Definition only_maps {A} (ino : Z) (f : get_block_t -> K A) : Prop :=
  forall get_block s (R : kst -> kst -> Prop), PreOrder R ->
    (forall block create st, R s st -> 0 <= block -> kwp (get_block ino block create) st (fun _ st' => R st st')) ->
    kwp (f get_block) s (fun _ s' => R s s').

Variables (other : K unit) (fuel : nat).
Hypothesis other_idle : forall st, other st = Some (tt, st).

#[local] Notation get_block := (gas_get_block gas_new_block gas_free_block other (S fuel)).

(** *** [gas_get_block] *)

Lemma idle_rely sbi ino (BA : BlockAllocator gas_new_block gas_free_block) : rely (BA := BA) sbi ino other eq.
Proof using other_idle.
  split; [done|congruence|congruence|]. intros s l L. exists tt, s. split; [apply other_idle|]. repeat split. by exists l.
Qed.

Lemma fs_lookup sbi ino s i block : fs_ok sbi s -> k_inodes s !! ino = Some i ->
  kwp (get_block ino block false) s (fun res s' => s' = s /\ ((forall x, in_zone sbi x -> read_ok x = true) ->
    let b := if (0 <=? block) && (block <? s_nblocks sbi)
             then nodev s (blkaddr i) (block_to_path (s_nblocks sbi) (s_blocksize_bits s) block) else 0 in
    match snd res with Some (v, _) => v = b | None => b = 0 end)).
Proof using KL other_idle.
  intros F Hi. pose proof (fs_tree _ _ _ _ F Hi) as T. pose proof (fo_max _ _ (proj2 F)) as Hmax. clear F Hi.
  revert T. generalize (gas_allocator_with (dom (k_inodes s))) as BA. intros BA T. set (l := blkaddr i) in *. clearbody l.
  assert (L : live (BA := BA) sbi ino s l) by (exists sbi; split; [apply same_sb_refl|exact T]).
  pose proof (gas_get_block_lookup_run (BA := BA) sbi ino other eq s l block fuel (idle_rely sbi ino BA) L Hmax) as Q.
  eapply kwp_mono; [exact Q|]. intros [e r] s' (<- & _ & HM). split; [done|]. intros Hread.
  destruct ((0 <=? block) && (block <? s_nblocks sbi)) eqn:Eb; [|by destruct HM as [[= -> ->] _]].
  cbn [fst snd] in *. bools. set (path := block_to_path _ _ _) in *.
  assert (V : valid_path (ic_of (s_blocksize_bits s)) path).
  { pose proof (g_bits _ _ (mt_geom _ _ (ba_mounted _ _ (proj1 T)))).
    destruct (block_to_path_run (s_nblocks sbi) (s_blocksize_bits s) block) as [Fp _]; [done|done|lia|]. by apply full_valid. }
  inversion HM as [l1 L1 Hn|l1 L1 Hn|s0 l0 n <- _ L0 Hn Hnz Hrd|s0 l0 l1 n <- _ L0 L1 Hn Hne]; subst; cbn.
  - by rewrite (live_unique _ _ _ _ _ T L1).
  - by rewrite (live_unique _ _ _ _ _ T L1) in Hn.
  - exfalso. rewrite (live_unique _ _ _ _ _ T L0) in *.
    destruct (nodev_range sbi ino s l (take n path) T) as (Hz & _); [apply valid_take; [done|lia]|done|]. by rewrite Hread in Hrd.
  - exfalso. rewrite (live_unique _ _ _ _ _ T L1), (live_unique _ _ _ _ _ T L0) in Hne. by destruct Hne.
Qed.

Lemma get_block_step ino block create s st : 0 <= block -> file_step ino s st -> (exists sbi i, fs_ok sbi s /\ k_inodes s !! ino = Some i) ->
  kwp (get_block ino block create) st (fun _ st' => file_step ino st st').
Proof using KL other_idle.
  intros Hb St (sbi & i & F & Hi). destruct (St sbi i F Hi) as (b2 & i2 & [_ F2 _ _ Hi2 _ _]). destruct create.
  - eapply kwp_mono; [exact (fs_get_block other fuel other_idle b2 ino st i2 block F2 Hi2 Hb)|].
    intros r st' ((b3 & Hsb & F3) & Hr & Hn & Hs). intros b2' j F2' Hj. rewrite Hi2 in Hj. injection Hj as <-.
    destruct (Hs i2 Hi2) as (i3 & Hi3 & c & l & ->). exists b3, (set_ctime c (set_blkaddr i2 l)). split; try done.
    replace b2' with b2; [done|]. pose proof (mt_info _ _ (fs_mounted _ _ F2)). pose proof (mt_info _ _ (fs_mounted _ _ F2')). congruence.
  - eapply kwp_mono; [exact (fs_lookup b2 ino st i2 block F2 Hi2)|]. by intros r st' [-> _].
Qed.

Lemma only_maps_run {A} (f : get_block_t -> K A) ino sbi s i : only_maps ino f -> fs_ok sbi s -> k_inodes s !! ino = Some i ->
  kwp (f get_block) s (fun _ s' => exists sbi' i', file_frame ino (i_size i) sbi s i sbi' s' i').
Proof using KL other_idle.
  intros Hf F Hi. eapply kwp_mono; [apply (Hf get_block s (file_step ino)); [apply _|]|].
  - intros block create st St Hb. apply (get_block_step ino block create s st); [done..|]. by exists sbi, i.
  - intros a s' St. by apply St.
Qed.


(** *** Writing *)

Section write.
Variables (block_truncate_page truncate_pagecache : Z -> Z -> K unit).
Hypothesis page_truncated : forall (BA : BlockAllocator gas_new_block gas_free_block) sbi ino l size st,
  tree_at (BA := BA) sbi ino st l -> kwp (block_truncate_page ino size) st (fun _ s1 => data_only st l s1).
(** Dropping pages of the page cache changes nothing on the device. *)
Hypothesis pagecache_truncated : forall ino size st, truncate_pagecache ino size st = Some (tt, st).

Lemma write_failed_run sbi s ino i to : (forall x, in_zone sbi x -> read_ok x = true) -> fs_ok sbi s -> k_inodes s !! ino = Some i -> 0 <= i_size i ->
  S_ISREG (i_mode i) || S_ISDIR (i_mode i) || S_ISLNK (i_mode i) = true ->
  kwp (gas_write_failed block_truncate_page other truncate_pagecache ino to) s (fun _ s' =>
    exists i', file_frame ino (i_size i) sbi s i sbi s' i' /\ (i_size i < to -> cut_off sbi s' i')).
Proof using KL other_idle page_truncated pagecache_truncated.
  intros Hread F Hi Hs Hm. unfold gas_write_failed. apply kwp_bind. eapply kwp_iref; [exact Hi|]. destruct (Z.ltb_spec (i_size i) to) as [Hlt|Hge].
  2: { apply kwp_ret. exists i. split; [by apply ff_refl|lia]. }
  apply kwp_bind. exists tt, s. split; [apply pagecache_truncated|]. unfold gas_truncate.
  apply kwp_bind. eapply kwp_iref; [exact Hi|]. rewrite Hm. cbn [negb].
  eapply kwp_mono; [exact (fs_truncate_run other other_idle block_truncate_page sbi s ino i Hread
    (fun BA l size st => page_truncated BA sbi ino l size st) F Hi Hs)|].
  intros [] s' (F' & Hr & i' & Ei & Hz & Hmo & HC). exists i'. split; [|done]. split; try done; [apply same_sb_refl|..].
  - intros n Hn. by rewrite Ei, lookup_insert_ne.
  - by rewrite Ei, lookup_insert_eq.
Qed.

(** C24: [gas_write_begin] returns what [block_write_begin] returned and leaves all files in
    order, the sizes and the other inodes unchanged. When the kernel failed and the write
    reached beyond the end of the file, no block after the end stays mapped: the blocks
    mapped for the write are taken back. *)
Theorem gas_write_begin_spec block_write_begin sbi s ino i pos len flags :
  (forall x, in_zone sbi x -> read_ok x = true) -> fs_ok sbi s -> k_inodes s !! ino = Some i -> 0 <= i_size i ->
  S_ISREG (i_mode i) || S_ISDIR (i_mode i) || S_ISLNK (i_mode i) = true ->
  only_maps ino (block_write_begin ino pos len flags) ->
  kwp (gas_write_begin get_block block_truncate_page other block_write_begin truncate_pagecache ino pos len flags) s
    (fun '(ret, page) s' => exists s1 sbi' i', block_write_begin ino pos len flags get_block s = Some ((ret, page), s1) /\
      file_frame ino (i_size i) sbi s i sbi' s' i' /\
      if ret <? 0 then i_size i < pos + len -> cut_off sbi' s' i' else s' = s1).
Proof using KL other_idle page_truncated pagecache_truncated.
  intros Hread F Hi Hs Hm Hbegin. unfold gas_write_begin. apply kwp_bind.
  destruct (only_maps_run _ ino sbi s i Hbegin F Hi) as ([ret page] & s1 & E & sbi1 & i1 & F1).
  assert (Hread1 : forall x, in_zone sbi1 x -> read_ok x = true).
  { intros x Hz. apply Hread. by apply (in_zone_same _ _ _ (ff_sb _ _ _ _ _ _ _ _ F1)). }
  exists (ret, page), s1. split; [exact E|]. apply kwp_bind. destruct (ret <? 0) eqn:Er.
  - eapply kwp_mono; [apply (write_failed_run sbi1 s1 ino i1 (pos + len) Hread1 (ff_ok _ _ _ _ _ _ _ _ F1) (ff_inode _ _ _ _ _ _ _ _ F1))|].
    + by rewrite (ff_size _ _ _ _ _ _ _ _ F1).
    + by rewrite (ff_mode _ _ _ _ _ _ _ _ F1).
    + rewrite (ff_size _ _ _ _ _ _ _ _ F1). intros [] s' (i' & F2 & HC). apply kwp_ret. rewrite Er.
      exists s1, sbi1, i'. split; [done|]. split; [by eapply ff_trans|done].
  - apply kwp_ret, kwp_ret. rewrite Er. by exists s1, sbi1, i1.
Qed.

(** C25: [gas_write_end] returns the bytes the kernel took, and the file ends after them if it
    ended before. All files stay in order and the other inodes unchanged. When the kernel
    took fewer bytes than the write was to have and the write reached beyond the new end,
    no block after the end stays mapped. *)
Theorem gas_write_end_spec generic_write_end sbi s ino i pos len copied page :
  (forall x, in_zone sbi x -> read_ok x = true) -> fs_ok sbi s -> k_inodes s !! ino = Some i -> 0 <= i_size i -> 0 <= pos -> 0 <= copied <= len -> len < 2 ^ 31 ->
  S_ISREG (i_mode i) || S_ISDIR (i_mode i) || S_ISLNK (i_mode i) = true ->
  kwp (generic_write_end ino pos len copied page) s (fun ret s' => (ret = copied \/ ret = 0) /\
    exists d, s' = with_idirty d (with_inodes (<[ino := set_size (Z.max (i_size i) (pos + ret)) i]> (k_inodes s)) s)) ->
  kwp (gas_write_end block_truncate_page other generic_write_end truncate_pagecache ino pos len copied page) s
    (fun ret s' => exists i', let size := Z.max (i_size i) (pos + ret) in (ret = copied \/ ret = 0) /\
      file_frame ino size sbi s i sbi s' i' /\ (ret < len -> size < pos + len -> cut_off sbi s' i')).
Proof using KL other_idle page_truncated pagecache_truncated.
  intros Hread F Hi Hs Hp Hc Hl Hm (ret & s1 & E & Hret & d & Es). unfold gas_write_end. apply kwp_bind.
  exists ret, s1. split; [exact E|]. apply kwp_bind, kwp_mod.
  set (i1 := set_size (Z.max (i_size i) (pos + ret)) i) in *. set (s2 := with_idirty _ s1).
  assert (Ei : k_inodes s2 = <[ino := i1]> (k_inodes s)) by (subst s2 s1; done).
  assert (F2 : fs_ok sbi s2) by (subst s2 s1; by apply (fs_attr sbi s _ ino i i1)).
  assert (Hi2 : k_inodes s2 !! ino = Some i1) by (rewrite Ei; apply lookup_insert_eq).
  assert (FF : file_frame ino (i_size i1) sbi s i sbi s2 i1).
  { split; try done; [apply same_sb_refl|by subst s2 s1|]. intros n Hn. by rewrite Ei, lookup_insert_ne. }
  apply kwp_bind. rewrite u32_small by lia. destruct (Z.ltb_spec ret len) as [Hlt|Hge].
  - eapply kwp_mono; [apply (write_failed_run sbi s2 ino i1 (pos + len)); try done; cbn; lia|].
    intros [] s' (i' & F3 & HC). apply kwp_ret. exists i'. split; [done|]. split; [by eapply ff_trans|]. intros _. exact HC.
  - apply kwp_ret, kwp_ret. exists i1. split; [done|]. split; [exact FF|lia].
Qed.
End write.
End page_facts.

(** ** Writing to the file of TreeDemo.v *)

#[local] Existing Instance good_api.
#[local] Existing Instance good_laws.

(** Kernel functions that map block 8 and fail, and take half of the bytes. *)
Definition demo_write_begin (_ _ _ _ : Z) (gb : get_block_t) : K (Z * option Z) := _ ← gb 1 8 true; mret (-5, None).
Definition demo_write_end (ino pos len copied : Z) (_ : Z * Z) : K Z :=
  i ← iref ino; _ ← iput_data ino (set_size (Z.max (i_size i) (pos + copied)) i); mret copied.

Lemma demo_io_maps {A} (a : A) : only_maps 1 (fun gb => _ ← gb 1 8 true; mret a).
Proof.
  intros gb s R HR Hgb. apply kwp_bind. eapply kwp_mono; [apply Hgb; [reflexivity|lia]|].
  intros r s' HR'. by apply kwp_ret.
Qed.

Definition demo_file : inode := set_blkaddr demo_root demo_ptrs.

Definition demo_bmap (mapping block : Z) (gb : get_block_t) : K Z :=
  '(_, r) ← gb mapping block false; mret (match r with Some (b, _) => b | None => 0 end).


Lemma gas_write_begin_spec_witness :
  kwp (gas_write_begin (gas_get_block gas_new_block gas_free_block quiet_tasks 1) keep_page quiet_tasks demo_write_begin keep_page
    1 4096 512 0) demo_tree (fun r s' => fst r = -5 /\ exists sbi' i', fs_ok sbi' s' /\ k_inodes s' !! 1 = Some i' /\ cut_off sbi' s' i').
Proof.
  eapply kwp_mono.
  { apply (gas_write_begin_spec quiet_tasks 0 quiet_ok keep_page keep_page keep_any_page (fun _ _ _ => eq_refl) demo_write_begin
      demo_sbi demo_tree 1 demo_file 4096 512 0); [exact demo_reads|exact demo_fs_ok|reflexivity|vm_compute; congruence|reflexivity|].
    apply (demo_io_maps (-5, None)). }
  intros [ret page] s' (s1 & sbi' & i' & E & FF & HC). assert (Hr : ret = -5).
  { unfold demo_write_begin in E. rewrite K_bind_eq in E. destruct (gas_get_block _ _ _ _ _ _ _ _) as [[r s2]|]; [|discriminate E].
    by injection E. }
  split; [exact Hr|]. subst ret. exists sbi', i'. split; [apply FF|]. split; [apply FF|]. apply HC. vm_compute. reflexivity.
Defined.

Lemma gas_write_end_spec_witness :
  kwp (gas_write_end keep_page quiet_tasks demo_write_end keep_page 1 4096 512 256 (1, 1)) demo_tree
    (fun _ s' => fs_ok demo_sbi s' /\ exists i', k_inodes s' !! 1 = Some i' /\ (i_size i' < 4608 -> cut_off demo_sbi s' i')).
Proof.
  eapply kwp_mono.
  { apply (gas_write_end_spec quiet_tasks quiet_ok keep_page keep_page keep_any_page (fun _ _ _ => eq_refl) demo_write_end
      demo_sbi demo_tree 1 demo_file 4096 512 256 (1, 1)); [exact demo_reads|exact demo_fs_ok|reflexivity|vm_compute; congruence|lia..|reflexivity|].
    exists 256. eexists. split; [reflexivity|]. split; [by left|]. exists (k_idirty demo_tree). reflexivity. }
  intros ret s' (i' & Hret & FF & HC). split; [apply FF|]. exists i'. split; [apply FF|]. rewrite (ff_size _ _ _ _ _ _ _ _ FF).
  apply HC. destruct Hret as [->| ->]; lia.
Defined.
