(* ===== verification/Super.v ===== *)
(** * Mounting (kern/gas_super.c)

    [gas_super_block_fill] decodes the super block, [gas_fill_super] checks it, loads
    the allocation maps and reads the root inode, [gas_put_super] releases them,
    [gas_statfs] reports usage. Whether the allocations of memory succeed
    ([sbi_alloc], [map_alloc], [root_alloc]) and the device itself are parameters:
    [device bits] is its contents cut into blocks of [2 ^ bits] bytes. *)

From S2P Require Import Prelude Mem Layout Kernel InodeTab KBitmap.

Definition set_map (m : list (option Z)) (bam iam : Z) (i : gas_sb_info) : gas_sb_info :=
  SbInfo (s_magic i) (s_blocksize i) (s_bam_blocks i) (s_iam_blocks i) (s_inode_blocks i)
    (s_nblocks i) (s_ninodes i) (s_inodes_per_block i) (s_bits_per_block i)
    (s_dir_entries_per_block i) m bam iam (s_bam_last i) (s_iam_last i)
    (s_inode_list_start i) (s_data_block_start i).

(** The super block [kzalloc]ed and filled from the disk block [m]. *)
Definition gas_super_block_fill (m : bytes) : option gas_sb_info :=
  magic ← f_get m 0 SB.s_magic;
  blocksize ← f_get m 0 SB.s_blocksize;
  bam_blocks ← f_get m 0 SB.s_bam_blocks;
  iam_blocks ← f_get m 0 SB.s_iam_blocks;
  inode_blocks ← f_get m 0 SB.s_inode_blocks;
  nblocks ← f_get m 0 SB.s_nblocks;
  ninodes ← f_get m 0 SB.s_ninodes;
  let inode_list_start := u32 (bam_blocks + iam_blocks + 1) in
  Some (SbInfo magic blocksize bam_blocks iam_blocks inode_blocks nblocks ninodes
    (blocksize / DI.sizeof) (u32 (8 * blocksize)) (blocksize / DE.sizeof) [] 0 0 0 0
    inode_list_start (u32 (inode_list_start + inode_blocks))).

(** [struct kstatfs], less the file-system id. *)
Record kstatfs := Kstatfs {
  f_type : Z; f_bsize : Z; f_blocks : Z; f_bfree : Z; f_bavail : Z; f_files : Z; f_ffree : Z;
  f_namelen : Z }.

Section super.
Context `{KernelApi}.
Variables (device : Z -> gmap Z bytes) (sbi_alloc map_alloc root_alloc : bool).

Definition gas_super_block_read : K (option gas_sb_info) :=
  if negb sbi_alloc then mret None
  else
    bh ← sb_bread SUPER_BLOCK_NO;
    match bh with
    | None => mret None
    | Some bh =>
        dsb ← bh_data bh;
        sbi ← klift (gas_super_block_fill dsb);
        _ ← brelse (Some bh);
        if negb (s_magic sbi =? MAGIC_NUMBER) then mret None else mret (Some sbi)
    end.

(** [sb_set_blocksize]: an accepted size drops the buffers of the old size. *)
Definition sb_set_blocksize (size : Z) : K Z :=
  match set_blocksize size with
  | None => mret 0
  | Some bits =>
      _ ← kmod (fun s => with_bits bits (with_disk (device bits) (with_buf (device bits) s)));
      mret size
  end.

(** [map[i] = bh] through a pointer into the array of buffer heads. *)
Definition put_bh (i : Z) (bh : option Z) : K unit :=
  sbi ← GAS_SB;
  if (0 <=? i) && (i <? Z.of_nat (length (s_map sbi)))
  then set_sbi (set_map (<[Z.to_nat i := bh]> (s_map sbi)) (s_bam_bh sbi) (s_iam_bh sbi) sbi)
  else klift None.

(** Load [todo] map blocks into [map[i], map[i + 1], ...] from block [block] on;
    [None] is the jump to [error]. *)
Fixpoint load_maps (todo : nat) (i block : Z) : K (option Z) :=
  match todo with
  | O => mret (Some block)
  | S todo =>
      bh ← sb_bread block;
      _ ← put_bh i bh;
      match bh with
      | None => mret None
      | Some _ => load_maps todo (i + 1) (block + 1)
      end
  end.

(** [brelse(map[i])] for [todo] entries from [i] on. *)
Fixpoint release_maps (todo : nat) (i : Z) : K unit :=
  match todo with
  | O => mret tt
  | S todo =>
      sbi ← GAS_SB;
      bh ← klift (if 0 <=? i then s_map sbi !! Z.to_nat i else None);
      _ ← brelse bh;
      release_maps todo (i + 1)
  end.

Definition release_all : K unit :=
  sbi ← GAS_SB;
  _ ← release_maps (Z.to_nat (s_bam_blocks sbi)) (s_bam_bh sbi);
  release_maps (Z.to_nat (s_iam_blocks sbi)) (s_iam_bh sbi).

(** The two loops that load the maps. *)
Definition load_both : K bool :=
  sbi ← GAS_SB;
  block ← load_maps (Z.to_nat (s_bam_blocks sbi)) (s_bam_bh sbi) 1;
  match block with
  | None => mret false
  | Some block =>
      block ← load_maps (Z.to_nat (s_iam_blocks sbi)) (s_iam_bh sbi) block;
      mret (match block with Some _ => true | None => false end)
  end.

(** [gas_fill_super]: 0 ([None]) or an error. *)
Definition gas_fill_super : K (option errno) :=
  sbi ← gas_super_block_read;
  match sbi with
  | None => mret (Some EINVAL)
  | Some sbi =>
      _ ← kmod (with_sb (SuperBlock (s_magic sbi) GAS_LINK_MAX None));
      _ ← set_sbi sbi;
      n ← sb_set_blocksize (s_blocksize sbi);
      if n =? 0 then mret (Some EINVAL)
      else if (s_bam_blocks sbi =? 0) || (s_iam_blocks sbi =? 0) || (s_inode_blocks sbi =? 0)
      then mret (Some EINVAL)
      else
        let n := if map_alloc then u32 (s_bam_blocks sbi + s_iam_blocks sbi) else 0 in
        _ ← set_sbi (set_map (replicate (Z.to_nat n) None) 0 (s_bam_blocks sbi) sbi);
        ok ← load_both;
        if negb ok then
          _ ← release_all;
          mret (Some EIO)
        else
          sbi ← GAS_SB;
          _ ← set_sbi (set_iam_last 0 (set_bam_last 0 sbi));
          root ← gas_iget GAS_ROOT_INO;
          match root with
          | inl e => mret (Some e)
          | inr root =>
              if root_alloc then
                _ ← kmod (fun s => with_sb (SuperBlock (sb_magic (k_sb s)) (s_max_links (k_sb s)) (Some root)) s);
                mret None
              else mret (Some ENOMEM)
          end
  end.

Definition gas_put_super : K unit :=
  info ← kget s_fs_info;
  _ ← (match info with Some _ => release_all | None => mret tt end);
  kmod (with_fs_info None).

Definition gas_statfs : K kstatfs :=
  sbi ← GAS_SB;
  magic ← kget (fun s => sb_magic (k_sb s));
  bsize ← kget sb_blocksize;
  bfree ← gas_count_free_blocks;
  ffree ← gas_count_free_inodes;
  mret (Kstatfs magic bsize (u32 (s_nblocks sbi - s_data_block_start sbi)) bfree bfree
          (s_ninodes sbi) ffree GAS_MAX_NAME_LEN).
End super.

(** ** Loading and releasing the maps *)

(** [j] entries of [l] from [i] on replaced by the blocks from [block] on. *)
Definition fill_map (l : list (option Z)) (i block j : Z) : list (option Z) :=
  take (Z.to_nat i) l ++ (Some <$> seqZ block j) ++ drop (Z.to_nat (i + j)) l.

Lemma fill_map_0 l i block : fill_map l i block 0 = l.
Proof. unfold fill_map. rewrite Z.add_0_r. cbn. apply take_drop. Qed.

Lemma fill_map_succ l i block j :
  0 <= i < Z.of_nat (length l) -> 0 <= j ->
  fill_map (<[Z.to_nat i := Some block]> l) (i + 1) (block + 1) j = fill_map l i block (j + 1).
Proof.
  intros Hi Hj. unfold fill_map. replace (i + 1 + j) with (i + (j + 1)) by lia.
  rewrite drop_insert_lt by lia. rewrite (seqZ_cons block (j + 1)) by lia. replace (Z.pred (j + 1)) with j by lia.
  replace (Z.to_nat (i + 1)) with (S (Z.to_nat i)) by lia.
  rewrite (take_S_r _ _ (Some block)) by (rewrite list_lookup_insert_eq; [done|lia]).
  rewrite take_insert_ge by lia. by rewrite fmap_cons, <- app_assoc.
Qed.

Section super_lemmas.
Context `{KernelLaws}.

Definition readable (s : kst) (b : Z) : Prop := read_ok b = true /\ is_Some (k_buf s !! b).

Lemma set_map_id sbi : set_map (s_map sbi) (s_bam_bh sbi) (s_iam_bh sbi) sbi = sbi.
Proof. by destruct sbi. Qed.

Lemma load_maps_run todo : forall i block s sbi,
  s_fs_info s = Some sbi -> 0 <= i -> i + Z.of_nat todo <= Z.of_nat (length (s_map sbi)) ->
  (forall k, i <= k < i + Z.of_nat todo -> s_map sbi !! Z.to_nat k = Some None) ->
  exists r j, 0 <= j <= Z.of_nat todo /\
    load_maps todo i block s = Some (r, with_ref (k_ref s ⊎ refs (seqZ block j))
      (with_fs_info (Some (set_map (fill_map (s_map sbi) i block j) (s_bam_bh sbi) (s_iam_bh sbi) sbi)) s)) /\
    (forall b, block <= b < block + j -> readable s b) /\
    (r = Some (block + Z.of_nat todo) /\ j = Z.of_nat todo \/
     r = None /\ j < Z.of_nat todo /\ ~ readable s (block + j)).
Proof.
  induction todo as [|todo IH]; intros i block s sbi Hs Hi Hlen Hnone; cbn [load_maps].
  { exists (Some block), 0. split; [lia|]. rewrite fill_map_0. split.
    { by rewrite refs_0, set_map_id, same_state. }
    split; [lia|]. left. split; [f_equal; lia|lia]. }
  assert (Hb : (0 <=? i) && (i <? Z.of_nat (length (s_map sbi))) = true)
    by (apply andb_true_iff; rewrite Z.leb_le, Z.ltb_lt; lia).
  rewrite K_bind_eq. unfold sb_bread.
  destruct (read_ok block && bool_decide (is_Some (k_buf s !! block))) eqn:Er.
  - apply andb_true_iff in Er as [Er1 Er2]. apply bool_decide_eq_true in Er2.
    rewrite K_bind_eq. unfold put_bh. rewrite K_bind_eq. unfold GAS_SB at 1. cbn [s_fs_info with_ref].
    rewrite Hs. cbn [mbind option_bind]. rewrite Hb. unfold set_sbi, kmod.
    set (sbi1 := set_map _ _ _ sbi). set (s1 := with_fs_info (Some sbi1) _).
    destruct (IH (i + 1) (block + 1) s1 sbi1) as (r & j & Hj & E & Hr & Hcase); [done|lia|..].
    { cbn. rewrite length_insert. lia. }
    { intros k Hk. cbn. rewrite list_lookup_insert_ne by lia. apply Hnone. lia. }
    exists r, (j + 1). split; [lia|]. rewrite E. split.
    { do 2 f_equal. unfold s1, sbi1. cbn. rewrite fill_map_succ by lia.
      rewrite (seqZ_cons block (j + 1)) by lia. replace (Z.pred (j + 1)) with j by lia.
      by rewrite <- refs_take. }
    split.
    { intros b Hbr. destruct (Z.eq_dec b block) as [->|]; [done|]. apply (Hr b). lia. }
    destruct Hcase as [[-> ->]|(-> & Hlt & Hn)]; [left; split; [f_equal; lia|lia]|right].
    split; [done|]. split; [lia|]. by replace (block + (j + 1)) with (block + 1 + j) by lia.
  - rewrite K_bind_eq. unfold put_bh. rewrite K_bind_eq. unfold GAS_SB at 1. rewrite Hs.
    cbn [mbind option_bind]. rewrite Hb. unfold set_sbi, kmod. exists None, 0. split; [lia|].
    rewrite fill_map_0, list_insert_id by (apply Hnone; lia). split.
    { rewrite refs_0. by destruct s. }
    split; [lia|]. right. split; [done|]. split; [lia|]. rewrite Z.add_0_r. intros [R1 R2].
    rewrite R1, bool_decide_eq_true_2 in Er by done. done.
Qed.

(** The references a list of buffer heads holds. *)
Lemma release_maps_run todo : forall i s sbi,
  s_fs_info s = Some sbi -> 0 <= i -> i + Z.of_nat todo <= Z.of_nat (length (s_map sbi)) ->
  release_maps todo i s =
    Some (tt, with_ref (k_ref s ∖ refs (omap id (take todo (drop (Z.to_nat i) (s_map sbi))))) s).
Proof.
  induction todo as [|todo IH]; intros i s sbi Hs Hi Hlen; cbn [release_maps].
  { change (omap id (take 0 (drop (Z.to_nat i) (s_map sbi)))) with (@nil Z). rewrite refs_drop_0.
    by destruct s. }
  rewrite K_bind_eq. unfold GAS_SB. rewrite Hs. cbn [mbind option_bind].
  rewrite K_bind_eq. unfold klift. rewrite (proj2 (Z.leb_le _ _)) by lia.
  destruct (lookup_lt_is_Some_2 (s_map sbi) (Z.to_nat i)) as [bh Hbh]; [lia|]. rewrite Hbh.
  cbn [mbind option_bind]. rewrite (drop_S _ bh) by done. cbn [take omap list_omap].
  replace (S (Z.to_nat i)) with (Z.to_nat (i + 1)) by lia. rewrite K_bind_eq.
  destruct bh as [b|]; cbn [brelse id].
  - unfold kmod. etrans; [apply (IH _ _ sbi); done || lia|]. cbn [k_ref with_ref].
    by rewrite refs_drop.
  - apply (IH _ _ sbi); done || lia.
Qed.
End super_lemmas.

Section super_lemmas2.
Context `{KernelLaws}.

(** The array of buffer heads after [j] of [n] maps have been loaded. *)
Definition loaded_map (n j : Z) : list (option Z) :=
  (Some <$> seqZ 1 j) ++ replicate (Z.to_nat (n - j)) None.

Lemma length_loaded_map n j : 0 <= j <= n -> length (loaded_map n j) = Z.to_nat n.
Proof. intros Hj. unfold loaded_map. rewrite length_app, length_fmap, length_seqZ, length_replicate. lia. Qed.

Lemma loaded_map_none n j k : 0 <= j <= k -> k < n -> loaded_map n j !! Z.to_nat k = Some None.
Proof.
  intros Hj Hk. unfold loaded_map. rewrite lookup_app_r; rewrite length_fmap, length_seqZ; [|lia].
  apply lookup_replicate. split; [done|lia].
Qed.

Lemma omap_loaded_map n j : omap id (loaded_map n j) = seqZ 1 j.
Proof.
  unfold loaded_map. rewrite omap_app. rewrite <- (app_nil_r (seqZ 1 j)) at 2. f_equal.
  - induction (seqZ 1 j) as [|x l IH]; [done|]. cbn. by rewrite IH.
  - by induction (Z.to_nat (n - j)).
Qed.

Lemma fill_loaded_map n j j' :
  0 <= j -> 0 <= j' -> j + j' <= n -> fill_map (loaded_map n j) j (1 + j) j' = loaded_map n (j + j').
Proof.
  intros Hj Hj' Hn. unfold fill_map, loaded_map.
  rewrite take_app_length' by (rewrite length_fmap, length_seqZ; done).
  rewrite drop_app_ge by (rewrite length_fmap, length_seqZ; lia).
  rewrite length_fmap, length_seqZ, drop_replicate, seqZ_app, fmap_app by lia.
  rewrite <- app_assoc. do 2 f_equal. f_equal. lia.
Qed.

Definition loaded (s : kst) (sbi : gas_sb_info) (j : Z) : kst :=
  with_ref (k_ref s ⊎ refs (seqZ 1 j)) (with_fs_info (Some (set_map
    (loaded_map (s_bam_blocks sbi + s_iam_blocks sbi) j) 0 (s_bam_blocks sbi) sbi)) s).

Lemma load_both_run s sbi :
  s_fs_info s = Some sbi -> 0 <= s_bam_blocks sbi -> 0 <= s_iam_blocks sbi ->
  s_bam_bh sbi = 0 -> s_iam_bh sbi = s_bam_blocks sbi ->
  s_map sbi = loaded_map (s_bam_blocks sbi + s_iam_blocks sbi) 0 ->
  exists ok j, 0 <= j <= s_bam_blocks sbi + s_iam_blocks sbi /\
    load_both s = Some (ok, loaded s sbi j) /\
    (forall b, 1 <= b < 1 + j -> readable s b) /\
    (ok = true /\ j = s_bam_blocks sbi + s_iam_blocks sbi \/
     ok = false /\ j < s_bam_blocks sbi + s_iam_blocks sbi /\ ~ readable s (1 + j)).
Proof.
  intros Hs Hb Hi Eb Ei Em. set (n := s_bam_blocks sbi + s_iam_blocks sbi) in *.
  unfold load_both. rewrite K_bind_eq. unfold GAS_SB. rewrite Hs. cbn [mbind option_bind].
  rewrite K_bind_eq. rewrite Eb, Ei.
  destruct (load_maps_run (Z.to_nat (s_bam_blocks sbi)) 0 1 s sbi) as (r & j & Hj & -> & Hr & Hcase);
    [done|lia|rewrite Em, length_loaded_map; lia|intros k Hk; rewrite Em; apply loaded_map_none; lia|].
  rewrite Em in *. rewrite Eb, Ei.
  replace (fill_map (loaded_map n 0) 0 1 j) with (loaded_map n j)
    by (symmetry; apply (fill_loaded_map n 0 j); lia).
  destruct Hcase as [[-> ->]|(-> & Hlt & Hn)].
  2: { exists false, j. split; [lia|]. split; [done|]. split; [done|]. right. split; [done|]. split; [lia|done]. }
  rewrite Z2Nat.id in * by lia.
  set (s1 := with_ref _ _). set (sbi1 := set_map _ _ _ sbi) in s1.
  rewrite K_bind_eq.
  destruct (load_maps_run (Z.to_nat (s_iam_blocks sbi)) (s_bam_blocks sbi) (1 + s_bam_blocks sbi) s1 sbi1)
    as (r & j & Hj2 & -> & Hr2 & Hcase);
    [done|lia|cbn; rewrite length_loaded_map; lia|intros k Hk; apply loaded_map_none; lia|].
  cbn [s_map sbi1 set_map s_bam_bh s_iam_bh]. rewrite fill_loaded_map by lia.
  exists (match r with Some _ => true | None => false end), (s_bam_blocks sbi + j). split; [lia|]. split.
  { unfold loaded. fold n. rewrite (seqZ_app _ _ j), <- refs_app by lia. done. }
  split.
  { intros b Hbr. destruct (Z_lt_le_dec b (1 + s_bam_blocks sbi)); [apply Hr; lia|]. apply (Hr2 b). lia. }
  destruct Hcase as [[-> ->]|(-> & Hlt & Hn)]; [left; split; [done|lia]|right].
  split; [done|]. split; [lia|]. by replace (1 + (s_bam_blocks sbi + j)) with (1 + s_bam_blocks sbi + j) by lia.
Qed.

Lemma release_all_run s sbi :
  s_fs_info s = Some sbi -> 0 <= s_bam_blocks sbi -> 0 <= s_iam_blocks sbi ->
  s_bam_bh sbi = 0 -> s_iam_bh sbi = s_bam_blocks sbi ->
  length (s_map sbi) = Z.to_nat (s_bam_blocks sbi + s_iam_blocks sbi) ->
  release_all s = Some (tt, with_ref (k_ref s ∖ refs (omap id (s_map sbi))) s).
Proof.
  intros Hs Hb Hi Eb Ei El. unfold release_all. rewrite K_bind_eq. unfold GAS_SB. rewrite Hs.
  cbn [mbind option_bind]. rewrite K_bind_eq, Eb, Ei.
  rewrite (release_maps_run _ _ _ sbi) by (done || lia).
  etrans; [apply (release_maps_run _ _ _ sbi); done || lia|]. do 2 f_equal. cbn [k_ref with_ref].
  change (Z.to_nat 0) with 0%nat. rewrite drop_0, (take_ge (drop _ _)) by (rewrite length_drop; lia).
  by rewrite refs_drop_app, <- omap_app, take_drop.
Qed.

Lemma release_loaded s sbi j :
  0 <= s_bam_blocks sbi -> 0 <= s_iam_blocks sbi -> 0 <= j <= s_bam_blocks sbi + s_iam_blocks sbi ->
  exists s', release_all (loaded s sbi j) = Some (tt, s') /\ k_ref s' = k_ref s.
Proof.
  intros Hb Hi Hj. eexists. split.
  - eapply release_all_run; [done|done|done|done|done|]. cbn. by rewrite length_loaded_map.
  - cbn [k_ref with_ref loaded s_map set_map with_fs_info]. rewrite omap_loaded_map. apply refs_cancel.
Qed.
End super_lemmas2.

(** ** What mounting promises *)

Section super_claims.
Context `{KernelLaws}.
Variables (device : Z -> gmap Z bytes).

(** The state in which the maps are loaded. *)
Definition before_maps (s : kst) (sbi : gas_sb_info) (bits : Z) : kst :=
  with_fs_info (Some (set_map (loaded_map (s_bam_blocks sbi + s_iam_blocks sbi) 0) 0 (s_bam_blocks sbi) sbi))
    (with_bits bits (with_disk (device bits) (with_buf (device bits)
      (with_fs_info (Some sbi) (with_sb (SuperBlock (s_magic sbi) GAS_LINK_MAX None) s))))).

(** The super block of the device: block 0 decodes to [sbi], which is in order. *)
Record super_read (s : kst) (sbi : gas_sb_info) : Prop := {
  sr_read : readable s SUPER_BLOCK_NO;
  sr_fill : forall m, k_buf s !! SUPER_BLOCK_NO = Some m -> gas_super_block_fill m = Some sbi;
  sr_magic : s_magic sbi = MAGIC_NUMBER }.

Lemma fill_counts m sbi :
  gas_super_block_fill m = Some sbi ->
  0 <= s_bam_blocks sbi < 2 ^ 32 /\ 0 <= s_iam_blocks sbi < 2 ^ 32 /\ s_bam_last sbi = 0 /\ s_iam_last sbi = 0.
Proof.
  unfold gas_super_block_fill. intros H1.
  repeat match type of H1 with
  | (?o ≫= _) = Some _ => let E := fresh "E" in destruct o eqn:E; [cbn [mbind option_bind] in H1|done]
  end.
  simplify_eq. cbn.
  apply (load_range 4) in E1, E2. by change (2 ^ (8 * Z.of_nat 4)) with (2 ^ 32) in *.
Qed.

Lemma super_read_run s sbi :
  super_read s sbi -> gas_super_block_read true s = Some (Some sbi, s).
Proof.
  intros [[R1 [m Hm]] Hf Hmag]. unfold gas_super_block_read. cbn [negb]. rewrite K_bind_eq.
  unfold sb_bread. rewrite R1, bool_decide_eq_true_2 by done. cbn [andb]. rewrite K_bind_eq.
  unfold bh_data. cbn [k_buf with_ref]. rewrite Hm. cbn [mbind option_bind]. rewrite K_bind_eq.
  unfold klift. rewrite (Hf m Hm). cbn [mbind option_bind]. rewrite K_bind_eq. cbn [brelse]. unfold kmod.
  rewrite Hmag. cbn [k_ref with_ref]. replace (_ ∖ _) with (k_ref s) by multiset_solver. by destruct s.
Qed.

Definition after_maps (root_alloc ok : bool) : K (option errno) :=
  if negb ok then
    _ ← release_all;
    mret (Some EIO)
  else
    sbi ← GAS_SB;
    _ ← set_sbi (set_iam_last 0 (set_bam_last 0 sbi));
    root ← gas_iget GAS_ROOT_INO;
    match root with
    | inl e => mret (Some e)
    | inr root =>
        if root_alloc then
          _ ← kmod (fun s => with_sb (SuperBlock (sb_magic (k_sb s)) (s_max_links (k_sb s)) (Some root)) s);
          mret None
        else mret (Some ENOMEM)
    end.

Lemma fill_super_to_maps s sbi bits ra :
  super_read s sbi -> set_blocksize (s_blocksize sbi) = Some bits ->
  s_bam_blocks sbi <> 0 -> s_iam_blocks sbi <> 0 -> s_inode_blocks sbi <> 0 ->
  s_bam_blocks sbi + s_iam_blocks sbi < 2 ^ 32 ->
  gas_fill_super device true true ra s =
    (ok ← load_both; after_maps ra ok) (before_maps s sbi bits).
Proof.
  intros Hr Hb N1 N2 N3 Hsum. unfold gas_fill_super.
  rewrite (K_bind_some _ _ _ _ _ (super_read_run s sbi Hr)).
  destruct Hr as [[_ [m Hm]] Hf _]. destruct (fill_counts m sbi (Hf m Hm)) as (? & ? & _).
  destruct (set_blocksize_law _ _ Hb) as [Hsz Hbits].
  assert (0 < 2 ^ bits) by (apply Z.pow_pos_nonneg; lia).
  unfold set_sbi. cbv beta iota. do 2 (rewrite K_bind_mod; cbv beta). unfold sb_set_blocksize. rewrite Hb.
  erewrite K_bind_some by (rewrite K_bind_mod; done).
  rewrite !(proj2 (Z.eqb_neq _ 0)) by lia. cbn [orb]. rewrite u32_small by lia.
  rewrite K_bind_mod. unfold before_maps, loaded_map.
  change (Some <$> seqZ 1 0) with (@nil (option Z)). rewrite Z.sub_0_r. done.
Qed.

Lemma readable_before s sbi bits b :
  readable (before_maps s sbi bits) b <-> read_ok b = true /\ is_Some (device bits !! b).
Proof. done. Qed.

(** What loading the maps of a device gives. *)
Lemma load_both_before s sbi bits :
  0 <= s_bam_blocks sbi -> 0 <= s_iam_blocks sbi ->
  exists ok j, 0 <= j <= s_bam_blocks sbi + s_iam_blocks sbi /\
    load_both (before_maps s sbi bits) = Some (ok, loaded (before_maps s sbi bits)
      (set_map (loaded_map (s_bam_blocks sbi + s_iam_blocks sbi) 0) 0 (s_bam_blocks sbi) sbi) j) /\
    (forall b, 1 <= b < 1 + j -> readable (before_maps s sbi bits) b) /\
    (ok = true /\ j = s_bam_blocks sbi + s_iam_blocks sbi \/
     ok = false /\ j < s_bam_blocks sbi + s_iam_blocks sbi /\ ~ readable (before_maps s sbi bits) (1 + j)).
Proof.
  intros Hb Hi. exact (load_both_run (before_maps s sbi bits)
    (set_map (loaded_map (s_bam_blocks sbi + s_iam_blocks sbi) 0) 0 (s_bam_blocks sbi) sbi)
    eq_refl Hb Hi eq_refl eq_refl eq_refl).
Qed.

(** The super block in memory after a successful mount. *)
Definition mounted_sbi (sbi : gas_sb_info) : gas_sb_info :=
  let n := s_bam_blocks sbi + s_iam_blocks sbi in
  set_iam_last 0 (set_bam_last 0 (set_map (loaded_map n n) 0 (s_bam_blocks sbi) sbi)).

Definition with_maps (s : kst) (sbi : gas_sb_info) (bits : Z) : kst :=
  with_ref (k_ref s ⊎ refs (seqZ 1 (s_bam_blocks sbi + s_iam_blocks sbi)))
    (with_fs_info (Some (mounted_sbi sbi)) (before_maps s sbi bits)).

(** A device the module can mount: a super block in order, every block present. *)
Record mountable (s : kst) (sbi : gas_sb_info) (bits : Z) : Prop := {
  mb_super : super_read s sbi;
  mb_bits : set_blocksize (s_blocksize sbi) = Some bits;
  mb_geom : geometry bits (mounted_sbi sbi);
  mb_dev : forall b, 0 <= b < s_nblocks sbi -> exists m, device bits !! b = Some m /\ is_block bits m }.

Lemma mountable_counts s sbi bits : mountable s sbi bits ->
  0 < s_bam_blocks sbi /\ 0 < s_iam_blocks sbi /\ 0 < s_inode_blocks sbi /\
  s_bam_blocks sbi + s_iam_blocks sbi + 1 + s_inode_blocks sbi <= s_nblocks sbi < 2 ^ 31.
Proof.
  intros M. pose proof (g_counts _ _ (mb_geom _ _ _ M)) as Hc. pose proof (g_list _ _ (mb_geom _ _ _ M)) as Hl.
  pose proof (g_data _ _ (mb_geom _ _ _ M)) as Hd. pose proof (g_nblocks _ _ (mb_geom _ _ _ M)) as Hn.
  cbn in *. lia.
Qed.

Lemma mounted_with_maps s sbi bits : mountable s sbi bits -> mounted (with_maps s sbi bits) (mounted_sbi sbi).
Proof. intros M. split; [done|apply M|apply M]. Qed.

(** A mountable device with readable maps: up to the root inode. *)
Lemma fill_super_to_root s sbi bits ra :
  mountable s sbi bits ->
  (forall b, 1 <= b < 1 + (s_bam_blocks sbi + s_iam_blocks sbi) -> read_ok b = true) ->
  gas_fill_super device true true ra s =
    (root ← gas_iget GAS_ROOT_INO;
     match root with
     | inl e => mret (Some e)
     | inr root =>
         if ra : bool then
           _ ← kmod (fun s => with_sb (SuperBlock (sb_magic (k_sb s)) (s_max_links (k_sb s)) (Some root)) s);
           mret None
         else mret (Some ENOMEM)
     end) (with_maps s sbi bits).
Proof.
  intros M Hread. destruct (mountable_counts _ _ _ M) as (H1 & H2 & H3 & H4).
  rewrite (fill_super_to_maps s sbi bits) by (try apply M; lia). rewrite K_bind_eq.
  destruct (load_both_before s sbi bits) as (ok & j & Hj & -> & _ & Hcase); [lia|lia|].
  destruct Hcase as [[-> ->]|(_ & Hlt & Hn)]; [done|]. exfalso. apply Hn. split; [apply Hread; lia|].
  destruct (mb_dev _ _ _ M (1 + j)) as (m & Hm & _); [lia|]. by exists m.
Qed.
End super_claims.

Section super_theorems.
Context `{KernelLaws}.
Variables (device : Z -> gmap Z bytes).

(** The blocks a mount must read. *)
Definition mount_reads (sbi : gas_sb_info) (b : Z) : Prop :=
  1 <= b < 1 + (s_bam_blocks sbi + s_iam_blocks sbi) \/ b = inode_blk sbi GAS_ROOT_INO.

Lemma root_slot s sbi bits : mountable device s sbi bits ->
  exists m, device bits !! inode_blk sbi GAS_ROOT_INO = Some m /\
    forall info, exists i, gas_inode_fill info m (inode_off sbi GAS_ROOT_INO) = Some i.
Proof.
  intros M. destruct (mountable_counts _ _ _ _ M) as (H1 & H2 & H3 & H4).
  pose proof (g_ninodes _ _ (mb_geom _ _ _ _ M)) as Hn. cbn in Hn.
  assert (Hr : 1 < s_ninodes sbi \/ s_ninodes sbi = 1) by lia.
  assert (Hslot : inode_blk sbi 1 < s_data_block_start sbi /\ s_inode_list_start sbi <= inode_blk sbi 1 /\
    0 <= inode_off sbi 1 /\ inode_off sbi 1 + DI.sizeof <= 2 ^ bits).
  { destruct (geometry_pow _ _ (mb_geom _ _ _ _ M)) as [_ Hp].
    pose proof (g_ipb _ _ (mb_geom _ _ _ _ M)) as Hipb. pose proof (g_data _ _ (mb_geom _ _ _ _ M)) as Hd.
    pose proof (g_list _ _ (mb_geom _ _ _ _ M)) as Hl. cbn in Hipb, Hd, Hl. simpl in Hp.
    unfold inode_blk, inode_off, DI.sizeof in *.
    assert (8 <= s_inodes_per_block sbi /\ 64 * s_inodes_per_block sbi <= 2 ^ bits) by dlia.
    rewrite Z.div_small, Z.mod_small by lia. lia. }
  pose proof (g_nblocks _ _ (mb_geom _ _ _ _ M)) as Hnb. pose proof (g_list _ _ (mb_geom _ _ _ _ M)) as Hl.
  cbn in Hnb, Hl. unfold GAS_ROOT_INO.
  destruct (mb_dev _ _ _ _ M (inode_blk sbi 1)) as (m & Hm & Hlen); [lia|].
  exists m. split; [done|]. intros info. unfold is_block in Hlen.
  destruct (gas_inode_fill info m (inode_off sbi 1)) as [i|] eqn:E; [by exists i|].
  exfalso. eapply gas_inode_fill_total; [| |exact E]; lia.
Qed.

(** Outcome of reading the root inode at mount time. *)
Lemma fill_super_run s sbi bits (Q : option errno -> kst -> Prop) :
  mountable device s sbi bits -> 1 < s_ninodes sbi ->
  (forall b, 1 <= b < 1 + (s_bam_blocks sbi + s_iam_blocks sbi) -> read_ok b = true) ->
  k_inodes s !! GAS_ROOT_INO = None -> (forall s', is_Some (alloc_inode s')) ->
  (forall m info i dev, read_ok (inode_blk sbi GAS_ROOT_INO) = true ->
     device bits !! inode_blk sbi GAS_ROOT_INO = Some m ->
     gas_inode_fill (set_ino GAS_ROOT_INO info) m (inode_off sbi GAS_ROOT_INO) = Some i ->
     blkaddr i !! 0%nat = Some dev ->
     let s1 := with_maps device s sbi bits in
     let s2 := with_inodes (<[GAS_ROOT_INO := gas_set_inode i (new_decode_dev dev)]> (k_inodes s1)) s1 in
     Q None (with_sb (SuperBlock (s_magic sbi) GAS_LINK_MAX (Some GAS_ROOT_INO)) s2)) ->
  (read_ok (inode_blk sbi GAS_ROOT_INO) = false -> Q (Some EIO) (with_maps device s sbi bits)) ->
  kwp (gas_fill_super device true true true) s Q.
Proof.
  intros M Hn Hread Hc Hal Hok Hfail. unfold kwp. rewrite (fill_super_to_root _ _ _ _ _ M Hread).
  apply kwp_bind. assert (Mt := mounted_with_maps _ _ _ _ M).
  destruct (root_slot _ _ _ M) as (m & Hm & Hfill).
  destruct (Hal (with_maps device s sbi bits)) as [info Hinfo].
  destruct (Hfill (set_ino GAS_ROOT_INO info)) as [i Hi].
  eapply (gas_iget_run _ (mounted_sbi sbi) GAS_ROOT_INO info m i);
    [done|unfold GAS_ROOT_INO; cbn; lia|done|done|done|done|..].
  - intros Hr dev Hdev. apply kwp_bind, kwp_mod, kwp_ret. by eapply (Hok m info i dev).
  - intros Hr. apply kwp_ret. by apply Hfail.
Qed.

(** C32: A device with a super block in order and readable metadata mounts: the result
    is 0, the in-memory super block agrees with the layout, the buffers show the
    device, the root inode is read from its slot, and the references held are those
    of the map blocks. *)
Theorem gas_fill_super_mounts s sbi bits :
  mountable device s sbi bits -> 1 < s_ninodes sbi ->
  (forall b, mount_reads sbi b -> read_ok b = true) ->
  k_inodes s !! GAS_ROOT_INO = None -> (forall s', is_Some (alloc_inode s')) ->
  kwp (gas_fill_super device true true true) s (fun r s' =>
    r = None /\ mounted s' (mounted_sbi sbi) /\ k_buf s' = device bits /\ s_root (k_sb s') = Some GAS_ROOT_INO /\
    k_ref s' = k_ref s ⊎ refs (seqZ 1 (s_bam_blocks sbi + s_iam_blocks sbi)) /\
    exists m info i root, device bits !! inode_blk sbi GAS_ROOT_INO = Some m /\
      gas_inode_fill info m (inode_off sbi GAS_ROOT_INO) = Some i /\
      k_inodes s' !! GAS_ROOT_INO = Some root /\ i_mode root = i_mode i /\ blkaddr root = blkaddr i).
Proof.
  intros M Hn Hread Hc Hal. eapply fill_super_run; [done|done| |done|done| |].
  - intros b Hb. apply Hread. by left.
  - intros m info i dev Hr Hm Hi Hdev s1 s2. split; [done|].
    destruct (mounted_with_maps _ _ _ _ M) as [M1 M2 M3].
    split; [by split|]. split; [done|]. split; [done|]. split; [done|].
    exists m, (set_ino GAS_ROOT_INO info), i, (gas_set_inode i (new_decode_dev dev)).
    split; [done|]. split; [done|]. split; [cbn; apply lookup_insert_eq|].
    destruct (gas_set_inode_attrs i (new_decode_dev dev)) as (_ & -> & _ & _ & _ & _ & _ & _ & _ & -> & _). done.
  - intros Hr. rewrite Hread in Hr by (by right). done.
Qed.

(** C35: Mounting and unmounting are balanced: after [gas_fill_super] and
    [gas_put_super] the references to buffers are those held before, the buffers are
    unchanged and no super block is left. *)
Theorem gas_mount_umount s sbi bits :
  mountable device s sbi bits -> 1 < s_ninodes sbi ->
  (forall b, mount_reads sbi b -> read_ok b = true) ->
  k_inodes s !! GAS_ROOT_INO = None -> (forall s', is_Some (alloc_inode s')) ->
  kwp (r ← gas_fill_super device true true true; _ ← gas_put_super; mret r) s (fun r s' =>
    r = None /\ k_ref s' = k_ref s /\ k_buf s' = device bits /\ s_fs_info s' = None).
Proof.
  intros M Hn Hread Hc Hal. destruct (mountable_counts _ _ _ _ M) as (H1 & H2 & H3 & H4).
  apply kwp_bind. eapply fill_super_run; [done|done| |done|done| |].
  - intros b Hb. apply Hread. by left.
  - intros m info i dev Hr Hm Hi Hdev s1 s2. apply kwp_bind. unfold gas_put_super.
    apply kwp_bind, kwp_get. cbn [s_fs_info with_sb s2 with_inodes s1 with_maps with_ref with_fs_info].
    apply kwp_bind. eexists _, _. split.
    { apply (release_all_run _ (mounted_sbi sbi)); try done; cbn; [lia|lia|].
      rewrite length_loaded_map; lia. }
    apply kwp_mod, kwp_ret. split; [done|]. split; [|done].
    cbn [k_ref with_ref with_fs_info s_map mounted_sbi set_iam_last set_bam_last set_map with_sb s2 with_inodes
      s1 with_maps]. rewrite omap_loaded_map. apply refs_cancel.
  - intros Hr. rewrite Hread in Hr by (by right). done.
Qed.
End super_theorems.

Section super_errors.
Context `{KernelLaws}.
Variables (device : Z -> gmap Z bytes).

Lemma super_read_fails s :
  ~ readable s SUPER_BLOCK_NO -> gas_super_block_read true s = Some (None, s).
Proof.
  intros Hn. unfold gas_super_block_read, sb_bread. cbn [negb]. rewrite K_bind_eq.
  destruct (read_ok SUPER_BLOCK_NO && bool_decide (is_Some (k_buf s !! SUPER_BLOCK_NO))) eqn:E; [|done].
  apply andb_true_iff in E as [E1 E2]. apply bool_decide_eq_true in E2. by destruct Hn.
Qed.

Lemma super_bad_magic s m sbi :
  readable s SUPER_BLOCK_NO -> k_buf s !! SUPER_BLOCK_NO = Some m -> gas_super_block_fill m = Some sbi ->
  s_magic sbi <> MAGIC_NUMBER -> gas_super_block_read true s = Some (None, s).
Proof.
  intros [R1 R2] Hm Hf Hmag. unfold gas_super_block_read. cbn [negb]. rewrite K_bind_eq. unfold sb_bread.
  rewrite R1, bool_decide_eq_true_2 by done. cbn [andb]. rewrite K_bind_eq. unfold bh_data.
  cbn [k_buf with_ref]. rewrite Hm. cbn [mbind option_bind]. rewrite K_bind_eq. unfold klift. rewrite Hf.
  cbn [mbind option_bind]. rewrite K_bind_eq. cbn [brelse]. unfold kmod.
  rewrite (proj2 (Z.eqb_neq _ _)) by done. cbn [k_ref with_ref negb].
  replace (_ ∖ _) with (k_ref s) by multiset_solver. by destruct s.
Qed.

Lemma fill_super_einval s sbi ma ra :
  super_read s sbi ->
  (set_blocksize (s_blocksize sbi) = None \/
   s_bam_blocks sbi = 0 \/ s_iam_blocks sbi = 0 \/ s_inode_blocks sbi = 0) ->
  exists s', gas_fill_super device true ma ra s = Some (Some EINVAL, s') /\ k_ref s' = k_ref s.
Proof.
  intros Hsr Hcase. unfold gas_fill_super. rewrite (K_bind_some _ _ _ _ _ (super_read_run device s sbi Hsr)).
  cbv beta iota. unfold set_sbi. do 2 (rewrite K_bind_mod; cbv beta). unfold sb_set_blocksize.
  destruct (set_blocksize (s_blocksize sbi)) as [bits|] eqn:Hbits; [|by eexists].
  destruct Hcase as [?|Hz]; [done|]. erewrite K_bind_some by (rewrite K_bind_mod; done).
  destruct (set_blocksize_law _ _ Hbits) as [Hsz Hbr].
  assert (0 < 2 ^ bits) by (apply Z.pow_pos_nonneg; lia).
  rewrite (proj2 (Z.eqb_neq (s_blocksize sbi) 0)) by lia.
  replace ((s_bam_blocks sbi =? 0) || (s_iam_blocks sbi =? 0) || (s_inode_blocks sbi =? 0)) with true; [by eexists|].
  symmetry. rewrite !orb_true_iff, !Z.eqb_eq. tauto.
Qed.

(** Without memory for the array of buffers the first of them is stored through NULL. *)
Lemma fill_super_no_map s sbi bits ra :
  super_read s sbi -> set_blocksize (s_blocksize sbi) = Some bits ->
  s_bam_blocks sbi <> 0 -> s_iam_blocks sbi <> 0 -> s_inode_blocks sbi <> 0 ->
  gas_fill_super device true false ra s = None.
Proof.
  intros Hr Hb N1 N2 N3. unfold gas_fill_super. rewrite (K_bind_some _ _ _ _ _ (super_read_run device s sbi Hr)).
  destruct Hr as [[_ [m Hm]] Hf _]. destruct (fill_counts m sbi (Hf m Hm)) as (Hbam & _).
  destruct (set_blocksize_law _ _ Hb) as [Hsz Hbits]. assert (0 < 2 ^ bits) by (apply Z.pow_pos_nonneg; lia).
  unfold set_sbi. cbv beta iota. do 2 (rewrite K_bind_mod; cbv beta). unfold sb_set_blocksize. rewrite Hb.
  erewrite K_bind_some by (rewrite K_bind_mod; done).
  rewrite !(proj2 (Z.eqb_neq _ 0)) by lia. cbn [orb]. rewrite K_bind_mod, K_bind_eq. unfold load_both at 1.
  rewrite K_bind_eq. cbn [GAS_SB s_fs_info with_fs_info mbind option_bind s_bam_blocks set_map s_bam_bh].
  rewrite K_bind_eq. destruct (Z.to_nat (s_bam_blocks sbi)) as [|todo] eqn:E; [lia|]. cbn [load_maps]. rewrite K_bind_eq.
  unfold sb_bread. destruct (_ && _); done.
Qed.

(** Reading the root inode, with the maps loaded. *)
Lemma fill_super_root_fails s sbi bits ra :
  mountable device s sbi bits -> 1 < s_ninodes sbi ->
  (forall b, 1 <= b < 1 + (s_bam_blocks sbi + s_iam_blocks sbi) -> read_ok b = true) ->
  k_inodes s !! GAS_ROOT_INO = None ->
  let left e := exists s', gas_fill_super device true true ra s = Some (Some e, s') /\
    k_ref s' = k_ref s ⊎ refs (seqZ 1 (s_bam_blocks sbi + s_iam_blocks sbi)) in
  ((forall s', alloc_inode s' = None) -> left ENOMEM) /\
  ((forall s', is_Some (alloc_inode s')) -> read_ok (inode_blk sbi GAS_ROOT_INO) = false -> left EIO) /\
  ((forall s', is_Some (alloc_inode s')) -> read_ok (inode_blk sbi GAS_ROOT_INO) = true -> ra = false -> left ENOMEM).
Proof.
  intros M Hn Hread Hc left. subst left. cbv beta. rewrite (fill_super_to_root _ _ _ _ _ M Hread). set (s1 := with_maps device s sbi bits).
  assert (Hc1 : k_inodes s1 !! GAS_ROOT_INO = None) by done.
  destruct (gas_iget_cases s1 (mounted_sbi sbi) GAS_ROOT_INO) as (r & s2 & E & HQ);
    [by apply mounted_with_maps|unfold GAS_ROOT_INO; cbn; lia|]. rewrite Hc1 in HQ. rewrite K_bind_eq, E.
  change (inode_blk (mounted_sbi sbi) GAS_ROOT_INO) with (inode_blk sbi GAS_ROOT_INO) in HQ. split; [|split].
  - intros Ha. rewrite Ha in HQ. destruct HQ as [-> ->]. by exists s1.
  - intros Ha Hr. destruct (Ha s1) as [info Hinfo]. rewrite Hinfo, Hr in HQ. destruct HQ as [-> ->]. by exists s1.
  - intros Ha Hr ->. destruct (Ha s1) as [info Hinfo]. rewrite Hinfo, Hr in HQ. cbn [negb] in HQ.
    destruct HQ as (-> & m & i & dev & _ & _ & _ & ->). by eexists.
Qed.

(** C36: Every way a mount fails. EINVAL: no memory for the super block in memory, block 0
    cannot be read or has the wrong magic number, all without effect; the device refuses
    the block size or a metadata area is empty. Without memory for the array of buffers
    the code dereferences NULL. EIO with every buffer read so far released: a map block
    cannot be read. When the root inode cannot be had (ENOMEM, EIO) or its dentry cannot
    be made (ENOMEM), the error is returned with the buffers of all map blocks still held. *)
Theorem gas_fill_super_errors s ma ra :
  gas_fill_super device false ma ra s = Some (Some EINVAL, s) /\
  (~ readable s SUPER_BLOCK_NO -> gas_fill_super device true ma ra s = Some (Some EINVAL, s)) /\
  (forall m sbi, readable s SUPER_BLOCK_NO -> k_buf s !! SUPER_BLOCK_NO = Some m ->
     gas_super_block_fill m = Some sbi -> s_magic sbi <> MAGIC_NUMBER ->
     gas_fill_super device true ma ra s = Some (Some EINVAL, s)) /\
  (forall sbi, super_read s sbi ->
     set_blocksize (s_blocksize sbi) = None \/
     s_bam_blocks sbi = 0 \/ s_iam_blocks sbi = 0 \/ s_inode_blocks sbi = 0 ->
     exists s', gas_fill_super device true ma ra s = Some (Some EINVAL, s') /\ k_ref s' = k_ref s) /\
  (forall sbi bits, super_read s sbi -> set_blocksize (s_blocksize sbi) = Some bits ->
     s_bam_blocks sbi <> 0 -> s_iam_blocks sbi <> 0 -> s_inode_blocks sbi <> 0 ->
     gas_fill_super device true false ra s = None /\
     forall b, s_bam_blocks sbi + s_iam_blocks sbi < 2 ^ 32 -> 1 <= b < 1 + (s_bam_blocks sbi + s_iam_blocks sbi) ->
       ~ (read_ok b = true /\ is_Some (device bits !! b)) ->
       exists s', gas_fill_super device true true ra s = Some (Some EIO, s') /\ k_ref s' = k_ref s) /\
  (forall sbi bits, mountable device s sbi bits -> 1 < s_ninodes sbi ->
     (forall b, 1 <= b < 1 + (s_bam_blocks sbi + s_iam_blocks sbi) -> read_ok b = true) ->
     k_inodes s !! GAS_ROOT_INO = None ->
     let left e := exists s', gas_fill_super device true true ra s = Some (Some e, s') /\
       k_ref s' = k_ref s ⊎ refs (seqZ 1 (s_bam_blocks sbi + s_iam_blocks sbi)) in
     ((forall s', alloc_inode s' = None) -> left ENOMEM) /\
     ((forall s', is_Some (alloc_inode s')) -> read_ok (inode_blk sbi GAS_ROOT_INO) = false -> left EIO) /\
     ((forall s', is_Some (alloc_inode s')) -> read_ok (inode_blk sbi GAS_ROOT_INO) = true -> ra = false -> left ENOMEM)).
Proof.
  split; [done|]. split; [|split; [|split; [|split]]].
  - intros Hn. unfold gas_fill_super. by rewrite (K_bind_some _ _ _ _ _ (super_read_fails s Hn)).
  - intros m sbi R Hm Hf Hmag. unfold gas_fill_super.
    by rewrite (K_bind_some _ _ _ _ _ (super_bad_magic s m sbi R Hm Hf Hmag)).
  - intros sbi. apply fill_super_einval.
  - intros sbi bits Hsr Hbits N1 N2 N3. split; [by eapply fill_super_no_map|]. intros b Hsum Hbr Hnr.
    destruct (sr_read _ _ Hsr) as [_ [m Hm]]. destruct (fill_counts m sbi (sr_fill _ _ Hsr m Hm)) as (Hb & Hi & _).
    rewrite (fill_super_to_maps device s sbi bits) by done. rewrite K_bind_eq.
    destruct (load_both_before device s sbi bits) as (ok & j & Hj & -> & Hall & Hcase); [lia|lia|].
    destruct Hcase as [[-> ->]|(-> & Hlt & Hn)].
    { exfalso. apply Hnr. apply (readable_before device s sbi bits), Hall. lia. }
    destruct (release_loaded (before_maps device s sbi bits)
      (set_map (loaded_map (s_bam_blocks sbi + s_iam_blocks sbi) 0) 0 (s_bam_blocks sbi) sbi) j)
      as (s' & E & Hr); [cbn; lia|cbn; lia|cbn; lia|].
    exists s'. split; [|done]. unfold after_maps. cbn [negb]. by rewrite (K_bind_some _ _ _ _ _ E).
  - intros sbi bits. apply fill_super_root_fails.
Qed.

End super_errors.

(** ** Witnesses *)

#[local] Existing Instance good_api.
#[local] Existing Instance good_laws.

Definition demo_super : bytes :=
  default [] (m ← f_set (zeroes 512) 0 SB.s_magic MAGIC_NUMBER;
    m ← f_set m 0 SB.s_blocksize 512; m ← f_set m 0 SB.s_bam_blocks 1;
    m ← f_set m 0 SB.s_iam_blocks 1; m ← f_set m 0 SB.s_inode_blocks 1;
    m ← f_set m 0 SB.s_nblocks 16; f_set m 0 SB.s_ninodes 8).

Definition demo_disk : gmap Z bytes := <[0 := demo_super]> demo_blocks.
Definition demo_unmounted : kst :=
  Kst (SuperBlock 0 0 None) 9 None demo_disk demo_disk ∅ ∅ ∅ ∅.
Definition demo_sbi0 : gas_sb_info :=
  SbInfo MAGIC_NUMBER 512 1 1 1 16 8 8 4096 1 [] 0 0 0 0 3 4.

Lemma demo_mountable : mountable (fun _ => demo_disk) demo_unmounted demo_sbi0 9.
Proof.
  split.
  - split; [split; [reflexivity|by eexists]| |reflexivity].
    intros m Hm. unfold demo_unmounted, SUPER_BLOCK_NO, demo_disk in Hm. cbn [k_buf] in Hm.
    rewrite lookup_insert_eq in Hm. injection Hm as <-. vm_compute. reflexivity.
  - reflexivity.
  - split; vm_compute; try done; by repeat split.
  - intros b Hb. change (s_nblocks demo_sbi0) with 16 in Hb. unfold is_block, demo_disk.
    destruct (Z.eq_dec b 0) as [->|]; [exists demo_super; rewrite lookup_insert_eq; split; reflexivity|].
    rewrite lookup_insert_ne by done. apply (mt_buf _ _ demo_mounted b). exact Hb.
Qed.

Lemma gas_fill_super_mounts_witness :
  kwp (gas_fill_super (fun _ => demo_disk) true true true) demo_unmounted (fun r _ => r = None).
Proof.
  eapply kwp_mono; [apply (gas_fill_super_mounts _ demo_unmounted demo_sbi0 9 demo_mountable)|].
  - reflexivity.
  - reflexivity.
  - reflexivity.
  - intros s'. by eexists.
  - intros r s' (Hr & _). exact Hr.
Defined.

Lemma gas_mount_umount_witness :
  kwp (r ← gas_fill_super (fun _ => demo_disk) true true true; _ ← gas_put_super; mret r) demo_unmounted
    (fun r s' => r = None /\ k_ref s' = ∅ /\ k_buf s' = demo_disk /\ s_fs_info s' = None).
Proof.
  apply (gas_mount_umount (fun _ => demo_disk) demo_unmounted demo_sbi0 9 demo_mountable).
  - reflexivity.
  - reflexivity.
  - reflexivity.
  - intros s'. by eexists.
Defined.

(** A device whose inode table cannot be read. *)
Definition no_table_api : KernelApi := demo_api (fun b => negb (b =? 3)) (fun _ => true).

(** A device that cannot read anything, one that cannot read its second map block, and one that
    cannot read the inode table. *)
Lemma gas_fill_super_errors_witness :
  gas_fill_super (H := demo_api (fun _ => false) (fun _ => true)) (fun _ => demo_disk) true true true demo_unmounted
    = Some (Some EINVAL, demo_unmounted) /\
  (exists s', gas_fill_super (H := demo_api (fun b => negb (b =? 2)) (fun _ => true)) (fun _ => demo_disk) true true true demo_unmounted
    = Some (Some EIO, s') /\ k_ref s' = ∅) /\
  gas_fill_super (H := no_table_api) (fun _ => demo_disk) true false true demo_unmounted = None /\
  exists s', gas_fill_super (H := no_table_api) (fun _ => demo_disk) true true true demo_unmounted = Some (Some EIO, s') /\
    k_ref s' = ∅ ⊎ refs (seqZ 1 2).
Proof.
  destruct (gas_fill_super_errors (H := demo_api (fun _ => false) (fun _ => true)) (H0 := demo_laws _ _)
    (fun _ => demo_disk) demo_unmounted true true) as (_ & E1 & _).
  destruct (gas_fill_super_errors (H := demo_api (fun b => negb (b =? 2)) (fun _ => true)) (H0 := demo_laws _ _)
    (fun _ => demo_disk) demo_unmounted true true) as (_ & _ & _ & _ & E2 & _).
  destruct (gas_fill_super_errors (H := no_table_api) (H0 := demo_laws _ _)
    (fun _ => demo_disk) demo_unmounted true true) as (_ & _ & _ & _ & E3 & E4).
  destruct demo_mountable as [[[_ R] Hf Hm] Hb Hg Hd].
  assert (Sr : forall b, super_read (H := demo_api (fun x => negb (x =? Z.pos b)) (fun _ => true)) demo_unmounted demo_sbi0).
  { intros b. split; [split; [reflexivity|exact R]|exact Hf|exact Hm]. }
  split; [apply E1; intros [Hr _]; discriminate Hr|]. split; [|split].
  - destruct (E2 demo_sbi0 9 (Sr 2%positive) eq_refl) as [_ E2']; [discriminate..|]. apply (E2' 2); [reflexivity|split; [discriminate|reflexivity]|].
    intros [Hr _]. discriminate Hr.
  - apply (E3 demo_sbi0 9 (Sr 3%positive) eq_refl); discriminate.
  - destruct (E4 demo_sbi0 9) as (_ & E5 & _); [split; [exact (Sr 3%positive)|exact Hb|exact Hg|exact Hd]|reflexivity| |reflexivity|].
    + intros b Hb'. change (s_bam_blocks demo_sbi0 + s_iam_blocks demo_sbi0) with 2 in Hb'. cbn.
      apply negb_true_iff, Z.eqb_neq. lia.
    + apply E5; [intros s'; by eexists|reflexivity].
Defined.
