(* ===== verification/Slab.v ===== *)
(** * Loading the module, and its cache of inodes (kern/gas_super.c)

    The slab cache that [gas_alloc_inode] and [gas_destroy_inode] use, the callbacks RCU
    still has to run, and the registration of the file system: the state machine of one
    load of the module, from its initialisation to its removal. Freeing an object to a
    cache it does not come from, destroying a cache that is not empty and using a NULL
    cache are undefined behaviour ([None]). *)

From S2P Require Import Prelude.

(** ** State *)

(** [objects] gives the cache of every object; [rcu_list] are the inodes whose callback is
    pending; [caches] are the slab caches that exist. *)
Record module_state := Module_state {
  gas_inode_cache : option Z; caches : gset Z; objects : gmap Z Z; rcu_list : list Z; registered : bool }.

Definition with_cache (c : option Z) (s : module_state) : module_state :=
  Module_state c (caches s) (objects s) (rcu_list s) (registered s).
Definition with_caches (c : gset Z) (s : module_state) : module_state :=
  Module_state (gas_inode_cache s) c (objects s) (rcu_list s) (registered s).
Definition with_objects (o : gmap Z Z) (s : module_state) : module_state :=
  Module_state (gas_inode_cache s) (caches s) o (rcu_list s) (registered s).
Definition with_rcu (l : list Z) (s : module_state) : module_state :=
  Module_state (gas_inode_cache s) (caches s) (objects s) l (registered s).
Definition with_registered (b : bool) (s : module_state) : module_state :=
  Module_state (gas_inode_cache s) (caches s) (objects s) (rcu_list s) b.

Definition M (A : Type) : Type := module_state -> option (A * module_state).

#[export] Instance M_ret : MRet M := fun A a s => Some (a, s).
#[export] Instance M_bind : MBind M := fun A B k c s =>
  match c s with Some (a, s') => k a s' | None => None end.

Definition mget {A} (f : module_state -> A) : M A := fun s => Some (f s, s).
Definition mmod (f : module_state -> module_state) : M unit := fun s => Some (tt, f s).
Definition mlift {A} (o : option A) : M A := fun s => a ← o; Some (a, s).

(** Run the computations of this monad that are known. *)
Ltac mrun := unfold mret, M_ret, mbind, M_bind, mget, mmod, mlift, with_cache, with_caches, with_objects, with_rcu, with_registered; cbn.

(** ** The kernel's side *)

(** Addresses of new caches and objects ([None]: no memory), and the result of
    [register_filesystem]. *)
Class SlabApi := {
  new_cache : module_state -> option Z;
  new_object : module_state -> option Z;
  register_err : module_state -> option errno }.

Class SlabLaws `{SlabApi} : Prop := {
  new_cache_fresh : forall s c, new_cache s = Some c -> c ∉ caches s;
  new_object_fresh : forall s o, new_object s = Some o -> objects s !! o = None }.

Section module.
Context `{SlabApi}.

Definition kmem_cache_create : M (option Z) :=
  c ← mget new_cache;
  match c with None => mret None | Some c => _ ← mmod (fun s => with_caches ({[c]} ∪ caches s) s); mret (Some c) end.

Definition kmem_cache_destroy (c : Z) : M unit := fun s =>
  if bool_decide (c ∈ caches s /\ map_Forall (fun _ c' => c' <> c) (objects s))
  then Some (tt, with_caches (caches s ∖ {[c]}) s) else None.

Definition kmem_cache_alloc (c : Z) : M (option Z) := fun s =>
  if bool_decide (c ∈ caches s) then
    match new_object s with
    | None => Some (None, s)
    | Some o => Some (Some o, with_objects (<[o := c]> (objects s)) s)
    end
  else None.

Definition kmem_cache_free (c o : Z) : M unit := fun s =>
  if bool_decide (objects s !! o = Some c) then Some (tt, with_objects (delete o (objects s)) s) else None.

Definition call_rcu (o : Z) : M unit := mmod (fun s => with_rcu (rcu_list s ++ [o]) s).

(** [rcu_barrier] waits until every pending callback has run. *)
Fixpoint run_callbacks (callback : Z -> M unit) (l : list Z) : M unit :=
  match l with [] => mret tt | o :: l => _ ← callback o; run_callbacks callback l end.
Definition rcu_barrier (callback : Z -> M unit) : M unit :=
  l ← mget rcu_list; _ ← mmod (with_rcu []); run_callbacks callback l.

Definition register_filesystem : M (option errno) :=
  err ← mget register_err;
  match err with None => _ ← mmod (with_registered true); mret None | Some e => mret (Some e) end.
Definition unregister_filesystem : M unit := mmod (with_registered false).

(** ** The code *)

Definition gas_alloc_inode : M (option Z) :=
  c ← mget gas_inode_cache; c ← mlift c; kmem_cache_alloc c.

Definition gas_destroy_callback (inode : Z) : M unit :=
  c ← mget gas_inode_cache; c ← mlift c; kmem_cache_free c inode.

Definition gas_destroy_inode (inode : Z) : M unit := call_rcu inode.

Definition gas_inode_cache_create : M (option errno) :=
  c ← kmem_cache_create;
  _ ← mmod (with_cache c);
  match c with None => mret (Some ENOMEM) | Some _ => mret None end.

Definition gas_inode_cache_destroy : M unit :=
  _ ← rcu_barrier gas_destroy_callback;
  c ← mget gas_inode_cache; c ← mlift c;
  _ ← kmem_cache_destroy c;
  mmod (with_cache None).

Definition init_gas_fs : M (option errno) :=
  ret ← gas_inode_cache_create;
  match ret with
  | Some e => mret (Some e)
  | None =>
      ret ← register_filesystem;
      _ ← (match ret with Some _ => gas_inode_cache_destroy | None => mret tt end);
      mret None
  end.

Definition exit_gas_fs : M unit := unregister_filesystem.
End module.

(** ** One load of the module *)

(** Not loaded yet, loaded, removed. *)
Inductive phase : Set := Fresh | Loaded | Gone.

(** The variables of a module are zero when it is loaded. *)
Definition boot (cs : gset Z) : module_state := Module_state None cs ∅ [] false.

(** An inode in use: allocated, and not handed to RCU. *)
Definition in_use (s : module_state) (o : Z) : Prop := is_Some (objects s !! o) /\ o ∉ rcu_list s.

Section life.
Context `{SL : SlabLaws}.

(** The kernel loads the module; mounted file systems, which need it registered, allocate
    and destroy inodes; RCU runs callbacks; the module is removed when no inode is in use. *)
Inductive module_step : phase * module_state -> phase * module_state -> Prop :=
| step_load s ret s' : init_gas_fs s = Some (ret, s') ->
    module_step (Fresh, s) (if ret is None then Loaded else Gone, s')
| step_alloc s o s' : registered s = true -> gas_alloc_inode s = Some (o, s') -> module_step (Loaded, s) (Loaded, s')
| step_destroy s o s' : in_use s o -> gas_destroy_inode o s = Some (tt, s') -> module_step (Loaded, s) (Loaded, s')
| step_callback s l1 o l2 s' : rcu_list s = l1 ++ o :: l2 -> gas_destroy_callback o (with_rcu (l1 ++ l2) s) = Some (tt, s') ->
    module_step (Loaded, s) (Loaded, s')
| step_unload s s' : (forall o, ~ in_use s o) -> exit_gas_fs s = Some (tt, s') -> module_step (Loaded, s) (Gone, s').

(** Pending inodes are distinct objects of the module's cache, which exists while the file
    system is registered. *)
Record module_ok (cs : gset Z) (s : module_state) : Prop := {
  ok_nodup : NoDup (rcu_list s);
  ok_pending : forall o, o ∈ rcu_list s -> is_Some (objects s !! o);
  ok_objects : forall o c, objects s !! o = Some c -> gas_inode_cache s = Some c;
  ok_registered : registered s = true -> is_Some (gas_inode_cache s);
  ok_caches : caches s = (match gas_inode_cache s with Some c => {[c]} | None => ∅ end) ∪ cs;
  ok_new : forall c, gas_inode_cache s = Some c -> c ∉ cs }.

Lemma init_run cs :
  init_gas_fs (boot cs) =
    match new_cache (boot cs) with
    | None => Some (Some ENOMEM, boot cs)
    | Some c => let s := Module_state (Some c) ({[c]} ∪ cs) ∅ [] false in
        match register_err s with
        | None => Some (None, with_registered true s)
        | Some _ => Some (None, boot cs)
        end
    end.
Proof.
  unfold init_gas_fs, gas_inode_cache_create, kmem_cache_create, register_filesystem. mrun.
  destruct (new_cache (boot cs)) as [c|] eqn:E; mrun; [|done].
  destruct (register_err _); mrun; [|done]. unfold gas_inode_cache_destroy, rcu_barrier. mrun.
  unfold kmem_cache_destroy. cbn. rewrite bool_decide_eq_true_2.
  - cbn. do 2 f_equal. unfold boot. f_equal. apply new_cache_fresh in E. cbn in E. clear -E. set_solver.
  - split; [clear; set_solver|apply map_Forall_empty].
Qed.

Lemma boot_ok cs : module_ok cs (boot cs).
Proof.
  split; cbn; [constructor|by intros o ?%elem_of_nil|done|done|by rewrite (left_id_L ∅ (∪))|done].
Qed.

Lemma init_ok cs ret s : init_gas_fs (boot cs) = Some (ret, s) -> module_ok cs s.
Proof.
  rewrite init_run. destruct (new_cache (boot cs)) as [c|] eqn:E; [|intros [= <- <-]; apply boot_ok].
  cbn. destruct (register_err _); intros [= <- <-]; [apply boot_ok|]. apply new_cache_fresh in E.
  split; cbn; [constructor|by intros o ?%elem_of_nil|done|by eexists|done|by intros ? [= <-]].
Qed.

Lemma alloc_run cs s : module_ok cs s -> registered s = true ->
  exists r s', gas_alloc_inode s = Some (r, s').
Proof.
  intros O Hr. destruct (ok_registered _ _ O Hr) as [c Ec]. unfold gas_alloc_inode, kmem_cache_alloc. mrun. rewrite Ec. cbn.
  rewrite (ok_caches _ _ O), Ec, bool_decide_eq_true_2 by (clear; set_solver). destruct (new_object s); by eexists _, _.
Qed.

Lemma alloc_ok cs s r s' : module_ok cs s -> gas_alloc_inode s = Some (r, s') -> module_ok cs s'.
Proof.
  intros O. unfold gas_alloc_inode, kmem_cache_alloc. mrun. destruct (gas_inode_cache s) as [c|] eqn:Ec; [|done]. cbn.
  case_bool_decide; [|done]. destruct (new_object s) as [o|] eqn:En; intros [= <- <-]; [|done]. apply new_object_fresh in En.
  destruct O as [O1 O2 O3 O4 O5 O6]. split; cbn; try done.
  - intros o' Ho'. destruct (O2 o' Ho') as [c' Hc']. exists c'. rewrite lookup_insert_ne; [done|congruence].
  - intros o' c'. rewrite lookup_insert_Some. intros [[_ <-]|[_ Ho']]; [done|]. by eapply O3.
Qed.

Lemma destroy_ok cs s o s' : module_ok cs s -> in_use s o -> gas_destroy_inode o s = Some (tt, s') -> module_ok cs s'.
Proof.
  intros [O1 O2 O3 O4 O5 O6] [Ho Hn]. unfold gas_destroy_inode, call_rcu. mrun. intros [= <-]. split; cbn; try done.
  - apply list.NoDup_app. split; [done|]. split; [|apply NoDup_singleton]. intros x Hx ->%list_elem_of_singleton. done.
  - intros x [Hx| ->%list_elem_of_singleton]%elem_of_app; [by apply O2|done].
Qed.

Lemma callback_run cs s l1 o l2 : module_ok cs s -> rcu_list s = l1 ++ o :: l2 ->
  gas_destroy_callback o (with_rcu (l1 ++ l2) s) = Some (tt, with_objects (delete o (objects s)) (with_rcu (l1 ++ l2) s)).
Proof.
  intros O E. destruct (ok_pending _ _ O o) as [c Hc]; [rewrite E; apply elem_of_app; right; left|].
  unfold gas_destroy_callback, kmem_cache_free. mrun. rewrite (ok_objects _ _ O o c Hc). cbn. by rewrite bool_decide_eq_true_2.
Qed.

Lemma callback_ok cs s l1 o l2 s' : module_ok cs s -> rcu_list s = l1 ++ o :: l2 ->
  gas_destroy_callback o (with_rcu (l1 ++ l2) s) = Some (tt, s') -> module_ok cs s'.
Proof.
  intros O E. rewrite (callback_run cs) by done. intros [= <-]. destruct O as [O1 O2 O3 O4 O5 O6]. rewrite E in O1, O2.
  assert (Hnd : o ∉ l1 ++ l2 /\ NoDup (l1 ++ l2)) by (by apply list.NoDup_cons; rewrite Permutation_middle).
  split; cbn; try done; [apply Hnd|..].
  - intros x Hx. rewrite lookup_delete_ne by (intros ->; by apply Hnd). apply O2. rewrite elem_of_app, elem_of_cons.
    apply elem_of_app in Hx as [?|?]; auto.
  - intros x c [_ Hx]%lookup_delete_Some. by eapply O3.
Qed.

(** Every state of a load of the module. *)
Definition life_ok (cs : gset Z) (x : phase * module_state) : Prop :=
  match fst x with Fresh => snd x = boot cs | Loaded => module_ok cs (snd x) | Gone => module_ok cs (snd x) /\ registered (snd x) = false end.

Lemma init_failed cs e s : init_gas_fs (boot cs) = Some (Some e, s) -> registered s = false.
Proof. rewrite init_run. destruct (new_cache _); [cbn; destruct (register_err _); done|by intros [= _ <-]]. Qed.

Lemma step_ok cs x y : module_step x y -> life_ok cs x -> life_ok cs y.
Proof.
  intros St. destruct St as [s ret s' E|s o s' Hr E|s o s' Ho E|s l1 o l2 s' El E|s s' Hu E]; unfold life_ok; cbn.
  - intros ->. destruct ret as [e|]; cbn; [split|]; try by eapply init_ok. by eapply init_failed.
  - intros O. by eapply alloc_ok.
  - intros O. by eapply destroy_ok.
  - intros O. by eapply callback_ok.
  - intros [O1 O2 O3 O4 O5 O6]. injection E as <-. by repeat split.
Qed.

Lemma steps_ok cs x y : rtc module_step x y -> life_ok cs x -> life_ok cs y.
Proof. induction 1 as [|x1 x2 x3 St _ IH]; [done|]. intros O. by eapply IH, step_ok. Qed.

(** The steps after loading keep the cache. *)
Lemma steps_cache x y : rtc module_step x y -> fst x <> Fresh ->
  gas_inode_cache (snd y) = gas_inode_cache (snd x) /\ caches (snd y) = caches (snd x).
Proof.
  induction 1 as [|x1 x2 x3 St _ IH]; [done|]. intros Hx. enough (H1 : fst x2 <> Fresh /\
    gas_inode_cache (snd x2) = gas_inode_cache (snd x1) /\ caches (snd x2) = caches (snd x1)) by (destruct H1 as (? & <- & <-); by apply IH).
  destruct St as [s ret s' E|s o s' Hr E|s o s' Ho E|s l1 o l2 s' El E|s s' Hu E]; [done|cbn; split; [done|]..].
  - revert E. unfold gas_alloc_inode, kmem_cache_alloc. mrun. destruct (gas_inode_cache s) eqn:Ec; [|done]. cbn.
    case_bool_decide; [|done]. destruct (new_object s); intros [= <- <-]; by rewrite ?Ec.
  - by injection E as <-.
  - revert E. unfold gas_destroy_callback, kmem_cache_free. mrun. destruct (gas_inode_cache s) eqn:Ec; [|done]. cbn.
    case_bool_decide; [|done]. intros [= <-]. by rewrite ?Ec.
  - by injection E as <-.
Qed.

(** C28: While the module is loaded, whatever inodes were allocated and destroyed and whatever
    callbacks have run, the inodes waiting for RCU are distinct objects of the module's
    cache, and the cache exists while the file system is registered: once it is
    registered, an inode can be allocated; every pending callback frees its inode, once
    and to the cache it comes from. When [init_gas_fs] could not register the file system
    nothing is allocated. *)
Theorem gas_module_reachable cs s : rtc module_step (Fresh, boot cs) (Loaded, s) ->
  module_ok cs s /\
  (registered s = true -> exists r s', gas_alloc_inode s = Some (r, s')) /\
  (forall l1 o l2, rcu_list s = l1 ++ o :: l2 -> exists s',
     gas_destroy_callback o (with_rcu (l1 ++ l2) s) = Some (tt, s') /\ objects s' = delete o (objects s) /\ o ∉ l1 ++ l2) /\
  (gas_inode_cache s = None -> objects s = ∅ /\ rcu_list s = [] /\ registered s = false).
Proof.
  intros R. apply (steps_ok cs) in R; [|done]. assert (O : module_ok cs s) by exact R.
  split; [done|]. split; [by apply (alloc_run cs)|]. split.
  - intros l1 o l2 E. rewrite (callback_run cs) by done. eexists. split; [done|]. split; [done|].
    pose proof (ok_nodup _ _ O) as ND. rewrite E, <- Permutation_middle in ND. by apply list.NoDup_cons in ND as [? _].
  - intros En. assert (Eo : objects s = ∅). { apply map_eq. intros o. rewrite lookup_empty.
      destruct (objects s !! o) as [c|] eqn:Ho; [|done]. apply (ok_objects _ _ O) in Ho. congruence. }
    split; [done|]. split.
    + destruct (rcu_list s) as [|o l] eqn:El; [done|]. destruct (ok_pending _ _ O o) as [c Hc]; [rewrite El; left|]. by rewrite Eo in Hc.
    + destruct (registered s) eqn:Er; [|done]. destruct (ok_registered _ _ O Er). congruence.
Qed.

(** C40: Loading and removing the module. [init_gas_fs] fails only when there is no memory for the
    cache; when the file system cannot be registered it frees the cache again but reports
    success. Once the file system was registered, the cache it made still exists after
    the module is removed, whatever happened in between: nothing frees it. *)
Theorem gas_module_load_unload cs : exists ret s, init_gas_fs (boot cs) = Some (ret, s) /\
  match new_cache (boot cs) with
  | None => ret = Some ENOMEM /\ s = boot cs
  | Some c => ret = None /\
      match register_err (Module_state (Some c) ({[c]} ∪ cs) ∅ [] false) with
      | Some _ => s = boot cs
      | None => registered s = true /\ c ∉ cs /\
          forall s', rtc module_step (Loaded, s) (Gone, s') -> registered s' = false /\ caches s' = {[c]} ∪ cs
      end
  end.
Proof.
  rewrite init_run. destruct (new_cache (boot cs)) as [c|] eqn:E; [|by eexists _, _]. cbn.
  destruct (register_err _) eqn:Er; eexists _, _; (split; [done|]); (split; [done|]); [done|]. split; [done|].
  split; [by apply new_cache_fresh in E|]. intros s' R. destruct (steps_cache _ _ R) as [_ Ec]; [done|]. split; [|exact Ec].
  apply (steps_ok cs) in R; [apply R|]. apply (init_ok cs None). rewrite init_run, E. cbn. by rewrite Er.
Qed.
End life.

(** ** A kernel with memory *)

Definition demo_slab : SlabApi := {|
  new_cache := fun s => Some (fresh (caches s)); new_object := fun s => Some (fresh (dom (objects s))); register_err := fun _ => None |}.

Lemma demo_slab_laws : @SlabLaws demo_slab.
Proof.
  split; cbn.
  - intros s c [= <-]. apply is_fresh.
  - intros s o [= <-]. apply not_elem_of_dom, is_fresh.
Qed.

Definition demo_loaded : module_state := Module_state (Some (fresh (∅ : gset Z))) {[fresh (∅ : gset Z)]} ∅ [] true.

(** An inode is allocated and handed to RCU. *)
Definition demo_inode : Z := fresh (dom (objects demo_loaded)).
Definition demo_pending : module_state :=
  Module_state (gas_inode_cache demo_loaded) (caches demo_loaded) {[demo_inode := fresh (∅ : gset Z)]} [demo_inode] true.

Lemma demo_pending_reached : rtc (@module_step demo_slab) (Fresh, boot ∅) (Loaded, demo_pending).
Proof.
  eapply rtc_l; [eapply (@step_load demo_slab _ None); vm_compute; reflexivity|].
  eapply rtc_l; [eapply (@step_alloc demo_slab); [reflexivity|vm_compute; reflexivity]|].
  apply rtc_once. eapply (@step_destroy demo_slab _ demo_inode); [|vm_compute; reflexivity].
  split; [eexists; vm_compute; reflexivity|]. vm_compute. by intros ?%elem_of_nil.
Qed.

Lemma gas_module_reachable_witness : exists s', @gas_destroy_callback demo_inode (with_rcu [] demo_pending) = Some (tt, s') /\
  objects s' = ∅.
Proof.
  destruct (@gas_module_reachable demo_slab demo_slab_laws ∅ demo_pending demo_pending_reached) as (_ & _ & H & _).
  destruct (H [] demo_inode [] eq_refl) as (s' & E & Ho & _). exists s'. split; [exact E|]. rewrite Ho. vm_compute. reflexivity.
Defined.

(** The module can be removed while a callback is pending: [exit_gas_fs] does not wait for
    it, and it would run after its code is gone. *)
Lemma unload_leaves_callback : rtc (@module_step demo_slab) (Fresh, boot ∅) (Gone, with_registered false demo_pending) /\
  rcu_list (with_registered false demo_pending) = [demo_inode].
Proof.
  split; [|reflexivity]. eapply rtc_r; [exact demo_pending_reached|]. apply step_unload; [|reflexivity].
  intros o [[c Hc] Hn]. apply Hn. cbn in Hc. apply lookup_singleton_Some in Hc as [<- _]. left.
Qed.

(** The module is loaded and removed: its cache remains. *)
Lemma gas_module_load_unload_witness : exists s c, @init_gas_fs demo_slab (boot ∅) = Some (None, s) /\
  caches (with_registered false s) = {[c]} ∪ ∅.
Proof.
  destruct (@gas_module_load_unload demo_slab demo_slab_laws ∅) as (ret & s & E & Hret & Hr & _ & HL). subst ret.
  exists s, (fresh (∅ : gset Z)). split; [exact E|]. apply (HL (with_registered false s)). apply rtc_once.
  apply step_unload; [|reflexivity]. intros o [[c Hc] _]. assert (Es : s = demo_loaded).
  { vm_compute in E. injection E as <-. vm_compute. reflexivity. }
  subst s. discriminate Hc.
Defined.
