(* ===== verification/Mount.v ===== *)
(** * From mkfs to a mounted file system

    The two halves of the repository meet on the image: what [main] of mkfs.c writes,
    [gas_fill_super] of the kernel module mounts, with the same idea of where
    everything is, and with the invariants of the two allocators established. *)

From S2P Require Import Prelude Mem Layout MkCache MkFs Kernel InodeTab Alloc KBitmap Super.

Section mount.
Context `{KernelLaws}.

(** The in-memory super block of an image with parameters [gas]. *)
Definition sbi_of (gas : filesys_param) : gas_sb_info :=
  SbInfo MAGIC_NUMBER GAS_BLOCK_SIZE (bam_blk gas) (iam_blk gas) (ino_blk gas) (blk_cnt gas) (ino_cnt gas)
    64 32768 15 [] 0 0 0 0 (u32 (bam_blk gas + iam_blk gas + 1))
    (u32 (u32 (bam_blk gas + iam_blk gas + 1) + ino_blk gas)).

Lemma fill_formatted sb gas : super_fields sb gas -> gas_super_block_fill sb = Some (sbi_of gas).
Proof.
  intros (_ & E1 & E2 & E3 & E4 & E5 & E6 & E7). unfold gas_super_block_fill.
  rewrite E1, E2, E3, E4, E5, E6, E7. done.
Qed.

Section image.
Variables (size uid gid now : Z) (d0 d : gmap Z bytes).
Variable gas : filesys_param.
Hypothesis size_ok : main_size_ok size.
Hypothesis gas_eq : gas = mkfs_param size.
Hypothesis image0 : forall b, 0 <= b < blk_cnt gas -> exists buf, d0 !! b = Some buf /\ blen buf = GAS_BLOCK_SIZE.
Hypothesis fmt : formatted uid gid now gas d0 d.
Let sbi := mounted_sbi (sbi_of gas).

Lemma gas_facts :
  1 <= ino_blk gas <= 2 ^ 14 /\ 1 <= bam_blk gas <= 2 ^ 7 /\ 1 <= iam_blk gas <= 2 ^ 5 /\
  256 <= blk_cnt gas < 2 ^ 22 /\ ino_cnt gas = 64 * ino_blk gas /\
  IAM_BLOCK_START gas = 1 + bam_blk gas /\
  INODE_LIST_START gas = 1 + bam_blk gas + iam_blk gas /\
  data_st gas = 1 + bam_blk gas + iam_blk gas + ino_blk gas /\
  data_st gas + 5 <= blk_cnt gas /\ data_st gas + 5 <= 32768 /\
  (bam_blk gas - 1) * 32768 < blk_cnt gas <= bam_blk gas * 32768 /\
  (iam_blk gas - 1) * 32768 < ino_cnt gas <= iam_blk gas * 32768.
Proof.
  destruct (main_size_facts size size_ok) as (H1 & H2 & H3 & H4 & H5 & _ & H6 & H7 & H8 & H9 & H10 & H11 & H12).
  rewrite <- gas_eq in *. unfold BITS_PER_BLOCK, GAS_BLOCK_SIZE, root_blocks in *. split_and!; done || lia.
Qed.

Lemma layout_agrees :
  s_inode_list_start sbi = INODE_LIST_START gas /\ s_data_block_start sbi = data_st gas.
Proof.
  destruct gas_facts as (H1 & H2 & H3 & H4 & H5 & H6 & H7 & H8 & _).
  cbn. rewrite (u32_small (bam_blk gas + _ + 1)), u32_small by lia. lia.
Qed.

Lemma mkfs_geometry : geometry 12 sbi.
Proof.
  destruct gas_facts as (H1 & H2 & H3 & H4 & H5 & H6 & H7 & H8 & H9 & H10 & H11 & H12).
  destruct layout_agrees as [E1 E2].
  split; rewrite ?E1, ?E2; cbn; try done; try lia; try (rewrite ?u32_small; lia).
  unfold loaded_map. rewrite Z.sub_diag. cbn. by rewrite app_nil_r.
Qed.

(** Every block of the image is there. *)
Lemma mkfs_blocks b : 0 <= b < blk_cnt gas -> exists m, d !! b = Some m /\ blen m = 4096.
Proof.
  destruct gas_facts as (H1 & H2 & H3 & H4 & H5 & H6 & H7 & H8 & _). destruct fmt as [Hs Hbm Him Hr Hi Hd Hrest].
  unfold BAM_BLOCK_START, SUPER_BLOCK_NO in *. intros Hb.
  destruct (Z.eq_dec b 0) as [->|].
  { destruct Hs as (m & Hm & Hl & _). by exists m. }
  destruct (Z_lt_le_dec b (1 + bam_blk gas)).
  { destruct (Hbm (b - 1)) as (m & Hm & Hl & _); [lia|]. exists m.
    by replace (1 + (b - 1)) with b in Hm by lia. }
  destruct (Z_lt_le_dec b (INODE_LIST_START gas)).
  { destruct (Him (b - IAM_BLOCK_START gas)) as (m & Hm & Hl & _); [lia|]. exists m.
    by replace (IAM_BLOCK_START gas + (b - IAM_BLOCK_START gas)) with b in Hm by lia. }
  destruct (Z.eq_dec b (INODE_LIST_START gas)) as [->|].
  { destruct Hr as (m & Hm & Hl & _). by exists m. }
  destruct (Z_lt_le_dec b (data_st gas)).
  { exists (zeroes GAS_BLOCK_SIZE). specialize (Hi (b - INODE_LIST_START gas) ltac:(lia)).
    replace (INODE_LIST_START gas + (b - INODE_LIST_START gas)) with b in Hi by lia.
    split; [exact Hi|apply blen_zeroes; unfold GAS_BLOCK_SIZE; lia]. }
  destruct (Z.eq_dec b (data_st gas)) as [->|].
  { destruct Hd as (m & Hm & Hl & _). by exists m. }
  rewrite Hrest by lia. by apply image0.
Qed.

(** The state right after mounting: the buffers show the image. *)
Lemma mkfs_maps s : mounted s sbi -> k_buf s = d -> s_blocksize_bits s = 12 ->
  bam_reserved sbi s /\ iam_reserved sbi s /\
  (forall x, 0 <= x < s_bam_blocks sbi * s_bits_per_block sbi ->
     bam_used sbi s x = (x <? data_st gas + root_blocks) || (blk_cnt gas <=? x)) /\
  (forall x, 0 <= x < s_iam_blocks sbi * s_bits_per_block sbi ->
     iam_used sbi s x = (x <? 2) || (ino_cnt gas <=? x)).
Proof.
  intros M Hd Hbits. destruct gas_facts as (H1 & H2 & H3 & H4 & H5 & H6 & H7 & H8 & H9 & H10 & H11 & H12).
  destruct layout_agrees as [E1 E2].
  assert (Hbam : forall x, 0 <= x < s_bam_blocks sbi * s_bits_per_block sbi ->
     bam_used sbi s x = (x <? data_st gas + root_blocks) || (blk_cnt gas <=? x)).
  { intros x Hx. destruct (map_index (s_bam_blocks sbi) (s_bits_per_block sbi) x) as [Hk Hr]; [by cbn|done|].
    cbn in Hk, Hr. destruct (fmt_bam _ _ _ _ _ _ fmt (x / 32768)) as (m & Hm & _ & Hbit); [done|].
    unfold bam_used. rewrite (map_used_eq _ _ _ _ (1 + x / 32768) m);
      [|by apply (bam_bh_geom 12); [apply mkfs_geometry|]|by rewrite Hd].
    cbn. unfold BITS_PER_BLOCK, GAS_BLOCK_SIZE in Hbit. rewrite Hbit by lia.
    by replace (x / 32768 * (8 * 4096) + x mod 32768) with x by dlia. }
  assert (Hiam : forall x, 0 <= x < s_iam_blocks sbi * s_bits_per_block sbi ->
     iam_used sbi s x = (x <? 2) || (ino_cnt gas <=? x)).
  { intros x Hx. destruct (map_index (s_iam_blocks sbi) (s_bits_per_block sbi) x) as [Hk Hr]; [by cbn|done|].
    cbn in Hk, Hr. destruct (fmt_iam _ _ _ _ _ _ fmt (x / 32768)) as (m & Hm & _ & Hbit); [done|].
    rewrite H6 in Hm. unfold iam_used. rewrite (map_used_eq _ _ _ _ (1 + bam_blk gas + x / 32768) m);
      [|by apply (iam_bh_geom 12); [apply mkfs_geometry|]|by rewrite Hd].
    cbn. unfold BITS_PER_BLOCK, GAS_BLOCK_SIZE in Hbit. rewrite Hbit by lia.
    by replace (x / 32768 * (8 * 4096) + x mod 32768) with x by dlia. }
  split; [|split; [|by split]].
  - intros x Hx Hr. rewrite Hbam by done. rewrite E2 in Hr. cbn in Hr. unfold root_blocks.
    apply orb_true_iff. rewrite Z.ltb_lt, Z.leb_le. lia.
  - intros x Hx Hr. rewrite Hiam by done. cbn in Hr. unfold GAS_ROOT_INO in Hr.
    apply orb_true_iff. rewrite Z.ltb_lt, Z.leb_le. lia.
Qed.

Lemma mkfs_mountable (device : Z -> gmap Z bytes) s :
  device 12 = d -> k_buf s = d -> read_ok SUPER_BLOCK_NO = true -> mountable device s (sbi_of gas) 12.
Proof.
  intros Hdev Hbuf Hr. destruct (fmt_super _ _ _ _ _ _ fmt) as (sb & Hsb & Hf). split.
  - split; [split; [done|rewrite Hbuf; by exists sb]| |done].
    intros m Hm. rewrite Hbuf in Hm. assert (m = sb) as -> by congruence. by apply fill_formatted.
  - apply set_blocksize_page.
  - apply mkfs_geometry.
  - intros b Hb. rewrite Hdev. by apply mkfs_blocks.
Qed.
End image.
End mount.

Section mount_claims.
Context `{KernelLaws}.
Variables (uid gid now size : Z) (d0 : gmap Z bytes).

(** The image file that [main] is given. *)
Definition image_ok : Prop :=
  forall b, 0 <= b < blk_cnt (mkfs_param size) -> exists buf, d0 !! b = Some buf /\ blen buf = GAS_BLOCK_SIZE.

(** The kernel before a mount of the image [d]: nothing cached but the device. *)
Record fresh_kernel (device : Z -> gmap Z bytes) (s : kst) (d : gmap Z bytes) : Prop := {
  fk_dev : device 12 = d;
  fk_buf : k_buf s = d;
  fk_root : k_inodes s !! GAS_ROOT_INO = None;
  fk_alloc : forall s', is_Some (alloc_inode s');
  fk_read : forall b, read_ok b = true }.

(** What the kernel reads back of the root inode [main] wrote. *)
Lemma root_inode_fill blk info i uid' gid' now' addr :
  inode_fields blk 64 (Z.lor S_IFDIR 0x1ED) 2 uid' gid' (2 * DE.sizeof) now' addr ->
  gas_inode_fill info blk 64 = Some i ->
  i_mode i = Z.lor S_IFDIR 0x1ED /\ i_nlink i = 2 /\ i_size i = 2 * DE.sizeof /\
  blkaddr i !! 0%nat = Some addr.
Proof.
  intros (Fm & Fn & Fu & Fg & Fs & Fa & Fmt & Fc & F0). unfold gas_inode_fill.
  rewrite Fm, Fn, Fu, Fg, Fs, Fa, Fmt, Fc. cbn [mbind option_bind].
  destruct (get_blkaddr blk 64 0 9) as [l|] eqn:El; [|done]. cbn [mbind option_bind].
  intros [= <-]. cbn [i_mode i_nlink i_size blkaddr]. split; [reflexivity|]. do 2 (split; [done|]).
  cbn [get_blkaddr] in El. rewrite F0 in El. cbn [mbind option_bind] in El.
  match type of El with (?o ≫= _) = _ => destruct o; [|done] end. by simplify_eq/=.
Qed.

(** Mounting what [main] wrote, with any postcondition. *)
Lemma mkfs_mount_run d gas (device : Z -> gmap Z bytes) s (Q : option errno -> kst -> Prop) :
  main_size_ok size -> gas = mkfs_param size -> image_ok -> formatted uid gid now gas d0 d ->
  fresh_kernel device s d ->
  (forall s' root, mounted s' (mounted_sbi (sbi_of gas)) -> k_buf s' = d -> s_blocksize_bits s' = 12 ->
     k_inodes s' !! GAS_ROOT_INO = Some root -> S_ISDIR (i_mode root) = true -> i_nlink root = 2 ->
     i_size root = 2 * DE.sizeof -> blkaddr root !! 0%nat = Some (data_st gas) -> Q None s') ->
  kwp (gas_fill_super device true true true) s Q.
Proof.
  intros Hsz Egas Himg Hfmt [Hdev Hbuf Hroot Hal Hread] HQ. unfold image_ok in Himg. rewrite <- Egas in Himg.
  assert (M := mkfs_mountable size uid gid now d0 d gas Hsz Egas Himg Hfmt device s Hdev Hbuf (Hread _)).
  destruct (gas_facts size gas Hsz Egas) as (H1 & H2 & H3 & H4 & H5 & H6 & H7 & H8 & _).
  eapply fill_super_run; [done|cbn; lia|done|done|done| |by rewrite Hread].
  intros m info i dev _ Hm Hi Hdv s1 s2.
  destruct (fmt_root _ _ _ _ _ _ Hfmt) as (blk & Hblk & _ & Hf & _).
  assert (Eb : inode_blk (sbi_of gas) GAS_ROOT_INO = INODE_LIST_START gas).
  { unfold inode_blk, GAS_ROOT_INO. destruct (layout_agrees size gas Hsz Egas) as [El _]. cbn in El |- *.
    change (1 / 64) with 0. lia. }
  rewrite Hdev, Eb in Hm. assert (m = blk) as -> by congruence. clear Hm.
  change (inode_off (sbi_of gas) GAS_ROOT_INO) with 64 in Hi.
  destruct (root_inode_fill _ _ _ _ _ _ _ Hf Hi) as (Em & En & Es & Ek).
  destruct (gas_set_inode_attrs i (new_decode_dev dev)) as (_ & Em' & En' & _ & _ & Es' & _ & _ & _ & Ebk & _).
  apply (HQ _ (gas_set_inode i (new_decode_dev dev))).
  - apply mounted_with_sb, mounted_with_inodes. exact (mounted_with_maps device s _ _ M).
  - exact Hdev.
  - reflexivity.
  - apply lookup_insert_eq.
  - rewrite Em', Em. reflexivity.
  - by rewrite En'.
  - by rewrite Es'.
  - by rewrite Ebk.
Qed.

(** C6: The kernel mounts what the file-system maker wrote. For every image of 1 MiB up
    to 16 GiB, [main] succeeds, and [gas_fill_super] on the result returns 0 with an
    in-memory super block that places the inode list and the data blocks where the
    maker put them, both allocators in order, the blocks in use being the metadata
    and the five of the root directory, and a root inode that is a directory. *)
Theorem mkfs_mounts (device : Z -> gmap Z bytes) :
  main_size_ok size -> image_ok ->
  let gas := mkfs_param size in
  exists d, main uid gid now size {| disk := d0; bc_head := [] |} = Ret tt {| disk := d; bc_head := [] |} /\
  forall s, fresh_kernel device s d ->
  kwp (gas_fill_super device true true true) s (fun r s' =>
    r = None /\ exists sbi root, mounted s' sbi /\ bam_reserved sbi s' /\ iam_reserved sbi s' /\
      s_inode_list_start sbi = INODE_LIST_START gas /\ s_data_block_start sbi = data_st gas /\
      s_nblocks sbi = blk_cnt gas /\ s_ninodes sbi = ino_cnt gas /\
      (forall x, in_zone sbi x -> bam_used sbi s' x = (x <? data_st gas + root_blocks)) /\
      (forall x, GAS_ROOT_INO <= x < ino_cnt gas -> iam_used sbi s' x = (x =? GAS_ROOT_INO)) /\
      k_inodes s' !! GAS_ROOT_INO = Some root /\ S_ISDIR (i_mode root) = true /\ i_nlink root = 2 /\
      i_size root = 2 * DE.sizeof /\ blkaddr root !! 0%nat = Some (data_st gas)).
Proof.
  intros Hsz Himg gas. destruct (main_run uid gid now size d0 Hsz Himg) as (d & Hrun & Hf).
  exists d. split; [exact Hrun|]. intros s Hs. fold gas in Hf. assert (Egas : gas = mkfs_param size) by done.
  clearbody gas. eapply (mkfs_mount_run d gas); [done..|]. intros s' root M Hb Hbits Hr Hdir Hl Hsize Hblk.
  split; [done|]. destruct (layout_agrees size gas Hsz Egas) as [E1 E2].
  destruct (mkfs_maps size uid gid now d0 d gas Hsz Egas Hf s' M Hb Hbits) as (R1 & R2 & Hbam & Hiam).
  destruct (gas_facts size gas Hsz Egas) as (H1 & H2 & H3 & H4 & H5 & H6 & H7 & H8 & H9 & H10 & H11 & H12).
  exists (mounted_sbi (sbi_of gas)), root. split; [exact M|]. split; [exact R1|]. split; [exact R2|]. split; [exact E1|]. split; [exact E2|].
  do 2 (split; [reflexivity|]). split; [|split; [|by split_and!]].
  - intros x [Hx1 Hx2]. rewrite E2 in Hx1. change (s_nblocks _) with (blk_cnt gas) in Hx2.
    rewrite Hbam by (cbn; lia). by rewrite (proj2 (Z.leb_gt (blk_cnt gas) x)), orb_false_r by lia.
  - intros x Hx. unfold GAS_ROOT_INO in *. rewrite Hiam by (cbn; lia).
    rewrite (proj2 (Z.leb_gt (ino_cnt gas) x)), orb_false_r by lia.
    destruct (Z.ltb_spec x 2), (Z.eqb_spec x 1); reflexivity || lia.
Qed.

(** When the number of inodes is a multiple of the bits of a map block (images of
    512 MiB, 1 GiB, ...), the file system mounts but [gas_statfs] reads past the
    array of map buffers. *)
Theorem mkfs_statfs_overrun (device : Z -> gmap Z bytes) :
  main_size_ok size -> image_ok ->
  ino_cnt (mkfs_param size) = iam_blk (mkfs_param size) * BITS_PER_BLOCK ->
  exists d, main uid gid now size {| disk := d0; bc_head := [] |} = Ret tt {| disk := d; bc_head := [] |} /\
  forall s, fresh_kernel device s d ->
  kwp (gas_fill_super device true true true) s (fun r s' => r = None /\ gas_statfs s' = None).
Proof.
  intros Hsz Himg Hfull. destruct (main_run uid gid now size d0 Hsz Himg) as (d & Hrun & Hf).
  exists d. split; [exact Hrun|]. intros s Hs. remember (mkfs_param size) as gas eqn:Egas.
  eapply (mkfs_mount_run d gas); [done..|]. intros s' root M Hb Hbits Hr Hdir Hl Hsize Hblk.
  split; [done|]. destruct (gas_count_free_inodes_run s' _ M) as [_ Hover].
  destruct (gas_count_free_blocks_run s' _ M) as [_ Eblocks]. cbv zeta in Eblocks.
  unfold gas_statfs. rewrite (K_bind_some _ _ _ _ _ (K_GAS_SB _ _ (mt_info _ _ M))), !K_bind_get.
  rewrite (K_bind_some _ _ _ _ _ Eblocks), K_bind_eq. rewrite Hover; [done|]. exact Hfull.
Qed.

(** When the data blocks spill over into the last map block by no more than the
    metadata blocks, [gas_count_free_blocks] misses the free blocks of that map
    block: right after mkfs and mount it reports fewer free blocks than there are. *)
Theorem mkfs_free_blocks_undercount (device : Z -> gmap Z bytes) :
  main_size_ok size -> image_ok ->
  let gas := mkfs_param size in
  BITS_PER_BLOCK < blk_cnt gas < BITS_PER_BLOCK + data_st gas ->
  exists d, main uid gid now size {| disk := d0; bc_head := [] |} = Ret tt {| disk := d; bc_head := [] |} /\
  forall s, fresh_kernel device s d ->
  kwp (gas_fill_super device true true true) s (fun r s' =>
    r = None /\ gas_count_free_blocks s' = Some (BITS_PER_BLOCK - data_st gas - root_blocks, s') /\
    exists sbi, s_fs_info s' = Some sbi /\
      free_from sbi s' (s_data_block_start sbi) = blk_cnt gas - data_st gas - root_blocks).
Proof.
  intros Hsz Himg gas Hspill. destruct (main_run uid gid now size d0 Hsz Himg) as (d & Hrun & Hf).
  exists d. split; [exact Hrun|]. intros s Hs. fold gas in Hf. assert (Egas : gas = mkfs_param size) by done.
  clearbody gas. eapply (mkfs_mount_run d gas); [done..|]. intros s' root M Hb Hbits Hr Hdir Hl Hsize Hblk.
  split; [done|]. destruct (layout_agrees size gas Hsz Egas) as [E1 E2].
  destruct (mkfs_maps size uid gid now d0 d gas Hsz Egas Hf s' M Hb Hbits) as (R1 & R2 & Hbam & Hiam).
  destruct (gas_facts size gas Hsz Egas) as (H1 & H2 & H3 & H4 & H5 & H6 & H7 & H8 & H9 & H10 & H11 & H12).
  destruct (gas_count_free_blocks_value s' _ M R1) as (v & Ev & Hv). cbv zeta in Hv.
  unfold BITS_PER_BLOCK, GAS_BLOCK_SIZE, root_blocks in *. change (8 * 4096) with 32768 in *.
  set (sbi := mounted_sbi (sbi_of gas)) in *.
  assert (Ebam : s_bam_blocks sbi = bam_blk gas) by reflexivity.
  assert (En : s_nblocks sbi = blk_cnt gas) by reflexivity.
  assert (Eb : s_bits_per_block sbi = 32768) by reflexivity.
  assert (Eq : map_blocks sbi (s_nblocks sbi - s_data_block_start sbi + 1) = 1).
  { unfold map_blocks. rewrite Eb, En, E2. symmetry. apply (Z.div_unique _ _ 1 (blk_cnt gas - data_st gas)); lia. }
  rewrite Eq, Eb in Hv.
  rewrite Eb, Ebam in Hbam.
  assert (Hfree : forall a, data_st gas + 5 <= a <= blk_cnt gas -> free_from sbi s' a = blk_cnt gas - a).
  { intros a Ha. unfold free_from. rewrite En, count_clear_all; [lia|]. intros i Hi. rewrite Hbam by lia.
    by rewrite (proj2 (Z.ltb_ge _ _)), (proj2 (Z.leb_gt _ _)) by lia. }
  assert (Htot : free_from sbi s' (s_data_block_start sbi) = blk_cnt gas - data_st gas - 5).
  { unfold free_from. rewrite E2, En, (count_clear_split _ 5), count_clear_used, count_clear_all; [lia|..].
    - intros i Hi. rewrite Hbam by lia. by rewrite (proj2 (Z.ltb_ge _ _)), (proj2 (Z.leb_gt _ _)) by lia.
    - intros i Hi. rewrite Hbam by lia. by rewrite (proj2 (Z.ltb_lt _ _)) by lia.
    - lia. }
  rewrite Htot in Hv. rewrite Hfree in Hv by lia.
  split; [|exists sbi; split; [apply M|exact Htot]]. rewrite Ev. do 2 f_equal. lia.
Qed.
End mount_claims.

(** ** Witnesses *)

#[local] Existing Instance good_api.
#[local] Existing Instance good_laws.

Definition blank_kernel (d : gmap Z bytes) : kst := Kst (SuperBlock 0 0 None) 12 None d d ∅ ∅ ∅ ∅.

Lemma blank_kernel_fresh d : fresh_kernel (fun _ => d) (blank_kernel d) d.
Proof. split; [done|done|done|intros s'; by eexists|done]. Qed.

Lemma mkfs_mounts_witness :
  exists d, main 0 0 1 (4 * 2 ^ 20) {| disk := blank_image 1024; bc_head := [] |}
              = Ret tt {| disk := d; bc_head := [] |} /\
  kwp (gas_fill_super (fun _ => d) true true true) (blank_kernel d) (fun r _ => r = None).
Proof.
  assert (Hs : main_size_ok (4 * 2 ^ 20)) by (unfold main_size_ok, GAS_BLOCK_SIZE; lia).
  assert (Hi : image_ok (4 * 2 ^ 20) (blank_image 1024)).
  { intros b Hb. apply blank_image_blocks. change (blk_cnt _) with 1024 in Hb. lia. }
  destruct (mkfs_mounts 0 0 1 (4 * 2 ^ 20) (blank_image 1024) (fun _ => ∅) Hs Hi) as (d0 & Hrun0 & _).
  destruct (mkfs_mounts 0 0 1 (4 * 2 ^ 20) (blank_image 1024) (fun _ => d0) Hs Hi) as (d & Hrun & Hk).
  assert (d0 = d) as <- by congruence. exists d0. split; [exact Hrun|].
  eapply kwp_mono; [apply Hk, blank_kernel_fresh|]. intros r s' (Hr & _). exact Hr.
Defined.

Lemma mkfs_statfs_overrun_witness :
  exists d, main 0 0 1 (2 ^ 29) {| disk := blank_image (Z.to_nat 131072); bc_head := [] |}
              = Ret tt {| disk := d; bc_head := [] |} /\
  forall s, fresh_kernel (fun _ => d) s d ->
  kwp (gas_fill_super (fun _ => d) true true true) s (fun r s' => r = None /\ gas_statfs s' = None).
Proof.
  assert (Hs : main_size_ok (2 ^ 29)) by (unfold main_size_ok, GAS_BLOCK_SIZE; lia).
  assert (Hi : image_ok (2 ^ 29) (blank_image (Z.to_nat 131072))).
  { intros b Hb. apply blank_image_blocks. change (blk_cnt _) with 131072 in Hb. lia. }
  destruct (mkfs_statfs_overrun 0 0 1 (2 ^ 29) (blank_image (Z.to_nat 131072)) (fun _ => ∅) Hs Hi eq_refl) as (d0 & Hrun0 & _).
  destruct (mkfs_statfs_overrun 0 0 1 (2 ^ 29) (blank_image (Z.to_nat 131072)) (fun _ => d0) Hs Hi eq_refl) as (d & Hrun & Hk).
  assert (d0 = d) as <- by congruence. exists d0. split; [exact Hrun|exact Hk].
Defined.

Lemma mkfs_free_blocks_undercount_witness :
  exists d, main 0 0 1 (32770 * 4096) {| disk := blank_image (Z.to_nat 32770); bc_head := [] |}
              = Ret tt {| disk := d; bc_head := [] |} /\
  forall s, fresh_kernel (fun _ => d) s d ->
  kwp (gas_fill_super (fun _ => d) true true true) s (fun r s' =>
    r = None /\ gas_count_free_blocks s' = Some (32768 - 132 - 5, s') /\
    exists sbi, s_fs_info s' = Some sbi /\ free_from sbi s' (s_data_block_start sbi) = 32770 - 132 - 5).
Proof.
  assert (Hs : main_size_ok (32770 * 4096)) by (unfold main_size_ok, GAS_BLOCK_SIZE; lia).
  assert (Hi : image_ok (32770 * 4096) (blank_image (Z.to_nat 32770))).
  { intros b Hb. apply blank_image_blocks. change (blk_cnt _) with 32770 in Hb. lia. }
  assert (Hsp : BITS_PER_BLOCK < blk_cnt (mkfs_param (32770 * 4096)) < BITS_PER_BLOCK + data_st (mkfs_param (32770 * 4096)))
    by (vm_compute; split; reflexivity).
  destruct (mkfs_free_blocks_undercount 0 0 1 (32770 * 4096) (blank_image (Z.to_nat 32770)) (fun _ => ∅) Hs Hi Hsp) as (d0 & Hrun0 & _).
  destruct (mkfs_free_blocks_undercount 0 0 1 (32770 * 4096) (blank_image (Z.to_nat 32770)) (fun _ => d0) Hs Hi Hsp) as (d & Hrun & Hk).
  assert (d0 = d) as <- by congruence. exists d0. split; [exact Hrun|exact Hk].
Defined.
