(* ===== verification/Vfs.v ===== *)
(** * The virtual file system around the module: pages, locks, inode references, dentries

    The directory code and the name-space code of the module work on the page cache and
    on the caches of inodes and dentries. [vfs] adds them to the state of Kernel.v, and
    [P] is the monad of computations on both; [lift] runs a computation of Kernel.v in
    it. A page is named by its inode and its index. Its contents are what the page cache
    shows: a page of a file that was never written reads as zeroes. Locking a page
    twice, unlocking one that is not locked and dropping a reference that is not held
    are undefined behaviour.

    [PageApi] lists what of the page cache is not defined here: which pages can be read,
    made and written, and [__block_write_begin], which maps the blocks under a range by
    calling the function it is given; [PageLaws] states that it does nothing else. The
    inode mutex that the kernel holds around directory operations keeps other tasks
    away from the directory. *)

From S2P Require Import Prelude Mem Layout Kernel.

#[export] Instance byte_eq_dec : EqDecision Byte.byte.
Proof. intros a b. apply (Byte.byte_eq_dec a b). Defined.

#[export] Instance byte_countable : Countable Byte.byte.
Proof.
  refine (inj_countable' byte.unsigned byte.of_Z _). intros b. apply byte.of_Z_unsigned.
Defined.

Definition PAGE_CACHE_SIZE : Z := 4096.
Definition PAGE_CACHE_SHIFT : Z := 12.

(** ** State *)

Record vfs := Vfs {
  v_k : kst; v_pages : gmap (Z * Z) bytes; v_pref : gmultiset (Z * Z); v_lock : gset (Z * Z);
  v_pdirty : gset (Z * Z); v_count : gmultiset Z; v_dentries : gmap (Z * bytes) Z }.

Definition with_k (k : kst) (s : vfs) : vfs :=
  Vfs k (v_pages s) (v_pref s) (v_lock s) (v_pdirty s) (v_count s) (v_dentries s).
Definition with_pages (m : gmap (Z * Z) bytes) (s : vfs) : vfs :=
  Vfs (v_k s) m (v_pref s) (v_lock s) (v_pdirty s) (v_count s) (v_dentries s).
Definition with_pref (r : gmultiset (Z * Z)) (s : vfs) : vfs :=
  Vfs (v_k s) (v_pages s) r (v_lock s) (v_pdirty s) (v_count s) (v_dentries s).
Definition with_lock (l : gset (Z * Z)) (s : vfs) : vfs :=
  Vfs (v_k s) (v_pages s) (v_pref s) l (v_pdirty s) (v_count s) (v_dentries s).
Definition with_pdirty (d : gset (Z * Z)) (s : vfs) : vfs :=
  Vfs (v_k s) (v_pages s) (v_pref s) (v_lock s) d (v_count s) (v_dentries s).
Definition with_count (c : gmultiset Z) (s : vfs) : vfs :=
  Vfs (v_k s) (v_pages s) (v_pref s) (v_lock s) (v_pdirty s) c (v_dentries s).
Definition with_dentries (d : gmap (Z * bytes) Z) (s : vfs) : vfs :=
  Vfs (v_k s) (v_pages s) (v_pref s) (v_lock s) (v_pdirty s) (v_count s) d.

(** A dentry: the inode of its parent directory and its name, a C string. *)
Record dentry := Dentry { d_parent : Z; d_name : bytes }.

Definition d_key (d : dentry) : Z * bytes := (d_parent d, d_name d).

(** ** The monad *)

Definition P (A : Type) : Type := vfs -> option (A * vfs).

#[export] Instance P_ret : MRet P := fun A a s => Some (a, s).
#[export] Instance P_bind : MBind P := fun A B k c s =>
  match c s with Some (a, s') => k a s' | None => None end.

Definition lift {A} (c : K A) : P A := fun s =>
  match c (v_k s) with Some (a, k) => Some (a, with_k k s) | None => None end.
Definition plift {A} (o : option A) : P A := fun s => a ← o; Some (a, s).
Definition pget {A} (f : vfs -> A) : P A := fun s => Some (f s, s).
Definition pmod (f : vfs -> vfs) : P unit := fun s => Some (tt, f s).

(** Total correctness. *)
Definition pwp {A} (c : P A) (s : vfs) (Q : A -> vfs -> Prop) : Prop :=
  exists a s', c s = Some (a, s') /\ Q a s'.

(** ** The page cache and the caches of inodes and dentries *)

Class PageApi := {
  (* the error of reading a page *)
  page_err : Z -> Z -> option errno;
  (* whether [grab_cache_page] finds memory *)
  grab_ok : Z -> Z -> bool;
  (* the error of writing a page *)
  write_page_err : Z * Z -> option errno;
  (* the dirsync option of a directory *)
  IS_DIRSYNC : Z -> bool;
  (* [__block_write_begin(page, pos, len, get_block)] *)
  block_write_begin : (Z -> Z -> bool -> K (option errno * option (Z * bool))) ->
    Z * Z -> Z -> Z -> K (option errno) }.

Class PageLaws `{PageApi} : Prop := {
  block_write_begin_law : forall get_block pg pos len s (R : kst -> kst -> Prop),
    PreOrder R -> 0 <= pos ->
    (forall block st, R s st -> 0 <= block -> kwp (get_block (fst pg) block true) st (fun _ st' => R st st')) ->
    kwp (block_write_begin get_block pg pos len) s (fun _ s' => R s s') }.

Section page_cache.
Context `{KernelApi, PageApi}.

(** What the page cache shows of a page. *)
Definition shown (s : vfs) (pg : Z * Z) : bytes := default (zeroes PAGE_CACHE_SIZE) (v_pages s !! pg).

Definition page_data (pg : Z * Z) : P bytes := pget (fun s => shown s pg).
Definition page_put (pg : Z * Z) (m : bytes) : P unit := pmod (fun s => with_pages (<[pg := m]> (v_pages s)) s).

(** [read_mapping_page]: an error, or one more reference to the page. *)
Definition read_mapping_page (ino n : Z) : P (option errno) := fun s =>
  match page_err ino n with
  | Some e => Some (Some e, s)
  | None => Some (None, with_pref (v_pref s ⊎ {[+ (ino, n) +]}) s)
  end.

Definition lock_page (pg : Z * Z) : P unit := fun s =>
  if bool_decide (pg ∈ v_lock s) then None else Some (tt, with_lock ({[pg]} ∪ v_lock s) s).
Definition unlock_page (pg : Z * Z) : P unit := fun s =>
  if bool_decide (pg ∈ v_lock s) then Some (tt, with_lock (v_lock s ∖ {[pg]}) s) else None.
Definition put_page (pg : Z * Z) : P unit := fun s =>
  if bool_decide (pg ∈ v_pref s) then Some (tt, with_pref (v_pref s ∖ {[+ pg +]}) s) else None.

(** [grab_cache_page]: the page, referenced and locked, or NULL. *)
Definition grab_cache_page (pg : Z * Z) : P bool :=
  if grab_ok (fst pg) (snd pg) then
    _ ← pmod (fun s => with_pref (v_pref s ⊎ {[+ pg +]}) s); _ ← lock_page pg; mret true
  else mret false.

(** [block_write_end] on a whole range: the page is dirty. *)
Definition block_write_end (pg : Z * Z) : P unit := pmod (fun s => with_pdirty ({[pg]} ∪ v_pdirty s) s).

(** [write_one_page]: write and unlock. *)
Definition write_one_page (pg : Z * Z) : P (option errno) :=
  _ ← unlock_page pg;
  match write_page_err pg with
  | Some e => mret (Some e)
  | None => _ ← pmod (fun s => with_pdirty (v_pdirty s ∖ {[pg]}) s); mret None
  end.

(** [ihold], and [iput]: the last reference to an inode without links evicts it, with its
    pages. An inode with links stays in the inode cache. *)
Definition ihold (ino : Z) : P unit := pmod (fun s => with_count (v_count s ⊎ {[+ ino +]}) s).

Definition drop_pages (ino : Z) (m : gmap (Z * Z) bytes) : gmap (Z * Z) bytes :=
  filter (fun x => fst (fst x) <> ino) m.

Definition iput (evict : Z -> K unit) (ino : Z) : P unit :=
  n ← pget (fun s => multiplicity ino (v_count s));
  match n with
  | O => plift None
  | S n =>
      _ ← pmod (fun s => with_count (v_count s ∖ {[+ ino +]}) s);
      i ← lift (iref ino);
      if (n =? 0)%nat && (i_nlink i =? 0) then
        _ ← pmod (fun s => with_pages (drop_pages ino (v_pages s)) s);
        _ ← lift (evict ino);
        lift (kmod (fun k => with_inodes (delete ino (k_inodes k)) k))
      else mret tt
  end.

(** [d_instantiate] and [d_add]: the dentry refers to the inode; it takes over the
    caller's reference. *)
Definition d_instantiate (d : dentry) (ino : Z) : P unit :=
  pmod (fun s => with_dentries (<[d_key d := ino]> (v_dentries s)) s).
Definition d_add (d : dentry) (ino : Z) : P unit := d_instantiate d ino.

(** [dentry->d_inode] *)
Definition d_inode (d : dentry) : P (option Z) := pget (fun s => v_dentries s !! d_key d).
End page_cache.

(** ** Rules *)

Section pwp_rules.
Context `{KernelApi, PageApi}.

Lemma P_bind_eq {A B} (c : P A) (k : A -> P B) s :
  (c ≫= k) s = match c s with Some (a, s') => k a s' | None => None end.
Proof. done. Qed.

Lemma pwp_bind {A B} (c : P A) (k : A -> P B) s Q :
  pwp c s (fun a s' => pwp (k a) s' Q) -> pwp (c ≫= k) s Q.
Proof. intros (a & s' & E & b & s2 & E2 & HQ). exists b, s2. by rewrite P_bind_eq, E. Qed.

Lemma pwp_assoc {A B C} (c : P A) (k : A -> P B) (k' : B -> P C) s Q :
  pwp ((c ≫= k) ≫= k') s Q -> pwp (c ≫= fun a => (k a ≫= k')) s Q.
Proof. intros (x & s' & E & HQ). exists x, s'. split; [|done]. rewrite !P_bind_eq in *. by destruct (c s) as [[a s1]|]. Qed.

Lemma pwp_mono {A} (c : P A) s (Q Q' : A -> vfs -> Prop) :
  pwp c s Q -> (forall a s', Q a s' -> Q' a s') -> pwp c s Q'.
Proof. intros (a & s' & E & HQ) HH. exists a, s'. eauto. Qed.

Lemma pwp_ret {A} (a : A) s (Q : A -> vfs -> Prop) : Q a s -> pwp (mret a) s Q.
Proof. intros. by exists a, s. Qed.

Lemma pwp_plift {A} (o : option A) a s (Q : A -> vfs -> Prop) : o = Some a -> Q a s -> pwp (plift o) s Q.
Proof. intros -> ?. by exists a, s. Qed.

Lemma pwp_get {A} (f : vfs -> A) s (Q : A -> vfs -> Prop) : Q (f s) s -> pwp (pget f) s Q.
Proof. intros. by exists (f s), s. Qed.

Lemma pwp_mod f s (Q : unit -> vfs -> Prop) : Q tt (f s) -> pwp (pmod f) s Q.
Proof. intros. by exists tt, (f s). Qed.

(** A computation of Kernel.v leaves the caches alone. *)
Lemma pwp_lift {A} (c : K A) s (Q : A -> vfs -> Prop) :
  kwp c (v_k s) (fun a k => Q a (with_k k s)) -> pwp (lift c) s Q.
Proof. intros (a & k & E & HQ). exists a, (with_k k s). unfold lift. by rewrite E. Qed.

Lemma pwp_iref n i s (Q : inode -> vfs -> Prop) :
  k_inodes (v_k s) !! n = Some i -> Q i s -> pwp (lift (iref n)) s Q.
Proof. intros E HQ. apply pwp_lift. eapply kwp_iref; [done|]. by destruct s. Qed.

Lemma pwp_read ino n s (Q : option errno -> vfs -> Prop) :
  (forall e, page_err ino n = Some e -> Q (Some e) s) ->
  (page_err ino n = None -> Q None (with_pref (v_pref s ⊎ {[+ (ino, n) +]}) s)) ->
  pwp (read_mapping_page ino n) s Q.
Proof.
  intros H1 H2. unfold pwp, read_mapping_page. destruct (page_err ino n) as [e|]; eexists _, _; (split; [done|]); auto.
Qed.

Lemma pwp_lock pg s (Q : unit -> vfs -> Prop) :
  pg ∉ v_lock s -> Q tt (with_lock ({[pg]} ∪ v_lock s) s) -> pwp (lock_page pg) s Q.
Proof. intros Hn HQ. eexists _, _. unfold lock_page. by rewrite bool_decide_eq_false_2. Qed.

Lemma pwp_unlock pg s (Q : unit -> vfs -> Prop) :
  pg ∈ v_lock s -> Q tt (with_lock (v_lock s ∖ {[pg]}) s) -> pwp (unlock_page pg) s Q.
Proof. intros Hn HQ. eexists _, _. unfold unlock_page. by rewrite bool_decide_eq_true_2. Qed.

Lemma pwp_put pg s (Q : unit -> vfs -> Prop) :
  pg ∈ v_pref s -> Q tt (with_pref (v_pref s ∖ {[+ pg +]}) s) -> pwp (put_page pg) s Q.
Proof. intros Hn HQ. eexists _, _. unfold put_page. by rewrite bool_decide_eq_true_2. Qed.

Lemma pwp_eq {A} (c : P A) s a s' : c s = Some (a, s') -> forall Q : A -> vfs -> Prop, pwp c s Q -> Q a s'.
Proof. intros E Q (? & ? & E' & ?). by simplify_eq. Qed.

Lemma with_pref_same s : with_pref (v_pref s) s = s.
Proof. by destruct s. Qed.

Lemma with_lock_same s : with_lock (v_lock s) s = s.
Proof. by destruct s. Qed.

Lemma with_k_same s : with_k (v_k s) s = s.
Proof. by destruct s. Qed.

(** Steps of a computation that keep the state. *)
Lemma P_iref {B} n i (k : inode -> P B) s : k_inodes (v_k s) !! n = Some i -> (lift (iref n) ≫= k) s = k i s.
Proof. intros E. rewrite P_bind_eq. unfold lift, iref. rewrite E. cbn [mbind option_bind]. by rewrite with_k_same. Qed.

Lemma P_get {A B} (f : vfs -> A) (k : A -> P B) s : (pget f ≫= k) s = k (f s) s.
Proof. done. Qed.

Lemma P_plift {A B} (o : option A) a (k : A -> P B) s : o = Some a -> (plift o ≫= k) s = k a s.
Proof. by intros ->. Qed.

Lemma P_read_ok {B} ino n (k : option errno -> P B) s : page_err ino n = None ->
  (read_mapping_page ino n ≫= k) s = k None (with_pref (v_pref s ⊎ {[+ (ino, n) +]}) s).
Proof. intros E. rewrite P_bind_eq. unfold read_mapping_page. by rewrite E. Qed.

Lemma P_read_fail {B} ino n e (k : option errno -> P B) s : page_err ino n = Some e ->
  (read_mapping_page ino n ≫= k) s = k (Some e) s.
Proof. intros E. rewrite P_bind_eq. unfold read_mapping_page. by rewrite E. Qed.

(** Dropping the reference just taken. *)
Lemma P_put_taken {B} pg (k : unit -> P B) s :
  (put_page pg ≫= k) (with_pref (v_pref s ⊎ {[+ pg +]}) s) = k tt s.
Proof.
  rewrite P_bind_eq. unfold put_page. cbn [v_pref with_pref]. rewrite bool_decide_eq_true_2 by (clear; multiset_solver).
  replace ((v_pref s ⊎ {[+ pg +]}) ∖ {[+ pg +]}) with (v_pref s) by (clear; multiset_solver). by destruct s.
Qed.

(** A reference taken and dropped. *)
Lemma pref_take_drop (X : gmultiset (Z * Z)) pg : (X ⊎ {[+ pg +]}) ∖ {[+ pg +]} = X.
Proof. clear. multiset_solver. Qed.

Lemma pref_taken (X : gmultiset (Z * Z)) pg : pg ∈ X ⊎ {[+ pg +]}.
Proof. clear. multiset_solver. Qed.

Lemma lock_take_drop (X : gset (Z * Z)) pg : pg ∉ X -> ({[pg]} ∪ X) ∖ {[pg]} = X.
Proof. clear. set_solver. Qed.
End pwp_rules.

(** ** A concrete page cache

    Pages of [rd] can be read; [block_write_begin] maps the blocks of the range, all of
    [2 ^ bits] bytes, in order. *)

Fixpoint demo_map_blocks (get_block : Z -> Z -> bool -> K (option errno * option (Z * bool)))
    (ino block : Z) (todo : nat) : K (option errno) :=
  match todo with
  | O => mret None
  | S todo =>
      '(err, _) ← get_block ino block true;
      match err with
      | Some e => mret (Some e)
      | None => demo_map_blocks get_block ino (block + 1) todo
      end
  end.

Definition demo_pages (bits : Z) (rd : Z -> Z -> option errno) (sync : bool) : PageApi := {|
  page_err := rd;
  grab_ok := fun _ _ => true;
  write_page_err := fun _ => None;
  IS_DIRSYNC := fun _ => sync;
  block_write_begin := fun get_block pg pos len =>
    demo_map_blocks get_block (fst pg) (pos / 2 ^ bits) (Z.to_nat ((pos + len - 1) / 2 ^ bits - pos / 2 ^ bits + 1)) |}.

Lemma demo_page_laws bits rd sync : 0 <= bits -> @PageLaws (demo_pages bits rd sync).
Proof.
  intros Hb. split. cbn. intros get_block pg pos len s R HR Hpos Hg.
  assert (0 <= pos / 2 ^ bits) by (apply Z.div_pos; lia).
  enough (HG : forall todo block st, 0 <= block -> R s st ->
    kwp (demo_map_blocks get_block (fst pg) block todo) st (fun _ s' => R s s')) by (apply HG; [done|reflexivity]).
  induction todo as [|todo IH]; intros block st Hblock Hs; cbn [demo_map_blocks].
  - by apply kwp_ret.
  - apply kwp_bind. eapply kwp_mono; [by apply Hg|]. intros [[e|] r] st' HR'.
    + apply kwp_ret. by transitivity st.
    + apply IH; [lia|]. by transitivity st.
Qed.
