(* ===== verification/Dir.v ===== *)
(** * Directories (kern/gas_dir.c)

    A directory is a file of 260-byte entries, fifteen to a page; no entry crosses the
    end of a page. An entry is named by its page and its offset in it. [gas_get_block] is
    a parameter: it is handed to the page cache, which calls it to map blocks. The pages
    of a directory are locked while they change. *)

From S2P Require Import Prelude Mem Layout Kernel Itree Vfs.

(** ** C strings in a page *)

(** [strlen]: [None] when no NUL follows in the page. *)
Definition strlen (m : bytes) (off : Z) : option Z :=
  let n := blen (cstring (length m) (drop (Z.to_nat off) m)) in
  if (0 <=? off) && (off + n <? blen m) then Some n else None.

(** [strncmp(m + off, name, n) == 0] *)
Definition strncmp_eq (n : nat) (m : bytes) (off : Z) (name : bytes) : option bool :=
  if in_range m off (Z.of_nat n) then Some (bool_decide (cstring n (sub_bytes n m off) = take n name)) else None.

(** The character at an offset. *)
Definition char_at (m : bytes) (off : Z) : option Z := load 1 m off.

Definition dot : Byte.byte := Byte.x2e.

(** [for (p = kaddr; p <= limit; p += sizeof(struct gas_dir_entry))]; [body] is [None] on
    undefined behaviour and [Some None] to go on. *)
Fixpoint for_entries {A} (fuel : nat) (limit : Z) (body : Z -> option (option A)) (p : Z) : option (option A) :=
  match fuel with
  | O => None
  | S fuel =>
      if limit <? p then Some None
      else
        r ← body p;
        match r with
        | Some a => Some (Some a)
        | None => for_entries fuel limit body (p + DE.sizeof)
        end
  end.

(** Turns of that loop on a page, and one to leave it. *)
Definition ENTRIES : nat := 17.

Section dir.
Context `{KernelApi, PageApi}.
Variable gas_get_block : Z -> Z -> bool -> K (option errno * option (Z * bool)).

Definition gas_dir_pages (i : inode) : Z := Z.shiftr (u64 (i_size i + PAGE_CACHE_SIZE - 1)) PAGE_CACHE_SHIFT.
Definition gas_dir_entry_page (pos : Z) : Z := Z.shiftr (u64 pos) PAGE_CACHE_SHIFT.
Definition gas_dir_entry_offset (pos : Z) : Z := Z.land (u64 pos) (PAGE_CACHE_SIZE - 1).

Definition gas_last_byte (i : inode) (page_nr : Z) : Z :=
  if page_nr =? Z.shiftr (i_size i) PAGE_CACHE_SHIFT then Z.land (i_size i) (PAGE_CACHE_SIZE - 1)
  else PAGE_CACHE_SIZE.

Definition gas_dir_prepare_chunk (pg : Z * Z) (pos len : Z) : P (option errno) :=
  lift (block_write_begin gas_get_block pg pos len).

Definition gas_dir_commit_chunk (pg : Z * Z) (pos len : Z) : P (option errno) :=
  let dir := fst pg in
  _ ← block_write_end pg;
  i ← lift (iref dir);
  _ ← (if i_size i <? pos + len then
         _ ← lift (iput_data dir (set_size (pos + len) i)); lift (mark_inode_dirty dir)
       else mret tt);
  if IS_DIRSYNC dir then write_one_page pg else _ ← unlock_page pg; mret None.

(** The error of [gas_dir_get_page]; the page is [(inode, n)]. *)
Definition gas_dir_get_page (inode n : Z) : P (option errno) := read_mapping_page inode n.
Definition gas_dir_put_page (pg : Z * Z) : P unit := put_page pg.

(** [dir->i_mtime = dir->i_ctime = CURRENT_TIME_SEC; mark_inode_dirty(dir)] *)
Definition touch_dir (dir : Z) : P unit :=
  now ← lift (kget current_time);
  i ← lift (iref dir);
  _ ← lift (iput_data dir (set_mtime now (set_ctime now i)));
  lift (mark_inode_dirty dir).

(** *** Reading *)

Section iterate.
Context {X : Type}.
(** [ctx->actor(ctx, name, len, pos, ino, type)] *)
Variable actor : X -> bytes -> Z -> Z -> Z -> Z -> X * Z.

(** [gas_dir_emit]: the context and whether to go on; [dir_emit] goes on when the actor
    returns 0. *)
Definition gas_dir_emit (m : bytes) (x : X) (pos off : Z) : option (X * bool) :=
  let type := 0 in
  len ← strlen m off;
  ino ← f_get m off DE.de_inode;
  if ino =? 0 then Some (x, true)
  else
    let '(x, r) := actor x (sub_bytes (Z.to_nat len) m off) len pos ino type in
    Some (x, r =? 0).

(** [while (off < PAGE_CACHE_SIZE && ctx->pos < inode->i_size)] *)
Fixpoint emit_loop (fuel : nat) (m : bytes) (size : Z) (x : X) (pos off : Z) : option (X * Z * bool) :=
  match fuel with
  | O => None
  | S fuel =>
      if (off <? PAGE_CACHE_SIZE) && (pos <? size) then
        '(x, go) ← gas_dir_emit m x pos off;
        if go : bool then emit_loop fuel m size x (pos + DE.sizeof) (off + DE.sizeof)
        else Some (x, pos, false)
      else Some (x, pos, true)
  end.

(** [for (; pidx < pages; ++pidx, off = 0)] *)
Fixpoint iterate_pages (todo : nat) (inode size : Z) (x : X) (pos pidx off : Z) : P (option errno * X * Z) :=
  match todo with
  | O => mret (None, x, pos)
  | S todo =>
      err ← gas_dir_get_page inode pidx;
      match err with
      | Some e => mret (Some e, x, pos)
      | None =>
          m ← page_data (inode, pidx);
          '(x, pos, go) ← plift (emit_loop ENTRIES m size x pos off);
          _ ← gas_dir_put_page (inode, pidx);
          if go : bool then iterate_pages todo inode size x pos (pidx + 1) 0 else mret (None, x, pos)
      end
  end.

(** [gas_iterate] from position [pos]: the error, the context and the position. *)
Definition gas_iterate (inode : Z) (x : X) (pos : Z) : P (option errno * X * Z) :=
  i ← lift (iref inode);
  let pages := gas_dir_pages i in
  let pidx := gas_dir_entry_page pos in
  iterate_pages (Z.to_nat (pages - pidx)) inode (i_size i) x pos pidx (gas_dir_entry_offset pos).

Definition gas_readdir (file_inode : Z) (x : X) (pos : Z) : P (option errno * X * Z) :=
  gas_iterate file_inode x pos.
End iterate.

(** [gas_match]: the context is [match->ino]; 1 stops the iteration. *)
Definition gas_match (want : bytes) (found : Z) (name : bytes) (len off ino type : Z) : Z * Z :=
  if negb (len =? blen want) then (found, 0)
  else if bool_decide (want = name) then (ino, 1)
  else (found, 0).

Definition gas_inode_by_name (dir : Z) (child : bytes) : P Z :=
  '(err, ino, _) ← gas_iterate (gas_match child) dir 0 0;
  mret ino.

(** *** Adding an entry *)

Inductive add_slot : Set := SlotEnd (off : Z) | SlotFree (off : Z) | SlotExists.

(** The body of the inner loop of [gas_add_link]. *)
Definition add_slot_at (m : bytes) (dir_end : Z) (name : bytes) (off : Z) : option (option add_slot) :=
  if off =? dir_end then Some (Some (SlotEnd off))
  else
    ino ← f_get m off DE.de_inode;
    if ino =? 0 then Some (Some (SlotFree off))
    else
      same ← strncmp_eq (Z.to_nat (GAS_MAX_NAME_LEN - 1)) m off name;
      Some (if same : bool then Some SlotExists else None).

(** [got_it]: the page is locked. *)
Definition link_entry (dir : Z) (name : bytes) (inode : Z) (pg : Z * Z) (off : Z) : P (option errno) :=
  let pos := snd pg * PAGE_CACHE_SIZE + off in
  err ← gas_dir_prepare_chunk pg pos DE.sizeof;
  match err with
  | Some e => _ ← unlock_page pg; _ ← gas_dir_put_page pg; mret (Some e)
  | None =>
      m ← page_data pg;
      i ← lift (iref inode);
      m ← plift (dirent_write m off name (i_ino i));
      _ ← page_put pg m;
      err ← gas_dir_commit_chunk pg pos DE.sizeof;
      _ ← touch_dir dir;
      _ ← gas_dir_put_page pg;
      mret err
  end.

(** [for (n = 0; n <= npages; n++)] *)
Fixpoint add_link_pages (todo : nat) (dir : Z) (name : bytes) (inode n : Z) : P (option errno) :=
  match todo with
  | O => mret (Some EINVAL)
  | S todo =>
      err ← gas_dir_get_page dir n;
      match err with
      | Some e => mret (Some e)
      | None =>
          let pg := (dir, n) in
          _ ← lock_page pg;
          m ← page_data pg;
          i ← lift (iref dir);
          r ← plift (for_entries ENTRIES (PAGE_CACHE_SIZE - DE.sizeof)
                       (add_slot_at m (gas_last_byte i n) name) 0);
          match r with
          | None =>
              _ ← unlock_page pg; _ ← gas_dir_put_page pg;
              add_link_pages todo dir name inode (n + 1)
          | Some SlotExists => _ ← unlock_page pg; _ ← gas_dir_put_page pg; mret (Some EEXIST)
          | Some (SlotEnd off) =>
              m ← plift (f_set m off DE.de_inode 0);
              _ ← page_put pg m;
              link_entry dir name inode pg off
          | Some (SlotFree off) => link_entry dir name inode pg off
          end
      end
  end.

Definition gas_add_link (d : dentry) (inode : Z) : P (option errno) :=
  let dir := d_parent d in
  i ← lift (iref dir);
  add_link_pages (S (Z.to_nat (gas_dir_pages i))) dir (d_name d) inode 0.

Definition gas_make_empty (inode dir : Z) : P (option errno) :=
  let pg := (inode, 0) in
  ok ← grab_cache_page pg;
  if negb ok then mret (Some ENOMEM)
  else
    err ← gas_dir_prepare_chunk pg 0 (2 * DE.sizeof);
    match err with
    | Some e => _ ← unlock_page pg; _ ← put_page pg; mret (Some e)
    | None =>
        i ← lift (iref inode);
        d ← lift (iref dir);
        m ← plift (m ← f_set (zeroes PAGE_CACHE_SIZE) 0 DE.de_inode (i_ino i);
                   m ← store_bytes m (0 + DE.de_name) [dot; Byte.x00];
                   m ← f_set m DE.sizeof DE.de_inode (i_ino d);
                   store_bytes m (DE.sizeof + DE.de_name) [dot; dot; Byte.x00]);
        _ ← page_put pg m;
        err ← gas_dir_commit_chunk pg 0 (2 * DE.sizeof);
        _ ← put_page pg;
        mret err
    end.

(** *** Finding and removing *)

(** The body of the inner loop of [gas_find_entry]. *)
Definition find_at (m : bytes) (name : bytes) (off : Z) : option (option Z) :=
  ino ← f_get m off DE.de_inode;
  if ino =? 0 then Some None
  else
    same ← strncmp_eq (Z.to_nat GAS_MAX_NAME_LEN) m off name;
    Some (if same : bool then Some off else None).

(** [for (n = 0; n < npages; n++)]; a page that cannot be read is skipped. *)
Fixpoint find_pages (todo : nat) (dir : Z) (name : bytes) (n : Z) : P (option ((Z * Z) * Z)) :=
  match todo with
  | O => mret None
  | S todo =>
      err ← gas_dir_get_page dir n;
      match err with
      | Some _ => find_pages todo dir name (n + 1)
      | None =>
          m ← page_data (dir, n);
          i ← lift (iref dir);
          r ← plift (for_entries ENTRIES (gas_last_byte i n - DE.sizeof) (find_at m name) 0);
          match r with
          | Some off => mret (Some ((dir, n), off))
          | None => _ ← gas_dir_put_page (dir, n); find_pages todo dir name (n + 1)
          end
      end
  end.

(** [gas_find_entry]: the entry and its page, which stays referenced; or NULL. *)
Definition gas_find_entry (d : dentry) : P (option ((Z * Z) * Z)) :=
  i ← lift (iref (d_parent d));
  find_pages (Z.to_nat (gas_dir_pages i)) (d_parent d) (d_name d) 0.

Definition gas_delete_entry (de : (Z * Z) * Z) : P (option errno) :=
  let '(pg, off) := de in
  let pos := snd pg * PAGE_CACHE_SIZE + off in
  _ ← lock_page pg;
  err ← gas_dir_prepare_chunk pg pos DE.sizeof;
  err ← (match err with
         | None =>
             m ← page_data pg;
             m ← plift (f_set m off DE.de_inode 0);
             _ ← page_put pg m;
             gas_dir_commit_chunk pg pos DE.sizeof
         | Some e => _ ← unlock_page pg; mret (Some e)
         end);
  _ ← gas_dir_put_page pg;
  _ ← touch_dir (fst pg);
  mret err.

(** The body of the inner loop of [gas_empty_dir]: [Some (Some tt)] is [goto not_empty]. *)
Definition not_empty_at (m : bytes) (i_ino : Z) (off : Z) : option (option unit) :=
  ino ← f_get m off DE.de_inode;
  if ino =? 0 then Some None
  else
    c ← char_at m (off + DE.de_name);
    if negb (c =? byte.unsigned dot) then Some (Some tt)
    else
      c ← char_at m (off + DE.de_name + 1);
      if c =? 0 then Some (if negb (ino =? i_ino) then Some tt else None)
      else if negb (c =? byte.unsigned dot) then Some (Some tt)
      else
        c ← char_at m (off + DE.de_name + 2);
        Some (if negb (c =? 0) then Some tt else None).

Fixpoint empty_pages (todo : nat) (inode n : Z) : P bool :=
  match todo with
  | O => mret true
  | S todo =>
      err ← gas_dir_get_page inode n;
      match err with
      | Some _ => empty_pages todo inode (n + 1)
      | None =>
          m ← page_data (inode, n);
          i ← lift (iref inode);
          r ← plift (for_entries ENTRIES (gas_last_byte i n - DE.sizeof) (not_empty_at m (i_ino i)) 0);
          _ ← gas_dir_put_page (inode, n);
          match r with
          | Some tt => mret false
          | None => empty_pages todo inode (n + 1)
          end
      end
  end.

Definition gas_empty_dir (inode : Z) : P bool :=
  i ← lift (iref inode);
  empty_pages (Z.to_nat (gas_dir_pages i)) inode 0.

(** [gas_set_link]; [inode] is not used. *)
Definition gas_set_link (de : (Z * Z) * Z) (inode : Z) : P unit :=
  let '(pg, off) := de in
  let pos := snd pg * PAGE_CACHE_SIZE + off in
  _ ← lock_page pg;
  err ← gas_dir_prepare_chunk pg pos DE.sizeof;
  _ ← (match err with
       | None => gas_dir_commit_chunk pg pos DE.sizeof
       | Some e => _ ← unlock_page pg; mret (Some e)
       end);
  _ ← gas_dir_put_page pg;
  touch_dir (fst pg).

(** [gas_dotdot]: the second entry of the first page, or NULL. *)
Definition gas_dotdot (dir : Z) : P (option ((Z * Z) * Z)) :=
  err ← gas_dir_get_page dir 0;
  match err with
  | None => mret (Some ((dir, 0), DE.sizeof))
  | Some _ => mret None
  end.
End dir.
