(* ===== verification/DirSlots.v ===== *)
(** * The slots of a directory

    A directory seen as a list of slots, each free or holding a name and an inode number:
    the arithmetic of slots and pages, what the bodies of the loops of gas_dir.c compute
    on a slot, the loops over a page, and the finite map a directory stands for. *)

From S2P Require Import Prelude Mem Layout Kernel Itree Vfs Dir.

(** ** Arithmetic *)

(** Sizes a directory reaches: whole pages of fifteen entries and some entries of one more. *)
Definition dir_size (size : Z) : Prop :=
  0 <= size < 2 ^ 31 /\ (size mod PAGE_CACHE_SIZE) mod DE.sizeof = 0.

Definition nslots (size : Z) : Z := 15 * (size / PAGE_CACHE_SIZE) + (size mod PAGE_CACHE_SIZE) / DE.sizeof.

Definition slot_page (j : Z) : Z := j / 15.
Definition slot_off (j : Z) : Z := DE.sizeof * (j mod 15).
Definition slot_pos (j : Z) : Z := slot_page j * PAGE_CACHE_SIZE + slot_off j.

(** Slots in page [n]. *)
Definition page_slots (size n : Z) : Z := Z.min 15 (nslots size - 15 * n).

(** Write a directory size as [4096 * q + 260 * r]. *)
Lemma dir_size_split size : dir_size size ->
  exists q r, size = 4096 * q + 260 * r /\ 0 <= q /\ 0 <= r <= 15 /\ nslots size = 15 * q + r /\
    size / 4096 = q /\ size mod 4096 = 260 * r.
Proof.
  unfold dir_size, nslots, PAGE_CACHE_SIZE, DE.sizeof. intros [Hs Hm].
  exists (size / 4096), ((size mod 4096) / 260). pose proof (Z.mod_pos_bound size 4096 ltac:(lia)).
  pose proof (Z.div_mod (size mod 4096) 260 ltac:(lia)). pose proof (Z.div_mod size 4096 ltac:(lia)).
  assert (0 <= size / 4096) by (apply Z.div_pos; lia).
  assert (0 <= size mod 4096 / 260) by (apply Z.div_pos; lia).
  repeat split; lia.
Qed.

Lemma pages_of i : dir_size (i_size i) ->
  gas_dir_pages i = (i_size i + 4095) / 4096.
Proof.
  intros [Hs _]. unfold gas_dir_pages, PAGE_CACHE_SIZE, PAGE_CACHE_SHIFT. rewrite u64_small by lia.
  rewrite Z.shiftr_div_pow2 by lia. change (2 ^ 12) with 4096. f_equal. lia.
Qed.

(** A page before the end of the directory is full or the last one. *)
Lemma pages_slots i n : dir_size (i_size i) -> 0 <= n ->
  (n < gas_dir_pages i <-> 15 * n < nslots (i_size i)).
Proof.
  intros D Hn. rewrite pages_of by done. destruct (dir_size_split _ D) as (q & r & -> & Hq & Hr & -> & _).
  split; intros; dlia.
Qed.

Lemma last_byte_of i n : dir_size (i_size i) -> 0 <= n < gas_dir_pages i ->
  gas_last_byte i n / DE.sizeof = page_slots (i_size i) n /\
  forall k, 0 <= k -> (gas_last_byte i n - DE.sizeof <? DE.sizeof * k) = negb (k <? page_slots (i_size i) n).
Proof.
  intros D Hn. assert (Hn' := proj1 (pages_slots i n D ltac:(lia)) ltac:(lia)).
  destruct (dir_size_split _ D) as (q & r & Hs & Hq & Hr & Hns & E1 & E2).
  unfold gas_last_byte, page_slots, PAGE_CACHE_SIZE, PAGE_CACHE_SHIFT, DE.sizeof. rewrite Z.shiftr_div_pow2 by lia.
  change (2 ^ 12) with 4096. rewrite E1, Hns in *. change (4096 - 1) with (Z.ones 12). rewrite Z.land_ones by lia.
  change (2 ^ 12) with 4096. rewrite E2. destruct (Z.eqb_spec n q) as [->|].
  - rewrite Z.min_r by lia. split; [dlia|]. intros k Hk. destruct (Z.ltb_spec k (15 * q + r - 15 * q)); cmp; cbn; lia.
  - rewrite Z.min_l by lia. split; [done|]. intros k Hk. destruct (Z.ltb_spec k 15); cmp; cbn; lia.
Qed.

Lemma slot_of_page n k : 0 <= k < 15 -> slot_page (15 * n + k) = n /\ slot_off (15 * n + k) = DE.sizeof * k.
Proof. intros Hk. unfold slot_page, slot_off, DE.sizeof. split; dlia. Qed.

Lemma slot_split j : 0 <= j -> exists n k, j = 15 * n + k /\ 0 <= n /\ 0 <= k < 15 /\ slot_page j = n /\ slot_off j = DE.sizeof * k.
Proof.
  intros Hj. exists (j / 15), (j mod 15). pose proof (Z.mod_pos_bound j 15 ltac:(lia)).
  split; [dlia|]. split; [by apply Z.div_pos; lia|]. done.
Qed.

Lemma slot_off_range j : 0 <= slot_off j /\ slot_off j + DE.sizeof <= PAGE_CACHE_SIZE.
Proof.
  unfold slot_off, DE.sizeof, PAGE_CACHE_SIZE. pose proof (Z.mod_pos_bound j 15 ltac:(lia)). lia.
Qed.

Lemma slot_disjoint j k : slot_page j = slot_page k -> j <> k ->
  slot_off j + DE.sizeof <= slot_off k \/ slot_off k + DE.sizeof <= slot_off j.
Proof. unfold slot_page, slot_off, DE.sizeof. intros. dlia. Qed.

(** The position of the slot after the last, and the size with it. *)
Lemma slot_pos_end size : dir_size size -> slot_pos (nslots size) + DE.sizeof < 2 ^ 31 ->
  let size' := slot_pos (nslots size) + DE.sizeof in
  dir_size size' /\ size < size' /\ nslots size' = nslots size + 1 /\
  (slot_page (nslots size) = size / 4096 /\ slot_off (nslots size) = size mod 4096 \/
   slot_page (nslots size) = (size + 4095) / 4096 /\ slot_off (nslots size) = 0 /\ size mod 4096 <> 0).
Proof.
  intros D. destruct (dir_size_split _ D) as (q & r & -> & Hq & Hr & -> & _).
  unfold dir_size, nslots, slot_pos, slot_page, slot_off, PAGE_CACHE_SIZE, DE.sizeof. intros Hlt. dlia.
Qed.

Lemma slot_pos_before size j : dir_size size -> 0 <= j < nslots size -> slot_pos j + DE.sizeof <= size.
Proof.
  intros D. destruct (dir_size_split _ D) as (q & r & -> & Hq & Hr & -> & _).
  unfold slot_pos, slot_page, slot_off, PAGE_CACHE_SIZE, DE.sizeof. intros. dlia.
Qed.

(** ** Names *)

Definition valid_name (name : bytes) : Prop :=
  (0 < length name <= 255)%nat /\ Forall (fun b => byte.unsigned b <> 0) name.

Lemma cstring_take n m : cstring n m = cstring n (take n m).
Proof.
  revert m. induction n as [|n IH]; intros m; [by destruct m|]. destruct m as [|b m]; [done|]. cbn.
  destruct (_ =? 0); [done|]. by rewrite <- IH.
Qed.

Lemma cstring_length n m : (length (cstring n m) <= n)%nat /\ (length (cstring n m) <= length m)%nat.
Proof.
  revert m. induction n as [|n IH]; intros m; [destruct m; cbn; lia|]. destruct m as [|b m]; [cbn; lia|]. cbn.
  destruct (_ =? 0); cbn; [lia|]. destruct (IH m). lia.
Qed.

Lemma cstring_nonzero n m : Forall (fun b => byte.unsigned b <> 0) (cstring n m).
Proof.
  revert m. induction n as [|n IH]; intros m; [by destruct m|]. destruct m as [|b m]; [done|]. cbn.
  destruct (Z.eqb_spec (byte.unsigned b) 0); [done|]. by constructor.
Qed.

(** A string that ends before the limit does not depend on it. *)
Lemma cstring_limit k n m : (length (cstring n m) < n)%nat -> (length (cstring n m) <= k <= n)%nat ->
  cstring k m = cstring n m.
Proof.
  revert n m. induction k as [|k IH]; intros n m Hl Hk.
  - destruct (cstring n m); [by destruct m|cbn in Hk; lia].
  - destruct n as [|n]; [lia|]. destruct m as [|b m]; [done|]. cbn in *. destruct (_ =? 0); [done|].
    cbn in *. f_equal. apply IH; lia.
Qed.

Lemma cstring_name n name rest : (length name < n)%nat -> Forall (fun b => byte.unsigned b <> 0) name ->
  cstring n (name ++ Byte.x00 :: rest) = name.
Proof.
  revert name. induction n as [|n IH]; intros name Hl HF; [lia|]. destruct name as [|b name]; [done|]. cbn in *.
  inversion_clear HF. rewrite (proj2 (Z.eqb_neq _ _)) by done. f_equal. apply IH; [lia|done].
Qed.

(** The name field written for a valid name reads back. *)
Lemma cstring_field name : valid_name name -> cstring 256 (name_field name) = name.
Proof.
  intros [Hl HF]. unfold name_field, strncpy_bytes. change (Z.to_nat (GAS_MAX_NAME_LEN - 1)) with 255%nat.
  rewrite firstn_all2 by lia. destruct (255 - length name)%nat as [|n] eqn:E.
  - rewrite app_nil_r. cbn [app]. apply cstring_name; [lia|done].
  - cbn [replicate app]. rewrite <- app_assoc. cbn [app]. apply cstring_name; [lia|done].
Qed.

(** ** Slots *)

Definition slot_entry (m : bytes) (off : Z) : option (bytes * Z) :=
  ino ← f_get m off DE.de_inode;
  if ino =? 0 then None else Some (cstring 256 (sub_bytes 256 m off), ino).

(** The name field ends in a NUL. *)
Definition nul_at (m : bytes) (off : Z) : Prop := load 1 m (off + 255) = Some 0.

Section slots.
Context `{KernelApi, PageApi}.

Definition slot (s : vfs) (dir j : Z) : option (bytes * Z) := slot_entry (shown s (dir, slot_page j)) (slot_off j).

Definition dir_slots (s : vfs) (dir size : Z) : list (option (bytes * Z)) := slot s dir <$> seqZ 0 (nslots size).

(** Names in use. *)
Definition names (L : list (option (bytes * Z))) : list bytes := fst <$> omap id L.

(** [L] is the list of the slots of directory [dir]; the page after the last starts with a
    free slot. *)
Record dir_ok (s : vfs) (dir : Z) (L : list (option (bytes * Z))) : Prop := {
  do_slots : exists i, k_inodes (v_k s) !! dir = Some i /\ dir_size (i_size i) /\ L = dir_slots s dir (i_size i) /\
    forall n, gas_dir_pages i <= n -> f_get (shown s (dir, n)) 0 DE.de_inode = Some 0;
  do_pages : forall n, blen (shown s (dir, n)) = PAGE_CACHE_SIZE;
  do_names : forall name, name ∈ names L -> valid_name name;
  do_nul : forall j, 0 <= j < Z.of_nat (length L) -> nul_at (shown s (dir, slot_page j)) (slot_off j);
  do_unlocked : forall n, (dir, n) ∉ v_lock s }.

Lemma slot_reads s dir L j : dir_ok s dir L ->
  exists ino, f_get (shown s (dir, slot_page j)) (slot_off j) DE.de_inode = Some ino /\ 0 <= ino < 2 ^ 32 /\
    slot s dir j = (if ino =? 0 then None
      else Some (cstring 256 (sub_bytes 256 (shown s (dir, slot_page j)) (slot_off j)), ino)).
Proof.
  intros D. pose proof (slot_off_range j) as [H1 H2]. unfold DE.sizeof in *.
  destruct (f_get_fits (shown s (dir, slot_page j)) (slot_off j) DE.de_inode) as [ino E].
  { rewrite <- (do_pages _ _ _ D (slot_page j)) in H2. split; cbn; lia. }
  exists ino. split; [done|]. split; [exact (load_range _ _ _ _ E)|]. unfold slot, slot_entry. by rewrite E.
Qed.

Lemma slots_lookup s dir size j : 0 <= j < nslots size -> dir_slots s dir size !! Z.to_nat j = Some (slot s dir j).
Proof. intros Hj. unfold dir_slots. rewrite list_lookup_fmap, lookup_seqZ_lt by lia. cbn. do 2 f_equal. lia. Qed.

Lemma slots_length s dir size : dir_size size -> Z.of_nat (length (dir_slots s dir size)) = nslots size.
Proof.
  intros D. unfold dir_slots. rewrite length_fmap, length_seqZ. destruct (dir_size_split _ D) as (q & r & _ & ? & ? & -> & _). lia.
Qed.

Lemma names_slot (L : list (option (bytes * Z))) k name ino : L !! k = Some (Some (name, ino)) -> name ∈ names L.
Proof.
  intros Hk. unfold names. apply list_elem_of_fmap. exists (name, ino). split; [done|].
  apply list_elem_of_omap. exists (Some (name, ino)). split; [|done]. by eapply list_elem_of_lookup_2.
Qed.

Lemma slot_name s dir L i j name ino : dir_ok s dir L -> k_inodes (v_k s) !! dir = Some i ->
  0 <= j < nslots (i_size i) -> slot s dir j = Some (name, ino) -> valid_name name.
Proof.
  intros D Hi Hj Hs. destruct (do_slots _ _ _ D) as (i' & Hi' & _ & HL & _). simplify_eq.
  eapply (do_names _ _ _ D), names_slot. rewrite slots_lookup by done. by rewrite Hs.
Qed.

(** [strncmp] with a limit of 255 or 256 compares the names. *)
Lemma strncmp_slot s dir L i j n name nm ino : dir_ok s dir L -> k_inodes (v_k s) !! dir = Some i ->
  0 <= j < nslots (i_size i) -> slot s dir j = Some (nm, ino) -> valid_name name -> n = 255%nat \/ n = 256%nat ->
  strncmp_eq n (shown s (dir, slot_page j)) (slot_off j) name = Some (bool_decide (nm = name)).
Proof.
  intros D Hi Hj Hs [Hl HF] Hn. pose proof (slot_name _ _ _ _ _ _ _ D Hi Hj Hs) as [Hnl _].
  pose proof (slot_off_range j) as [H1 H2]. unfold DE.sizeof in *.
  destruct (slot_reads s dir L j D) as (ino' & _ & _ & E). rewrite Hs in E. destruct (_ =? 0); [done|].
  assert (Enm : nm = cstring 256 (sub_bytes 256 (shown s (dir, slot_page j)) (slot_off j))) by congruence.
  unfold strncmp_eq.
  rewrite (proj2 (in_range_spec _ _ _)) by (rewrite (do_pages _ _ _ D); unfold PAGE_CACHE_SIZE in *; lia).
  rewrite (firstn_all2 name) by lia. do 2 f_equal. f_equal.
  assert (Hlen : (length nm < 256)%nat) by lia. rewrite Enm in Hlen.
  unfold sub_bytes in *. destruct Hn as [->| ->].
  - rewrite <- cstring_take. rewrite <- cstring_take in Enm, Hlen. rewrite (cstring_limit 255 256); [by rewrite Enm|done|lia].
  - by rewrite Enm.
Qed.
End slots.

(** ** Loops over the entries of a page *)

Lemma is_first_shift p lo hi r c :
  is_first (fun k => p (c + k)) lo hi r -> is_first p (c + lo) (c + hi) (c + r).
Proof.
  intros (Hr & L & T). split; [lia|]. split.
  - intros j Hj. replace j with (c + (j - c)) by lia. apply L. lia.
  - intros Hlt. apply T. lia.
Qed.

(** [body] computes [g] on the slots before [K], which is where [limit] stops the loop. *)
Lemma for_entries_run {A} fuel limit (body : Z -> option (option A)) g k K :
  (forall x, k <= x < K -> body (DE.sizeof * x) = Some (g x)) ->
  (forall x, 0 <= x -> (limit <? DE.sizeof * x) = negb (x <? K)) ->
  K - k < Z.of_nat fuel -> 0 <= k <= K ->
  exists r, is_first (fun x => bool_decide (is_Some (g x))) k K r /\
    for_entries fuel limit body (DE.sizeof * k) = Some (if r <? K then g r else None).
Proof.
  revert k. induction fuel as [|fuel IH]; intros k Hg Hlim Hf Hk; [lia|]. cbn [for_entries]. rewrite Hlim by lia.
  destruct (Z.ltb_spec k K); cbn [negb].
  2: { exists k. split; [split; [lia|split; intros; lia]|]. by rewrite (proj2 (Z.ltb_ge k K)). }
  rewrite Hg by lia. cbn [mbind option_bind]. destruct (g k) as [a|] eqn:E.
  - exists k. rewrite (proj2 (Z.ltb_lt k K)), E by lia. split; [|done].
    split; [lia|]. split; [intros; lia|]. intros _. rewrite E. by apply bool_decide_eq_true_2.
  - replace (DE.sizeof * k + DE.sizeof) with (DE.sizeof * (k + 1)) by lia.
    destruct (IH (k + 1)) as (r & Hr & ->); [intros; apply Hg; lia|done|lia|lia|].
    exists r. split; [|done]. eapply (is_first_skip _ k (k + 1)); [lia| |done].
    intros x Hx. replace x with k by lia. rewrite E. by apply bool_decide_eq_false_2; intros [].
Qed.

(** ** The finite map of a directory *)

Definition dir_map (L : list (option (bytes * Z))) : gmap bytes Z := list_to_map (omap id L).

Lemma omap_slots_app {A} (L1 L2 : list (option A)) : omap id (L1 ++ L2) = omap id L1 ++ omap id L2.
Proof. apply omap_app. Qed.

Lemma names_app L1 L2 : names (L1 ++ L2) = names L1 ++ names L2.
Proof. unfold names. by rewrite omap_slots_app, fmap_app. Qed.

Lemma dir_map_in L name ino : NoDup (names L) ->
  dir_map L !! name = Some ino <-> Some (name, ino) ∈ L.
Proof.
  intros ND. unfold dir_map. rewrite <- elem_of_list_to_map by done. rewrite list_elem_of_omap. split.
  - intros (x & Hx & Hi). cbn in Hi. by subst x.
  - intros Hx. by exists (Some (name, ino)).
Qed.

Lemma dir_map_none L name : name ∉ names L -> dir_map L !! name = None.
Proof. apply not_elem_of_list_to_map_1. Qed.

Lemma dir_map_absent L name : NoDup (names L) -> dir_map L !! name = None -> name ∉ names L.
Proof.
  intros ND Hm Hin. unfold names in Hin. apply list_elem_of_fmap in Hin as ((nm & ino) & -> & Hin).
  apply list_elem_of_omap in Hin as (x & Hin & Ex). cbn in Ex, Hm. subst x. apply (dir_map_in L nm ino ND) in Hin. congruence.
Qed.

(** Splitting the list of slots at a slot. *)
Lemma slots_split (L : list (option (bytes * Z))) k x y : L !! k = Some x ->
  L = take k L ++ x :: drop (S k) L /\ <[k := y]> L = take k L ++ y :: drop (S k) L.
Proof.
  intros Hk. split; [symmetry; by apply take_drop_middle|]. apply insert_take_drop. by eapply lookup_lt_Some.
Qed.

Lemma dir_map_link_free L k name ino : L !! k = Some None ->
  dir_map (<[k := Some (name, ino)]> L) = <[name := ino]> (dir_map L) \/ name ∈ names L.
Proof.
  intros Hk. destruct (decide (name ∈ names L)) as [|Hn]; [by right|left].
  destruct (slots_split L k None (Some (name, ino)) Hk) as [E1 E2]. rewrite E1 in Hn |- * at 2. rewrite E2.
  rewrite names_app in Hn. unfold dir_map. rewrite !omap_slots_app. cbn. rewrite !list_to_map_app. cbn.
  symmetry. apply (insert_union_r (M := gmap bytes)). apply not_elem_of_list_to_map_1. intros Hin. apply Hn, elem_of_app. by left.
Qed.

Lemma dir_map_link_end L name ino : name ∉ names L -> dir_map (L ++ [Some (name, ino)]) = <[name := ino]> (dir_map L).
Proof.
  intros Hn. unfold dir_map. rewrite omap_slots_app. cbn. rewrite list_to_map_app. cbn.
  transitivity (<[name := ino]> (list_to_map (omap id L) ∪ (∅ : gmap bytes Z))); [|by rewrite (right_id_L ∅ (∪))].
  symmetry. apply (insert_union_r (M := gmap bytes)). by apply not_elem_of_list_to_map_1.
Qed.

Lemma names_link L k name ino : L !! k = Some None ->
  Permutation (names (<[k := Some (name, ino)]> L)) (name :: names L).
Proof.
  intros Hk. destruct (slots_split L k None (Some (name, ino)) Hk) as [E1 E2]. rewrite E1 at 2. rewrite E2.
  rewrite !names_app. unfold names at 2 4. cbn. by rewrite Permutation_middle.
Qed.

Lemma dir_map_unlink L k name ino : NoDup (names L) -> L !! k = Some (Some (name, ino)) ->
  dir_map (<[k := None]> L) = delete name (dir_map L) /\ NoDup (names (<[k := None]> L)).
Proof.
  intros ND Hk. destruct (slots_split L k _ None Hk) as [E1 E2]. rewrite E1 in ND |- * at 2. rewrite E2.
  rewrite names_app in ND |- *. unfold names in ND at 2 |- * at 2. cbn in ND |- *. apply list.NoDup_app in ND as (N1 & N2 & N3).
  inversion_clear N3 as [|? ? Hn N4]. split.
  - unfold dir_map. rewrite !omap_slots_app. cbn. rewrite !list_to_map_app. cbn.
    rewrite delete_union. rewrite delete_insert_eq.
    rewrite !delete_id; [done| |]; apply not_elem_of_list_to_map_1; [done|].
    intros Hin. apply (N2 name Hin). by left.
  - apply list.NoDup_app. split; [done|]. split; [|done]. intros x Hx Hx'. apply (N2 x Hx). by right.
Qed.

(** ** Changing a slot *)

Lemma only_in_sub lo hi m m' n off : only_in lo hi m m' -> 0 <= off -> off + Z.of_nat n <= blen m ->
  off + Z.of_nat n <= lo \/ hi <= off -> sub_bytes n m' off = sub_bytes n m off.
Proof.
  intros [Hl Ho] H0 H1 Hd. specialize (Ho n off Hd).
  assert (R : in_range m off (Z.of_nat n) = true) by (apply in_range_spec; lia).
  assert (R' : in_range m' off (Z.of_nat n) = true) by (apply in_range_spec; lia).
  rewrite !load_in_range in Ho by done. injection Ho as Ho.
  apply le_combine_inj; [|done]. by rewrite !sub_bytes_length.
Qed.

Lemma slot_entry_only lo hi m m' off : only_in lo hi m m' -> 0 <= off -> off + DE.sizeof <= blen m ->
  off + DE.sizeof <= lo \/ hi <= off -> slot_entry m' off = slot_entry m off.
Proof.
  unfold DE.sizeof. intros O H0 H1 Hd. unfold slot_entry.
  rewrite (only_in_get _ _ _ _ _ _ O) by (cbn; lia). destruct (f_get m off DE.de_inode); [|done]. cbn [mbind option_bind].
  by rewrite (only_in_sub _ _ _ _ 256 off O) by lia.
Qed.

Lemma only_in_dirent m off name ino m' : dirent_write m off name ino = Some m' -> only_in off (off + DE.sizeof) m m'.
Proof.
  intros E. split; [by eapply dirent_write_blen|]. intros n o Ho. eapply dirent_write_load; [done|]. unfold DE.sizeof in *. lia.
Qed.

Lemma slot_entry_written m off name ino m' : dirent_write m off name ino = Some m' -> valid_name name -> 0 < ino < 2 ^ 32 ->
  slot_entry m' off = Some (name, ino).
Proof.
  intros E V Hi. destruct (dirent_write_at _ _ _ _ _ E) as [E1 E2]. unfold slot_entry. rewrite E2, u32_small by lia. cbn [mbind option_bind].
  rewrite (proj2 (Z.eqb_neq ino 0)) by lia. by rewrite E1, cstring_field.
Qed.

Lemma nul_written m off name ino m' : dirent_write m off name ino = Some m' -> nul_at m' off.
Proof.
  intros (b1 & b2 & H1 & H2 & H3 & _)%dirent_write_inv. unfold nul_at. unfold f_set in H3.
  rewrite (load_store_other _ _ _ _ _ _ _ H3) by (cbn; lia). exact (load_store_same _ _ _ _ _ H2).
Qed.

Lemma nul_cleared m off m' : f_set m off DE.de_inode 0 = Some m' -> nul_at m off -> nul_at m' off.
Proof. intros E. unfold nul_at. by rewrite (load_store_other _ _ _ _ _ _ _ E) by (cbn; lia). Qed.

Lemma nul_only lo hi m m' off : only_in lo hi m m' -> off + DE.sizeof <= lo \/ hi <= off -> nul_at m off -> nul_at m' off.
Proof. intros [_ O] Hd. unfold nul_at, DE.sizeof in *. by rewrite O by lia. Qed.

Lemma slot_entry_cleared m off m' : f_set m off DE.de_inode 0 = Some m' -> slot_entry m' off = None.
Proof. intros E. unfold slot_entry. rewrite (f_get_set_same _ _ _ _ _ E). done. Qed.

Lemma only_in_clear m off m' : f_set m off DE.de_inode 0 = Some m' -> only_in off (off + DE.sizeof) m m'.
Proof. intros E. eapply only_in_weaken; [by eapply only_in_f_set|cbn; lia|unfold DE.sizeof; cbn; lia]. Qed.
