(* ===== verification/DirEdit.v ===== *)
(** * Changing one page of a directory

    The interface through which directories use the block tree, and the steps by which
    every operation of gas_dir.c changes a page: [gas_dir_prepare_chunk], a write to the
    page, [gas_dir_commit_chunk], the time stamps and the release of the page. *)

From S2P Require Import Prelude Mem Layout Kernel Itree Vfs Dir DirSlots.

(** ** Mapping blocks *)

(** An inode up to its block addresses and its ctime. *)
Definition inode_like (i i' : inode) : Prop := exists t l, i' = set_ctime t (set_blkaddr i l).

(** What mapping blocks of [ino] may change of the references and of the inodes. *)
Record map_frame (ino : Z) (st st' : kst) : Prop := {
  mf_ref : k_ref st' = k_ref st;
  mf_other : forall n, n <> ino -> k_inodes st' !! n = k_inodes st !! n;
  mf_self : forall i, k_inodes st !! ino = Some i -> exists i', k_inodes st' !! ino = Some i' /\ inode_like i i' }.

(** Preparing a write of [len] bytes at [pos] of a page answers [err] in state [k]. *)
Definition prepares `{KernelApi, PageApi} (get_block : Z -> Z -> bool -> K (option errno * option (Z * bool)))
    (k : kst) (pg : Z * Z) (pos len : Z) (err : option errno) : Prop :=
  exists k', block_write_begin get_block pg pos len k = Some (err, k').

Lemma prepares_fun `{KernelApi, PageApi} get_block k pg pos len e e' :
  prepares get_block k pg pos len e -> prepares get_block k pg pos len e' -> e = e'.
Proof. intros [k1 E1] [k2 E2]. congruence. Qed.

(** [get_block] maps blocks of the files in order, and keeps all files in memory in order:
    [bm_ok ino st] says that [ino] is one of them. *)
Class BlockMapper (get_block : Z -> Z -> bool -> K (option errno * option (Z * bool))) := {
  bm_ok : Z -> kst -> Prop;
  bm_create : forall ino block st, bm_ok ino st -> 0 <= block ->
    kwp (get_block ino block true) st (fun _ st' => bm_ok ino st' /\ map_frame ino st st');
  bm_all : forall ino n st, bm_ok ino st -> is_Some (k_inodes st !! n) -> bm_ok n st;
  bm_ino : forall ino st i, bm_ok ino st -> k_inodes st !! ino = Some i -> i_ino i = ino /\ 0 < ino < 2 ^ 32;
  bm_stable : forall ino st i i' d, bm_ok ino st -> k_inodes st !! ino = Some i -> blkaddr i' = blkaddr i ->
    i_ino i' = i_ino i -> bm_ok ino (with_idirty d (with_inodes (<[ino := i']> (k_inodes st)) st)) }.

Lemma map_frame_refl ino st : map_frame ino st st.
Proof. split; [done|done|]. intros i Hi. exists i. split; [done|]. exists (i_ctime i), (blkaddr i). by destruct i. Qed.

Lemma map_frame_trans ino s1 s2 s3 : map_frame ino s1 s2 -> map_frame ino s2 s3 -> map_frame ino s1 s3.
Proof.
  intros [A1 A2 A3] [B1 B2 B3]. split; [congruence| |].
  - intros n Hn. by rewrite B2, A2.
  - intros i Hi. destruct (A3 i Hi) as (i1 & Hi1 & t1 & l1 & ->). destruct (B3 _ Hi1) as (i2 & Hi2 & t2 & l2 & ->).
    eexists. split; [done|]. by exists t2, l2.
Qed.

Section edit.
Context `{KernelApi, PL : PageLaws} {get_block : Z -> Z -> bool -> K (option errno * option (Z * bool))}
  `{BM : !BlockMapper get_block}.

(** ** Pages *)

Lemma shown_put s pg m pg' :
  shown (with_pages (<[pg := m]> (v_pages s)) s) pg' = if decide (pg = pg') then m else shown s pg'.
Proof. unfold shown. cbn. case_decide; [subst; by rewrite lookup_insert_eq|by rewrite lookup_insert_ne]. Qed.

Lemma shown_ext s s' pg : v_pages s' = v_pages s -> shown s' pg = shown s pg.
Proof. unfold shown. by intros ->. Qed.

(** ** The state between two steps *)

(** [s'] is [s] with contents [m] of page [n] of [dir], a size of [dir], and references
    and locks of pages. *)
Record editing (s : vfs) (dir n : Z) (m : bytes) (size : Z) (R : gmultiset (Z * Z)) (L : gset (Z * Z)) (s' : vfs) : Prop := {
  ed_ok : bm_ok dir (v_k s');
  ed_ref : k_ref (v_k s') = k_ref (v_k s);
  ed_inodes : forall x, x <> dir -> k_inodes (v_k s') !! x = k_inodes (v_k s) !! x;
  ed_dir : exists i i', k_inodes (v_k s) !! dir = Some i /\ k_inodes (v_k s') !! dir = Some i' /\ i_size i' = size /\
    i_ino i' = i_ino i /\ i_mode i' = i_mode i /\ i_nlink i' = i_nlink i;
  ed_shown : shown s' (dir, n) = m;
  ed_other : forall pg, pg <> (dir, n) -> shown s' pg = shown s pg;
  ed_pref : v_pref s' = R;
  ed_lock : v_lock s' = L;
  ed_count : v_count s' = v_count s;
  ed_dentries : v_dentries s' = v_dentries s;
  ed_pdirty : v_pdirty s ∖ {[(dir, n)]} ⊆ v_pdirty s' }.

(** The page will reach the device or has. *)
Definition saved (s : vfs) (dir n : Z) : Prop :=
  (dir, n) ∈ v_pdirty s \/ IS_DIRSYNC dir = true /\ write_page_err (dir, n) = None.

(** The directory carries the time of a change and will be written. *)
Definition stamped (s : vfs) (dir : Z) : Prop :=
  exists i st, k_inodes (v_k s) !! dir = Some i /\ i_mtime i = current_time st /\ i_ctime i = i_mtime i /\
    dir ∈ k_idirty (v_k s).

Lemma editing_start s dir n i R L :
  bm_ok dir (v_k s) -> k_inodes (v_k s) !! dir = Some i ->
  editing s dir n (shown s (dir, n)) (i_size i) R L (with_lock L (with_pref R s)).
Proof. intros Hok Hi. split; try done; [by exists i, i|cbn; clear; set_solver]. Qed.

Section steps.
Context (s : vfs) (dir n : Z) (m : bytes) (size : Z) (R : gmultiset (Z * Z)) (L : gset (Z * Z)) (s1 : vfs).
Hypothesis E : editing s dir n m size R L s1.

Lemma editing_prepare pos len : 0 <= pos ->
  pwp (gas_dir_prepare_chunk get_block (dir, n) pos len) s1 (fun err s2 => editing s dir n m size R L s2 /\
    prepares get_block (v_k s1) (dir, n) pos len err).
Proof using PL E.
  intros Hpos. apply pwp_lift. set (k := v_k s1).
  destruct (block_write_begin_law get_block (dir, n) pos len k
    (fun a b => bm_ok dir a -> bm_ok dir b /\ map_frame dir a b)) as (err & k' & Er & HR); [|done| |].
  - split.
    + intros a Ha. split; [done|apply map_frame_refl].
    + intros a b c Hab Hbc Ha. destruct (Hab Ha) as [Hb Fab]. destruct (Hbc Hb) as [Hc Fbc].
      split; [done|]. by eapply map_frame_trans.
  - intros block st HR Hb. destruct (HR (ed_ok _ _ _ _ _ _ _ _ E)) as [Hst _].
    eapply kwp_mono; [by apply bm_create|]. intros r st' [? ?] _. done.
  - exists err, k'. split; [exact Er|]. destruct (HR (ed_ok _ _ _ _ _ _ _ _ E)) as [Hok F]. split; [|by exists k'].
    destruct E as [E1 E2 E3 (i & i1 & Hi & Hi1 & Hs & Ei) E5 E6 E7 E8 E9 E10 E11].
    split; cbn; try done.
    + rewrite (mf_ref _ _ _ F). exact E2.
    + intros x Hx. rewrite (mf_other _ _ _ F) by done. by apply E3.
    + destruct (mf_self _ _ _ F i1 Hi1) as (i2 & Hi2 & t & l & ->). exists i. eexists. split; [done|]. split; [exact Hi2|]. done.
Qed.

Lemma editing_write m' : pwp (page_put (dir, n) m') s1 (fun _ s2 => editing s dir n m' size R L s2 /\ v_k s2 = v_k s1).
Proof using E.
  apply pwp_mod. split; [|done]. destruct E as [E1 E2 E3 E4 E5 E6 E7 E8 E9 E10 E11]. split; try done.
  - by rewrite shown_put, decide_True.
  - intros pg Hpg. rewrite shown_put, decide_False by congruence. by apply E6.
Qed.

(** A change of the inode of the directory that keeps its block addresses. *)
Lemma editing_inode i i' : k_inodes (v_k s1) !! dir = Some i -> blkaddr i' = blkaddr i ->
  i_ino i' = i_ino i -> i_mode i' = i_mode i -> i_nlink i' = i_nlink i ->
  pwp (_ ← lift (iput_data dir i'); lift (mark_inode_dirty dir)) s1 (fun _ s2 =>
    editing s dir n m (i_size i') R L s2 /\ v_pdirty s2 = v_pdirty s1 /\ dir ∈ k_idirty (v_k s2) /\
    k_inodes (v_k s2) !! dir = Some i').
Proof using E.
  intros Hi Hb H1 H2 H3. apply pwp_bind, pwp_lift, kwp_mod, pwp_lift, kwp_mod.
  destruct E as [E1 E2 E3 (i0 & i1 & Hi0 & Hi1 & Hs & Ei & Em & En) E5 E6 E7 E8 E9 E10 E11]. simplify_eq. split.
  - split; cbn; try done.
    + by eapply bm_stable.
    + intros x Hx. rewrite lookup_insert_ne by done. by apply E3.
    + exists i0, i'. rewrite lookup_insert_eq. repeat split; congruence.
  - split; [done|]. split; [cbn; clear; set_solver|]. cbn. by rewrite lookup_insert_eq.
Qed.

Lemma editing_touch : pwp (touch_dir dir) s1 (fun _ s2 =>
  editing s dir n m size R L s2 /\ stamped s2 dir /\ v_pdirty s2 = v_pdirty s1).
Proof using E.
  destruct (ed_dir _ _ _ _ _ _ _ _ E) as (i0 & i & _ & Hi & Hs & _). unfold touch_dir.
  apply pwp_bind, pwp_lift, kwp_get. rewrite with_k_same. apply pwp_bind. eapply pwp_iref; [done|].
  eapply pwp_mono; [apply (editing_inode i); done|]. cbn. intros _ s2 (E2 & Hd & Hid & Hi2). rewrite Hs in E2.
  split; [done|]. split; [|done]. eexists _, _. split; [exact Hi2|]. done.
Qed.

Lemma editing_unlock : (dir, n) ∈ L ->
  pwp (unlock_page (dir, n)) s1 (fun _ s2 => editing s dir n m size R (L ∖ {[(dir, n)]}) s2 /\ s2 = with_lock (L ∖ {[(dir, n)]}) s1).
Proof using E.
  intros HL. apply pwp_unlock; [by rewrite (ed_lock _ _ _ _ _ _ _ _ E)|]. rewrite (ed_lock _ _ _ _ _ _ _ _ E).
  split; [|done]. by destruct E; split.
Qed.

Lemma editing_put : (dir, n) ∈ R ->
  pwp (put_page (dir, n)) s1 (fun _ s2 => editing s dir n m size (R ∖ {[+ (dir, n) +]}) L s2 /\ s2 = with_pref (R ∖ {[+ (dir, n) +]}) s1).
Proof using E.
  intros HR. apply pwp_put; [by rewrite (ed_pref _ _ _ _ _ _ _ _ E)|]. rewrite (ed_pref _ _ _ _ _ _ _ _ E).
  split; [|done]. by destruct E; split.
Qed.

Lemma editing_pdirty d : v_pdirty s ∖ {[(dir, n)]} ⊆ d -> editing s dir n m size R L (with_pdirty d s1).
Proof using E. intros Hd. by destruct E; split. Qed.
End steps.

(** [gas_dir_commit_chunk] unlocks the page and extends the directory; its error is the one
    of a synchronous write. *)
Lemma editing_commit s dir n m size R L s1 pos len :
  editing s dir n m size R L s1 -> (dir, n) ∈ L ->
  pwp (gas_dir_commit_chunk (dir, n) pos len) s1 (fun err s2 =>
    editing s dir n m (Z.max size (pos + len)) R (L ∖ {[(dir, n)]}) s2 /\
    err = (if IS_DIRSYNC dir then write_page_err (dir, n) else None) /\ saved s2 dir n).
Proof using PL.
  intros E HL. unfold gas_dir_commit_chunk. cbn [fst]. apply pwp_bind, pwp_mod.
  apply (editing_pdirty s dir n m size R L s1) with (d := {[(dir, n)]} ∪ v_pdirty s1) in E as E0.
  2: { pose proof (ed_pdirty _ _ _ _ _ _ _ _ E). clear -H1. set_solver. }
  set (s0 := with_pdirty _ s1) in *. assert (Hd0 : (dir, n) ∈ v_pdirty s0) by (cbn; clear; set_solver). clearbody s0.
  destruct (ed_dir _ _ _ _ _ _ _ _ E0) as (i0 & i & _ & Hi & Hs & _).
  apply pwp_bind. eapply pwp_iref; [done|]. apply pwp_bind. rewrite Hs.
  apply (pwp_mono _ _ (fun _ s2 => editing s dir n m (Z.max size (pos + len)) R L s2 /\ v_pdirty s2 = v_pdirty s0)).
  { destruct (Z.ltb_spec size (pos + len)).
    - eapply pwp_mono; [by apply (editing_inode s dir n m size R L s0 E0 i)|]. cbn. intros _ s2 (E2 & Hd & _).
      by rewrite Z.max_r by lia.
    - apply pwp_ret. by rewrite Z.max_l by lia. }
  intros _ s2 [E2 Hd]. rewrite <- Hd in Hd0. destruct (IS_DIRSYNC dir) eqn:Es.
  - unfold write_one_page. apply pwp_bind.
    eapply pwp_mono; [by apply (editing_unlock s dir n m _ R L s2 E2)|]. intros _ s3 [E3 ->].
    destruct (write_page_err (dir, n)) eqn:Ew.
    + apply pwp_ret. split; [done|]. split; [done|]. by left.
    + apply pwp_bind, pwp_mod, pwp_ret. split; [|split; [done|by right]].
      eapply editing_pdirty; [exact E3|]. cbn. pose proof (ed_pdirty _ _ _ _ _ _ _ _ E2) as HH. clear -HH. set_solver.
  - apply pwp_bind. eapply pwp_mono; [by apply (editing_unlock s dir n m _ R L s2 E2)|]. intros _ s3 [E3 ->].
    apply pwp_ret. split; [done|]. split; [done|]. by left.
Qed.
End edit.
