(* ===== verification/DirOps.v ===== *)
(** * Finding, adding and removing entries

    What [gas_find_entry], [gas_add_link], [gas_delete_entry] and [gas_set_link] do to the
    slots of a directory, and the refinement of a directory to a finite map. *)

From S2P Require Import Prelude Mem Layout Kernel Itree Vfs Dir DirSlots DirEdit.

Section ops.
Context `{KernelApi, PL : PageLaws} {get_block : Z -> Z -> bool -> K (option errno * option (Z * bool))}
  `{BM : !BlockMapper get_block}.

(** ** The slots after a change of one page *)

Lemma slot_editing s dir n m size R L s' j : editing s dir n m size R L s' ->
  slot s' dir j = if decide (slot_page j = n) then slot_entry m (slot_off j) else slot s dir j.
Proof.
  intros E. unfold slot. case_decide as Hn.
  - by rewrite Hn, (ed_shown _ _ _ _ _ _ _ _ E).
  - by rewrite (ed_other _ _ _ _ _ _ _ _ E) by congruence.
Qed.

(** A change of page [slot_page j] that only touches slot [j]. *)
Lemma slots_editing s dir Ls i j m size R L s' :
  dir_ok s dir Ls -> k_inodes (v_k s) !! dir = Some i -> 0 <= j <= nslots (i_size i) ->
  editing s dir (slot_page j) m size R L s' ->
  only_in (slot_off j) (slot_off j + DE.sizeof) (shown s (dir, slot_page j)) m ->
  size = (if j <? nslots (i_size i) then i_size i else slot_pos j + DE.sizeof) -> size < 2 ^ 31 ->
  let v := slot_entry m (slot_off j) in
  dir_size size /\ dir_slots s' dir size = (if j <? nslots (i_size i) then <[Z.to_nat j := v]> Ls else Ls ++ [v]) /\
  forall k, k <> j -> 0 <= k -> slot s' dir k = slot s dir k.
Proof.
  intros D Hi Hj E O Hsz Hlt v. destruct (do_slots _ _ _ D) as (i' & Hi' & Ds & HL & _). simplify_eq.
  assert (Hv : forall k, k <> j -> 0 <= k -> slot s' dir k = slot s dir k).
  { intros k Hk Hk0. rewrite (slot_editing _ _ _ _ _ _ _ _ _ E). case_decide as Hp; [|done]. unfold slot. rewrite Hp.
    pose proof (slot_off_range k). pose proof (slot_off_range j). eapply slot_entry_only; [done|lia| |].
    - rewrite (do_pages _ _ _ D). unfold PAGE_CACHE_SIZE in *. lia.
    - by apply slot_disjoint. }
  assert (Hvj : slot s' dir j = v) by (by rewrite (slot_editing _ _ _ _ _ _ _ _ _ E), decide_True).
  destruct (dir_size_split _ Ds) as (q & r & _ & ? & ? & Hn & _). destruct (Z.ltb_spec j (nslots (i_size i))) as [Hlt'|Hge].
  - split; [done|]. split; [|done]. apply list_eq. intros k.
    destruct (decide (k < Z.to_nat (nslots (i_size i)))%nat) as [Hk|Hk].
    + replace k with (Z.to_nat (Z.of_nat k)) by lia. rewrite slots_lookup by lia.
      destruct (decide (Z.of_nat k = j)) as [<-|Hne].
      * rewrite list_lookup_insert_eq; [by rewrite Hvj|]. pose proof (slots_length s dir _ Ds). lia.
      * rewrite list_lookup_insert_ne, slots_lookup by lia. f_equal. apply Hv; lia.
    + rewrite !lookup_ge_None_2; [done| |]; [|pose proof (slots_length s' dir _ Ds); lia].
      rewrite length_insert. pose proof (slots_length s dir _ Ds). lia.
  - assert (j = nslots (i_size i)) as -> by lia. destruct (slot_pos_end _ Ds Hlt) as (Ds' & _ & Hn' & _).
    split; [done|]. split; [|done]. unfold dir_slots. rewrite Hn'. rewrite seqZ_app by lia. rewrite fmap_app. f_equal.
    + apply list_fmap_ext. intros k x Hx. apply lookup_seqZ in Hx as [-> Hx]. apply Hv; lia.
    + replace (seqZ _ 1) with [nslots (i_size i)] by (unfold seqZ; cbn; f_equal; lia). cbn. by rewrite Hvj.
Qed.

(** The directory stays in order when its slots do. *)
Lemma dir_ok_editing s dir Ls i n m size s' :
  dir_ok s dir Ls -> k_inodes (v_k s) !! dir = Some i -> editing s dir n m size (v_pref s) (v_lock s) s' ->
  dir_size size -> i_size i <= size -> blen m = PAGE_CACHE_SIZE -> (size <= PAGE_CACHE_SIZE * n -> f_get m 0 DE.de_inode = Some 0) ->
  (forall name, name ∈ names (dir_slots s' dir size) -> valid_name name) ->
  (forall j, 0 <= j < nslots size -> nul_at (shown s' (dir, slot_page j)) (slot_off j)) ->
  dir_ok s' dir (dir_slots s' dir size).
Proof.
  intros D Hi E Hsz Hle Hm Htail Hnames Hnul. destruct (do_slots _ _ _ D) as (i' & Hi' & Ds & HL & Ht). simplify_eq. split.
  - destruct (ed_dir _ _ _ _ _ _ _ _ E) as (i0 & i1 & Hi0 & Hi1 & Hs & _). exists i1. split; [done|]. rewrite Hs.
    split; [done|]. split; [done|]. intros x Hx. rewrite pages_of in Hx by (by rewrite Hs).
    rewrite pages_of in Ht by done. rewrite Hs in Hx.
    destruct (decide (x = n)) as [->|Hne].
    + rewrite (ed_shown _ _ _ _ _ _ _ _ E). apply Htail. unfold PAGE_CACHE_SIZE. dlia.
    + rewrite (ed_other _ _ _ _ _ _ _ _ E) by congruence. apply Ht.
      assert ((i_size i + 4095) / 4096 <= (size + 4095) / 4096) by (apply Z.div_le_mono; lia). lia.
  - intros x. destruct (decide (x = n)) as [->|Hne]; [by rewrite (ed_shown _ _ _ _ _ _ _ _ E)|].
    rewrite (ed_other _ _ _ _ _ _ _ _ E) by congruence. apply D.
  - done.
  - rewrite slots_length by done. exact Hnul.
  - intros x. rewrite (ed_lock _ _ _ _ _ _ _ _ E). apply D.
Qed.

(** The names of the other slots still end. *)
Lemma nul_editing s dir Ls n m size R L s' j : dir_ok s dir Ls -> editing s dir n m size R L s' -> 0 <= j < Z.of_nat (length Ls) ->
  (slot_page j = n -> nul_at m (slot_off j)) -> nul_at (shown s' (dir, slot_page j)) (slot_off j).
Proof.
  intros D E Hj Hm. destruct (decide (slot_page j = n)) as [Hp|Hp].
  - rewrite Hp, (ed_shown _ _ _ _ _ _ _ _ E). by apply Hm.
  - rewrite (ed_other _ _ _ _ _ _ _ _ E) by congruence. by apply D.
Qed.

(** ** Finding an entry *)

(** Slot [j] can be read and holds [name]. *)
Definition found_at (s : vfs) (dir : Z) (name : bytes) (j : Z) : bool :=
  match page_err dir (slot_page j), slot s dir j with
  | None, Some (nm, _) => bool_decide (nm = name)
  | _, _ => false
  end.

Lemma find_at_slot s dir Ls i j name : dir_ok s dir Ls -> k_inodes (v_k s) !! dir = Some i ->
  0 <= j < nslots (i_size i) -> valid_name name ->
  find_at (shown s (dir, slot_page j)) name (slot_off j) =
    Some (match slot s dir j with Some (nm, _) => if bool_decide (nm = name) then Some (slot_off j) else None | None => None end).
Proof.
  intros D Hi Hj V. destruct (slot_reads s dir Ls j D) as (ino & E & _ & Es). unfold find_at. rewrite E.
  cbn [mbind option_bind]. destruct (ino =? 0); [by rewrite Es|]. rewrite Es.
  rewrite (strncmp_slot s dir Ls i j _ name _ ino D Hi Hj Es V) by (by right). cbn [mbind option_bind].
  by case_bool_decide.
Qed.

(** A page that cannot be read holds nothing to find. *)
Lemma found_unreadable s dir name n e : page_err dir n = Some e ->
  forall j, 15 * n <= j < 15 * n + 15 -> found_at s dir name j = false.
Proof.
  intros He j Hj. unfold found_at. replace j with (15 * n + (j - 15 * n)) by lia.
  destruct (slot_of_page n (j - 15 * n)) as [-> _]; [lia|]. by rewrite He.
Qed.

Lemma find_pages_run s dir Ls i name : dir_ok s dir Ls -> k_inodes (v_k s) !! dir = Some i -> valid_name name ->
  forall todo n, 0 <= n <= gas_dir_pages i -> todo = Z.to_nat (gas_dir_pages i - n) ->
  exists j, is_first (found_at s dir name) (Z.min (15 * n) (nslots (i_size i))) (nslots (i_size i)) j /\
    find_pages todo dir name n s =
      Some (if j <? nslots (i_size i) then (Some ((dir, slot_page j), slot_off j), with_pref (v_pref s ⊎ {[+ (dir, slot_page j) +]}) s)
            else (None, s)).
Proof.
  intros D Hi V. destruct (do_slots _ _ _ D) as (i' & Hi' & Ds & _). simplify_eq. set (N := nslots (i_size i)).
  induction todo as [|todo IH]; intros n Hn Htodo; cbn [find_pages].
  { assert (N <= 15 * n) by (pose proof (pages_slots i n Ds ltac:(lia)); unfold N; lia).
    exists N. rewrite Z.ltb_irrefl. split; [|done]. split; [lia|]. split; intros; lia. }
  assert (HN : 15 * n < N) by (apply (pages_slots i n Ds); lia).
  destruct (last_byte_of i n Ds) as [_ Hlim]; [lia|]. fold N in Hlim. unfold page_slots in Hlim.
  destruct (IH (n + 1)) as (j' & Hj' & Eq); [lia|lia|].
  unfold gas_dir_get_page at 1. destruct (page_err dir n) as [e|] eqn:He.
  { exists j'. rewrite (P_read_fail _ _ e) by done. split; [|exact Eq].
    eapply (is_first_skip _ _ (Z.min (15 * (n + 1)) N)); [lia| |exact Hj'].
    intros j Hj. apply (found_unreadable s dir name n e He). lia. }
  rewrite P_read_ok by done.
  set (s1 := with_pref _ s).
  assert (Hbody : forall k, 0 <= k < Z.min 15 (N - 15 * n) -> find_at (shown s (dir, n)) name (DE.sizeof * k) =
    Some (if found_at s dir name (15 * n + k) then Some (DE.sizeof * k) else None)).
  { intros k Hk. destruct (slot_of_page n k) as [E1 E2]; [lia|].
    pose proof (find_at_slot s dir Ls i (15 * n + k) name D Hi ltac:(fold N; lia) V) as Hf. rewrite E1, E2 in Hf. rewrite Hf.
    f_equal. unfold found_at. rewrite E1, He. destruct (slot s dir (15 * n + k)) as [[nm ino]|]; [|done]. by case_bool_decide. }
  destruct (for_entries_run ENTRIES (gas_last_byte i n - DE.sizeof) (find_at (shown s (dir, n)) name)
    (fun k => if found_at s dir name (15 * n + k) then Some (DE.sizeof * k) else None) 0 (Z.min 15 (N - 15 * n)))
    as (r & Hr & Er); [exact Hbody|exact Hlim|unfold ENTRIES; lia|lia|].
  change (DE.sizeof * 0) with 0 in Er.
  unfold page_data at 1. rewrite P_get, (P_iref _ i) by done. change (shown s1 (dir, n)) with (shown s (dir, n)).
  erewrite P_plift by exact Er.
  assert (Hr' : is_first (found_at s dir name) (15 * n) (15 * n + Z.min 15 (N - 15 * n)) (15 * n + r)).
  { rewrite <- (Z.add_0_r (15 * n)) at 1. apply is_first_shift. eapply is_first_ext; [|exact Hr]. intros k Hk. cbn.
    destruct (found_at s dir name (15 * n + k)); [by apply bool_decide_eq_true_2|by apply bool_decide_eq_false_2; intros []]. }
  destruct (Z.ltb_spec r (Z.min 15 (N - 15 * n))) as [Hlt|Hge].
  - destruct Hr as (Hr0 & _ & Ht). specialize (Ht Hlt). apply bool_decide_eq_true in Ht.
    destruct (found_at s dir name (15 * n + r)) eqn:Ef; [|by destruct Ht].
    exists (15 * n + r). rewrite (proj2 (Z.ltb_lt _ N)) by lia. rewrite Z.min_l by lia. split.
    { eapply is_first_extend; [|
        |exact Hr']; lia. }
    by destruct (slot_of_page n r) as [-> ->]; [lia|].
  - exists j'. split.
    + eapply (is_first_skip _ _ (Z.min (15 * (n + 1)) N)); [lia| |exact Hj'].
      intros j Hj. destruct Hr' as (_ & Hlow & _). apply Hlow. destruct Hr. lia.
    + unfold gas_dir_put_page at 1, s1. by rewrite P_put_taken.
Qed.

Lemma gas_find_entry_run s dir Ls i name : dir_ok s dir Ls -> k_inodes (v_k s) !! dir = Some i -> valid_name name ->
  exists j, is_first (found_at s dir name) 0 (nslots (i_size i)) j /\
    gas_find_entry (Dentry dir name) s =
      Some (if j <? nslots (i_size i) then (Some ((dir, slot_page j), slot_off j), with_pref (v_pref s ⊎ {[+ (dir, slot_page j) +]}) s)
            else (None, s)).
Proof.
  intros D Hi V. destruct (do_slots _ _ _ D) as (i' & Hi' & Ds & _). simplify_eq.
  assert (0 <= gas_dir_pages i). { rewrite pages_of by done. destruct Ds. apply Z.div_pos; lia. }
  destruct (dir_size_split _ Ds) as (q & r & _ & ? & ? & Hn & _).
  destruct (find_pages_run s dir Ls i name D Hi V _ 0 ltac:(lia) eq_refl) as (j & Hj & E).
  rewrite Z.min_l in Hj by lia. exists j. split; [done|]. unfold gas_find_entry. cbn [d_parent d_name].
  rewrite (P_iref _ i) by done. rewrite Z.sub_0_r in E. exact E.
Qed.

(** ** Changing a page *)

(** The error of a synchronous write of a page of [dir]. *)
Definition sync_err (dir n : Z) : option errno := if IS_DIRSYNC dir then write_page_err (dir, n) else None.

(** Page [n] of [dir] has contents [m], the directory the size [size] and a new time; the
    change is in the page cache or on the device; references and locks are as before. *)
Definition changed (s : vfs) (dir n : Z) (m : bytes) (size : Z) (s' : vfs) : Prop :=
  editing s dir n m size (v_pref s) (v_lock s) s' /\ stamped s' dir /\ saved s' dir n.

(** Nothing but block maps and times has changed. *)
Definition kept (s : vfs) (dir n size : Z) (s' : vfs) : Prop :=
  editing s dir n (shown s (dir, n)) size (v_pref s) (v_lock s) s'.

Lemma editing_held s dir n i : bm_ok dir (v_k s) -> k_inodes (v_k s) !! dir = Some i ->
  editing s dir n (shown s (dir, n)) (i_size i) (v_pref s ⊎ {[+ (dir, n) +]}) ({[(dir, n)]} ∪ v_lock s)
    (with_lock ({[(dir, n)]} ∪ v_lock s) (with_pref (v_pref s ⊎ {[+ (dir, n) +]}) s)).
Proof. intros. by apply editing_start. Qed.

(** Taking the lock of a page just referenced. *)
Lemma lock_held {B} s pg (k : unit -> P B) (Q : B -> vfs -> Prop) : pg ∉ v_lock s ->
  pwp (k tt) (with_lock ({[pg]} ∪ v_lock s) (with_pref (v_pref s ⊎ {[+ pg +]}) s)) Q ->
  pwp (lock_page pg ≫= k) (with_pref (v_pref s ⊎ {[+ pg +]}) s) Q.
Proof. intros Hn HQ. apply pwp_bind, pwp_lock; [done|]. exact HQ. Qed.

Lemma saved_pdirty s s' dir n : saved s dir n -> v_pdirty s' = v_pdirty s -> saved s' dir n.
Proof. unfold saved. by intros ? ->. Qed.

Lemma gas_delete_entry_run s dir Ls i j : dir_ok s dir Ls -> bm_ok dir (v_k s) -> k_inodes (v_k s) !! dir = Some i ->
  0 <= j < nslots (i_size i) ->
  pwp (gas_delete_entry get_block ((dir, slot_page j), slot_off j)) (with_pref (v_pref s ⊎ {[+ (dir, slot_page j) +]}) s)
    (fun err s' => (exists e, err = Some e /\ prepares get_block (v_k s) (dir, slot_page j) (slot_pos j) DE.sizeof err /\
         kept s dir (slot_page j) (i_size i) s') \/
       exists m, f_set (shown s (dir, slot_page j)) (slot_off j) DE.de_inode 0 = Some m /\
         prepares get_block (v_k s) (dir, slot_page j) (slot_pos j) DE.sizeof None /\
         changed s dir (slot_page j) m (i_size i) s' /\ err = sync_err dir (slot_page j)).
Proof.
  intros D Hok Hi Hj. set (n := slot_page j). set (off := slot_off j). unfold gas_delete_entry.
  pose proof (slot_off_range j) as [Ho1 Ho2]. fold off in Ho1, Ho2. destruct (do_slots _ _ _ D) as (i' & Hi' & Ds & _). simplify_eq.
  pose proof (slot_pos_before _ _ Ds Hj) as Hpos. assert (0 <= n) by (apply Z.div_pos; lia).
  apply lock_held; [apply D|]. cbn [fst snd].
  assert (HR : (dir, n) ∈ v_pref s ⊎ {[+ (dir, n) +]}) by apply pref_taken.
  assert (HL : (dir, n) ∈ {[(dir, n)]} ∪ v_lock s) by (clear; set_solver).
  pose proof (editing_held s dir n i Hok Hi) as E. apply pwp_bind.
  eapply pwp_mono; [apply (editing_prepare s dir n _ _ _ _ _ E); unfold PAGE_CACHE_SIZE; lia|]. intros [e|] s2 [E2 HP]; apply pwp_bind.
  - apply pwp_bind. eapply pwp_mono; [by apply (editing_unlock s dir n _ _ _ _ _ E2)|]. intros _ s3 [E3 _]. apply pwp_ret.
    apply pwp_bind. eapply pwp_mono; [by apply (editing_put s dir n _ _ _ _ _ E3)|]. intros _ s4 [E4 _].
    apply pwp_bind. eapply pwp_mono; [by apply (editing_touch s dir n _ _ _ _ _ E4)|]. intros _ s5 (E5 & _). apply pwp_ret.
    left. exists e. split; [done|]. split; [exact HP|]. unfold kept. rewrite pref_take_drop, lock_take_drop in E5 by apply D. exact E5.
  - apply pwp_bind, pwp_get. rewrite (ed_shown _ _ _ _ _ _ _ _ E2).
    destruct (f_set_fits (shown s (dir, n)) off DE.de_inode 0) as (m & Em & _).
    { split; cbn; [lia|]. rewrite (do_pages _ _ _ D). unfold DE.sizeof in *. lia. }
    apply pwp_bind. eapply pwp_plift; [exact Em|]. apply pwp_bind.
    eapply pwp_mono; [by apply (editing_write s dir n _ _ _ _ _ E2)|]. intros [] s3 [E3 _].
    eapply pwp_mono; [by apply (editing_commit s dir n _ _ _ _ _ _ _ E3)|]. intros err s4 (E4 & Herr & Hsv).
    apply pwp_bind. eapply pwp_mono; [by apply (editing_put s dir n _ _ _ _ _ E4)|]. intros _ s5 [E5 ->].
    apply pwp_bind. eapply pwp_mono; [by apply (editing_touch s dir n _ _ _ _ _ E5)|]. intros _ s6 (E6 & Hst & Hd6). apply pwp_ret.
    right. exists m. split; [done|]. split; [exact HP|]. split; [|exact Herr]. rewrite Z.max_l in E6 by (unfold slot_pos in Hpos; lia).
    rewrite pref_take_drop, lock_take_drop in E6 by apply D. split; [done|]. split; [done|].
    by eapply saved_pdirty.
Qed.

Lemma gas_set_link_run s dir Ls i j inode : dir_ok s dir Ls -> bm_ok dir (v_k s) -> k_inodes (v_k s) !! dir = Some i ->
  0 <= j < nslots (i_size i) ->
  pwp (gas_set_link get_block ((dir, slot_page j), slot_off j) inode) (with_pref (v_pref s ⊎ {[+ (dir, slot_page j) +]}) s)
    (fun _ s' => kept s dir (slot_page j) (i_size i) s' /\ stamped s' dir).
Proof.
  intros D Hok Hi Hj. set (n := slot_page j). set (off := slot_off j). unfold gas_set_link.
  destruct (do_slots _ _ _ D) as (i' & Hi' & Ds & _). simplify_eq. pose proof (slot_off_range j) as [Ho1 Ho2]. fold off in Ho1, Ho2.
  pose proof (slot_pos_before _ _ Ds Hj) as Hpos. assert (0 <= n) by (apply Z.div_pos; lia).
  apply lock_held; [apply D|]. cbn [fst snd].
  assert (HR : (dir, n) ∈ v_pref s ⊎ {[+ (dir, n) +]}) by apply pref_taken.
  assert (HL : (dir, n) ∈ {[(dir, n)]} ∪ v_lock s) by (clear; set_solver).
  pose proof (editing_held s dir n i Hok Hi) as E. apply pwp_bind.
  eapply pwp_mono; [apply (editing_prepare s dir n _ _ _ _ _ E); unfold PAGE_CACHE_SIZE; lia|]. intros err s2 [E2 _]. apply pwp_bind.
  apply (pwp_mono _ _ (fun _ s3 => editing s dir n (shown s (dir, n)) (i_size i) (v_pref s ⊎ {[+ (dir, n) +]}) (v_lock s) s3)).
  - rewrite <- (lock_take_drop (v_lock s) (dir, n)) by apply D. destruct err as [e|].
    + apply pwp_bind. eapply pwp_mono; [by apply (editing_unlock s dir n _ _ _ _ _ E2)|]. intros _ s3 [E3 _]. by apply pwp_ret.
    + eapply pwp_mono; [by apply (editing_commit s dir n _ _ _ _ _ _ _ E2)|]. intros err s4 (E4 & _).
      rewrite Z.max_l in E4 by (unfold slot_pos in Hpos; lia). exact E4.
  - intros _ s3 E3. apply pwp_bind. eapply pwp_mono; [by apply (editing_put s dir n _ _ _ _ _ E3)|]. intros _ s4 [E4 _].
    eapply pwp_mono; [by apply (editing_touch s dir n _ _ _ _ _ E4)|]. intros _ s5 (E5 & Hst & _).
    rewrite pref_take_drop in E5. by split.
Qed.

(** ** Adding an entry *)

Lemma link_entry_run s dir name inode j i io m1 s1 :
  dir_size (i_size i) -> 0 <= j -> k_inodes (v_k s) !! inode = Some io -> blen m1 = PAGE_CACHE_SIZE -> (dir, slot_page j) ∉ v_lock s ->
  editing s dir (slot_page j) m1 (i_size i) (v_pref s ⊎ {[+ (dir, slot_page j) +]}) ({[(dir, slot_page j)]} ∪ v_lock s) s1 ->
  pwp (link_entry get_block dir name inode (dir, slot_page j) (slot_off j)) s1 (fun err s' =>
    (exists e, err = Some e /\ prepares get_block (v_k s1) (dir, slot_page j) (slot_pos j) DE.sizeof err /\
       editing s dir (slot_page j) m1 (i_size i) (v_pref s) (v_lock s) s') \/
    exists m2, dirent_write m1 (slot_off j) name (i_ino io) = Some m2 /\
      prepares get_block (v_k s1) (dir, slot_page j) (slot_pos j) DE.sizeof None /\
      changed s dir (slot_page j) m2 (Z.max (i_size i) (slot_pos j + DE.sizeof)) s' /\ err = sync_err dir (slot_page j)).
Proof.
  intros Ds Hj Hio Hm1 Hlk E. pose proof (slot_off_range j) as [Ho1 Ho2]. unfold slot_pos. set (n := slot_page j) in *. set (off := slot_off j) in *.
  assert (0 <= n) by (apply Z.div_pos; lia). unfold link_entry. cbn [snd].
  assert (HR : (dir, n) ∈ v_pref s ⊎ {[+ (dir, n) +]}) by apply pref_taken.
  assert (HL : (dir, n) ∈ {[(dir, n)]} ∪ v_lock s) by (clear; set_solver). apply pwp_bind.
  eapply pwp_mono; [apply (editing_prepare s dir n _ _ _ _ _ E); unfold PAGE_CACHE_SIZE; lia|]. intros [e|] s2 [E2 HP].
  - apply pwp_bind. eapply pwp_mono; [by apply (editing_unlock s dir n _ _ _ _ _ E2)|]. intros _ s3 [E3 _].
    apply pwp_bind. eapply pwp_mono; [by apply (editing_put s dir n _ _ _ _ _ E3)|]. intros _ s4 [E4 _]. apply pwp_ret.
    left. exists e. split; [done|]. split; [exact HP|]. by rewrite pref_take_drop, lock_take_drop in E4.
  - apply pwp_bind, pwp_get. rewrite (ed_shown _ _ _ _ _ _ _ _ E2).
    assert (exists io', k_inodes (v_k s2) !! inode = Some io' /\ i_ino io' = i_ino io) as (io' & Hio' & Hino).
    { destruct (decide (inode = dir)) as [->|Hne].
      - destruct (ed_dir _ _ _ _ _ _ _ _ E2) as (i0 & i1 & Hi0 & Hi1 & _ & Ei & _). exists i1. split; [done|]. congruence.
      - exists io. by rewrite (ed_inodes _ _ _ _ _ _ _ _ E2). }
    apply pwp_bind. eapply pwp_iref; [exact Hio'|]. rewrite Hino.
    destruct (dirent_write_fits m1 off name (i_ino io)) as [m2 Em]; [lia|by rewrite Hm1|].
    apply pwp_bind. eapply pwp_plift; [exact Em|]. apply pwp_bind.
    eapply pwp_mono; [by apply (editing_write s dir n _ _ _ _ _ E2)|]. intros [] s3 [E3 _]. apply pwp_bind.
    eapply pwp_mono; [by apply (editing_commit s dir n _ _ _ _ _ _ _ E3)|]. intros err s4 (E4 & Herr & Hsv). apply pwp_bind.
    eapply pwp_mono; [by apply (editing_touch s dir n _ _ _ _ _ E4)|]. intros [] s5 (E5 & Hst & Hd5). apply pwp_bind.
    eapply pwp_mono; [by apply (editing_put s dir n _ _ _ _ _ E5)|]. intros _ s6 [E6 ->]. apply pwp_ret.
    right. exists m2. split; [done|]. split; [exact HP|]. split; [|exact Herr]. rewrite lock_take_drop in E6 by done. rewrite pref_take_drop in E6 |- *.
    split; [done|]. split; [exact Hst|]. eapply saved_pdirty; [exact Hsv|exact Hd5].
Qed.

(** The search of [gas_add_link] stops at a free slot, at the name, or where a page cannot be
    read. *)
Definition add_stop (s : vfs) (dir : Z) (name : bytes) (j : Z) : bool :=
  match page_err dir (slot_page j), slot s dir j with
  | None, Some (nm, _) => bool_decide (nm = name)
  | _, _ => true
  end.

Lemma add_slot_total s dir Ls i name n k : dir_ok s dir Ls -> 0 <= k < 15 ->
  exists r, add_slot_at (shown s (dir, n)) (gas_last_byte i n) name (DE.sizeof * k) = Some r.
Proof.
  intros D Hk. unfold add_slot_at. destruct (_ =? gas_last_byte i n); [by eexists|].
  destruct (slot_reads s dir Ls (15 * n + k) D) as (ino & E & _). destruct (slot_of_page n k Hk) as [E1 E2]. rewrite E1, E2 in E.
  rewrite E. cbn [mbind option_bind]. destruct (ino =? 0); [by eexists|]. unfold strncmp_eq.
  rewrite (proj2 (in_range_spec _ _ _)); [by eexists|]. rewrite (do_pages _ _ _ D).
  unfold DE.sizeof, PAGE_CACHE_SIZE, GAS_MAX_NAME_LEN. lia.
Qed.

Lemma add_slot_used s dir Ls i name n k : dir_ok s dir Ls -> k_inodes (v_k s) !! dir = Some i -> valid_name name ->
  0 <= k < 15 -> 0 <= n -> 15 * n + k < nslots (i_size i) ->
  add_slot_at (shown s (dir, n)) (gas_last_byte i n) name (DE.sizeof * k) = Some
    match slot s dir (15 * n + k) with
    | None => Some (SlotFree (DE.sizeof * k))
    | Some (nm, _) => if bool_decide (nm = name) then Some SlotExists else None
    end.
Proof.
  intros D Hi V Hk Hn Hj. destruct (do_slots _ _ _ D) as (i' & Hi' & Ds & _). simplify_eq.
  destruct (last_byte_of i n Ds) as [_ Hlim]; [split; [lia|]; apply (pages_slots i n Ds Hn); lia|].
  specialize (Hlim k ltac:(lia)). rewrite (proj2 (Z.ltb_lt k _)) in Hlim by (unfold page_slots; lia). cbn [negb] in Hlim.
  apply Z.ltb_ge in Hlim. unfold add_slot_at. rewrite (proj2 (Z.eqb_neq _ _)) by (unfold DE.sizeof in *; lia).
  destruct (slot_reads s dir Ls (15 * n + k) D) as (ino & E & _ & Es). destruct (slot_of_page n k Hk) as [E1 E2].
  rewrite E1, E2 in E. rewrite E. cbn [mbind option_bind]. destruct (ino =? 0); [by rewrite Es|]. rewrite Es.
  pose proof (strncmp_slot s dir Ls i (15 * n + k) 255 name _ ino D Hi ltac:(lia) Es V (or_introl eq_refl)) as Hc.
  rewrite E1, E2 in Hc. change (Z.to_nat (GAS_MAX_NAME_LEN - 1)) with 255%nat. rewrite E1, E2, Hc. cbn [mbind option_bind]. by case_bool_decide.
Qed.

(** At the end of the directory. *)
Lemma add_slot_end s dir Ls i name n k : dir_ok s dir Ls -> k_inodes (v_k s) !! dir = Some i ->
  0 <= k < 15 -> 0 <= n -> 15 * n + k = nslots (i_size i) ->
  add_slot_at (shown s (dir, n)) (gas_last_byte i n) name (DE.sizeof * k) = Some (Some (SlotEnd (DE.sizeof * k))) \/
  add_slot_at (shown s (dir, n)) (gas_last_byte i n) name (DE.sizeof * k) = Some (Some (SlotFree (DE.sizeof * k))) /\
    f_get (shown s (dir, n)) (DE.sizeof * k) DE.de_inode = Some 0.
Proof.
  intros D Hi Hk Hn Hj. destruct (do_slots _ _ _ D) as (i' & Hi' & Ds & _ & Ht). simplify_eq. rewrite pages_of in Ht by done.
  destruct (dir_size_split _ Ds) as (q & r & Hs & Hq & Hr & HN & E1 & E2). rewrite HN in Hj. unfold add_slot_at.
  unfold gas_last_byte, PAGE_CACHE_SIZE, PAGE_CACHE_SHIFT, DE.sizeof. rewrite Z.shiftr_div_pow2 by lia. change (2 ^ 12) with 4096.
  rewrite E1. change (4096 - 1) with (Z.ones 12). rewrite Z.land_ones by lia. change (2 ^ 12) with 4096. rewrite E2.
  destruct (Z.eqb_spec n q) as [->|].
  - left. by rewrite (proj2 (Z.eqb_eq _ _)) by lia.
  - right. assert (k = 0) as -> by lia. rewrite Z.mul_0_r. cbn [Z.eqb]. rewrite Ht by (rewrite Hs; dlia).
    split; [done|done].
Qed.

(** What the loop over page [n] finds. *)
Inductive page_scan (s : vfs) (dir : Z) (name : bytes) (N n : Z) (m : bytes) : option add_slot -> Prop :=
| scan_none : 15 * n + 15 <= N -> (forall x, 0 <= x < 15 -> add_stop s dir name (15 * n + x) = false) -> page_scan s dir name N n m None
| scan_exists k : 0 <= k < 15 -> 15 * n + k < N -> (forall x, 0 <= x < k -> add_stop s dir name (15 * n + x) = false) ->
    add_stop s dir name (15 * n + k) = true -> is_Some (slot s dir (15 * n + k)) -> page_scan s dir name N n m (Some SlotExists)
| scan_free k : 0 <= k < 15 -> 15 * n + k <= N -> (forall x, 0 <= x < k -> add_stop s dir name (15 * n + x) = false) ->
    (15 * n + k < N -> slot s dir (15 * n + k) = None) -> f_get m (DE.sizeof * k) DE.de_inode = Some 0 ->
    page_scan s dir name N n m (Some (SlotFree (DE.sizeof * k)))
| scan_end k : 0 <= k < 15 -> 15 * n + k = N -> (forall x, 0 <= x < k -> add_stop s dir name (15 * n + x) = false) ->
    page_scan s dir name N n m (Some (SlotEnd (DE.sizeof * k))).

Lemma page_scan_run s dir Ls i name n :
  dir_ok s dir Ls -> k_inodes (v_k s) !! dir = Some i -> valid_name name -> 0 <= n -> 15 * n <= nslots (i_size i) ->
  page_err dir n = None ->
  exists r, for_entries ENTRIES (PAGE_CACHE_SIZE - DE.sizeof) (add_slot_at (shown s (dir, n)) (gas_last_byte i n) name) 0 = Some r /\
    page_scan s dir name (nslots (i_size i)) n (shown s (dir, n)) r.
Proof.
  intros D Hi V Hn HN He. destruct (do_slots _ _ _ D) as (i' & Hi' & Ds & _). simplify_eq. set (N := nslots (i_size i)) in *.
  set (m := shown s (dir, n)). set (last := gas_last_byte i n).
  destruct (for_entries_run ENTRIES (PAGE_CACHE_SIZE - DE.sizeof) (add_slot_at m last name)
    (fun k => default None (add_slot_at m last name (DE.sizeof * k))) 0 15) as (r & Hr & Er).
  { intros k Hk. destruct (add_slot_total s dir Ls i name n k D Hk) as [x Hx]. unfold m, last. by rewrite Hx. }
  { intros k Hk. unfold PAGE_CACHE_SIZE, DE.sizeof. destruct (Z.ltb_spec k 15); cmp; cbn; lia. }
  { unfold ENTRIES. lia. }
  { lia. }
  change (DE.sizeof * 0) with 0 in Er. eexists. split; [exact Er|]. clear Er. destruct Hr as (Hr0 & Hlow & Htop).
  assert (Hstop : forall k, 0 <= k < 15 -> 15 * n + k < N ->
    bool_decide (is_Some (default None (add_slot_at m last name (DE.sizeof * k)))) = add_stop s dir name (15 * n + k)).
  { intros k Hk Hlt. unfold m, last. rewrite (add_slot_used s dir Ls i name n k D Hi V Hk Hn Hlt). cbn [default]. unfold add_stop.
    destruct (slot_of_page n k Hk) as [E1 _]. rewrite E1, He. destruct (slot s dir (15 * n + k)) as [[nm ino]|]; [|done].
    cbn [id]. destruct (bool_decide (nm = name)); [by apply bool_decide_eq_true_2|by apply bool_decide_eq_false_2; intros []]. }
  assert (Hend : 15 * n + r <= N).
  { destruct (Z_lt_le_dec N (15 * n + r)); [|done]. exfalso. specialize (Hlow (N - 15 * n) ltac:(lia)). cbn in Hlow.
    destruct (add_slot_end s dir Ls i name n (N - 15 * n) D Hi) as [E|[E _]]; [lia|lia|fold N; lia| |];
      unfold m, last in Hlow; rewrite E in Hlow; rewrite bool_decide_eq_true_2 in Hlow by (by eexists); done. }
  assert (Hpass : forall x, 0 <= x < r -> add_stop s dir name (15 * n + x) = false).
  { intros x Hx. rewrite <- Hstop by lia. by apply Hlow. }
  destruct (Z.ltb_spec r 15) as [Hlt|Hge]; [|assert (r = 15) as -> by lia; by constructor].
  specialize (Htop Hlt). destruct (Z_lt_le_dec (15 * n + r) N) as [HltN|HgeN].
  - rewrite Hstop in Htop by lia. destruct (slot_of_page n r) as [P1 P2]; [lia|].
    unfold m, last. rewrite (add_slot_used s dir Ls i name n r D Hi V ltac:(lia) Hn HltN). cbn [default id].
    destruct (slot s dir (15 * n + r)) as [[nm ino]|] eqn:Es.
    + assert (Hnm := Htop). unfold add_stop in Hnm. rewrite P1, He, Es in Hnm. rewrite Hnm.
      apply (scan_exists _ _ _ _ _ _ r); [lia|done|done|done|by rewrite Es].
    + apply scan_free; [lia|lia|done|done|]. destruct (slot_reads s dir Ls (15 * n + r) D) as (ino & Ei & _ & Es').
      rewrite Es in Es'. rewrite P1, P2 in Ei. by destruct (Z.eqb_spec ino 0) as [->|].
  - assert (HeN : 15 * n + r = N) by lia. destruct (add_slot_end s dir Ls i name n r D Hi ltac:(lia) Hn HeN) as [Ea|[Ea Ef]];
      unfold m, last; rewrite Ea; cbn [default id]; [by apply scan_end; [lia|done|done]|].
    apply scan_free; [lia|lia|done|lia|done].
Qed.

(** What happens where the search stops. *)
Definition at_stop (s : vfs) (dir : Z) (i : inode) (name : bytes) (inode j : Z) (Q : option errno -> vfs -> Prop) : Prop :=
  let n := slot_page j in
  match page_err dir n with
  | Some e => Q (Some e) s
  | None =>
      if (j <? nslots (i_size i)) && bool_decide (is_Some (slot s dir j)) then Q (Some EEXIST) s
      else forall m1 s1,
        only_in (slot_off j) (slot_off j + DE.sizeof) (shown s (dir, n)) m1 -> f_get m1 (slot_off j) DE.de_inode = Some 0 ->
        (j < nslots (i_size i) -> m1 = shown s (dir, n)) -> v_k s1 = v_k s ->
        editing s dir n m1 (i_size i) (v_pref s ⊎ {[+ (dir, n) +]}) ({[(dir, n)]} ∪ v_lock s) s1 ->
        pwp (link_entry get_block dir name inode (dir, n) (slot_off j)) s1 Q
  end.

Lemma add_pages_run s dir Ls i name inode Q :
  dir_ok s dir Ls -> bm_ok dir (v_k s) -> k_inodes (v_k s) !! dir = Some i -> valid_name name ->
  (forall j, is_first (add_stop s dir name) 0 (nslots (i_size i)) j -> at_stop s dir i name inode j Q) ->
  forall todo n, 0 <= n -> 15 * n <= nslots (i_size i) -> todo = S (Z.to_nat (gas_dir_pages i - n)) ->
  (forall j, 0 <= j < 15 * n -> add_stop s dir name j = false) ->
  pwp (add_link_pages get_block todo dir name inode n) s Q.
Proof.
  intros D Hok Hi V HQ.
  destruct (do_slots _ _ _ D) as (i' & Hi' & Ds & _). simplify_eq. set (N := nslots (i_size i)) in *.
  induction todo as [|todo IH]; intros n Hn HN Htodo Hbefore; [done|]. cbn [add_link_pages].
  assert (Hfirst : forall k, 0 <= k < 15 -> 15 * n + k <= N -> (forall x, 0 <= x < k -> add_stop s dir name (15 * n + x) = false) ->
    (15 * n + k < N -> add_stop s dir name (15 * n + k) = true) -> at_stop s dir i name inode (15 * n + k) Q).
  { intros k Hk Hle Hlow Hst. apply HQ. split; [lia|]. split; [|done]. intros j Hj.
    destruct (Z_lt_le_dec j (15 * n)); [by apply Hbefore; lia|]. replace j with (15 * n + (j - 15 * n)) by lia. apply Hlow. lia. }
  apply pwp_bind, pwp_read.
  { intros e He. apply pwp_ret. specialize (Hfirst 0 ltac:(lia) ltac:(lia) ltac:(lia)). unfold at_stop, add_stop in Hfirst.
    destruct (slot_of_page n 0) as [E1 _]; [lia|]. rewrite E1, He in Hfirst. by apply Hfirst. }
  intros He. apply lock_held; [apply D|]. set (s0 := with_lock _ _). apply pwp_bind, pwp_get.
  change (shown s0 (dir, n)) with (shown s (dir, n)). apply pwp_bind. eapply pwp_iref; [exact Hi|].
  destruct (page_scan_run s dir Ls i name n D Hi V Hn HN He) as (r & Er & Hr). fold N in Hr.
  apply pwp_bind. eapply pwp_plift; [exact Er|].
  assert (Hback : forall (c : P (option errno)), pwp c s Q ->
    pwp (_ ← unlock_page (dir, n); _ ← gas_dir_put_page (dir, n); c) s0 Q).
  { intros c Hc. apply pwp_bind, pwp_unlock; [cbn; clear; set_solver|]. apply pwp_bind, pwp_put; [apply pref_taken|].
    unfold s0. cbn [v_lock v_pref with_lock with_pref]. rewrite lock_take_drop, pref_take_drop by apply D.
    by replace (with_pref _ _) with s by (by destruct s). }
  pose proof (editing_held s dir n i Hok Hi) as E. fold s0 in E.
  assert (Hat : forall k, 0 <= k < 15 -> at_stop s dir i name inode (15 * n + k) Q ->
    if (15 * n + k <? N) && bool_decide (is_Some (slot s dir (15 * n + k))) then Q (Some EEXIST) s
    else forall m1 s1, only_in (DE.sizeof * k) (DE.sizeof * k + DE.sizeof) (shown s (dir, n)) m1 ->
      f_get m1 (DE.sizeof * k) DE.de_inode = Some 0 -> (15 * n + k < N -> m1 = shown s (dir, n)) -> v_k s1 = v_k s ->
      editing s dir n m1 (i_size i) (v_pref s ⊎ {[+ (dir, n) +]}) ({[(dir, n)]} ∪ v_lock s) s1 ->
      pwp (link_entry get_block dir name inode (dir, n) (DE.sizeof * k)) s1 Q).
  { intros k Hk HH. destruct (slot_of_page n k Hk) as [P1 P2]. unfold at_stop in HH. by rewrite P1, P2, He in HH. }
  destruct Hr as [H15 Hall|k Hk HkN Hall Hst Hs|k Hk HkN Hall Hs Hf|k Hk HkN Hall].
  - apply Hback, IH; [lia|lia| |].
    + assert (n < gas_dir_pages i) by (apply pages_slots; [done|done|]; fold N; lia). lia.
    + intros j Hj. destruct (Z_lt_le_dec j (15 * n)); [by apply Hbefore; lia|].
      replace j with (15 * n + (j - 15 * n)) by lia. apply Hall; lia.
  - specialize (Hat k Hk (Hfirst k Hk ltac:(lia) Hall (fun _ => Hst))). rewrite (proj2 (Z.ltb_lt _ N)), bool_decide_eq_true_2 in Hat by done.
    by apply Hback, pwp_ret.
  - assert (Hst : 15 * n + k < N -> add_stop s dir name (15 * n + k) = true).
    { intros Hlt. unfold add_stop. rewrite (Hs Hlt). by destruct (page_err dir (slot_page (15 * n + k))). }
    specialize (Hat k Hk (Hfirst k Hk HkN Hall Hst)). destruct (Z.ltb_spec (15 * n + k) N) as [Hlt|].
    1: rewrite (Hs Hlt), bool_decide_eq_false_2 in Hat by (by intros []). all: cbn [andb] in Hat.
    all: by apply (Hat (shown s (dir, n))); [apply only_in_refl| | | |].
  - specialize (Hat k Hk (Hfirst k Hk ltac:(lia) Hall ltac:(lia))). rewrite (proj2 (Z.ltb_ge _ N)) in Hat by lia. cbn [andb] in Hat.
    destruct (f_set_fits (shown s (dir, n)) (DE.sizeof * k) DE.de_inode 0) as (m1 & Em & _).
    { split; cbn; [unfold DE.sizeof; lia|]. rewrite (do_pages _ _ _ D). unfold DE.sizeof, PAGE_CACHE_SIZE in *. lia. }
    apply pwp_bind. eapply pwp_plift; [exact Em|]. apply pwp_bind.
    eapply pwp_mono; [by apply (editing_write s dir n _ _ _ _ _ E)|]. intros [] s1 [E1 Hk1].
    apply (Hat m1); [by apply only_in_clear|by rewrite (f_get_set_same _ _ _ _ _ Em)|lia|exact Hk1|exact E1].
Qed.
End ops.
