(* ===== verification/DirSpec.v ===== *)
(** * What directories promise

    The specification of the operations of gas_dir.c on the slots of a directory: what they
    answer, on which condition, and the slots they leave. *)

From S2P Require Import Prelude Mem Layout Kernel Itree Vfs Dir DirSlots DirEdit DirOps.

Section spec.
Context `{KernelApi, PL : PageLaws} {get_block : Z -> Z -> bool -> K (option errno * option (Z * bool))}
  `{BM : !BlockMapper get_block}.

(** An operation on directory [dir] keeps its tree in order, the buffers, the other inodes
    and files, the attributes of [dir] but its size and times, the pages held and locked, the
    references of inodes and the dentries. *)
Record dir_frame (s : vfs) (dir : Z) (s' : vfs) : Prop := {
  df_ok : bm_ok dir (v_k s');
  df_ref : k_ref (v_k s') = k_ref (v_k s);
  df_inodes : forall x, x <> dir -> k_inodes (v_k s') !! x = k_inodes (v_k s) !! x;
  df_dir : forall i, k_inodes (v_k s) !! dir = Some i -> exists i', k_inodes (v_k s') !! dir = Some i' /\
    i_ino i' = i_ino i /\ i_mode i' = i_mode i /\ i_nlink i' = i_nlink i;
  df_other : forall pg, fst pg <> dir -> shown s' pg = shown s pg;
  df_pref : v_pref s' = v_pref s;
  df_lock : v_lock s' = v_lock s;
  df_count : v_count s' = v_count s;
  df_dentries : v_dentries s' = v_dentries s }.

Lemma frame_refl s dir : bm_ok dir (v_k s) -> dir_frame s dir s.
Proof. intros Hok. split; try done. intros i Hi. by exists i. Qed.

Lemma frame_trans s1 s2 s3 dir : dir_frame s1 dir s2 -> dir_frame s2 dir s3 -> dir_frame s1 dir s3.
Proof.
  intros [A1 A2 A3 A4 A5 A6 A7 A8 A9] [B1 B2 B3 B4 B5 B6 B7 B8 B9]. split; try congruence.
  - intros x Hx. by rewrite B3, A3.
  - intros i Hi. destruct (A4 i Hi) as (i1 & Hi1 & ? & ? & ?). destruct (B4 i1 Hi1) as (i2 & Hi2 & ? & ? & ?).
    exists i2. split; [done|]. split; [congruence|]. split; congruence.
  - intros pg Hpg. by rewrite B5, A5.
Qed.

Lemma editing_frame s dir n m size s' : editing s dir n m size (v_pref s) (v_lock s) s' -> dir_frame s dir s'.
Proof.
  intros [E1 E2 E3 (i & i' & Hi & Hi' & Hs & Ei) E5 E6 E7 E8 E9 E10 E11]. split; try done.
  - intros i0 Hi0. simplify_eq. by exists i'.
  - intros pg Hpg. apply E6. intros ->. by apply Hpg.
Qed.

(** The slots with [v] in slot [j], which is new when the directory has no slot [j]. *)
Definition set_slot (Ls : list (option (bytes * Z))) (j : Z) (v : option (bytes * Z)) : list (option (bytes * Z)) :=
  if j <? Z.of_nat (length Ls) then <[Z.to_nat j := v]> Ls else Ls ++ [v].

Lemma names_set_slot Ls j v name : name ∈ names (set_slot Ls j v) ->
  name ∈ names Ls \/ exists ino, v = Some (name, ino).
Proof.
  unfold names. rewrite !list_elem_of_fmap. intros ((nm & ino) & -> & Hx). apply list_elem_of_omap in Hx as (x & Hx & Ex).
  cbn in Ex. subst x. unfold set_slot in Hx. assert (Some (nm, ino) ∈ Ls \/ Some (nm, ino) = v) as [Hin|<-].
  - destruct (_ <? _).
    + apply list_elem_of_lookup in Hx as [k Hk]. destruct (decide (k = Z.to_nat j)) as [->|Hne].
      * apply list_lookup_insert_Some in Hk as [(_ & ? & _)|(? & _)]; [by right|done].
      * rewrite list_lookup_insert_ne in Hk by done. left. by eapply list_elem_of_lookup_2.
    + apply elem_of_app in Hx as [?|Hx%list_elem_of_singleton]; auto.
  - left. exists (nm, ino). split; [done|]. apply list_elem_of_omap. by exists (Some (nm, ino)).
  - right. by exists ino.
Qed.

(** A directory in order after a change of one slot. *)
Lemma dir_ok_slot s dir Ls i j m size s' :
  dir_ok s dir Ls -> k_inodes (v_k s) !! dir = Some i -> 0 <= j <= nslots (i_size i) ->
  editing s dir (slot_page j) m size (v_pref s) (v_lock s) s' -> blen m = PAGE_CACHE_SIZE ->
  only_in (slot_off j) (slot_off j + DE.sizeof) (shown s (dir, slot_page j)) m ->
  size = Z.max (i_size i) (slot_pos j + DE.sizeof) -> size < 2 ^ 31 ->
  (forall name ino, slot_entry m (slot_off j) = Some (name, ino) -> valid_name name) -> nul_at m (slot_off j) ->
  dir_ok s' dir (set_slot Ls j (slot_entry m (slot_off j))).
Proof.
  intros D Hi Hj E Hm O Hsz Hlt Hv Hnul. destruct (do_slots _ _ _ D) as (i' & Hi' & Ds & HL & Ht). simplify_eq.
  set (N := nslots (i_size i)) in *. set (size := Z.max _ _) in *.
  assert (Hsize : size = if j <? N then i_size i else slot_pos j + DE.sizeof).
  { unfold size. destruct (Z.ltb_spec j N).
    - pose proof (slot_pos_before _ j Ds ltac:(fold N; lia)). lia.
    - assert (j = N) as -> by lia. destruct (slot_pos_end _ Ds) as (_ & ? & _); [fold N; lia|]. fold N in H2. lia. }
  destruct (slots_editing s dir _ i j m size _ _ s' D Hi Hj E O Hsize Hlt) as (Ds' & HL' & _). fold N in HL'.
  assert (EL : dir_slots s' dir size = set_slot (dir_slots s dir (i_size i)) j (slot_entry m (slot_off j))).
  { unfold set_slot. rewrite slots_length by done. exact HL'. }
  rewrite <- EL. eapply dir_ok_editing; [exact D|exact Hi|exact E|exact Ds'|lia|exact Hm| | |].
  - intros Hle. exfalso. pose proof (slot_off_range j). unfold size, slot_pos, DE.sizeof in *. lia.
  - rewrite EL. intros name [Hin|[ino Hn]]%names_set_slot; [by apply D|by eapply Hv].
  - intros k Hk. destruct (decide (k = j)) as [->|Hne]; [by rewrite (ed_shown _ _ _ _ _ _ _ _ E)|].
    assert (HkN : 0 <= k < nslots (i_size i)).
    { fold N. rewrite <- (slots_length s' dir size), EL in Hk by done. unfold set_slot in Hk. rewrite slots_length in Hk by done.
      fold N in Hk. pose proof (slots_length s dir _ Ds) as HN. fold N in HN.
      destruct (Z.ltb_spec j N); [rewrite length_insert in Hk; lia|]. rewrite length_app in Hk. cbn in Hk. lia. }
    rewrite <- (slots_length s dir _ Ds) in HkN. eapply nul_editing; [exact D|exact E|exact HkN|]. intros Hp.
    eapply nul_only; [exact O|by apply slot_disjoint|]. rewrite <- Hp. by apply D.
Qed.

(** Nothing of the directory has changed. *)
Lemma dir_ok_kept s dir Ls i n m s' :
  dir_ok s dir Ls -> k_inodes (v_k s) !! dir = Some i -> editing s dir n m (i_size i) (v_pref s) (v_lock s) s' ->
  blen m = PAGE_CACHE_SIZE -> (i_size i <= PAGE_CACHE_SIZE * n -> f_get m 0 DE.de_inode = Some 0) ->
  (forall j, 0 <= j < nslots (i_size i) -> slot_page j = n -> slot_entry m (slot_off j) = slot s dir j /\ nul_at m (slot_off j)) ->
  dir_ok s' dir Ls.
Proof.
  intros D Hi E Hm Ht Hs. destruct (do_slots _ _ _ D) as (i' & Hi' & Ds & HL & _). simplify_eq.
  assert (EL : dir_slots s' dir (i_size i) = dir_slots s dir (i_size i)).
  { unfold dir_slots. apply list_fmap_ext. intros k x [-> Hx]%lookup_seqZ. rewrite (slot_editing _ _ _ _ _ _ _ _ _ E).
    case_decide as Hp; [|done]. apply Hs; [lia|done]. }
  rewrite <- EL. eapply dir_ok_editing; try done; [rewrite EL; apply D|]. intros j Hj.
  eapply nul_editing; [exact D|exact E|by rewrite slots_length|]. intros Hp. by apply Hs.
Qed.

(** ** Adding *)

(** Where the search of [gas_add_link] stops, on the slots: at a page that cannot be read, at
    the name or at a free slot. *)
Definition stop_at (dir : Z) (Ls : list (option (bytes * Z))) (name : bytes) (j : Z) : bool :=
  match page_err dir (slot_page j), Ls !! Z.to_nat j with
  | None, Some (Some (nm, _)) => bool_decide (nm = name)
  | _, _ => true
  end.

Definition stops (dir : Z) (Ls : list (option (bytes * Z))) (name : bytes) (j : Z) : Prop :=
  is_first (stop_at dir Ls name) 0 (Z.of_nat (length Ls)) j.

Lemma stops_add s dir Ls name j : dir_ok s dir Ls ->
  is_first (add_stop s dir name) 0 (Z.of_nat (length Ls)) j -> stops dir Ls name j.
Proof.
  intros D. destruct (do_slots _ _ _ D) as (i & Hi & Ds & HL & _). apply is_first_ext. intros k Hk. unfold add_stop, stop_at.
  destruct (page_err dir (slot_page k)); [done|]. rewrite HL, slots_lookup; [by destruct (slot s dir k) as [[]|]|].
  rewrite HL, slots_length in Hk by done. lia.
Qed.

(** What [gas_add_link] of [name] answers when it starts in state [k], and the slot it fills, if
    any. The search stops at slot [j]. A page that cannot be read, the name, and an error of
    preparing the page of a free slot are reported, and no slot is filled; otherwise slot
    [j] is filled, and the answer is the one of the synchronous write of its page. *)
Inductive link_outcome (k : kst) (dir : Z) (Ls : list (option (bytes * Z))) (name : bytes) : option errno -> option Z -> Prop :=
| link_unreadable j e :
    stops dir Ls name j -> page_err dir (slot_page j) = Some e -> link_outcome k dir Ls name (Some e) None
| link_exists j ino :
    stops dir Ls name j -> page_err dir (slot_page j) = None -> Ls !! Z.to_nat j = Some (Some (name, ino)) ->
    link_outcome k dir Ls name (Some EEXIST) None
| link_failed j e :
    stops dir Ls name j -> page_err dir (slot_page j) = None -> j = Z.of_nat (length Ls) \/ Ls !! Z.to_nat j = Some None ->
    prepares get_block k (dir, slot_page j) (slot_pos j) DE.sizeof (Some e) -> link_outcome k dir Ls name (Some e) None
| link_done j :
    stops dir Ls name j -> page_err dir (slot_page j) = None -> j = Z.of_nat (length Ls) \/ Ls !! Z.to_nat j = Some None ->
    prepares get_block k (dir, slot_page j) (slot_pos j) DE.sizeof None ->
    link_outcome k dir Ls name (sync_err dir (slot_page j)) (Some j).

Definition link_slots (Ls : list (option (bytes * Z))) (v : option (bytes * Z)) (o : option Z) : list (option (bytes * Z)) :=
  match o with Some j => set_slot Ls j v | None => Ls end.

(** The size of a directory in memory. *)
Definition size_of (s : vfs) (dir : Z) : option Z := i_size <$> k_inodes (v_k s) !! dir.

(** [gas_add_link] of [name] with inode number [ino]: the slots are those of the outcome; a
    directory that got the slot after the last has grown, and a filled slot is dirty or
    written and the directory stamped. *)
Definition linking (s : vfs) (dir : Z) (Ls : list (option (bytes * Z))) (name : bytes) (ino : Z) (err : option errno) (s' : vfs) : Prop :=
  exists o, link_outcome (v_k s) dir Ls name err o /\ dir_ok s' dir (link_slots Ls (Some (name, ino)) o) /\ dir_frame s dir s' /\
    match o with
    | Some j => stamped s' dir /\ saved s' dir (slot_page j) /\
        size_of s' dir = (fun z => Z.max z (slot_pos j + DE.sizeof)) <$> size_of s dir
    | None => size_of s' dir = size_of s dir
    end.

Lemma editing_size s dir n m size s' : editing s dir n m size (v_pref s) (v_lock s) s' -> size_of s' dir = Some size.
Proof. intros E. destruct (ed_dir _ _ _ _ _ _ _ _ E) as (i & i' & _ & Hi' & Hs & _). unfold size_of. rewrite Hi'. cbn. by rewrite Hs. Qed.

Lemma gas_add_link_run s dir Ls i name inode io :
  dir_ok s dir Ls -> bm_ok dir (v_k s) -> k_inodes (v_k s) !! dir = Some i -> valid_name name ->
  k_inodes (v_k s) !! inode = Some io -> 0 < i_ino io < 2 ^ 32 -> slot_pos (nslots (i_size i)) + DE.sizeof < 2 ^ 31 ->
  pwp (gas_add_link get_block (Dentry dir name) inode) s (linking s dir Ls name (i_ino io)).
Proof.
  intros D Hok Hi V Hio Hino Hroom. destruct (do_slots _ _ _ D) as (i' & Hi' & Ds & HL & Ht). simplify_eq.
  assert (HN : Z.of_nat (length (dir_slots s dir (i_size i))) = nslots (i_size i)) by (by apply slots_length).
  assert (0 <= nslots (i_size i)) by lia. set (N := nslots (i_size i)) in *.
  unfold gas_add_link. cbn [d_parent d_name]. apply pwp_bind. eapply pwp_iref; [exact Hi|].
  apply (add_pages_run s dir _ i name inode _ D Hok Hi V) with (n := 0);
    [|lia|fold N; lia|by rewrite Z.sub_0_r|intros; lia].
  intros j Hj. fold N in Hj. unfold at_stop. fold N. rewrite <- HN in Hj. pose proof (stops_add s dir _ name j D Hj) as Hst0.
  assert (Hsame : forall err, link_outcome (v_k s) dir (dir_slots s dir (i_size i)) name err None ->
    linking s dir (dir_slots s dir (i_size i)) name (i_ino io) err s).
  { intros err O. exists None. split; [exact O|]. split; [exact D|]. split; [by apply frame_refl|done]. }
  destruct (page_err dir (slot_page j)) as [e|] eqn:He; [by apply Hsame, (link_unreadable _ _ _ _ j)|].
  assert (Hj0 := proj1 Hj). rewrite HN in Hj0.
  destruct ((j <? N) && _) eqn:Eb.
  { bools. apply bool_decide_eq_true in H3 as [[nm ino] Es].
    assert (Hst := proj2 (proj2 Hj) ltac:(lia)). unfold add_stop in Hst. rewrite He, Es in Hst. apply bool_decide_eq_true in Hst as ->.
    apply Hsame, (link_exists _ _ _ _ j ino); [exact Hst0|exact He|]. rewrite slots_lookup by (fold N; lia). by rewrite Es. }
  intros m1 s1 O Hf Hm1 Hk1 E. pose proof (slot_off_range j) as [Ho1 Ho2].
  assert (Hfree : j = N \/ dir_slots s dir (i_size i) !! Z.to_nat j = Some None).
  { destruct (Z.ltb_spec j N) as [Hlt|]; [right|left; lia]. cbn [andb] in Eb. apply bool_decide_eq_false in Eb.
    rewrite slots_lookup by (fold N; lia). f_equal. by apply eq_None_not_Some. }
  assert (Lm1 : blen m1 = PAGE_CACHE_SIZE) by (destruct O as [-> _]; apply D).
  eapply pwp_mono; [apply (link_entry_run s dir name inode j i io m1 s1 Ds ltac:(lia) Hio Lm1); [apply D|exact E]|].
  rewrite Hk1. intros err s' [(e & -> & HP & E')|(m2 & Em & HP & (E' & Hst & Hsv) & ->)]; pose proof (editing_size _ _ _ _ _ _ E') as Es'.
  - exists None. split; [apply (link_failed _ _ _ _ j); [done|done|by rewrite HN|done]|].
    cbn [link_slots]. rewrite Es'. unfold size_of. rewrite Hi. split; [|split; [by eapply editing_frame|done]].
    eapply (dir_ok_kept s dir _ i _ m1); [exact D|exact Hi|exact E'|exact Lm1| |].
    + intros Hle. destruct (Z_lt_le_dec j N) as [Hlt|].
      { pose proof (slot_pos_before _ j Ds ltac:(fold N; lia)). unfold slot_pos, DE.sizeof in *. lia. }
      assert (j = N) as -> by lia. destruct (slot_pos_end _ Ds Hroom) as (_ & _ & _ & [[Hp Hoff]|(_ & Hoff & _)]); fold N in Hp, Hoff || fold N in Hoff.
      * rewrite Hp in Hle. rewrite Hoff in Hf. pose proof (Z.div_mod (i_size i) 4096 ltac:(lia)).
        unfold PAGE_CACHE_SIZE in Hle. replace (i_size i mod 4096) with 0 in Hf by (pose proof (Z.mod_pos_bound (i_size i) 4096 ltac:(lia)); lia). done.
      * by rewrite Hoff in Hf.
    + intros k Hk Hp. assert (Hnul : nul_at (shown s (dir, slot_page k)) (slot_off k)) by (apply D; rewrite slots_length; done).
      destruct (decide (k = j)) as [->|Hne].
      * rewrite Hm1 by (fold N in Hk; lia). done.
      * rewrite Hp in Hnul. split; [|by eapply nul_only; [exact O|by apply slot_disjoint|]].
        unfold slot. rewrite Hp. pose proof (slot_off_range k). eapply slot_entry_only; [exact O|lia| |].
        { rewrite (do_pages _ _ _ D). lia. }
        by apply slot_disjoint.
  - exists (Some j). split; [apply (link_done _ _ _ _ j); [done|done|by rewrite HN|done]|].
    cbn [link_slots]. rewrite Es'. unfold size_of. rewrite Hi. split; [|split; [by eapply editing_frame|done]].
    rewrite <- (slot_entry_written _ _ _ _ _ Em V Hino).
    eapply dir_ok_slot; [exact D|exact Hi|fold N; lia|exact E'| | |done| | |].
    + rewrite (dirent_write_blen _ _ _ _ _ Em). exact Lm1.
    + eapply only_in_trans; [exact O|]. by eapply only_in_dirent.
    + assert (Hs31 := proj1 Ds). destruct (Z_lt_le_dec j N).
      * pose proof (slot_pos_before _ j Ds ltac:(fold N; lia)). lia.
      * assert (j = N) as -> by lia. lia.
    + intros nm ino Hs. rewrite (slot_entry_written _ _ _ _ _ Em V Hino) in Hs. by simplify_eq.
    + by eapply nul_written.
Qed.

(** ** Removing *)

Lemma set_slot_in Ls j v : 0 <= j < Z.of_nat (length Ls) -> set_slot Ls j v = <[Z.to_nat j := v]> Ls.
Proof. intros Hj. unfold set_slot. by rewrite (proj2 (Z.ltb_lt _ _)) by lia. Qed.

(** What [gas_delete_entry] of slot [j] answers when it starts in state [k], and whether it frees
    the slot: it does unless preparing the page fails. *)
Inductive unlink_outcome (k : kst) (dir j : Z) : option errno -> bool -> Prop :=
| unlink_failed e :
    prepares get_block k (dir, slot_page j) (slot_pos j) DE.sizeof (Some e) -> unlink_outcome k dir j (Some e) false
| unlink_done :
    prepares get_block k (dir, slot_page j) (slot_pos j) DE.sizeof None -> unlink_outcome k dir j (sync_err dir (slot_page j)) true.

Definition unlink_slots (Ls : list (option (bytes * Z))) (j : Z) (b : bool) : list (option (bytes * Z)) :=
  if b then <[Z.to_nat j := None]> Ls else Ls.

(** [gas_delete_entry] of slot [j]. *)
Definition unlinking (s : vfs) (dir : Z) (Ls : list (option (bytes * Z))) (j : Z) (err : option errno) (s' : vfs) : Prop :=
  exists b, unlink_outcome (v_k s) dir j err b /\ dir_ok s' dir (unlink_slots Ls j b) /\ dir_frame s dir s' /\
    size_of s' dir = size_of s dir /\ (b = true -> stamped s' dir /\ saved s' dir (slot_page j)).

Lemma kept_ok s dir Ls i n s' : dir_ok s dir Ls -> k_inodes (v_k s) !! dir = Some i -> kept s dir n (i_size i) s' ->
  dir_ok s' dir Ls /\ dir_frame s dir s'.
Proof.
  intros D Hi K. split; [|by eapply editing_frame]. destruct (do_slots _ _ _ D) as (i' & Hi' & Ds & HL & Ht). simplify_eq.
  eapply (dir_ok_kept s dir _ i n); [exact D|exact Hi|exact K|apply D| |].
  - intros Hle. apply Ht. rewrite pages_of by done. unfold PAGE_CACHE_SIZE in Hle. dlia.
  - intros j Hj <-. split; [done|]. apply D. by rewrite slots_length.
Qed.

Lemma gas_delete_entry_slot s dir Ls j : dir_ok s dir Ls -> bm_ok dir (v_k s) -> 0 <= j < Z.of_nat (length Ls) ->
  pwp (gas_delete_entry get_block ((dir, slot_page j), slot_off j)) (with_pref (v_pref s ⊎ {[+ (dir, slot_page j) +]}) s)
    (unlinking s dir Ls j).
Proof.
  intros D Hok Hj. destruct (do_slots _ _ _ D) as (i & Hi & Ds & HL & Ht).
  assert (HN : Z.of_nat (length Ls) = nslots (i_size i)) by (rewrite HL; by apply slots_length).
  eapply pwp_mono; [apply (gas_delete_entry_run s dir Ls i j D Hok Hi); lia|].
  intros err s' [(e & -> & HP & K)|(m & Em & HP & (E & Hst & Hsv) & ->)].
  - destruct (kept_ok s dir Ls i _ s' D Hi K). exists false. split; [by constructor|]. split; [done|]. split; [done|]. split; [|done].
    rewrite (editing_size _ _ _ _ _ _ K). unfold size_of. by rewrite Hi.
  - exists true. split; [by constructor|]. cbn [unlink_slots]. rewrite (editing_size _ _ _ _ _ _ E). unfold size_of. rewrite Hi.
    split; [|split; [by eapply editing_frame|done]]. rewrite <- (set_slot_in Ls j None) by done.
    rewrite <- (slot_entry_cleared _ _ _ Em).
    pose proof (slot_pos_before _ j Ds ltac:(lia)) as Hpos. assert (Hs31 := proj1 Ds).
    eapply (dir_ok_slot s dir Ls i j m (i_size i)); [exact D|exact Hi|lia|exact E| |by apply only_in_clear|lia|lia| |].
    + rewrite (f_set_blen _ _ _ _ _ Em). apply D.
    + intros name ino. by rewrite (slot_entry_cleared _ _ _ Em).
    + eapply nul_cleared; [exact Em|]. by apply D.
Qed.

(** ** Finding *)

(** The first slot that can be read and holds the name. *)
Lemma gas_find_entry_slot s dir Ls name : dir_ok s dir Ls -> valid_name name ->
  exists j, is_first (found_at s dir name) 0 (Z.of_nat (length Ls)) j /\
    (j < Z.of_nat (length Ls) -> exists ino, Ls !! Z.to_nat j = Some (Some (name, ino)) /\ page_err dir (slot_page j) = None) /\
    gas_find_entry (Dentry dir name) s =
      Some (if j <? Z.of_nat (length Ls)
            then (Some ((dir, slot_page j), slot_off j), with_pref (v_pref s ⊎ {[+ (dir, slot_page j) +]}) s)
            else (None, s)).
Proof.
  intros D V. destruct (do_slots _ _ _ D) as (i & Hi & Ds & HL & _).
  assert (HN : Z.of_nat (length Ls) = nslots (i_size i)) by (rewrite HL; by apply slots_length). rewrite HN.
  destruct (gas_find_entry_run s dir Ls i name D Hi V) as (j & Hj & E). exists j. split; [done|]. split; [|done].
  intros Hlt. destruct Hj as (Hr & _ & Ht). specialize (Ht Hlt). unfold found_at in Ht.
  destruct (page_err _ _); [done|]. destruct (slot s dir j) as [[nm ino]|] eqn:Es; [|done]. apply bool_decide_eq_true in Ht as ->.
  exists ino. rewrite HL, slots_lookup by lia. by rewrite Es.
Qed.

(** When every page can be read, the slots decide. *)
Lemma found_names s dir Ls name j : dir_ok s dir Ls -> NoDup (names Ls) -> (forall n, page_err dir n = None) ->
  is_first (found_at s dir name) 0 (Z.of_nat (length Ls)) j ->
  if j <? Z.of_nat (length Ls) then exists ino, Ls !! Z.to_nat j = Some (Some (name, ino)) /\ dir_map Ls !! name = Some ino
  else dir_map Ls !! name = None /\ name ∉ names Ls.
Proof.
  intros D ND Hrd (Hr & Hlow & Ht). destruct (do_slots _ _ _ D) as (i & Hi & Ds & HL & _).
  assert (HN : Z.of_nat (length Ls) = nslots (i_size i)) by (rewrite HL; by apply slots_length).
  destruct (Z.ltb_spec j (Z.of_nat (length Ls))) as [Hlt|].
  - specialize (Ht Hlt). unfold found_at in Ht. rewrite Hrd in Ht. destruct (slot s dir j) as [[nm ino]|] eqn:Es; [|done].
    apply bool_decide_eq_true in Ht as ->. exists ino.
    assert (E : Ls !! Z.to_nat j = Some (Some (name, ino))) by (rewrite HL, slots_lookup by lia; by rewrite Es).
    split; [done|]. apply dir_map_in; [done|]. by eapply list_elem_of_lookup_2.
  - assert (Hn : name ∉ names Ls).
    { unfold names. rewrite list_elem_of_fmap. intros ((nm & ino) & -> & Hin). apply list_elem_of_omap in Hin as (x & Hin & Ex).
      cbn in Ex. subst x. apply list_elem_of_lookup in Hin as [k Hk]. assert (Hkl : (k < length Ls)%nat) by (by eapply lookup_lt_Some).
      specialize (Hlow (Z.of_nat k) ltac:(lia)). unfold found_at in Hlow. rewrite Hrd in Hlow.
      rewrite HL in Hk. replace k with (Z.to_nat (Z.of_nat k)) in Hk by lia. rewrite slots_lookup in Hk by lia.
      injection Hk as Hk. rewrite Hk in Hlow. cbn in Hlow. by apply bool_decide_eq_false in Hlow. }
    split; [by apply dir_map_none|done].
Qed.

Lemma set_slot_link Ls j name ino : NoDup (names Ls) -> name ∉ names Ls ->
  j = Z.of_nat (length Ls) \/ 0 <= j /\ Ls !! Z.to_nat j = Some None ->
  dir_map (set_slot Ls j (Some (name, ino))) = <[name := ino]> (dir_map Ls) /\ NoDup (names (set_slot Ls j (Some (name, ino)))).
Proof.
  intros ND Hn [->|[Hj0 Hj]]; unfold set_slot.
  - rewrite Z.ltb_irrefl. split; [by apply dir_map_link_end|]. rewrite names_app. apply list.NoDup_app. split; [done|].
    split; [|apply NoDup_singleton]. intros x Hx ->%list_elem_of_singleton. done.
  - rewrite (proj2 (Z.ltb_lt _ _)) by (apply lookup_lt_Some in Hj; lia).
    destruct (dir_map_link_free Ls _ name ino Hj) as [E|?]; [|done]. split; [done|].
    rewrite (names_link Ls _ name ino Hj). by constructor.
Qed.

(** ** The claims *)

(** C16: [gas_add_link] goes through the slots up to the first one that is free (or the end), in
    a page that cannot be read, or holds the name. An unreadable page is reported with its
    error and the name with EEXIST; at a free slot the error of preparing its page is reported;
    in these cases no slot changes, and there are no others. When the page is prepared the
    name and the inode number are put in that slot, or in one more slot at the end, with the
    size of the directory grown to hold it; the page is then dirty or written and the
    directory stamped, and the answer is the one of the synchronous write of the page (in a
    directory with the dirsync option, where a failed write is reported although the slot is
    filled). No other slot, file, inode, page reference or lock changes. It always returns. *)
Theorem gas_add_link_spec s dir Ls i name inode io :
  dir_ok s dir Ls -> bm_ok dir (v_k s) -> k_inodes (v_k s) !! dir = Some i -> valid_name name ->
  k_inodes (v_k s) !! inode = Some io -> 0 < i_ino io < 2 ^ 32 -> slot_pos (nslots (i_size i)) + DE.sizeof < 2 ^ 31 ->
  pwp (gas_add_link get_block (Dentry dir name) inode) s (linking s dir Ls name (i_ino io)).
Proof using PL. by apply gas_add_link_run. Qed.

End spec.
