(* ===== verification/DirRead.v ===== *)
(** * Reading directories, and new ones

    [gas_inode_by_name], which goes through [gas_iterate]; [gas_empty_dir]; and the
    directory [gas_make_empty] writes. *)

From S2P Require Import Prelude Mem Layout Kernel Itree Vfs Dir DirSlots DirEdit DirOps DirSpec.

(** ** Characters *)

Lemma load_1 m off : 0 <= off < blen m -> load 1 m off = Some (byte.unsigned (nth (Z.to_nat off) m Byte.x00)).
Proof.
  intros Hr. rewrite load_in_range by (apply in_range_spec; lia). f_equal.
  assert (E : sub_bytes 1 m off = [nth (Z.to_nat off) m Byte.x00]).
  { apply bytes_ext; [rewrite sub_bytes_length; [done|apply in_range_spec; lia]|]. intros i. rewrite nth_sub_bytes.
    destruct i as [|i]; cbn; [f_equal; lia|]. by destruct i. }
  rewrite E. apply le_combine_1.
Qed.

(** Character [k] of a string of fewer than [n] characters; the one after the last is NUL. *)
Lemma cstring_char n m k : (length (cstring n m) < n)%nat -> (length (cstring n m) < length m)%nat ->
  (k <= length (cstring n m))%nat -> nth k m Byte.x00 = nth k (cstring n m ++ [Byte.x00]) Byte.x00.
Proof.
  revert m k. induction n as [|n IH]; intros m k Hn Hm Hk; [lia|]. destruct m as [|b m]; [cbn in Hm; lia|]. cbn in *.
  destruct (Z.eqb_spec (byte.unsigned b) 0) as [E|E]; cbn in *.
  - assert (k = 0%nat) as -> by lia. cbn. assert (b = Byte.x00) as ->; [|done].
    rewrite <- (byte.of_Z_unsigned b), E. done.
  - destruct k as [|k]; [done|]. apply IH; lia.
Qed.

(** A NUL bounds a string. *)
Lemma cstring_nul n m k : (k < length m)%nat -> nth k m Byte.x00 = Byte.x00 -> (length (cstring n m) <= k)%nat.
Proof.
  revert m k. induction n as [|n IH]; intros m k Hk Hz; [destruct m; cbn; lia|]. destruct m as [|b m]; [cbn; lia|]. cbn in *.
  destruct (Z.eqb_spec (byte.unsigned b) 0); [cbn; lia|]. destruct k as [|k].
  - subst b. by destruct n0.
  - cbn. specialize (IH m k ltac:(lia) Hz). lia.
Qed.

Section read.
Context `{KernelApi, PL : PageLaws} {get_block : Z -> Z -> bool -> K (option errno * option (Z * bool))}
  `{BM : !BlockMapper get_block}.

Lemma slot_cstring s dir Ls i j nm ino : dir_ok s dir Ls -> k_inodes (v_k s) !! dir = Some i ->
  0 <= j < nslots (i_size i) -> slot s dir j = Some (nm, ino) ->
  valid_name nm /\ cstring 256 (sub_bytes 256 (shown s (dir, slot_page j)) (slot_off j)) = nm /\ 0 < ino < 2 ^ 32 /\
  f_get (shown s (dir, slot_page j)) (slot_off j) DE.de_inode = Some ino.
Proof.
  intros D Hi Hj Hs. split; [by eapply slot_name|]. destruct (slot_reads s dir Ls j D) as (ino' & E & Hr & Es).
  rewrite Hs in Es. destruct (Z.eqb_spec ino' 0); [done|]. split; [congruence|]. assert (ino = ino') as -> by congruence.
  split; [lia|done].
Qed.

(** The characters of a name in a slot. *)
Lemma slot_char s dir Ls i j nm ino k : dir_ok s dir Ls -> k_inodes (v_k s) !! dir = Some i ->
  0 <= j < nslots (i_size i) -> slot s dir j = Some (nm, ino) -> (k <= length nm)%nat ->
  char_at (shown s (dir, slot_page j)) (slot_off j + Z.of_nat k) = Some (byte.unsigned (nth k (nm ++ [Byte.x00]) Byte.x00)).
Proof.
  intros D Hi Hj Hs Hk. destruct (slot_cstring s dir Ls i j nm ino D Hi Hj Hs) as ([Hl _] & E & _).
  pose proof (slot_off_range j) as [Ho1 Ho2]. unfold DE.sizeof in *.
  assert (Hb := do_pages _ _ _ D (slot_page j)). unfold char_at. rewrite load_1 by lia. do 2 f_equal.
  assert (Hsub : length (sub_bytes 256 (shown s (dir, slot_page j)) (slot_off j)) = 256%nat)
    by (apply sub_bytes_length, in_range_spec; lia).
  rewrite <- E, <- cstring_char by (rewrite ?Hsub, ?E; lia). rewrite nth_sub_bytes, (proj2 (Nat.ltb_lt _ _)) by lia. f_equal. lia.
Qed.

(** ** [gas_empty_dir] *)

(** An entry that keeps a directory from being empty. *)
Definition blocks_empty (self : Z) (x : option (bytes * Z)) : bool :=
  match x with
  | None => false
  | Some (nm, ino) => if bool_decide (nm = [dot]) then negb (ino =? self) else negb (bool_decide (nm = [dot; dot]))
  end.

Lemma unsigned_inj a b : byte.unsigned a = byte.unsigned b -> a = b.
Proof. intros E. by rewrite <- (byte.of_Z_unsigned a), E, byte.of_Z_unsigned. Qed.

Lemma not_empty_slot s dir Ls i j self : dir_ok s dir Ls -> k_inodes (v_k s) !! dir = Some i ->
  0 <= j < nslots (i_size i) ->
  not_empty_at (shown s (dir, slot_page j)) self (slot_off j) = Some (if blocks_empty self (slot s dir j) then Some tt else None).
Proof.
  intros D Hi Hj. unfold not_empty_at. destruct (slot s dir j) as [[nm ino]|] eqn:Es.
  2: { destruct (slot_reads s dir Ls j D) as (ino & E & _ & Es'). rewrite E. cbn [mbind option_bind].
       rewrite Es in Es'. by destruct (ino =? 0). }
  destruct (slot_cstring s dir Ls i j nm ino D Hi Hj Es) as ([Hl HF] & _ & Hino & E). rewrite E. cbn [mbind option_bind].
  rewrite (proj2 (Z.eqb_neq ino 0)) by lia.
  pose proof (fun k => slot_char s dir Ls i j nm ino k D Hi Hj Es) as Hc. unfold DE.de_name. rewrite Z.add_0_r.
  pose proof (Hc 0%nat ltac:(lia)) as C0. pose proof (Hc 1%nat ltac:(lia)) as C1. cbn [Z.of_nat] in C0. rewrite Z.add_0_r in C0.
  change (Z.of_nat 1) with 1 in C1. rewrite C0. cbn [mbind option_bind blocks_empty].
  destruct nm as [|a nm]; [cbn in Hl; lia|]. cbn [app nth] in C1 |- *. inversion_clear HF as [|? ? Ha HF'].
  destruct (Z.eqb_spec (byte.unsigned a) (byte.unsigned dot)) as [Ea|Ea]; cbn [negb].
  2: { by rewrite !bool_decide_eq_false_2 by (intros [=]; congruence). }
  apply unsigned_inj in Ea as ->. rewrite C1. cbn [mbind option_bind]. destruct nm as [|b nm].
  { cbn. rewrite ?bool_decide_eq_true_2 by done. by destruct (ino =? self). }
  cbn [app nth]. inversion_clear HF' as [|? ? Hb HF'']. rewrite (proj2 (Z.eqb_neq _ 0)) by done.
  rewrite (bool_decide_eq_false_2 (dot :: b :: nm = [dot])) by done.
  destruct (Z.eqb_spec (byte.unsigned b) (byte.unsigned dot)) as [Eb|Eb]; cbn [negb].
  2: { by rewrite bool_decide_eq_false_2 by (intros [=]; congruence). }
  apply unsigned_inj in Eb as ->. pose proof (Hc 2%nat ltac:(cbn; lia)) as C2. change (Z.of_nat 2) with 2 in C2. rewrite C2.
  cbn [mbind option_bind app nth]. destruct nm as [|c nm]; [done|]. cbn [app nth]. inversion_clear HF'' as [|? ? Hc' _].
  rewrite (proj2 (Z.eqb_neq _ 0)) by done. by rewrite bool_decide_eq_false_2 by done.
Qed.

(** Slot [j] can be read and keeps the directory from being empty. *)
Definition blocked_at (s : vfs) (dir self j : Z) : bool :=
  match page_err dir (slot_page j) with None => blocks_empty self (slot s dir j) | Some _ => false end.

Lemma empty_pages_run s dir Ls i : dir_ok s dir Ls -> k_inodes (v_k s) !! dir = Some i ->
  forall todo n, 0 <= n <= gas_dir_pages i -> todo = Z.to_nat (gas_dir_pages i - n) ->
  exists b, empty_pages todo dir n s = Some (b, s) /\
    (b = true <-> forall j, Z.min (15 * n) (nslots (i_size i)) <= j < nslots (i_size i) -> blocked_at s dir (i_ino i) j = false).
Proof.
  intros D Hi. destruct (do_slots _ _ _ D) as (i' & Hi' & Ds & _). simplify_eq. set (N := nslots (i_size i)).
  induction todo as [|todo IH]; intros n Hn Htodo; cbn [empty_pages].
  { exists true. split; [done|]. split; [|done]. intros _ j Hj. pose proof (pages_slots i n Ds ltac:(lia)). unfold N in *. lia. }
  assert (HN : 15 * n < N) by (apply (pages_slots i n Ds); lia).
  destruct (last_byte_of i n Ds) as [_ Hlim]; [lia|]. unfold page_slots in Hlim. fold N in Hlim.
  destruct (IH (n + 1)) as (b & Eq & Hb); [lia|lia|]. unfold gas_dir_get_page at 1. destruct (page_err dir n) as [e|] eqn:He.
  { exists b. rewrite (P_read_fail _ _ e) by done. split; [exact Eq|]. rewrite Hb. split; intros Hall j Hj; [|apply Hall; lia].
    destruct (Z_lt_le_dec j (15 * (n + 1))); [|apply Hall; lia]. unfold blocked_at. replace j with (15 * n + (j - 15 * n)) by lia.
    destruct (slot_of_page n (j - 15 * n)) as [-> _]; [lia|]. by rewrite He. }
  rewrite P_read_ok by done. set (s1 := with_pref _ s).
  assert (Hbody : forall k, 0 <= k < Z.min 15 (N - 15 * n) -> not_empty_at (shown s (dir, n)) (i_ino i) (DE.sizeof * k) =
    Some (if blocked_at s dir (i_ino i) (15 * n + k) then Some tt else None)).
  { intros k Hk. destruct (slot_of_page n k) as [E1 E2]; [lia|].
    pose proof (not_empty_slot s dir Ls i (15 * n + k) (i_ino i) D Hi ltac:(fold N; lia)) as Hf. rewrite E1, E2 in Hf. rewrite Hf.
    unfold blocked_at. by rewrite E1, He. }
  destruct (for_entries_run ENTRIES (gas_last_byte i n - DE.sizeof) (not_empty_at (shown s (dir, n)) (i_ino i))
    (fun k => if blocked_at s dir (i_ino i) (15 * n + k) then Some tt else None) 0 (Z.min 15 (N - 15 * n)))
    as (r & (Hr0 & Hlow & Ht) & Er); [exact Hbody|exact Hlim|unfold ENTRIES; lia|lia|].
  change (DE.sizeof * 0) with 0 in Er. unfold page_data at 1. rewrite P_get, (P_iref _ i) by done.
  change (shown s1 (dir, n)) with (shown s (dir, n)). erewrite P_plift by exact Er. unfold gas_dir_put_page at 1, s1. rewrite P_put_taken.
  assert (Hf : forall k, 0 <= k < 15 -> 15 * n + k < N -> k < r -> blocked_at s dir (i_ino i) (15 * n + k) = false).
  { intros k Hk HkN Hkr. specialize (Hlow k ltac:(lia)). cbn in Hlow. destruct (blocked_at _ _ _ _); [|done].
    by rewrite bool_decide_eq_true_2 in Hlow by by eexists. }
  destruct (Z.ltb_spec r (Z.min 15 (N - 15 * n))) as [Hlt|Hge].
  - specialize (Ht Hlt). cbn in Ht. destruct (blocked_at s dir (i_ino i) (15 * n + r)) eqn:Eb; [|by rewrite bool_decide_eq_false_2 in Ht by (by intros [])].
    exists false. split; [done|]. split; [done|]. intros Hall. rewrite Hall in Eb by lia. done.
  - exists b. split; [exact Eq|]. rewrite Hb. split; intros Hall j Hj; [|apply Hall; lia].
    destruct (Z_lt_le_dec j (15 * (n + 1))); [|apply Hall; lia]. replace j with (15 * n + (j - 15 * n)) by lia. apply Hf; lia.
Qed.

Lemma gas_empty_dir_run s dir Ls i : dir_ok s dir Ls -> k_inodes (v_k s) !! dir = Some i ->
  exists b, gas_empty_dir dir s = Some (b, s) /\
    (b = true <-> forall j x, Ls !! Z.to_nat j = Some x -> 0 <= j -> page_err dir (slot_page j) = None -> blocks_empty (i_ino i) x = false).
Proof.
  intros D Hi. destruct (do_slots _ _ _ D) as (i' & Hi' & Ds & HL & _). simplify_eq.
  assert (0 <= gas_dir_pages i). { rewrite pages_of by done. destruct Ds. apply Z.div_pos; lia. }
  destruct (empty_pages_run s dir _ i D Hi _ 0 ltac:(lia) eq_refl) as (b & E & Hb). exists b.
  unfold gas_empty_dir. rewrite (P_iref _ i) by done. rewrite Z.sub_0_r in E. split; [exact E|]. rewrite Hb.
  assert (HN : Z.of_nat (length (dir_slots s dir (i_size i))) = nslots (i_size i)) by (by apply slots_length).
  rewrite Z.min_l by lia. split.
  - intros Hall j x Hj Hj0 Hp. assert (Hlt : (Z.to_nat j < length (dir_slots s dir (i_size i)))%nat) by (by eapply lookup_lt_Some).
    rewrite slots_lookup in Hj by lia. injection Hj as <-. specialize (Hall j ltac:(lia)). unfold blocked_at in Hall. by rewrite Hp in Hall.
  - intros Hall j Hj. unfold blocked_at. destruct (page_err dir (slot_page j)) eqn:Hp; [done|].
    apply (Hall j); [by apply slots_lookup|lia|done].
Qed.

(** ** [gas_inode_by_name] *)

(** [strlen] of a name in a slot, used or free. *)
Lemma slot_strlen s dir Ls i j : dir_ok s dir Ls -> k_inodes (v_k s) !! dir = Some i -> 0 <= j < nslots (i_size i) ->
  exists len, strlen (shown s (dir, slot_page j)) (slot_off j) = Some len /\
    forall nm ino, slot s dir j = Some (nm, ino) ->
      len = blen nm /\ sub_bytes (Z.to_nat len) (shown s (dir, slot_page j)) (slot_off j) = nm.
Proof.
  intros D Hi Hj. destruct (do_slots _ _ _ D) as (i' & Hi' & Ds & HL & _). simplify_eq.
  pose proof (slot_off_range j) as [Ho1 Ho2]. unfold DE.sizeof in *.
  assert (Hb := do_pages _ _ _ D (slot_page j)). set (m := shown s (dir, slot_page j)) in *. set (off := slot_off j) in *.
  set (l := drop (Z.to_nat off) m). assert (Hl : (256 < length l)%nat) by (unfold l; rewrite length_drop; unfold blen in Hb; lia).
  assert (Hz : nth 255 l Byte.x00 = Byte.x00).
  { assert (Hn : nul_at m off) by (apply D; by rewrite slots_length). unfold nul_at in Hn. rewrite load_1 in Hn by lia.
    injection Hn as Hn. unfold l. rewrite nth_skipn. replace (Z.to_nat off + 255)%nat with (Z.to_nat (off + 255)) by lia.
    rewrite <- (byte.of_Z_unsigned (nth _ m _)), Hn. done. }
  assert (Hlen : forall n, (length (cstring n l) <= 255)%nat) by (intros n; apply cstring_nul; [lia|done]).
  assert (Hm : (255 < length m)%nat) by (unfold l in Hl; rewrite length_drop in Hl; lia).
  exists (blen (cstring (length m) l)). unfold strlen. fold l. split.
  - rewrite (proj2 (Z.leb_le 0 off)), (proj2 (Z.ltb_lt _ _)); [done| |lia]. specialize (Hlen (length m)).
    change (blen m) with (Z.of_nat (length m)) in *. unfold blen. lia.
  - intros nm ino Hs. destruct (slot_cstring s dir _ i j nm ino D Hi Hj Hs) as ([Hnl _] & E & _). fold m off in E.
    unfold sub_bytes in E. fold l in E. rewrite <- cstring_take in E.
    assert (E' : cstring (length m) l = nm).
    { rewrite <- E. symmetry. apply cstring_limit; specialize (Hlen (length m)); lia. }
    rewrite E'. split; [done|]. unfold blen. rewrite Nat2Z.id. apply bytes_ext.
    { rewrite sub_bytes_length; [done|]. apply in_range_spec. lia. }
    intros k. rewrite nth_sub_bytes. destruct (Nat.ltb_spec k (length nm)) as [Hk|Hk]; [|symmetry; by apply nth_overflow].
    rewrite <- nth_skipn. change (skipn (Z.to_nat off) m) with l.
    rewrite (cstring_char (length m) l k) by (rewrite E'; lia). rewrite E'. by rewrite app_nth1.
Qed.

(** [gas_dir_emit] with [gas_match] on a slot: it stops at the name. *)
Lemma emit_slot s dir Ls i j name pos : dir_ok s dir Ls -> k_inodes (v_k s) !! dir = Some i -> 0 <= j < nslots (i_size i) ->
  gas_dir_emit (gas_match name) (shown s (dir, slot_page j)) 0 pos (slot_off j) =
    Some (match slot s dir j with Some (nm, ino) => if bool_decide (nm = name) then (ino, false) else (0, true) | None => (0, true) end).
Proof.
  intros D Hi Hj. destruct (slot_strlen s dir Ls i j D Hi Hj) as (len & El & Hnm). unfold gas_dir_emit. rewrite El.
  cbn [mbind option_bind]. destruct (slot s dir j) as [[nm ino]|] eqn:Es.
  - destruct (slot_cstring s dir Ls i j nm ino D Hi Hj Es) as (_ & _ & Hino & Ef). rewrite Ef. cbn [mbind option_bind].
    rewrite (proj2 (Z.eqb_neq ino 0)) by lia. destruct (Hnm nm ino eq_refl) as [-> ->]. unfold gas_match.
    destruct (decide (nm = name)) as [->|Hne].
    + rewrite Z.eqb_refl, !bool_decide_eq_true_2 by done. done.
    + rewrite (bool_decide_eq_false_2 (nm = name)), (bool_decide_eq_false_2 (name = nm)) by congruence.
      by destruct (_ =? _).
  - destruct (slot_reads s dir Ls j D) as (ino & Ef & _ & Es'). rewrite Ef. cbn [mbind option_bind].
    rewrite Es in Es'. by destruct (ino =? 0).
Qed.

(** Slot [j] holds [name]. *)
Definition name_at (s : vfs) (dir : Z) (name : bytes) (j : Z) : bool :=
  match slot s dir j with Some (nm, _) => bool_decide (nm = name) | None => false end.

(** The entry that would cross the end of the page cannot be read. *)
Lemma emit_overread {X} (actor : X -> bytes -> Z -> Z -> Z -> Z -> X * Z) m x pos :
  blen m = PAGE_CACHE_SIZE -> gas_dir_emit actor m x pos (15 * DE.sizeof) = None.
Proof.
  intros Hm. unfold gas_dir_emit. destruct (strlen m _); [|done]. cbn [mbind option_bind]. unfold f_get, load.
  destruct (in_range _ _ _) eqn:Er; [|done]. apply in_range_spec in Er. rewrite Hm in Er. unfold PAGE_CACHE_SIZE, DE.sizeof in Er. cbn in Er. lia.
Qed.

Lemma emit_loop_run s dir Ls i name : dir_ok s dir Ls -> k_inodes (v_k s) !! dir = Some i ->
  forall fuel k, 0 <= k <= Z.min (nslots (i_size i)) 15 -> 16 - k < Z.of_nat fuel ->
  exists j, is_first (name_at s dir name) k (Z.min (nslots (i_size i)) 15) j /\
    emit_loop (gas_match name) fuel (shown s (dir, 0)) (i_size i) 0 (DE.sizeof * k) (DE.sizeof * k) =
      if j <? Z.min (nslots (i_size i)) 15 then
        match slot s dir j with Some (_, ino) => Some (ino, DE.sizeof * j, false) | None => None end
      else if i_size i <=? 15 * DE.sizeof then Some (0, DE.sizeof * j, true) else None.
Proof.
  intros D Hi. destruct (do_slots _ _ _ D) as (i' & Hi' & Ds & HL & _). simplify_eq.
  destruct (dir_size_split _ Ds) as (q & r & Hs & Hq & Hr & HN & _). rewrite HN.
  induction fuel as [|fuel IH]; intros k Hk Hf; [lia|]. cbn [emit_loop].
  rewrite (proj2 (Z.ltb_lt (DE.sizeof * k) PAGE_CACHE_SIZE)) by (unfold DE.sizeof, PAGE_CACHE_SIZE; lia). cbn [andb].
  destruct (Z_lt_le_dec k (Z.min (15 * q + r) 15)) as [Hlt|Hge].
  1: rewrite (proj2 (Z.ltb_lt (DE.sizeof * k) (i_size i))) by (rewrite Hs; unfold DE.sizeof; lia).
  - pose proof (emit_slot s dir _ i k name (DE.sizeof * k) D Hi ltac:(lia)) as Ee.
    destruct (slot_of_page 0 k ltac:(lia)) as [P1 P2]. rewrite Z.mul_0_r, Z.add_0_l in P1, P2. rewrite P1, P2 in Ee. rewrite Ee.
    destruct (name_at s dir name k) eqn:En; unfold name_at in En; destruct (slot s dir k) as [[nm ino]|] eqn:Es; try done.
    + rewrite En. exists k. rewrite (proj2 (Z.ltb_lt k _)), Es by lia. split; [|done].
      split; [lia|]. split; [lia|]. intros _. unfold name_at. by rewrite Es.
    + rewrite En. cbn [mbind option_bind]. replace (DE.sizeof * k + DE.sizeof) with (DE.sizeof * (k + 1)) by lia.
      destruct (IH (k + 1)) as (j & Hj & ->); [lia|lia|]. exists j. split; [|done].
      eapply (is_first_skip _ _ (k + 1)); [lia| |exact Hj]. intros x Hx. replace x with k by lia. unfold name_at. by rewrite Es.
    + cbn [mbind option_bind]. replace (DE.sizeof * k + DE.sizeof) with (DE.sizeof * (k + 1)) by lia.
      destruct (IH (k + 1)) as (j & Hj & ->); [lia|lia|]. exists j. split; [|done].
      eapply (is_first_skip _ _ (k + 1)); [lia| |exact Hj]. intros x Hx. replace x with k by lia. unfold name_at. by rewrite Es.
  - exists k. rewrite (proj2 (Z.ltb_ge k (Z.min _ _))) by lia. split; [split; [lia|split; intros; lia]|].
    destruct (Z.leb_spec (i_size i) (15 * DE.sizeof)) as [Hle|Hgt].
    + rewrite (proj2 (Z.ltb_ge _ _)); [done|]. rewrite Hs in *. unfold DE.sizeof in *. lia.
    + rewrite Hs in Hgt. unfold DE.sizeof in Hgt. assert (k = 15) as -> by lia.
      rewrite (proj2 (Z.ltb_lt _ _)) by (rewrite Hs; unfold DE.sizeof; lia). replace (DE.sizeof * 15) with (15 * DE.sizeof) by lia.
      by rewrite emit_overread by apply D.
Qed.

Lemma gas_inode_by_name_run s dir Ls i name :
  dir_ok s dir Ls -> k_inodes (v_k s) !! dir = Some i ->
  let K := Z.min (Z.of_nat (length Ls)) 15 in
  exists j, is_first (name_at s dir name) 0 K j /\
    gas_inode_by_name dir name s =
      match page_err dir 0 with
      | Some _ => Some (0, s)
      | None =>
          if j <? K then match Ls !! Z.to_nat j with Some (Some (_, ino)) => Some (ino, s) | _ => None end
          else if i_size i <=? 15 * DE.sizeof then Some (0, s) else None
      end.
Proof using Type.
  intros D Hi K. destruct (do_slots _ _ _ D) as (i' & Hi' & Ds & HL & _). simplify_eq.
  assert (HN : Z.of_nat (length (dir_slots s dir (i_size i))) = nslots (i_size i)) by (by apply slots_length).
  unfold K. rewrite HN. destruct (dir_size_split _ Ds) as (q & r & Hs & Hq & Hr & HNq & _).
  destruct (emit_loop_run s dir _ i name D Hi ENTRIES 0) as (j & Hj & E); [lia|unfold ENTRIES; lia|].
  exists j. split; [done|]. unfold gas_inode_by_name, gas_iterate. rewrite P_bind_eq, (P_iref _ i) by done.
  change (gas_dir_entry_page 0) with 0. change (gas_dir_entry_offset 0) with 0. rewrite Z.sub_0_r.
  destruct (Z.to_nat (gas_dir_pages i)) as [|pages] eqn:Ep; cbn [iterate_pages].
  { assert (Hz : ~ 0 < nslots (i_size i)) by (rewrite <- (pages_slots i 0) by done || lia; lia).
    assert (nslots (i_size i) = 0) as Hz0 by lia. assert (i_size i = 0) as -> by lia. rewrite Hz0 in *.
    assert (j = 0) as -> by (destruct Hj; lia). by destruct (page_err dir 0). }
  unfold gas_dir_get_page at 1. destruct (page_err dir 0) as [e|] eqn:He; [by rewrite (P_read_fail _ _ e)|]. rewrite P_read_ok by done. set (s1 := with_pref _ s). unfold page_data at 1. rewrite P_get.
  change (shown s1 (dir, 0)) with (shown s (dir, 0)). change (DE.sizeof * 0) with 0 in E.
  rewrite P_bind_eq. unfold plift. rewrite E. destruct (Z.ltb_spec j (Z.min (nslots (i_size i)) 15)) as [Hlt|Hge].
  - rewrite slots_lookup by (destruct Hj; lia). pose proof (proj2 (proj2 Hj) Hlt) as Hn. unfold name_at in Hn.
    destruct (slot s dir j) as [[nm ino]|] eqn:Es; [|done]. cbn [mbind option_bind].
    unfold gas_dir_put_page at 1, s1. by rewrite P_put_taken.
  - destruct (Z.leb_spec (i_size i) (15 * DE.sizeof)) as [Hle|]; [|done]. cbn [mbind option_bind].
    unfold gas_dir_put_page at 1, s1. rewrite P_put_taken. assert (pages = 0%nat) as ->; [|done].
    assert (nslots (i_size i) <= 15) by (rewrite HNq; rewrite Hs in Hle; unfold DE.sizeof in Hle; lia).
    pose proof (pages_slots i 1 Ds ltac:(lia)). lia.
Qed.
End read.

(** ** A new directory *)

(** The name and number of an entry written by [strcpy] and an assignment. *)
Lemma strcpy_entry m off name ino m1 m2 : 0 <= off -> off + DE.sizeof <= blen m -> valid_name name -> 0 < ino < 2 ^ 32 ->
  f_set m off DE.de_inode ino = Some m1 -> store_bytes m1 (off + DE.de_name) (name ++ [Byte.x00]) = Some m2 ->
  slot_entry m2 off = Some (name, ino) /\ only_in off (off + DE.sizeof) m m2.
Proof.
  unfold DE.sizeof, DE.de_name. rewrite Z.add_0_r. intros H0 H1 [Hl HF] Hino E1 E2.
  assert (Hb : blen (name ++ [Byte.x00]) = Z.of_nat (S (length name))) by (unfold blen; rewrite length_app; cbn; lia).
  assert (L1 := f_set_blen _ _ _ _ _ E1). assert (E2' := E2). apply store_bytes_Some in E2' as (R & Em2 & L2). split.
  - unfold slot_entry. unfold f_get. rewrite (load_store_bytes_other _ _ _ _ _ _ E2) by (cbn; lia).
    change (load _ m1 _) with (f_get m1 off DE.de_inode). rewrite (f_get_set_same _ _ _ _ _ E1). cbn [f_size DE.de_inode].
    change (8 * Z.of_nat 4) with 32. rewrite Z.mod_small by lia. cbn [mbind option_bind]. rewrite (proj2 (Z.eqb_neq ino 0)) by lia.
    do 2 f_equal. replace 256%nat with (S (length name) + (256 - S (length name)))%nat at 2 by lia. rewrite sub_bytes_app by lia.
    assert (Es : sub_bytes (S (length name)) m2 off = name ++ [Byte.x00]).
    { rewrite Em2. replace (S (length name)) with (length (name ++ [Byte.x00])) by (rewrite length_app; cbn; lia).
      by apply sub_bytes_splice_same. }
    rewrite Es, <- app_assoc. apply cstring_name; [lia|done].
  - eapply only_in_trans; [eapply only_in_weaken; [by eapply only_in_f_set|cbn; lia|cbn; lia]|].
    split; [done|]. intros n o Ho. apply (load_store_bytes_other _ _ _ _ _ _ E2). lia.
Qed.

Lemma strcpy_fits m off name ino : 0 <= off -> off + DE.sizeof <= blen m -> (length name <= 255)%nat ->
  exists m1 m2, f_set m off DE.de_inode ino = Some m1 /\ store_bytes m1 (off + DE.de_name) (name ++ [Byte.x00]) = Some m2.
Proof.
  unfold DE.sizeof, DE.de_name. rewrite Z.add_0_r. intros H0 H1 Hl. destruct (f_set_fits m off DE.de_inode ino) as (m1 & E1 & L1); [split; cbn; lia|].
  destruct (store_bytes_fits m1 off (name ++ [Byte.x00])) as (m2 & E2 & _); [lia|unfold blen in *; rewrite length_app; cbn; lia|].
  by exists m1, m2.
Qed.

Lemma strcpy_nul m off name ino m1 m2 : 0 <= off -> (length name < 255)%nat -> f_set m off DE.de_inode ino = Some m1 ->
  store_bytes m1 (off + DE.de_name) (name ++ [Byte.x00]) = Some m2 -> nul_at m off -> nul_at m2 off.
Proof.
  unfold DE.de_name, nul_at. rewrite Z.add_0_r. intros H0 Hl E1 E2 Hn.
  rewrite (load_store_bytes_other _ _ _ _ _ _ E2) by (right; unfold blen; rewrite length_app; cbn; lia).
  by rewrite (load_store_other _ _ _ _ _ _ _ E1) by (cbn; lia).
Qed.

Lemma dot_valid : valid_name [dot].
Proof. split; [cbn; lia|]. by repeat constructor. Qed.

Lemma dotdot_valid : valid_name [dot; dot].
Proof. split; [cbn; lia|]. by repeat constructor. Qed.

Section make.
Context `{KernelApi, PL : PageLaws} {get_block : Z -> Z -> bool -> K (option errno * option (Z * bool))}
  `{BM : !BlockMapper get_block}.

(** The page of a new directory. *)
Definition made (m : bytes) (self parent : Z) : Prop :=
  blen m = PAGE_CACHE_SIZE /\ slot_entry m 0 = Some ([dot], self) /\ slot_entry m DE.sizeof = Some ([dot; dot], parent) /\
  nul_at m 0 /\ nul_at m DE.sizeof.

Lemma made_run self parent : 0 < self < 2 ^ 32 -> 0 < parent < 2 ^ 32 ->
  exists m, (m ← f_set (zeroes PAGE_CACHE_SIZE) 0 DE.de_inode self; m ← store_bytes m (0 + DE.de_name) [dot; Byte.x00];
             m ← f_set m DE.sizeof DE.de_inode parent; store_bytes m (DE.sizeof + DE.de_name) [dot; dot; Byte.x00]) = Some m /\
    made m self parent.
Proof.
  intros Hs Hp. set (m0 := zeroes PAGE_CACHE_SIZE). assert (L0 : blen m0 = PAGE_CACHE_SIZE) by (by apply blen_zeroes).
  assert (Hn0 : forall off, 0 <= off <= 3000 -> nul_at m0 off).
  { intros off Hoff. unfold nul_at, m0. apply load_zeroes; unfold PAGE_CACHE_SIZE; lia. }
  destruct (strcpy_fits m0 0 [dot] self) as (m1 & m2 & E1 & E2); [lia|by rewrite L0|cbn; lia|].
  destruct (strcpy_entry m0 0 [dot] self m1 m2 ltac:(lia) ltac:(by rewrite L0) dot_valid Hs E1 E2) as [S1 O1].
  assert (L2 : blen m2 = PAGE_CACHE_SIZE) by (rewrite <- L0; apply O1).
  destruct (strcpy_fits m2 DE.sizeof [dot; dot] parent) as (m3 & m4 & E3 & E4); [by vm_compute|by rewrite L2|cbn; lia|].
  destruct (strcpy_entry m2 DE.sizeof [dot; dot] parent m3 m4 ltac:(by vm_compute) ltac:(by rewrite L2) dotdot_valid Hp E3 E4) as [S2 O2].
  exists m4. cbn [app] in E2, E4. rewrite E1. cbn [mbind option_bind]. rewrite E2. cbn [mbind option_bind]. rewrite E3. cbn [mbind option_bind].
  split; [exact E4|]. assert (Hd : 0 + DE.sizeof <= DE.sizeof) by done. split; [rewrite <- L2; apply O2|]. split; [|split; [done|split]].
  - rewrite <- S1. eapply slot_entry_only; [exact O2|lia|by rewrite L2|by left].
  - eapply nul_only; [exact O2|by left|]. eapply (strcpy_nul m0 _ [dot]); [lia|cbn; lia|exact E1|exact E2|apply Hn0; lia].
  - eapply (strcpy_nul m2 _ [dot; dot]); [by vm_compute|cbn; lia|exact E3|exact E4|]. eapply nul_only; [exact O1|by right|]. apply Hn0. unfold DE.sizeof. lia.
Qed.

Lemma made_dir s inode i m self parent :
  k_inodes (v_k s) !! inode = Some i -> i_size i = 520 -> shown s (inode, 0) = m -> made m self parent ->
  (forall n, n <> 0 -> shown s (inode, n) = zeroes PAGE_CACHE_SIZE) -> (forall n, (inode, n) ∉ v_lock s) ->
  dir_ok s inode [Some ([dot], self); Some ([dot; dot], parent)].
Proof.
  intros Hi Hs Hm (L & S1 & S2 & N1 & N2) Hz Hlk. split.
  - exists i. rewrite Hs. split; [done|]. split; [by split; [lia|]|]. split.
    + unfold dir_slots. change (seqZ 0 (nslots 520)) with [0; 1]. cbn [fmap list_fmap]. unfold slot.
      change (slot_page 0) with 0. change (slot_page 1) with 0. change (slot_off 0) with 0. change (slot_off 1) with DE.sizeof.
      by rewrite Hm, S1, S2.
    + intros n Hn. assert (Hp : gas_dir_pages i = 1) by (unfold gas_dir_pages; by rewrite Hs).
      rewrite Hz by lia. by apply load_zeroes.
  - intros n. destruct (decide (n = 0)) as [->|Hne]; [by rewrite Hm|]. rewrite Hz by done. by apply blen_zeroes.
  - intros name [->|[->|[]%elem_of_nil]%elem_of_cons]%elem_of_cons; [apply dot_valid|apply dotdot_valid].
  - intros j Hj. cbn in Hj. assert (slot_page j = 0) as -> by (unfold slot_page; dlia). rewrite Hm.
    assert (j = 0 \/ j = 1) as [->| ->] by lia; done.
  - done.
Qed.

(** What [gas_make_empty] comes to in a new directory: no memory for the page, the error of
    preparing the page, with nothing in it; or the two entries and the answer of the
    synchronous write of the page. *)
Inductive making (s : vfs) (inode self parent : Z) : option errno -> vfs -> Prop :=
| make_nomem : grab_ok inode 0 = false -> making s inode self parent (Some ENOMEM) s
| make_failed e s' : grab_ok inode 0 = true -> prepares get_block (v_k s) (inode, 0) 0 (2 * DE.sizeof) (Some e) ->
    dir_frame s inode s' -> shown s' (inode, 0) = shown s (inode, 0) -> making s inode self parent (Some e) s'
| make_done s' : grab_ok inode 0 = true -> prepares get_block (v_k s) (inode, 0) 0 (2 * DE.sizeof) None ->
    dir_ok s' inode [Some ([dot], self); Some ([dot; dot], parent)] -> dir_frame s inode s' -> saved s' inode 0 ->
    making s inode self parent (sync_err inode 0) s'.

Lemma gas_make_empty_run s inode dir i d :
  bm_ok inode (v_k s) -> k_inodes (v_k s) !! inode = Some i -> k_inodes (v_k s) !! dir = Some d -> i_size i = 0 ->
  (forall n, shown s (inode, n) = zeroes PAGE_CACHE_SIZE) -> (forall n, (inode, n) ∉ v_lock s) ->
  0 < i_ino i < 2 ^ 32 -> 0 < i_ino d < 2 ^ 32 ->
  pwp (gas_make_empty get_block inode dir) s (making s inode (i_ino i) (i_ino d)).
Proof.
  intros Hok Hi Hd Hs Hz Hlk Hself Hpar. unfold gas_make_empty. apply pwp_bind. unfold grab_cache_page. cbn [fst snd].
  destruct (grab_ok inode 0) eqn:Hg; [|by apply pwp_ret, pwp_ret, make_nomem].
  apply pwp_bind, pwp_mod, lock_held; [by apply Hlk|]. apply pwp_ret. cbn [negb].
  pose proof (editing_held s inode 0 i Hok Hi) as E. apply pwp_bind.
  assert (HR : (inode, 0) ∈ v_pref s ⊎ {[+ (inode, 0) +]}) by apply pref_taken.
  assert (HL : (inode, 0) ∈ {[(inode, 0)]} ∪ v_lock s) by (clear; set_solver).
  eapply pwp_mono; [by apply (editing_prepare s inode 0 _ _ _ _ _ E)|]. intros [e|] s2 [E2 HP].
  - apply pwp_bind. eapply pwp_mono; [by apply (editing_unlock s inode 0 _ _ _ _ _ E2)|]. intros _ s3 [E3 _].
    apply pwp_bind. eapply pwp_mono; [by apply (editing_put s inode 0 _ _ _ _ _ E3)|]. intros _ s4 [E4 _]. apply pwp_ret.
    rewrite pref_take_drop, lock_take_drop in E4 by apply Hlk. apply make_failed; [done|exact HP|by eapply editing_frame|apply E4].
  - destruct (ed_dir _ _ _ _ _ _ _ _ E2) as (i0 & i2 & Hi0 & Hi2 & _ & Ei2 & _). simplify_eq.
    assert (exists d2, k_inodes (v_k s2) !! dir = Some d2 /\ i_ino d2 = i_ino d) as (d2 & Hd2 & Ed2).
    { destruct (decide (dir = inode)) as [->|Hne]; [exists i2; split; congruence|]. exists d. by rewrite (ed_inodes _ _ _ _ _ _ _ _ E2). }
    apply pwp_bind. eapply pwp_iref; [exact Hi2|]. apply pwp_bind. eapply pwp_iref; [exact Hd2|]. rewrite Ei2, Ed2.
    destruct (made_run (i_ino i) (i_ino d) Hself Hpar) as (m & Em & M). apply pwp_bind. eapply pwp_plift; [exact Em|]. apply pwp_bind.
    eapply pwp_mono; [by apply (editing_write s inode 0 _ _ _ _ _ E2)|]. intros [] s3 [E3 _]. apply pwp_bind.
    eapply pwp_mono; [by apply (editing_commit s inode 0 _ _ _ _ _ _ _ E3)|]. intros err s4 (E4 & -> & Hsv). apply pwp_bind.
    eapply pwp_mono; [by apply (editing_put s inode 0 _ _ _ _ _ E4)|]. intros _ s5 [E5 ->]. apply pwp_ret.
    rewrite lock_take_drop in E5 by apply Hlk. rewrite pref_take_drop in E5 |- *. rewrite Hs in E5.
    change (Z.max 0 (0 + 2 * DE.sizeof)) with 520 in E5. apply make_done; [done|exact HP| |by eapply editing_frame|exact Hsv].
    set (s5 := with_pref _ s4) in *. destruct (ed_dir _ _ _ _ _ _ _ _ E5) as (i0 & i5 & _ & Hi5 & Hs5 & _).
    apply (made_dir s5 inode i5 m); [done|done|apply E5|done| |].
    + intros n Hn. rewrite (ed_other _ _ _ _ _ _ _ _ E5), Hz by congruence. done.
    + intros n. rewrite (ed_lock _ _ _ _ _ _ _ _ E5). apply Hlk.
Qed.

(** [gas_make_empty] on a new inode either fails without leaving anything in the page, or
    makes a directory with the entries [.] and [..] that is in order and that
    [gas_empty_dir] finds empty. *)
Theorem gas_make_empty_spec s inode dir i d :
  bm_ok inode (v_k s) -> k_inodes (v_k s) !! inode = Some i -> k_inodes (v_k s) !! dir = Some d -> i_size i = 0 ->
  (forall n, shown s (inode, n) = zeroes PAGE_CACHE_SIZE) -> (forall n, (inode, n) ∉ v_lock s) ->
  0 < i_ino i < 2 ^ 32 -> 0 < i_ino d < 2 ^ 32 ->
  pwp (gas_make_empty get_block inode dir) s (fun err s' => making s inode (i_ino i) (i_ino d) err s' /\
    (err = None -> gas_empty_dir inode s' = Some (true, s'))).
Proof using PL.
  intros Hok Hi Hd Hs Hz Hlk Hself Hpar. eapply pwp_mono; [by apply (gas_make_empty_run s inode dir i d)|].
  intros err s' M. split; [exact M|]. intros ->. inversion M as [|?|s1 _ _ D F Hsv]; subst.
  destruct (do_slots _ _ _ D) as (i' & Hi' & _). destruct (df_dir _ _ _ F i Hi) as (i2 & Hi2 & Ei & _). simplify_eq.
  destruct (gas_empty_dir_run s' inode _ i' D Hi') as (b & E & Hb). rewrite E. destruct b; [done|]. exfalso.
  assert (Hf : false = true); [|done]. apply Hb. intros j x Hj Hj0 _. destruct (Z.to_nat j) as [|[|?]]; cbn in Hj; [| |done]; simplify_eq; cbn.
  - by rewrite Ei, Z.eqb_refl.
  - done.
Qed.

(** What keeps a directory from being empty. *)
Lemma gas_empty_dir_slots s dir Ls i : dir_ok s dir Ls -> k_inodes (v_k s) !! dir = Some i ->
  exists b, gas_empty_dir dir s = Some (b, s) /\
    (b = true <-> forall j nm ino, 0 <= j -> Ls !! Z.to_nat j = Some (Some (nm, ino)) -> page_err dir (slot_page j) = None ->
       nm = [dot] /\ ino = i_ino i \/ nm = [dot; dot]).
Proof using Type.
  intros D Hi. destruct (gas_empty_dir_run s dir Ls i D Hi) as (b & E & Hb). exists b. split; [done|]. rewrite Hb. split.
  - intros Hall j nm ino Hj Hl Hp. specialize (Hall j _ Hl Hj Hp). cbn in Hall.
    destruct (bool_decide_reflect (nm = [dot])); [left|right; apply negb_false_iff in Hall; by apply bool_decide_eq_true in Hall].
    split; [done|]. apply negb_false_iff in Hall. by apply Z.eqb_eq.
  - intros Hall j [[nm ino]|] Hl Hj Hp; [|done]. cbn. destruct (Hall j nm ino Hj Hl Hp) as [[-> ->]| ->].
    + by rewrite bool_decide_eq_true_2, Z.eqb_refl by done.
    + done.
Qed.

(** C38: [gas_empty_dir] is true exactly when every entry in a page that can be read is the
    directory's own [.] or a [..], and changes nothing. *)
Theorem gas_empty_dir_spec s dir Ls i : dir_ok s dir Ls -> k_inodes (v_k s) !! dir = Some i ->
  exists b, gas_empty_dir dir s = Some (b, s) /\
    (b = true <-> forall j nm ino, 0 <= j -> Ls !! Z.to_nat j = Some (Some (nm, ino)) -> page_err dir (slot_page j) = None ->
       nm = [dot] /\ ino = i_ino i \/ nm = [dot; dot]).
Proof using Type. by apply gas_empty_dir_slots. Qed.
End make.
