(* ===== verification/DirMap.v ===== *)
(** * Directories as finite maps

    The refinement of a directory of at most fifteen slots to a finite map from names to inode
    numbers, under sequences of the operations the kernel makes on a directory: looking a
    name up, adding a name after it has been looked up, removing a name after it has been
    looked up. *)

From S2P Require Import Prelude Mem Layout Kernel Itree Vfs Dir DirSlots DirEdit DirOps DirSpec DirRead.

Inductive dir_op : Type := Lookup (name : bytes) | Link (name : bytes) (inode : Z) | Unlink (name : bytes).

(** The specification: what an operation may answer and do to the map. An operation that
    changes the directory may fail [early], with nothing changed, or answer [late], when the
    change is made. *)
Inductive map_step (early : errno -> Prop) (late : option errno -> Prop) (M : gmap bytes Z) :
    dir_op -> option errno * Z -> gmap bytes Z -> Prop :=
| map_found name ino : M !! name = Some ino -> map_step early late M (Lookup name) (None, ino) M
| map_absent name : M !! name = None -> map_step early late M (Lookup name) (Some ENOENT, 0) M
| map_link name ino r : M !! name = None -> late r -> map_step early late M (Link name ino) (r, 0) (<[name := ino]> M)
| map_link_exists name ino ino' : M !! name = Some ino' -> map_step early late M (Link name ino) (Some EEXIST, 0) M
| map_link_failed name ino e : M !! name = None -> early e -> map_step early late M (Link name ino) (Some e, 0) M
| map_unlink name ino r : M !! name = Some ino -> late r -> map_step early late M (Unlink name) (r, 0) (delete name M)
| map_unlink_absent name : M !! name = None -> map_step early late M (Unlink name) (Some ENOENT, 0) M
| map_unlink_failed name ino e : M !! name = Some ino -> early e -> map_step early late M (Unlink name) (Some e, 0) M.

Inductive map_run (early : errno -> Prop) (late : option errno -> Prop) :
    gmap bytes Z -> list dir_op -> list (option errno * Z) -> gmap bytes Z -> Prop :=
| map_nil M : map_run early late M [] [] M
| map_cons M op r M' ops rs M'' : map_step early late M op r M' -> map_run early late M' ops rs M'' ->
    map_run early late M (op :: ops) (r :: rs) M''.

Section refinement.
Context `{KernelApi, PL : PageLaws} {get_block : Z -> Z -> bool -> K (option errno * option (Z * bool))}
  `{BM : !BlockMapper get_block}.

(** The operations as the kernel composes them: every name is looked up first, with
    [gas_inode_by_name]; the entry removed is found by [gas_find_entry]. *)
Definition run_dir_op (dir : Z) (op : dir_op) : P (option errno * Z) :=
  match op with
  | Lookup name =>
      ino ← gas_inode_by_name dir name;
      if ino =? 0 then mret (Some ENOENT, 0) else mret (None, ino)
  | Link name inode =>
      ino ← gas_inode_by_name dir name;
      if ino =? 0 then err ← gas_add_link get_block (Dentry dir name) inode; mret (err, 0)
      else mret (Some EEXIST, 0)
  | Unlink name =>
      ino ← gas_inode_by_name dir name;
      if ino =? 0 then mret (Some ENOENT, 0)
      else
        de ← gas_find_entry (Dentry dir name);
        match de with
        | None => mret (Some ENOENT, 0)
        | Some de => err ← gas_delete_entry get_block de; mret (err, 0)
        end
  end.

Fixpoint run_dir_ops (dir : Z) (ops : list dir_op) : P (list (option errno * Z)) :=
  match ops with
  | [] => mret []
  | op :: ops => r ← run_dir_op dir op; rs ← run_dir_ops dir ops; mret (r :: rs)
  end.

Definition op_name (op : dir_op) : bytes := match op with Lookup n => n | Link n _ => n | Unlink n => n end.

(** Names are valid; an inode linked is in memory under its number. *)
Definition dir_op_ok (s : vfs) (op : dir_op) : Prop :=
  valid_name (op_name op) /\
  match op with
  | Link _ inode => 0 < inode < 2 ^ 32 /\ exists io, k_inodes (v_k s) !! inode = Some io /\ i_ino io = inode
  | _ => True
  end.

(** Directory [dir] is in order, has at most [n] slots, all in the first page, and stands for the
    map [M]. *)
Definition dir_is (s : vfs) (dir : Z) (M : gmap bytes Z) (n : Z) : Prop :=
  exists Ls z, dir_ok s dir Ls /\ bm_ok dir (v_k s) /\ NoDup (names Ls) /\ M = dir_map Ls /\ Z.of_nat (length Ls) <= n /\
    size_of s dir = Some z /\ z <= 15 * DE.sizeof.

(** An error of preparing the page of an entry of [dir] for writing. *)
Definition page_fails (dir : Z) (e : errno) : Prop :=
  exists k j, bm_ok dir k /\ 0 <= j /\ prepares get_block k (dir, slot_page j) (slot_pos j) DE.sizeof (Some e).

(** The answer of the synchronous write of a page of [dir], which is none without the dirsync
    option. *)
Definition page_written (dir : Z) (r : option errno) : Prop := exists j, r = sync_err dir (slot_page j).

(** Looking a name up answers as the map does. *)
Lemma by_name_map s dir Ls name z : (forall x, page_err dir x = None) -> dir_ok s dir Ls -> NoDup (names Ls) ->
  Z.of_nat (length Ls) <= 15 -> size_of s dir = Some z -> z <= 15 * DE.sizeof ->
  exists ino, gas_inode_by_name dir name s = Some (ino, s) /\ dir_map Ls !! name = if ino =? 0 then None else Some ino.
Proof using Type.
  intros Hrd D ND Hn Hz Hle. destruct (do_slots _ _ _ D) as (i & Hi & Ds & HL & _).
  destruct (gas_inode_by_name_run s dir Ls i name D Hi) as (j & Hj & E). rewrite Hrd in E. rewrite Z.min_l in Hj, E by done.
  assert (Hf : is_first (found_at s dir name) 0 (Z.of_nat (length Ls)) j).
  { eapply is_first_ext; [|exact Hj]. intros k _. unfold name_at, found_at. rewrite Hrd. by destruct (slot s dir k) as [[]|]. }
  pose proof (found_names s dir Ls name j D ND Hrd Hf) as Hm. unfold size_of in Hz. rewrite Hi in Hz. cbn in Hz.
  destruct (Z.ltb_spec j (Z.of_nat (length Ls))) as [Hlt|Hge].
  - destruct Hm as (ino & Hl & Hmap). rewrite Hl in E. exists ino. split; [exact E|]. rewrite Hmap.
    destruct (slot_reads s dir Ls j D) as (ino' & _ & _ & Es). rewrite HL, slots_lookup in Hl
      by (rewrite HL in Hlt; rewrite slots_length in Hlt by done; destruct Hj; lia).
    injection Hl as Hl. rewrite Hl in Es. destruct (Z.eqb_spec ino' 0); [done|]. injection Es as _ <-.
    by rewrite (proj2 (Z.eqb_neq _ _)).
  - rewrite (proj2 (Z.leb_le _ _)) in E by (injection Hz as ->; done). exists 0. split; [exact E|]. apply Hm.
Qed.

Lemma run_op_map s dir M n op : (forall x, page_err dir x = None) -> dir_is s dir M n -> n < 15 -> dir_op_ok s op ->
  pwp (run_dir_op dir op) s (fun r s' => exists M', map_step (page_fails dir) (page_written dir) M op r M' /\
    dir_is s' dir M' (n + 1) /\ dir_frame s dir s').
Proof using PL.
  intros Hrd (Ls & z & D & Hok & ND & -> & Hn & Hz & Hle) Hroom [V Hop]. destruct (do_slots _ _ _ D) as (i & Hi & Ds & HL & _).
  destruct (by_name_map s dir Ls (op_name op) z Hrd D ND) as (ino & Eb & Hmap); [lia|done|done|].
  assert (Hsame : forall r op', map_step (page_fails dir) (page_written dir) (dir_map Ls) op' r (dir_map Ls) ->
    exists M', map_step (page_fails dir) (page_written dir) (dir_map Ls) op' r M' /\ dir_is s dir M' (n + 1) /\ dir_frame s dir s).
  { intros r op' Hst. eexists. split; [exact Hst|]. split; [|by apply frame_refl]. exists Ls, z. repeat (split; [done|]). split; [lia|done]. }
  assert (HN : Z.of_nat (length Ls) = nslots (i_size i)) by (rewrite HL; by apply slots_length).
  destruct op as [name|name inode|name]; cbn [run_dir_op op_name] in *; (apply pwp_bind; eexists _, _; split; [exact Eb|]);
    destruct (ino =? 0).
  - apply pwp_ret, Hsame. by constructor.
  - apply pwp_ret, Hsame. by constructor.
  - destruct Hop as (Hino & io & Hio & <-). apply pwp_bind.
    assert (Hnin : name ∉ names Ls) by (by apply dir_map_absent).
    assert (Hsl : slot_pos (nslots (i_size i)) + DE.sizeof < 2 ^ 31).
    { unfold slot_pos, slot_page. pose proof (slot_off_range (nslots (i_size i))).
      assert (nslots (i_size i) / 15 <= 1) by (apply Z.lt_succ_r, Z.div_lt_upper_bound; lia).
      unfold PAGE_CACHE_SIZE in *. lia. }
    eapply pwp_mono; [by apply (gas_add_link_run s dir Ls i name (i_ino io) io)|]. intros err s' (o & O & D' & F & Hs). apply pwp_ret.
    destruct O as [j e _ He|j ino' _ _ Hl|j e Hj _ Hfree HP|j Hj _ Hfree HP].
    + by rewrite Hrd in He.
    + exfalso. apply Hnin. by eapply names_slot.
    + exists (dir_map Ls). split; [apply map_link_failed; [done|]; exists (v_k s), j; split; [done|]; split; [apply Hj|done]|].
      split; [|done]. exists Ls, z. split; [done|]. split; [apply F|]. split; [done|]. split; [done|]. split; [lia|]. by rewrite Hs.
    + exists (<[name := i_ino io]> (dir_map Ls)). split; [apply map_link; [done|by exists j]|]. split; [|done]. destruct Hs as (_ & _ & Hs).
      destruct (set_slot_link Ls j name (i_ino io) ND Hnin) as [E1 E2].
      { destruct Hfree; [by left|right]. split; [|done]. apply Hj. }
      exists (set_slot Ls j (Some (name, i_ino io))), (Z.max z (slot_pos j + DE.sizeof)). split; [exact D'|]. split; [apply F|].
      split; [done|]. split; [done|]. split; [|split].
      * unfold set_slot. destruct (_ <? _); [rewrite length_insert; lia|]. rewrite length_app. cbn. lia.
      * by rewrite Hs, Hz.
      * assert (0 <= j <= Z.of_nat (length Ls)) by apply Hj. apply Z.max_lub; [done|]. unfold slot_pos, slot_page, slot_off.
        rewrite Z.div_small, Z.mod_small by lia. unfold PAGE_CACHE_SIZE, DE.sizeof. lia.
  - apply pwp_ret, Hsame. by eapply map_link_exists.
  - apply pwp_ret, Hsame. by constructor.
  - destruct (gas_find_entry_slot s dir Ls name D V) as (j & Hj & _ & Ef). pose proof (found_names s dir Ls _ j D ND Hrd Hj) as Hm.
    destruct (Z.ltb_spec j (Z.of_nat (length Ls))) as [Hlt|Hge]; [|destruct Hm as [Hm _]; congruence].
    destruct Hm as (ino' & Hl & Hmap'). apply pwp_bind. eexists _, _. split; [exact Ef|]. apply pwp_bind.
    eapply pwp_mono; [apply (gas_delete_entry_slot s dir Ls j D Hok); destruct Hj; lia|]. intros err s' (b & O & D' & F & Hs & _). apply pwp_ret.
    destruct O as [e HP|HP].
    + exists (dir_map Ls). split; [eapply map_unlink_failed; [done|]; exists (v_k s), j; split; [done|]; split; [apply Hj|done]|].
      split; [|done]. exists Ls, z. split; [done|]. split; [apply F|]. split; [done|]. split; [done|]. split; [lia|]. by rewrite Hs.
    + destruct (dir_map_unlink Ls _ name ino' ND Hl) as [E1 E2]. exists (delete name (dir_map Ls)).
      split; [eapply map_unlink; [done|by exists j]|]. split; [|done]. exists (<[Z.to_nat j := None]> Ls), z. split; [exact D'|].
      split; [apply F|]. split; [done|]. split; [done|]. rewrite length_insert. split; [lia|]. by rewrite Hs.
Qed.

Lemma run_ops_map ops : forall s dir M n, (forall x, page_err dir x = None) -> dir_is s dir M n ->
  n + Z.of_nat (length ops) <= 15 -> Forall (dir_op_ok s) ops ->
  pwp (run_dir_ops dir ops) s (fun rs s' => exists M', map_run (page_fails dir) (page_written dir) M ops rs M' /\
    dir_is s' dir M' (n + Z.of_nat (length ops)) /\ dir_frame s dir s').
Proof using PL.
  induction ops as [|op ops IH]; intros s dir M n Hrd D Hn Hops; cbn [run_dir_ops].
  - apply pwp_ret. exists M. split; [constructor|]. cbn. rewrite Z.add_0_r. split; [done|]. destruct D as (Ls & z & _ & Hok & _). by apply frame_refl.
  - inversion_clear Hops as [|? ? Hop Hops']. cbn [length] in Hn. apply pwp_bind.
    eapply pwp_mono; [apply (run_op_map s dir M n op Hrd D ltac:(lia) Hop)|]. intros r s1 (M1 & Hst & D1 & F1). apply pwp_bind.
    eapply pwp_mono; [apply (IH s1 dir M1 (n + 1) Hrd D1); [lia|]|].
    + eapply List.Forall_impl; [|exact Hops']. intros op' [V Ho]. split; [done|]. destruct op' as [|nm inode|]; [done| |done].
      destruct Ho as (Hr & io & Hio & Hin). split; [done|]. destruct (decide (inode = dir)) as [->|Hne].
      * destruct (df_dir _ _ _ F1 io Hio) as (io' & Hio' & Ei & _). exists io'. split; [done|congruence].
      * exists io. by rewrite (df_inodes _ _ _ F1).
    + intros rs s2 (M2 & Hrun & D2 & F2). apply pwp_ret. exists M2. split; [by econstructor|]. cbn [length].
      replace (n + Z.of_nat (S (length ops))) with (n + 1 + Z.of_nat (length ops)) by lia. split; [done|]. by eapply frame_trans.
Qed.

End refinement.
