(* ===== verification/DirTree.v ===== *)
(** * Directories on the block tree

    [gas_get_block] of Itree.v implements the interface of DirEdit.v: the theorems on
    directories hold for directories whose blocks hang off the block tree. The witnesses
    of these theorems run on a small directory. *)

From S2P Require Import Prelude Mem Layout Kernel InodeTab Alloc KBitmap Itree Tree TreeEdit Trunc Truncate Files FileSys TreeDemo.
From S2P Require Import Vfs Dir DirSlots DirEdit DirOps DirSpec DirRead DirMap.

Section mapper.
Context `{KL : KernelLaws}.
Variables (other : K unit) (fuel : nat).
Hypothesis other_idle : forall st, other st = Some (tt, st).

(** The inode is in memory and all files are in order. *)
Definition file_ok (ino : Z) (st : kst) : Prop := is_Some (k_inodes st !! ino) /\ exists sbi, fs_ok sbi st.

Lemma file_ok_inode ino st i i' d : file_ok ino st -> k_inodes st !! ino = Some i -> blkaddr i' = blkaddr i ->
  i_ino i' = i_ino i -> file_ok ino (with_idirty d (with_inodes (<[ino := i']> (k_inodes st)) st)).
Proof.
  intros [_ (sbi & F)] Hi Hb Hino. split; [cbn; rewrite lookup_insert_eq; by eexists|]. exists sbi. by eapply (fs_attr sbi st).
Qed.

Lemma file_ok_create ino block st : file_ok ino st -> 0 <= block ->
  kwp (gas_get_block gas_new_block gas_free_block other (S fuel) ino block true) st
    (fun _ st' => file_ok ino st' /\ map_frame ino st st').
Proof using KL other_idle.
  intros [[i Hi] (sbi & F)] Hb. eapply kwp_mono; [by apply (fs_get_block other fuel other_idle sbi ino st i block)|].
  intros r st' ((sbi' & _ & F') & Hr & Hn & Hs). destruct (Hs i Hi) as (i' & Hi' & _). split.
  - split; [by eexists|by exists sbi'].
  - split; [done|done|]. intros j Hj. destruct (Hs j Hj) as (j' & Hj' & c & l & E). exists j'. split; [done|]. by exists c, l.
Qed.

Lemma file_ok_all ino n st : file_ok ino st -> is_Some (k_inodes st !! n) -> file_ok n st.
Proof. intros [_ F] Hn. by split. Qed.

Lemma file_ok_ino ino st i : file_ok ino st -> k_inodes st !! ino = Some i -> i_ino i = ino /\ 0 < ino < 2 ^ 32.
Proof.
  intros [_ (sbi & F)] Hi. destruct (fo_ino _ _ (proj2 F) ino i Hi) as [Hino Hr]. split; [done|].
  pose proof (g_ninodes _ _ (mt_geom _ _ (fs_mounted _ _ F))). unfold GAS_ROOT_INO in Hr. lia.
Qed.

#[export] Instance get_block_mapper : BlockMapper (gas_get_block gas_new_block gas_free_block other (S fuel)) := {
  bm_ok := file_ok; bm_create := file_ok_create; bm_all := file_ok_all; bm_ino := file_ok_ino; bm_stable := file_ok_inode }.
End mapper.

(** ** A small directory

    Inode 1 of the file system of TreeDemo.v as a directory with the entries [.] and [..];
    every page can be read. *)

#[local] Existing Instance good_api.
#[local] Existing Instance good_laws.
#[local] Instance demo_page_api : PageApi := demo_pages 9 (fun _ _ => None) false.
#[local] Instance demo_page_api_laws : PageLaws := demo_page_laws 9 (fun _ _ => None) false ltac:(lia).

Definition demo_get_block : Z -> Z -> bool -> K (option errno * option (Z * bool)) :=
  gas_get_block gas_new_block gas_free_block quiet_tasks 1.

#[local] Instance demo_mapper : BlockMapper demo_get_block := get_block_mapper quiet_tasks 0 quiet_ok.

Definition demo_page : bytes :=
  default [] (m ← f_set (zeroes PAGE_CACHE_SIZE) 0 DE.de_inode 1; m ← store_bytes m (0 + DE.de_name) [dot; Byte.x00];
              m ← f_set m DE.sizeof DE.de_inode 1; store_bytes m (DE.sizeof + DE.de_name) [dot; dot; Byte.x00]).

Definition demo_dir : vfs := Vfs demo_tree {[(1, 0) := demo_page]} ∅ ∅ ∅ ∅ ∅.
Definition demo_dir_inode : inode := set_blkaddr demo_root demo_ptrs.
Definition demo_slots : list (option (bytes * Z)) := [Some ([dot], 1); Some ([dot; dot], 1)].

(** The name [a]. *)
Definition demo_name : bytes := [Byte.x61].

Lemma demo_page_made : made demo_page 1 1.
Proof. unfold demo_page. destruct (made_run 1 1) as (m & E & M); [lia|lia|]. by rewrite E. Qed.

Lemma demo_dir_ok : dir_ok demo_dir 1 demo_slots.
Proof.
  apply (made_dir demo_dir 1 demo_dir_inode demo_page); [done|done|done|exact demo_page_made| |].
  - intros n Hn. unfold shown. cbn. by rewrite lookup_singleton_ne by congruence.
  - intros n. cbn. set_solver.
Qed.

Lemma demo_dir_tree : bm_ok 1 (v_k demo_dir).
Proof. split; [by eexists|]. exists demo_sbi. exact demo_fs_ok. Qed.

Lemma demo_name_valid : valid_name demo_name.
Proof. split; [cbn; lia|]. by repeat constructor. Qed.

Lemma demo_dir_is : dir_is demo_dir 1 (dir_map demo_slots) 2.
Proof.
  exists demo_slots, 520. split; [exact demo_dir_ok|]. split; [exact demo_dir_tree|]. split; [|split; [reflexivity|split; [cbn; lia|split; [reflexivity|unfold DE.sizeof; lia]]]].
  change (names demo_slots) with [[dot]; [dot; dot]]. apply list.NoDup_cons. split; [|apply list.NoDup_singleton].
  intros Hx%list_elem_of_singleton. discriminate.
Qed.

(** ** Witnesses *)

Lemma gas_add_link_spec_witness :
  pwp (gas_add_link demo_get_block (Dentry 1 demo_name) 1) demo_dir
    (linking (get_block := demo_get_block) demo_dir 1 demo_slots demo_name 1).
Proof.
  apply (gas_add_link_spec demo_dir 1 demo_slots demo_dir_inode demo_name 1 demo_dir_inode);
    [exact demo_dir_ok|exact demo_dir_tree|reflexivity|exact demo_name_valid|reflexivity|cbn; lia|vm_compute; reflexivity].
Defined.


Lemma gas_empty_dir_spec_witness : gas_empty_dir 1 demo_dir = Some (true, demo_dir).
Proof.
  destruct (gas_empty_dir_spec demo_dir 1 demo_slots demo_dir_inode demo_dir_ok eq_refl) as (b & E & Hb).
  rewrite E. destruct b; [reflexivity|]. exfalso. assert (Hf : false = true); [|discriminate]. apply Hb.
  intros j nm ino Hj0 Hj _. unfold demo_slots in Hj. destruct (Z.to_nat j) as [|[|k]]; cbn [lookup list_lookup] in Hj.
  - injection Hj as <- <-. left. split; reflexivity.
  - injection Hj as <- <-. right. reflexivity.
  - discriminate Hj.
Defined.

(** A new inode without pages. *)
Definition demo_new : vfs :=
  Vfs (with_inodes {[1 := set_size 0 demo_dir_inode]} demo_tree) ∅ ∅ ∅ ∅ ∅ ∅.

Lemma demo_new_tree : bm_ok 1 (v_k demo_new).
Proof. split; [by eexists|]. exists demo_sbi. by apply (fs_attr demo_sbi demo_tree _ 1 demo_dir_inode (set_size 0 demo_dir_inode) demo_fs_ok). Qed.

Lemma gas_make_empty_spec_witness :
  pwp (gas_make_empty demo_get_block 1 1) demo_new (fun err s' => making (get_block := demo_get_block) demo_new 1 1 1 err s').
Proof.
  eapply pwp_mono.
  { apply (gas_make_empty_spec demo_new 1 1 (set_size 0 demo_dir_inode) (set_size 0 demo_dir_inode));
      [exact demo_new_tree|reflexivity|reflexivity|reflexivity|reflexivity|set_solver|cbn; lia|cbn; lia]. }
  intros err s' [M _]. exact M.
Defined.
