(* ===== verification/Namei.v ===== *)
(** * The name space (kern/gas_namei.c)

    The inode operations of a directory: they make and drop inodes and entries and keep the
    link counts. [new_inode] is [gas_new_inode] of kern/bitmap.c, [iget] is [gas_iget]
    and [evict] is [gas_evict_inode] of kern/gas_inode.c; the reference the kernel's
    [new_inode()] and [iget_locked()] take on an inode is counted here. A result that is
    an [ERR_PTR] is the error; NULL is [None]. *)

From S2P Require Import Prelude Mem Layout Kernel InodeTab Itree Vfs Dir.

Definition set_nlink (v : Z) (i : inode) : inode :=
  Inode (i_ino i) (i_mode i) v (i_uid i) (i_gid i) (i_size i) (i_atime i) (i_mtime i)
    (i_ctime i) (i_rdev i) (blkaddr i) (a_ops i) (i_op i) (i_fop i).

(** [struct kstat]: the fields [gas_getattr] sets itself, and the size. *)
Record kstat := Kstat { st_size : Z; st_blocks : Z; st_blksize : Z }.

Section namei.
Context `{KernelApi, PageApi}.
Variables (get_block : Z -> Z -> bool -> K (option errno * option (Z * bool)))
  (gas_new_inode : Z -> Z -> K (option Z * option errno)) (gas_iget : Z -> K (errno + Z)) (evict : Z -> K unit).
(** [page_symlink(inode, symname, len)] writes the text through the page cache. *)
Variable page_symlink : Z -> bytes -> Z -> P (option errno).

(** *** Inodes *)

Definition edit_inode (ino : Z) (f : inode -> inode) : P unit :=
  i ← lift (iref ino); lift (iput_data ino (f i)).

Definition mark_dirty (ino : Z) : P unit := lift (mark_inode_dirty ino).

(** [inode_inc_link_count], [drop_nlink] and [inode_dec_link_count]: [i_nlink] has 32 bits. *)
Definition inc_link_count (ino : Z) : P unit :=
  _ ← edit_inode ino (fun i => set_nlink (u32 (i_nlink i + 1)) i); mark_dirty ino.
Definition drop_nlink (ino : Z) : P unit := edit_inode ino (fun i => set_nlink (u32 (i_nlink i - 1)) i).
Definition dec_link_count (ino : Z) : P unit := _ ← drop_nlink ino; mark_dirty ino.

Definition new_inode (dir mode : Z) : P (option Z * option errno) :=
  '(r, err) ← lift (gas_new_inode dir mode);
  _ ← (match r with Some ino => ihold ino | None => mret tt end);
  mret (r, err).

Definition iget (ino : Z) : P (errno + Z) :=
  r ← lift (gas_iget ino);
  _ ← (match r with inr ino => ihold ino | inl _ => mret tt end);
  mret r.

(** *** Making entries *)

Definition add_nondir (d : dentry) (inode : Z) : P (option errno) :=
  err ← gas_add_link get_block d inode;
  match err with
  | None => _ ← d_instantiate d inode; mret None
  | Some e => _ ← iput evict inode; mret (Some e)
  end.

Definition gas_mknod (dir : Z) (d : dentry) (mode rdev : Z) : P (option errno) :=
  let new_valid_dev := true in
  if negb new_valid_dev then mret (Some EINVAL)
  else
    '(inode, err) ← new_inode dir mode;
    match err, inode with
    | None, Some inode =>
        _ ← edit_inode inode (fun i => gas_set_inode i rdev);
        _ ← mark_dirty inode;
        add_nondir d inode
    | _, _ => mret err
    end.

Definition gas_create (dir : Z) (d : dentry) (mode : Z) : P (option errno) :=
  '(inode, err) ← new_inode dir mode;
  match err, inode with
  | None, Some inode =>
      _ ← edit_inode inode (fun i => gas_set_inode i 0);
      _ ← mark_dirty inode;
      add_nondir d inode
  | _, _ => mret err
  end.

Definition gas_mkdir (dir : Z) (d : dentry) (mode : Z) : P (option errno) :=
  _ ← inc_link_count dir;
  '(inode, err) ← new_inode dir (Z.lor S_IFDIR mode);
  match inode with
  | None => _ ← dec_link_count dir; mret err
  | Some inode =>
      _ ← inc_link_count inode;
      _ ← edit_inode inode (fun i => gas_set_inode i 0);
      err ← gas_make_empty get_block inode dir;
      err ← (match err with None => gas_add_link get_block d inode | Some e => mret (Some e) end);
      match err with
      | None => _ ← d_instantiate d inode; mret None
      | Some e =>
          _ ← dec_link_count inode;
          _ ← dec_link_count inode;
          _ ← iput evict inode;
          _ ← dec_link_count dir;
          mret (Some e)
      end
  end.

Definition gas_symlink (dir : Z) (d : dentry) (symname : bytes) : P (option errno) :=
  let i := blen symname + 1 in
  blocksize ← lift (kget (fun s => 2 ^ s_blocksize_bits s));
  if blocksize <? i then mret (Some ENAMETOOLONG)
  else
    '(inode, err) ← new_inode dir (Z.lor S_IFLNK 0x1FF);
    match inode with
    | None => mret err
    | Some inode =>
        _ ← edit_inode inode (fun i => gas_set_inode i 0);
        err ← page_symlink inode symname i;
        match err with
        | None => add_nondir d inode
        | Some e => _ ← dec_link_count inode; _ ← iput evict inode; mret (Some e)
        end
    end.

Definition gas_link (old : dentry) (dir : Z) (d : dentry) : P (option errno) :=
  r ← d_inode old;
  inode ← plift r;
  now ← lift (kget current_time);
  _ ← edit_inode inode (set_ctime now);
  _ ← inc_link_count inode;
  _ ← ihold inode;
  add_nondir d inode.

(** *** Looking up *)

Definition gas_lookup (dir : Z) (d : dentry) : P (option errno) :=
  if GAS_MAX_NAME_LEN <=? blen (d_name d) then mret (Some ENAMETOOLONG)
  else
    ino ← gas_inode_by_name dir (d_name d);
    if negb (ino =? 0) then
      r ← iget ino;
      match r with
      | inl e => mret (Some e)
      | inr inode => _ ← d_add d inode; mret None
      end
    else mret None.

Definition gas_getattr (d : dentry) : P kstat :=
  r ← d_inode d;
  inode ← plift r;
  i ← lift (iref inode);
  bits ← lift (kget s_blocksize_bits);
  mret (Kstat (i_size i) (2 ^ bits / 512 * gas_blocks (i_size i) bits) (2 ^ bits)).

(** *** Removing entries *)

Definition gas_unlink (dir : Z) (d : dentry) : P (option errno) :=
  r ← d_inode d;
  de ← gas_find_entry d;
  match de with
  | None => mret (Some ENOENT)
  | Some de =>
      err ← gas_delete_entry get_block de;
      match err with
      | Some e => mret (Some e)
      | None =>
          i ← lift (iref dir);
          inode ← plift r;
          _ ← edit_inode inode (set_ctime (i_ctime i));
          _ ← dec_link_count inode;
          mret None
      end
  end.

Definition gas_rmdir (dir : Z) (d : dentry) : P (option errno) :=
  r ← d_inode d;
  inode ← plift r;
  empty ← gas_empty_dir inode;
  if empty : bool then
    err ← gas_unlink dir d;
    match err with
    | None => _ ← dec_link_count dir; _ ← dec_link_count inode; mret None
    | Some e => mret (Some e)
    end
  else mret (Some ENOTEMPTY).

(** *** Renaming *)

(** The two ways to put [old_inode] in place: over the entry of [new_inode], or in a new
    entry. The error leads to [out_dir]. *)
Definition rename_over (old_inode new_inode : Z) (new_d : dentry) (is_dir : bool) : P (option errno) :=
  empty ← (if is_dir then gas_empty_dir new_inode else mret true);
  if negb empty then mret (Some ENOTEMPTY)
  else
    new_de ← gas_find_entry new_d;
    match new_de with
    | None => mret (Some ENOENT)
    | Some new_de =>
        _ ← gas_set_link get_block new_de old_inode;
        now ← lift (kget current_time);
        _ ← edit_inode new_inode (set_ctime now);
        _ ← (if is_dir then drop_nlink new_inode else mret tt);
        _ ← dec_link_count new_inode;
        mret None
    end.

Definition rename_new (old_inode new_dir : Z) (new_d : dentry) (is_dir : bool) : P (option errno) :=
  err ← gas_add_link get_block new_d old_inode;
  match err with
  | Some e => mret (Some e)
  | None => _ ← (if is_dir then inc_link_count new_dir else mret tt); mret None
  end.

Definition gas_rename (old_dir : Z) (old_d : dentry) (new_dir : Z) (new_d : dentry) : P (option errno) :=
  r ← d_inode old_d;
  new_inode ← d_inode new_d;
  old_de ← gas_find_entry old_d;
  match old_de with
  | None => mret (Some ENOENT)
  | Some (old_page, old_off) =>
      old_inode ← plift r;
      i ← lift (iref old_inode);
      dir_de ← (if S_ISDIR (i_mode i) then
                  de ← gas_dotdot old_inode;
                  mret (match de with None => None | Some de => Some (Some de) end)
                else mret (Some None));
      match dir_de with
      | None => _ ← put_page old_page; mret (Some EIO)
      | Some dir_de =>
          let is_dir := bool_decide (is_Some dir_de) in
          err ← (match new_inode with
                 | Some new_inode => rename_over old_inode new_inode new_d is_dir
                 | None => rename_new old_inode new_dir new_d is_dir
                 end);
          match err with
          | Some e =>
              _ ← (match dir_de with Some (dir_page, _) => put_page dir_page | None => mret tt end);
              _ ← put_page old_page;
              mret (Some e)
          | None =>
              _ ← gas_delete_entry get_block (old_page, old_off);
              _ ← mark_dirty old_inode;
              match dir_de with
              | Some de => _ ← gas_set_link get_block de new_dir; _ ← dec_link_count old_dir; mret None
              | None => mret None
              end
          end
      end
  end.
End namei.
