(* ===== verification/NameBase.v ===== *)
(** * What the name-space operations keep

    The invariant of the caches, the frame of an operation, and the steps the operations of
    gas_namei.c are made of: changes of inodes, new inodes, entries added, references
    dropped. [InodeManager] is the interface to the inode allocator and to eviction. *)

From S2P Require Import Prelude Mem Layout Kernel InodeTab Itree Vfs Dir DirSlots DirEdit DirOps DirSpec DirRead Namei.

(** ** The interface to inodes *)

(** What a new inode of the type of [mode] adds to the state. *)
Record new_file (mode ino : Z) (st st' : kst) : Prop := {
  nw_fresh : k_inodes st !! ino = None;
  nw_ref : k_ref st' = k_ref st;
  nw_inode : exists i, k_inodes st' = <[ino := i]> (k_inodes st) /\ i_ino i = ino /\ i_nlink i = 1 /\ i_size i = 0 /\
    Z.land (i_mode i) S_IFMT = Z.land mode S_IFMT }.

(** [im_used ino st]: the number [ino] is taken in the map of inodes. *)
Class InodeManager (get_block : Z -> Z -> bool -> K (option errno * option (Z * bool))) `{!BlockMapper get_block}
    (gas_new_inode : Z -> Z -> K (option Z * option errno)) (evict : Z -> K unit) := {
  im_used : Z -> kst -> Prop;
  im_used_attr : forall ino m d st, im_used ino (with_idirty d (with_inodes m st)) <-> im_used ino st;
  im_new : forall dir mode st, bm_ok dir st -> is_Some (k_inodes st !! dir) ->
    kwp (gas_new_inode dir mode) st (fun '(r, err) st' =>
      match r with
      | None => st' = st /\ (err = Some ENOMEM \/ err = Some ENOSPC)
      | Some ino => err = None /\ new_file mode ino st st' /\ bm_ok dir st' /\ ~ im_used ino st /\ im_used ino st'
      end);
  im_evict : forall dir ino i st, bm_ok dir st -> dir <> ino -> is_Some (k_inodes st !! dir) ->
    k_inodes st !! ino = Some i -> i_nlink i = 0 -> S_ISREG (i_mode i) || S_ISDIR (i_mode i) || S_ISLNK (i_mode i) = true ->
    kwp (evict ino) st (fun _ st' => let st2 := with_inodes (delete ino (k_inodes st')) st' in
      bm_ok dir st2 /\ k_ref st2 = k_ref st /\ k_inodes st2 = delete ino (k_inodes st) /\ ~ im_used ino st2) }.

Section base.
Context `{KernelApi, PL : PageLaws} {get_block : Z -> Z -> bool -> K (option errno * option (Z * bool))}
  `{BM : !BlockMapper get_block}.

(** ** The invariant *)

(** Nothing in the caches belongs to a number that is not in memory. *)
Definition clean (s : vfs) (ino : Z) : Prop :=
  (forall n, shown s (ino, n) = zeroes PAGE_CACHE_SIZE /\ (ino, n) ∉ v_lock s) /\ multiplicity ino (v_count s) = 0%nat.

Record vfs_ok (s : vfs) : Prop := {
  vo_ok : forall n, is_Some (k_inodes (v_k s) !! n) -> bm_ok n (v_k s);
  vo_clean : forall n, k_inodes (v_k s) !! n = None -> clean s n }.

(** Number, mode and link count of an inode in memory. *)
Definition node (s : vfs) (n : Z) : option (Z * Z * Z) :=
  (fun i => (i_ino i, i_mode i, i_nlink i)) <$> k_inodes (v_k s) !! n.

(** An operation concerns the inodes [X]: the other inodes and their pages are as they were, no
    buffer or page stays held or locked, and the invariant is kept. *)
Record name_frame (s : vfs) (X : gset Z) (s' : vfs) : Prop := {
  nf_ok : vfs_ok s';
  nf_ref : k_ref (v_k s') = k_ref (v_k s);
  nf_inodes : forall n, n ∉ X -> k_inodes (v_k s') !! n = k_inodes (v_k s) !! n;
  nf_shown : forall pg, fst pg ∉ X -> shown s' pg = shown s pg;
  nf_pref : v_pref s' = v_pref s;
  nf_lock : v_lock s' = v_lock s }.

Lemma nf_refl s X : vfs_ok s -> name_frame s X s.
Proof. by split. Qed.

Lemma nf_trans s1 s2 s3 X : name_frame s1 X s2 -> name_frame s2 X s3 -> name_frame s1 X s3.
Proof.
  intros [A1 A2 A3 A4 A5 A6] [B1 B2 B3 B4 B5 B6]. split; [done|congruence| | |congruence|congruence].
  - intros n Hn. by rewrite B3, A3.
  - intros pg Hn. by rewrite B4, A4.
Qed.

Lemma nf_mono s s' X Y : name_frame s X s' -> X ⊆ Y -> name_frame s Y s'.
Proof. intros [A1 A2 A3 A4 A5 A6] HX. split; try done; intros; [apply A3|apply A4]; clear -HX H1; set_solver. Qed.

(** *** Directories *)

Lemma dir_ok_ext s s' dir Ls : dir_ok s dir Ls ->
  (forall i, k_inodes (v_k s) !! dir = Some i -> exists i', k_inodes (v_k s') !! dir = Some i' /\ i_size i' = i_size i) ->
  (forall n, shown s' (dir, n) = shown s (dir, n)) -> (forall n, (dir, n) ∉ v_lock s') -> dir_ok s' dir Ls.
Proof.
  intros [(i & Hi & Ds & HL & Ht) D2 D3 D4 D5] HI Hs Hl. destruct (HI i Hi) as (i' & Hi' & Es).
  split; [|intros n; by rewrite Hs|done|intros j Hj; rewrite Hs; by apply D4|done].
  exists i'. rewrite Es. split; [done|]. split; [done|]. split.
  - rewrite HL. unfold dir_slots. apply list_fmap_ext. intros k x _. unfold slot. by rewrite Hs.
  - intros n Hn. rewrite Hs. apply Ht. unfold gas_dir_pages in *. by rewrite Es in Hn.
Qed.

Lemma dir_ok_other s s' X dir Ls : dir_ok s dir Ls -> name_frame s X s' -> dir ∉ X -> dir_ok s' dir Ls.
Proof.
  intros D F Hn. apply (dir_ok_ext s); [done| | |].
  - intros i Hi. exists i. by rewrite (nf_inodes _ _ _ F).
  - intros n. by apply (nf_shown _ _ _ F).
  - rewrite (nf_lock _ _ _ F). apply D.
Qed.

(** A directory operation of DirSpec.v. *)
Lemma dir_frame_node s dir s' n : dir_frame s dir s' -> is_Some (k_inodes (v_k s) !! dir) -> node s' n = node s n.
Proof.
  intros F [i Hi]. unfold node. destruct (decide (n = dir)) as [->|Hne]; [|by rewrite (df_inodes _ _ _ F)].
  destruct (df_dir _ _ _ F i Hi) as (i' & Hi' & E1 & E2 & E3). rewrite Hi, Hi'. cbn. congruence.
Qed.

Lemma node_None s n : node s n = None <-> k_inodes (v_k s) !! n = None.
Proof. unfold node. destruct (k_inodes (v_k s) !! n); done. Qed.

Lemma dir_frame_name s dir s' : vfs_ok s -> is_Some (k_inodes (v_k s) !! dir) -> dir_frame s dir s' -> name_frame s {[dir]} s'.
Proof.
  intros [V1 V2] Hi F.
  assert (Hshown : forall pg, fst pg ∉ ({[dir]} : gset Z) -> shown s' pg = shown s pg).
  { intros pg Hn. apply (df_other _ _ _ F). clear -Hn. set_solver. }
  split; [|apply F| |done|apply F|apply F].
  - split.
    + intros n Hn. eapply bm_all; [apply F|done].
    + intros n Hn. apply node_None in Hn. rewrite (dir_frame_node s dir s' n F Hi) in Hn. apply node_None in Hn.
      destruct (V2 n Hn) as [C1 C2]. split; [|by rewrite (df_count _ _ _ F)]. intros k. rewrite (df_lock _ _ _ F).
      destruct (C1 k) as [C3 C4]. split; [|done]. rewrite Hshown; [done|]. cbn. intros ->%elem_of_singleton.
      destruct Hi as [i Hi]. congruence.
  - intros n Hn. apply (df_inodes _ _ _ F). clear -Hn. set_solver.
Qed.

(** ** Changing an inode *)

Definition node_put (n : Z) (i : inode) (d : gset Z) (s : vfs) : vfs :=
  with_k (with_idirty d (with_inodes (<[n := i]> (k_inodes (v_k s))) (v_k s))) s.

Lemma pwp_edit n f i s (Q : unit -> vfs -> Prop) : k_inodes (v_k s) !! n = Some i ->
  (forall d, Q tt (node_put n (f i) d s)) -> pwp (edit_inode n f) s Q.
Proof.
  intros Hi HQ. unfold edit_inode. apply pwp_bind. eapply pwp_iref; [exact Hi|]. apply pwp_lift, kwp_mod.
  specialize (HQ (k_idirty (v_k s))). unfold node_put in HQ. destruct s as [[] ? ? ? ? ? ?]. exact HQ.
Qed.

Lemma pwp_dirty n i s (Q : unit -> vfs -> Prop) : k_inodes (v_k s) !! n = Some i ->
  (forall d, Q tt (node_put n i d s)) -> pwp (mark_dirty n) s Q.
Proof.
  intros Hi HQ. apply pwp_lift, kwp_mod. specialize (HQ ({[n]} ∪ k_idirty (v_k s))). unfold node_put in HQ.
  rewrite insert_id in HQ by done. destruct s as [[] ? ? ? ? ? ?]. exact HQ.
Qed.

Lemma put_put n i d i' d' s : node_put n i' d' (node_put n i d s) = node_put n i' d' s.
Proof. unfold node_put. cbn. by rewrite insert_insert_eq. Qed.

Lemma lookup_put n i d s : k_inodes (v_k (node_put n i d s)) !! n = Some i.
Proof. cbn. apply lookup_insert_eq. Qed.

Lemma pwp_edit_dirty n f i s (Q : unit -> vfs -> Prop) : k_inodes (v_k s) !! n = Some i ->
  (forall d, Q tt (node_put n (f i) d s)) -> pwp (_ ← edit_inode n f; mark_dirty n) s Q.
Proof.
  intros Hi HQ. apply pwp_bind. eapply pwp_edit; [done|]. intros d. eapply pwp_dirty; [apply lookup_put|].
  intros d'. rewrite put_put. apply HQ.
Qed.

Lemma pwp_inc n i s (Q : unit -> vfs -> Prop) : k_inodes (v_k s) !! n = Some i ->
  (forall d, Q tt (node_put n (set_nlink (u32 (i_nlink i + 1)) i) d s)) -> pwp (inc_link_count n) s Q.
Proof. exact (pwp_edit_dirty n (fun i => set_nlink (u32 (i_nlink i + 1)) i) i s Q). Qed.

Lemma pwp_dec n i s (Q : unit -> vfs -> Prop) : k_inodes (v_k s) !! n = Some i ->
  (forall d, Q tt (node_put n (set_nlink (u32 (i_nlink i - 1)) i) d s)) -> pwp (dec_link_count n) s Q.
Proof. exact (pwp_edit_dirty n (fun i => set_nlink (u32 (i_nlink i - 1)) i) i s Q). Qed.

(** Two inodes that differ in attributes only. *)
Definition same_core (i i' : inode) : Prop := i_ino i' = i_ino i /\ blkaddr i' = blkaddr i /\ i_size i' = i_size i.

Lemma put_ok n i i' d s : vfs_ok s -> k_inodes (v_k s) !! n = Some i -> same_core i i' -> vfs_ok (node_put n i' d s).
Proof.
  intros [V1 V2] Hi (E1 & E2 & _). split.
  - intros m Hm. eapply bm_all; [|done]. apply (bm_stable n (v_k s) i i' d); [apply V1; by eexists|done|done|done].
  - intros m. cbn. intros [Hm _]%lookup_insert_None. destruct (V2 m Hm) as [C1 C2]. by split.
Qed.

Lemma put_frame n i i' d s : vfs_ok s -> k_inodes (v_k s) !! n = Some i -> same_core i i' ->
  name_frame s {[n]} (node_put n i' d s).
Proof.
  intros V Hi C. split; [by eapply put_ok|done| |done|done|done]. intros m Hm. cbn.
  rewrite lookup_insert_ne; [done|]. clear -Hm. set_solver.
Qed.

Lemma put_dir n i i' d s dir Ls : k_inodes (v_k s) !! n = Some i -> same_core i i' -> dir_ok s dir Ls ->
  dir_ok (node_put n i' d s) dir Ls.
Proof.
  intros Hi (_ & _ & Es) D. apply (dir_ok_ext s); [done| |done|apply D]. intros j Hj. cbn.
  destruct (decide (dir = n)) as [->|Hne].
  - simplify_eq. exists i'. by rewrite lookup_insert_eq.
  - exists j. by rewrite lookup_insert_ne.
Qed.

Lemma node_put_eq n i d s : node (node_put n i d s) n = Some (i_ino i, i_mode i, i_nlink i).
Proof. unfold node. cbn. by rewrite lookup_insert_eq. Qed.

Lemma node_put_ne n i d s m : m <> n -> node (node_put n i d s) m = node s m.
Proof. intros Hne. unfold node. cbn. by rewrite lookup_insert_ne. Qed.

Lemma node_get s n i : k_inodes (v_k s) !! n = Some i -> node s n = Some (i_ino i, i_mode i, i_nlink i).
Proof. unfold node. by intros ->. Qed.

Lemma node_Some s n x y z : node s n = Some (x, y, z) ->
  exists i, k_inodes (v_k s) !! n = Some i /\ i_ino i = x /\ i_mode i = y /\ i_nlink i = z.
Proof. unfold node. destruct (k_inodes (v_k s) !! n) as [i|]; [|done]. cbn. intros [= <- <- <-]. by exists i. Qed.

(** The caches of dentries and references do not matter to directories and the invariant. *)
Lemma count_ok s c : vfs_ok s -> (forall n, k_inodes (v_k s) !! n = None -> multiplicity n c = 0%nat) -> vfs_ok (with_count c s).
Proof. intros [V1 V2] Hc. split; [done|]. intros n Hn. destruct (V2 n Hn) as [C1 C2]. split; [done|]. by apply Hc. Qed.

Lemma dentries_ok s d : vfs_ok s -> vfs_ok (with_dentries d s).
Proof. intros [V1 V2]. by split. Qed.

Lemma pages_same s s' pg : v_pages s' = v_pages s -> shown s' pg = shown s pg.
Proof. unfold shown. by intros ->. Qed.
End base.

Section steps.
Context `{KernelApi, PL : PageLaws} {get_block : Z -> Z -> bool -> K (option errno * option (Z * bool))}
  `{BM : !BlockMapper get_block} {gas_new_inode : Z -> Z -> K (option Z * option errno)} {evict : Z -> K unit}
  `{IM : !InodeManager get_block gas_new_inode evict}.

(** ** New inodes *)

(** [s'] is [s] with a new inode, which has no pages; the caller has a reference to it. *)
Record created (s : vfs) (mode ino : Z) (s' : vfs) : Prop := {
  cr_fresh : k_inodes (v_k s) !! ino = None;
  cr_free : ~ im_used ino (v_k s);
  cr_used : im_used ino (v_k s');
  cr_frame : name_frame s {[ino]} s';
  cr_inode : exists i, k_inodes (v_k s') !! ino = Some i /\ i_ino i = ino /\ i_nlink i = 1 /\ i_size i = 0 /\
    Z.land (i_mode i) S_IFMT = Z.land mode S_IFMT;
  cr_shown : forall n, shown s' (ino, n) = zeroes PAGE_CACHE_SIZE;
  cr_count : v_count s' = v_count s ⊎ {[+ ino +]};
  cr_dentries : v_dentries s' = v_dentries s }.

Lemma new_inode_run s dir mode : vfs_ok s -> is_Some (k_inodes (v_k s) !! dir) ->
  pwp (new_inode gas_new_inode dir mode) s (fun '(r, err) s' =>
    match r with
    | None => s' = s /\ (err = Some ENOMEM \/ err = Some ENOSPC)
    | Some ino => err = None /\ created s mode ino s'
    end).
Proof using IM.
  intros V Hd. unfold new_inode. apply pwp_bind, pwp_lift.
  eapply kwp_mono; [apply (im_new dir mode (v_k s)); [by apply V|done]|]. intros [[ino|] err] k'; cycle 1.
  { intros [-> He]. apply pwp_bind, pwp_ret, pwp_ret. by rewrite with_k_same. }
  intros (-> & [N1 N2 (i & Ei & Hi)] & Hok & Hu1 & Hu2). apply pwp_bind, pwp_mod, pwp_ret. split; [done|].
  destruct (vo_clean _ V ino N1) as [C1 C2].
  split; [done|done|done| |exists i; cbn; rewrite Ei, lookup_insert_eq; by split|intros n; apply C1|done|done].
  split; [|done| |done|done|done].
  - split.
    + intros n Hn. eapply bm_all; [exact Hok|exact Hn].
    + intros n. cbn. rewrite Ei. intros [Hn Hne]%lookup_insert_None. destruct (vo_clean _ V n Hn) as [C3 C4]. split; [done|].
      cbn. rewrite multiplicity_disj_union, C4, multiplicity_singleton_ne by done. done.
  - intros n Hn. cbn. rewrite Ei, lookup_insert_ne; [done|]. clear -Hn. set_solver.
Qed.

(** ** Dropping references *)

Lemma pwp_iput_keep s ino i n (Q : unit -> vfs -> Prop) : k_inodes (v_k s) !! ino = Some i ->
  multiplicity ino (v_count s) = S n -> n <> 0%nat \/ i_nlink i <> 0 ->
  Q tt (with_count (v_count s ∖ {[+ ino +]}) s) -> pwp (iput evict ino) s Q.
Proof.
  intros Hi Hm Hn HQ. unfold iput. apply pwp_bind, pwp_get. rewrite Hm. apply pwp_bind, pwp_mod, pwp_bind.
  eapply pwp_iref; [exact Hi|]. replace ((n =? 0)%nat && (i_nlink i =? 0)) with false; [by apply pwp_ret|].
  symmetry. apply andb_false_iff. destruct Hn as [Hn|Hn]; [left; by apply Nat.eqb_neq|right; by apply Z.eqb_neq].
Qed.

(** The inode was evicted, without links, and nothing was written since. *)
Definition evicted (ino : Z) (s' : vfs) : Prop :=
  exists i k1 k2, k_inodes k1 !! ino = Some i /\ i_nlink i = 0 /\ evict ino k1 = Some (tt, k2) /\ k_buf (v_k s') = k_buf k2.

(** The inode has been evicted and has left memory; its number can be used again. *)
Record gone (s : vfs) (ino : Z) (s' : vfs) : Prop := {
  gn_evicted : evicted ino s';
  gn_free : ~ im_used ino (v_k s');
  gn_frame : name_frame s {[ino]} s';
  gn_inodes : k_inodes (v_k s') = delete ino (k_inodes (v_k s));
  gn_count : v_count s' = v_count s ∖ {[+ ino +]};
  gn_dentries : v_dentries s' = v_dentries s }.

Lemma shown_drop s s' ino pg : v_pages s' = drop_pages ino (v_pages s) ->
  shown s' pg = if decide (fst pg = ino) then zeroes PAGE_CACHE_SIZE else shown s pg.
Proof.
  intros E. unfold shown. rewrite E. unfold drop_pages. case_decide as Hp.
  - rewrite map_lookup_filter_None_2; [done|]. right. intros x _ Hx. by apply Hx.
  - destruct (v_pages s !! pg) as [m|] eqn:Em.
    + by rewrite (map_lookup_filter_Some_2 _ _ _ m Em Hp).
    + rewrite map_lookup_filter_None_2; [done|]. by left.
Qed.

Lemma pwp_iput_evict s dir ino i (Q : unit -> vfs -> Prop) : vfs_ok s -> dir <> ino -> is_Some (k_inodes (v_k s) !! dir) ->
  k_inodes (v_k s) !! ino = Some i -> multiplicity ino (v_count s) = 1%nat -> i_nlink i = 0 ->
  S_ISREG (i_mode i) || S_ISDIR (i_mode i) || S_ISLNK (i_mode i) = true -> (forall n, (ino, n) ∉ v_lock s) ->
  (forall s', gone s ino s' -> Q tt s') -> pwp (iput evict ino) s Q.
Proof using IM.
  intros V Hne Hd Hi Hm Hnl Hmode Hlk HQ. unfold iput. apply pwp_bind, pwp_get. rewrite Hm. apply pwp_bind, pwp_mod, pwp_bind.
  eapply pwp_iref; [exact Hi|]. rewrite Hnl. cbn [Nat.eqb Z.eqb andb]. apply pwp_bind, pwp_mod, pwp_bind, pwp_lift.
  destruct (im_evict dir ino i (v_k s)) as ([] & k' & Ek & Hok & Hr & Hin & Hfree); [by apply V|done..|].
  exists tt, k'. split; [exact Ek|]. apply pwp_lift, kwp_mod. apply HQ. set (k2 := with_inodes _ k') in *.
  assert (Hsh : forall pg, shown (with_k k2 (with_pages (drop_pages ino (v_pages s)) (with_count (v_count s ∖ {[+ ino +]}) s))) pg =
    if decide (fst pg = ino) then zeroes PAGE_CACHE_SIZE else shown s pg) by (intros pg; by apply (shown_drop s)).
  split; [by exists i, (v_k s), k'|exact Hfree| |exact Hin|done|done]. split; [|done| | |done|done].
  - split.
    + intros n Hn. eapply bm_all; [exact Hok|exact Hn].
    + intros n Hn. change (k_inodes k2 !! n = None) in Hn. rewrite Hin in Hn.
      assert (Hm0 : multiplicity n (v_count s ∖ {[+ ino +]}) = 0%nat).
      { rewrite multiplicity_difference. destruct (decide (n = ino)) as [->|Hn'].
        - by rewrite Hm, multiplicity_singleton, decide_True by done.
        - rewrite lookup_delete_ne in Hn by done. destruct (vo_clean _ V n Hn) as [_ C]. lia. }
      split; [|done]. intros m. rewrite Hsh. cbn [fst]. destruct (decide (n = ino)) as [->|Hn'].
      * split; [done|apply Hlk].
      * rewrite lookup_delete_ne in Hn by done. by apply (vo_clean _ V n Hn).
  - intros n Hn. change (k_inodes k2 !! n = k_inodes (v_k s) !! n). rewrite Hin, lookup_delete_ne; [done|]. clear -Hn. set_solver.
  - intros pg Hn. rewrite Hsh, decide_False; [done|]. clear -Hn. set_solver.
Qed.
End steps.
