(* ===== verification/NameSpec.v ===== *)
(** * What the name-space operations do

    The operations of gas_namei.c against the slots of the directories, the link counts,
    the references of inodes and the dentries, on every branch. Failures that leave
    something behind are stated as they are. *)

From S2P Require Import Prelude Mem Layout Kernel InodeTab Itree Vfs Dir DirSlots DirEdit DirOps DirSpec DirRead Namei NameBase.

Section outcomes.
Context `{KernelApi, PageApi} (get_block : Z -> Z -> bool -> K (option errno * option (Z * bool))).

(** [gas_add_link] of the name, started in state [k], has answered [err], and the directory has the
    slots this leaves: one more is used, unless the search failed or preparing the page. *)
Definition named (k : kst) (dir : Z) (Ls : list (option (bytes * Z))) (name : bytes) (ino : Z) (err : option errno) (s : vfs) : Prop :=
  exists o, link_outcome (get_block := get_block) k dir Ls name err o /\ dir_ok s dir (link_slots Ls (Some (name, ino)) o).

(** [gas_delete_entry] of slot [j], started in state [k], has answered [err], and the directory has
    the slots this leaves: the slot is free, unless preparing its page failed. *)
Definition unnamed (k : kst) (dir : Z) (Ls : list (option (bytes * Z))) (j : Z) (err : option errno) (s : vfs) : Prop :=
  exists b, unlink_outcome (get_block := get_block) k dir j err b /\ dir_ok s dir (unlink_slots Ls j b).

(** Room for one more entry. *)
Definition dir_room (Ls : list (option (bytes * Z))) : Prop := slot_pos (Z.of_nat (length Ls)) + DE.sizeof < 2 ^ 31.

Lemma named_map k dir Ls name ino err s s' : (forall L, dir_ok s dir L -> dir_ok s' dir L) ->
  named k dir Ls name ino err s -> named k dir Ls name ino err s'.
Proof. intros HD (o & O & D). exists o. auto. Qed.

Lemma link_outcome_done k dir Ls name o : link_outcome (get_block := get_block) k dir Ls name None o ->
  exists j, o = Some j /\ (j = Z.of_nat (length Ls) \/ Ls !! Z.to_nat j = Some None).
Proof. inversion 1; eauto. Qed.

Lemma unnamed_map k dir Ls j err s s' : (forall L, dir_ok s dir L -> dir_ok s' dir L) ->
  unnamed k dir Ls j err s -> unnamed k dir Ls j err s'.
Proof. intros HD (b & O & D). exists b. auto. Qed.
End outcomes.

Section spec.
Context `{KL : KernelLaws, PL : PageLaws} {get_block : Z -> Z -> bool -> K (option errno * option (Z * bool))}
  `{BM : !BlockMapper get_block} {gas_new_inode : Z -> Z -> K (option Z * option errno)} {evict : Z -> K unit}
  `{IM : !InodeManager get_block gas_new_inode evict}.

(** ** Entries *)

Lemma add_link_run s dir Ls name ino : vfs_ok s -> dir_ok s dir Ls -> dir_room Ls -> valid_name name ->
  is_Some (k_inodes (v_k s) !! ino) ->
  pwp (gas_add_link get_block (Dentry dir name) ino) s (fun err s' => named get_block (v_k s) dir Ls name ino err s' /\ dir_frame s dir s').
Proof using PL BM.
  intros V D Hroom Hname [io Hio]. destruct (do_slots _ _ _ D) as (i & Hi & Ds & HL & _).
  destruct (bm_ino ino (v_k s) io) as [Eio Hr]; [by apply V|done|].
  assert (HN : Z.of_nat (length Ls) = nslots (i_size i)) by (rewrite HL; by apply slots_length).
  eapply pwp_mono; [apply (gas_add_link_run s dir Ls i name ino io D); try done; [by apply V|lia|]|].
  { unfold dir_room in Hroom. by rewrite HN in Hroom. }
  rewrite Eio. intros err s' (o & O & D' & F & _). split; [by exists o|done].
Qed.

(** [add_nondir] of an inode that keeps a link or another reference. *)
Lemma add_nondir_run s dir Ls name ino i n : vfs_ok s -> dir_ok s dir Ls -> dir_room Ls -> valid_name name ->
  k_inodes (v_k s) !! ino = Some i -> multiplicity ino (v_count s) = S n -> n <> 0%nat \/ i_nlink i <> 0 ->
  pwp (add_nondir get_block evict (Dentry dir name) ino) s (fun err s' =>
    named get_block (v_k s) dir Ls name ino err s' /\ name_frame s {[dir]} s' /\ (forall m, node s' m = node s m) /\
    match err with
    | None => v_dentries s' = <[(dir, name) := ino]> (v_dentries s) /\ v_count s' = v_count s
    | Some _ => v_dentries s' = v_dentries s /\ v_count s' = v_count s ∖ {[+ ino +]}
    end).
Proof using PL BM.
  intros V D Hroom Hname Hi Hm Hn. assert (Hd : is_Some (k_inodes (v_k s) !! dir)) by (destruct (do_slots _ _ _ D) as (? & ? & _); by eexists).
  unfold add_nondir. apply pwp_bind. eapply pwp_mono; [by apply (add_link_run s dir Ls name ino); [..|by eexists]|].
  intros err s1 [N F]. pose proof (dir_frame_name s dir s1 V Hd F) as NF. pose proof (fun m => dir_frame_node s dir s1 m F Hd) as Hnode.
  destruct err as [e|].
  - pose proof (Hnode ino) as Hno. rewrite (node_get s ino i Hi) in Hno. apply node_Some in Hno as (i1 & Hi1 & _ & _ & Hl1).
    apply pwp_bind. eapply (pwp_iput_keep s1 ino i1 n); [done|by rewrite (df_count _ _ _ F)|by rewrite Hl1|]. apply pwp_ret.
    split; [|split; [|split; [done|]]].
    + eapply named_map; [|exact N]. intros L DL. apply (dir_ok_ext s1); [done|by eauto|done|apply DL].
    + split; try apply NF. apply count_ok; [apply NF|]. intros m Hm0. rewrite multiplicity_difference.
      destruct (vo_clean _ (nf_ok _ _ _ NF) m Hm0) as [_ C]. lia.
    + cbn. by rewrite (df_dentries _ _ _ F), (df_count _ _ _ F).
  - apply pwp_bind, pwp_mod, pwp_ret. split; [|split; [|split; [done|]]].
    + eapply named_map; [|exact N]. intros L DL. apply (dir_ok_ext s1); [done|by eauto|done|apply DL].
    + split; try apply NF. apply dentries_ok, NF.
    + cbn. by rewrite (df_dentries _ _ _ F), (df_count _ _ _ F).
Qed.

(** ** New files *)

(** The new file: its number, its type and its link count. *)
Definition new_node (s : vfs) (ino mode nlink : Z) : Prop :=
  exists m, node s ino = Some (ino, m, nlink) /\ Z.land m S_IFMT = Z.land mode S_IFMT.

Lemma gas_mknod_run s dir Ls name mode rdev : vfs_ok s -> dir_ok s dir Ls -> dir_room Ls -> valid_name name ->
  pwp (gas_mknod get_block gas_new_inode evict dir (Dentry dir name) mode rdev) s (fun err s' =>
    s' = s /\ (err = Some ENOMEM \/ err = Some ENOSPC) \/
    exists ino, k_inodes (v_k s) !! ino = None /\ name_frame s {[dir; ino]} s' /\
      (exists s2, name_frame s {[ino]} s2 /\ new_node s2 ino mode 1 /\ named get_block (v_k s2) dir Ls name ino err s') /\
      node s' dir = node s dir /\ new_node s' ino mode 1 /\
      match err with
      | None => v_dentries s' = <[(dir, name) := ino]> (v_dentries s) /\ v_count s' = v_count s ⊎ {[+ ino +]}
      | Some _ => v_dentries s' = v_dentries s /\ v_count s' = v_count s
      end).
Proof using KL PL BM IM.
  intros V D Hroom Hname. assert (Hd : is_Some (k_inodes (v_k s) !! dir)) by (destruct (do_slots _ _ _ D) as (? & ? & _); by eexists).
  unfold gas_mknod. cbn [negb]. apply pwp_bind. eapply pwp_mono; [by apply (new_inode_run s dir mode)|].
  intros [[ino|] err] s1; cycle 1.
  { intros [-> [-> | ->]]; apply pwp_ret; left; auto. }
  intros (-> & [C1 _ _ C2 (i & Hi & Eino & Enl & Esz & Emode) _ C5 C6]). destruct (gas_set_inode_attrs i rdev) as (G1 & G2 & G3 & _ & _ & G6 & _ & _ & _ & G10 & _).
  set (i' := gas_set_inode i rdev) in *. assert (SC : same_core i i') by (by split).
  assert (Hne : dir <> ino) by (intros ->; destruct Hd; congruence).
  apply pwp_bind. eapply pwp_edit; [exact Hi|]. intros d. apply pwp_bind. eapply pwp_dirty; [apply lookup_put|]. intros d'. rewrite put_put.
  fold i'. set (s2 := node_put ino i' d' s1). pose proof (put_frame ino i i' d' s1 (nf_ok _ _ _ C2) Hi SC) as F2. fold s2 in F2.
  assert (D2 : dir_ok s2 dir Ls).
  { eapply put_dir; [exact Hi|done|]. eapply dir_ok_other; [exact D|exact C2|]. clear -Hne. set_solver. }
  destruct (vo_clean _ V ino C1) as [_ Hcl].
  eapply pwp_mono; [apply (add_nondir_run s2 dir Ls name ino i' 0 (nf_ok _ _ _ F2) D2 Hroom Hname); [apply lookup_put| |right; congruence]|].
  { change (v_count s2) with (v_count s1). by rewrite C5, multiplicity_disj_union, Hcl, multiplicity_singleton, decide_True. }
  assert (Hnew : new_node s2 ino mode 1) by (exists (i_mode i); unfold s2; rewrite node_put_eq; split; [congruence|done]).
  intros err s3 (N3 & F3 & Hn3 & Hr). right. exists ino. split; [done|]. split; [|split; [|split; [|split]]].
  - eapply nf_trans; [eapply nf_trans|]; eapply nf_mono; [exact C2| |exact F2| |exact F3|]; clear; set_solver.
  - exists s2. split; [by eapply nf_trans|done].
  - rewrite Hn3. unfold s2. rewrite node_put_ne by done. unfold node. by rewrite (nf_inodes _ _ _ C2) by (clear -Hne; set_solver).
  - destruct Hnew as (m & Em & Et). exists m. by rewrite Hn3.
  - change (v_count s2) with (v_count s1) in Hr. change (v_dentries s2) with (v_dentries s1) in Hr. rewrite C5, C6 in Hr.
    destruct err; destruct Hr as [-> ->]; (split; [done|]); [|done]. clear. multiset_solver.
Qed.

Lemma gas_create_mknod dir d mode : gas_create get_block gas_new_inode evict dir d mode = gas_mknod get_block gas_new_inode evict dir d mode 0.
Proof using Type. done. Qed.

(** C11: [gas_create] and [gas_mknod] return without a trace when there is no memory or no free
    inode. Otherwise a fresh inode of the given type with one link exists afterwards, and its
    name is added as [gas_add_link] does. On success the directory has the name in one more
    slot, with the number of the inode, and the dentry refers to it. When adding the name
    fails, the error is returned and no reference and no dentry is left (an entry only
    when the failure is that of its synchronous write), but the inode keeps its link, so that
    neither it nor its number is ever freed. Nothing else changes. *)
Theorem gas_create_spec s dir Ls name mode rdev (op : dentry -> P (option errno)) :
  op = (fun d => gas_create get_block gas_new_inode evict dir d mode) \/
  op = (fun d => gas_mknod get_block gas_new_inode evict dir d mode rdev) ->
  vfs_ok s -> dir_ok s dir Ls -> dir_room Ls -> valid_name name ->
  pwp (op (Dentry dir name)) s (fun err s' =>
    s' = s /\ (err = Some ENOMEM \/ err = Some ENOSPC) \/
    exists ino, k_inodes (v_k s) !! ino = None /\ name_frame s {[dir; ino]} s' /\
      (exists s2, name_frame s {[ino]} s2 /\ new_node s2 ino mode 1 /\ named get_block (v_k s2) dir Ls name ino err s') /\
      node s' dir = node s dir /\ new_node s' ino mode 1 /\
      match err with
      | None => v_dentries s' = <[(dir, name) := ino]> (v_dentries s) /\ v_count s' = v_count s ⊎ {[+ ino +]}
      | Some _ => v_dentries s' = v_dentries s /\ v_count s' = v_count s
      end).
Proof using KL PL BM IM.
  intros [->| ->] V D Hroom Hname; [rewrite gas_create_mknod|]; by apply gas_mknod_run.
Qed.

(** ** Hard links *)

(** C12: [gas_link] makes one more name for an inode: the link count and the references grow by
    one and the dentry refers to the inode. When the entry cannot be made the error is
    returned and the reference dropped, but the link count stays one too high, so that the
    inode outlives its names. *)
Theorem gas_link_spec s dir Ls name old ino i :
  vfs_ok s -> dir_ok s dir Ls -> dir_room Ls -> valid_name name ->
  v_dentries s !! d_key old = Some ino -> k_inodes (v_k s) !! ino = Some i -> ino <> dir -> 0 <= i_nlink i < 2 ^ 32 - 1 ->
  pwp (gas_link get_block evict old dir (Dentry dir name)) s (fun err s' =>
    (exists s2, name_frame s {[ino]} s2 /\ node s2 ino = Some (ino, i_mode i, i_nlink i + 1) /\
       named get_block (v_k s2) dir Ls name ino err s') /\
    name_frame s {[dir; ino]} s' /\ node s' dir = node s dir /\
    node s' ino = Some (ino, i_mode i, i_nlink i + 1) /\
    match err with
    | None => v_dentries s' = <[(dir, name) := ino]> (v_dentries s) /\ v_count s' = v_count s ⊎ {[+ ino +]}
    | Some _ => v_dentries s' = v_dentries s /\ v_count s' = v_count s
    end).
Proof using KL PL BM IM.
  intros V D Hroom Hname Hold Hi Hne Hnl. unfold gas_link. apply pwp_bind, pwp_get. apply pwp_bind. eapply pwp_plift; [exact Hold|].
  apply pwp_bind, pwp_lift, kwp_get. rewrite with_k_same. apply pwp_bind. eapply pwp_edit; [exact Hi|]. intros d.
  apply pwp_bind. eapply pwp_inc; [apply lookup_put|]. intros d'. rewrite put_put. cbn [i_nlink set_ctime].
  rewrite u32_small by lia. set (i' := set_nlink _ _). apply pwp_bind, pwp_mod. set (s1 := node_put ino i' d' s).
  set (s2 := with_count (v_count s1 ⊎ {[+ ino +]}) s1).
  assert (SC : same_core i i') by (by split). pose proof (put_frame ino i i' d' s V Hi SC) as F1. fold s1 in F1.
  assert (Hi1 : k_inodes (v_k s1) !! ino = Some i') by apply lookup_put.
  assert (F2 : name_frame s {[ino]} s2).
  { split; try apply F1. apply count_ok; [apply F1|]. intros n Hn. rewrite multiplicity_disj_union, multiplicity_singleton_ne by congruence.
    destruct (vo_clean _ (nf_ok _ _ _ F1) n Hn) as [_ C]. lia. }
  assert (D2 : dir_ok s2 dir Ls) by (eapply dir_ok_other; [exact D|exact F2|clear -Hne; set_solver]).
  eapply pwp_mono; [apply (add_nondir_run s2 dir Ls name ino i' (multiplicity ino (v_count s)) (nf_ok _ _ _ F2) D2 Hroom Hname Hi1)|].
  { cbn. rewrite multiplicity_disj_union, multiplicity_singleton, decide_True by done. lia. }
  { right. cbn. lia. }
  assert (Hn2 : node s2 ino = Some (ino, i_mode i, i_nlink i + 1)).
  { change (node s2 ino) with (node s1 ino). unfold s1. rewrite node_put_eq. cbn.
    destruct (bm_ino ino (v_k s) i) as [-> _]; [by apply V; eexists|done|done]. }
  intros err s3 (N3 & F3 & Hn3 & Hr). split; [by exists s2|]. split; [|split; [|split]].
  - eapply nf_trans; eapply nf_mono; [exact F2| |exact F3|]; clear; set_solver.
  - rewrite Hn3. by apply node_put_ne.
  - by rewrite Hn3.
  - cbn [v_count v_dentries s2 with_count] in Hr. destruct err; destruct Hr as [-> ->]; (split; [done|]); [|done].
    clear. multiset_solver.
Qed.

(** ** Removing names *)

Lemma unlinking_unnamed s dir Ls j err s' : unlinking s dir Ls j err s' ->
  unnamed get_block (v_k s) dir Ls j err s' /\ dir_frame s dir s'.
Proof using Type. intros (b & O & D & F & _). split; [by exists b|done]. Qed.

Lemma gas_unlink_run s dir Ls name ino i :
  vfs_ok s -> dir_ok s dir Ls -> valid_name name ->
  v_dentries s !! (dir, name) = Some ino -> k_inodes (v_k s) !! ino = Some i -> ino <> dir ->
  exists j, is_first (found_at s dir name) 0 (Z.of_nat (length Ls)) j /\
    if j <? Z.of_nat (length Ls) then
      pwp (gas_unlink get_block dir (Dentry dir name)) s (fun err s' =>
        unnamed get_block (v_k s) dir Ls j err s' /\ name_frame s {[dir; ino]} s' /\ node s' dir = node s dir /\
        node s' ino = Some (ino, i_mode i, match err with None => u32 (i_nlink i - 1) | Some _ => i_nlink i end) /\
        v_dentries s' = v_dentries s /\ v_count s' = v_count s /\ forall n L, n <> dir -> dir_ok s n L -> dir_ok s' n L)
    else gas_unlink get_block dir (Dentry dir name) s = Some (Some ENOENT, s).
Proof using PL BM.
  intros V D Hname Hd Hi Hne. destruct (gas_find_entry_slot s dir Ls name D Hname) as (j & Hj & Hslot & E). exists j. split; [done|].
  assert (Hdir : is_Some (k_inodes (v_k s) !! dir)) by (destruct (do_slots _ _ _ D) as (? & ? & _); by eexists).
  assert (Eino : i_ino i = ino) by (apply (bm_ino ino (v_k s) i); [by apply V; eexists|done]).
  unfold gas_unlink. destruct (Z.ltb_spec j (Z.of_nat (length Ls))) as [Hlt|Hge].
  2: { rewrite P_bind_eq. cbn [d_inode pget]. by rewrite P_bind_eq, E. }
  apply pwp_bind, pwp_get. apply pwp_bind. eexists _, _. split; [exact E|]. apply pwp_bind.
  eapply pwp_mono; [apply (gas_delete_entry_slot s dir Ls j D); [by apply V|destruct Hj; lia]|].
  intros err s1 [U F]%unlinking_unnamed. pose proof (dir_frame_name s dir s1 V Hdir F) as NF.
  pose proof (fun m => dir_frame_node s dir s1 m F Hdir) as Hnode.
  assert (Hi1 : k_inodes (v_k s1) !! ino = Some i) by (by rewrite (df_inodes _ _ _ F)).
  destruct err as [e|].
  - apply pwp_ret. split; [done|]. split; [eapply nf_mono; [exact NF|clear; set_solver]|]. split; [apply Hnode|].
    rewrite (node_get s1 ino i Hi1), Eino. split; [done|]. split; [apply F|]. split; [apply F|].
    intros n L Hn DL. eapply dir_ok_other; [exact DL|exact NF|]. clear -Hn. set_solver.
  - destruct Hdir as [di Hdi]. destruct (df_dir _ _ _ F di Hdi) as (di1 & Hdi1 & _).
    apply pwp_bind. eapply pwp_iref; [exact Hdi1|]. apply pwp_bind. eapply pwp_plift; [exact Hd|].
    apply pwp_bind. eapply pwp_edit; [exact Hi1|]. intros d. apply pwp_bind. eapply pwp_dec; [apply lookup_put|]. intros d'.
    rewrite put_put. cbn [i_nlink set_ctime]. set (i' := set_nlink _ _). apply pwp_ret.
    assert (SC : same_core i i') by (by split). split.
    { eapply unnamed_map; [|exact U]. intros L DL. by eapply put_dir. }
    split; [eapply nf_trans; eapply nf_mono; [exact NF| |by apply (put_frame ino i); [apply NF|..]|]; clear; set_solver|].
    split; [rewrite node_put_ne by done; apply Hnode|]. split; [rewrite node_put_eq; cbn; by rewrite Eino|]. split; [apply F|]. split; [apply F|].
    intros n L Hn DL. eapply put_dir; [exact Hi1|done|]. eapply dir_ok_other; [exact DL|exact NF|]. clear -Hn. set_solver.
Qed.

(** C10: [gas_unlink] frees the slot of the name and takes one link from the inode, or reports
    ENOENT for a name it cannot find. When preparing the page of the slot fails, that error is
    reported, the slot stays and the inode keeps its link; it keeps it also when only the
    synchronous write of the freed slot fails. Dentries, references and all other files are
    as they were. *)
Theorem gas_unlink_spec s dir Ls name ino i :
  vfs_ok s -> dir_ok s dir Ls -> valid_name name ->
  v_dentries s !! (dir, name) = Some ino -> k_inodes (v_k s) !! ino = Some i -> ino <> dir ->
  exists j, is_first (found_at s dir name) 0 (Z.of_nat (length Ls)) j /\
    if j <? Z.of_nat (length Ls) then
      pwp (gas_unlink get_block dir (Dentry dir name)) s (fun err s' =>
        unnamed get_block (v_k s) dir Ls j err s' /\ name_frame s {[dir; ino]} s' /\ node s' dir = node s dir /\
        node s' ino = Some (ino, i_mode i, match err with None => u32 (i_nlink i - 1) | Some _ => i_nlink i end) /\
        v_dentries s' = v_dentries s /\ v_count s' = v_count s /\ forall n L, n <> dir -> dir_ok s n L -> dir_ok s' n L)
    else gas_unlink get_block dir (Dentry dir name) s = Some (Some ENOENT, s).
Proof using PL BM. by apply gas_unlink_run. Qed.

(** C13: [gas_rmdir] answers ENOTEMPTY and changes nothing exactly when the directory has, in a page
    that can be read, an entry other than its own [.] and a [..]; entries in pages that cannot
    be read do not keep it. Otherwise it removes the name as [gas_unlink] does, and when that
    succeeded takes two links from the directory removed and one from its parent; when it
    failed no link is taken. ENOENT is for a name that cannot be found. *)
Theorem gas_rmdir_spec s dir Ls name ino i Lc di :
  vfs_ok s -> dir_ok s dir Ls -> valid_name name -> dir_ok s ino Lc ->
  v_dentries s !! (dir, name) = Some ino -> k_inodes (v_k s) !! ino = Some i -> ino <> dir ->
  k_inodes (v_k s) !! dir = Some di -> 0 < i_nlink di < 2 ^ 32 -> 2 <= i_nlink i < 2 ^ 32 ->
  exists j empty, is_first (found_at s dir name) 0 (Z.of_nat (length Ls)) j /\
    (empty = true <-> forall k nm x, 0 <= k -> Lc !! Z.to_nat k = Some (Some (nm, x)) -> page_err ino (slot_page k) = None ->
       nm = [dot] /\ x = ino \/ nm = [dot; dot]) /\
    if negb empty then gas_rmdir get_block dir (Dentry dir name) s = Some (Some ENOTEMPTY, s)
    else if j <? Z.of_nat (length Ls) then
      pwp (gas_rmdir get_block dir (Dentry dir name)) s (fun err s' =>
        unnamed get_block (v_k s) dir Ls j err s' /\ name_frame s {[dir; ino]} s' /\ dir_ok s' ino Lc /\
        v_dentries s' = v_dentries s /\ v_count s' = v_count s /\
        match err with
        | None => node s' dir = Some (dir, i_mode di, i_nlink di - 1) /\ node s' ino = Some (ino, i_mode i, i_nlink i - 2)
        | Some _ => node s' dir = node s dir /\ node s' ino = node s ino
        end)
    else gas_rmdir get_block dir (Dentry dir name) s = Some (Some ENOENT, s).
Proof using PL BM.
  intros V D Hname Dc Hd Hi Hne Hdi Hndi Hni. destruct (gas_empty_dir_slots s ino Lc i Dc Hi) as (empty & Ee & Hempty).
  assert (Eself : i_ino i = ino) by (apply (bm_ino ino (v_k s) i); [by apply V; eexists|done]). rewrite Eself in Hempty.
  destruct (gas_unlink_run s dir Ls name ino i V D Hname Hd Hi Hne) as (j & Hj & HU). exists j, empty. split; [done|]. split; [done|].
  assert (Er : gas_rmdir get_block dir (Dentry dir name) s = (if empty then
      err ← gas_unlink get_block dir (Dentry dir name);
      match err with None => _ ← dec_link_count dir; _ ← dec_link_count ino; mret None | Some e => mret (Some e) end
      else mret (Some ENOTEMPTY)) s).
  { unfold gas_rmdir. rewrite P_bind_eq. cbn [d_inode pget]. change (d_key (Dentry dir name)) with (dir, name).
    rewrite (P_plift _ ino) by done. by rewrite P_bind_eq, Ee. }
  destruct empty; cbn [negb]; [|done]. destruct (j <? _); [|rewrite Er, P_bind_eq, HU; done].
  enough (HP : pwp (err ← gas_unlink get_block dir (Dentry dir name);
      match err with None => _ ← dec_link_count dir; _ ← dec_link_count ino; mret None | Some e => mret (Some e) end) s
    (fun err s' => unnamed get_block (v_k s) dir Ls j err s' /\ name_frame s {[dir; ino]} s' /\ dir_ok s' ino Lc /\
        v_dentries s' = v_dentries s /\ v_count s' = v_count s /\
        match err with
        | None => node s' dir = Some (dir, i_mode di, i_nlink di - 1) /\ node s' ino = Some (ino, i_mode i, i_nlink i - 2)
        | Some _ => node s' dir = node s dir /\ node s' ino = node s ino
        end)).
  { destruct HP as (e & s' & E & HP). exists e, s'. split; [by rewrite Er|done]. }
  apply pwp_bind. eapply pwp_mono; [exact HU|]. intros err s1 (U & F & Hnd & Hn1 & Hden & Hcnt & HL).
  assert (Edir : i_ino di = dir) by (apply (bm_ino dir (v_k s) di); [by apply V; eexists|done]).
  assert (Eino : i_ino i = ino) by (apply (bm_ino ino (v_k s) i); [by apply V; eexists|done]).
  destruct err as [e|].
  { apply pwp_ret. split; [done|]. split; [done|]. split; [by apply HL|]. split; [done|]. split; [done|]. split; [done|].
    by rewrite Hn1, (node_get s ino i Hi), Eino. }
  rewrite (node_get s dir di Hdi), Edir in Hnd. apply node_Some in Hnd as (d1 & Hd1 & A1 & A2 & A3).
  apply node_Some in Hn1 as (i1 & Hi1 & B1 & B2 & B3).
  apply pwp_bind. eapply pwp_dec; [exact Hd1|]. intros d. set (d2 := set_nlink _ d1). set (s2 := node_put dir d2 d s1).
  assert (Hi2 : k_inodes (v_k s2) !! ino = Some i1) by (cbn; by rewrite lookup_insert_ne by done).
  apply pwp_bind. eapply pwp_dec; [exact Hi2|]. intros d'. set (i2 := set_nlink _ i1). apply pwp_ret.
  assert (SCd : same_core d1 d2) by (by split). assert (SCi : same_core i1 i2) by (by split).
  pose proof (put_frame dir d1 d2 d s1 (nf_ok _ _ _ F) Hd1 SCd) as F2. pose proof (put_frame ino i1 i2 d' s2 (nf_ok _ _ _ F2) Hi2 SCi) as F3.
  assert (Hdirs : forall n L, dir_ok s1 n L -> dir_ok (node_put ino i2 d' s2) n L).
  { intros n L DL. eapply put_dir; [exact Hi2|done|]. by eapply put_dir. }
  split; [eapply unnamed_map; [|exact U]; by auto|].
  split; [eapply nf_trans; [exact F|]; eapply nf_trans; eapply nf_mono; [exact F2| |exact F3|]; clear; set_solver|].
  split; [by apply Hdirs, HL|]. split; [done|]. split; [done|]. split.
  - rewrite node_put_ne by done. unfold s2. rewrite node_put_eq. cbn. rewrite A1, A2, A3, u32_small by lia. done.
  - rewrite node_put_eq. cbn. rewrite B1, B2, B3. rewrite (u32_small (i_nlink i - 1)) by lia.
    rewrite u32_small by lia. by replace (i_nlink i - 1 - 1) with (i_nlink i - 2) by lia.
Qed.

(** ** New directories *)

(** Inode [n] with its link count and its position in memory. *)
Lemma node_inode s n x m k : node s n = Some (x, m, k) -> exists i, k_inodes (v_k s) !! n = Some i /\ i_mode i = m /\ i_nlink i = k.
Proof using Type. intros (i & Hi & _ & Hm & Hk)%node_Some. by exists i. Qed.

Lemma inode_number s n i : vfs_ok s -> k_inodes (v_k s) !! n = Some i -> i_ino i = n /\ 0 < n < 2 ^ 32.
Proof using BM. intros V Hi. apply (bm_ino n (v_k s) i); [apply V; by eexists|done]. Qed.

(** The end of [gas_mkdir] when something failed: the new inode goes and the parent loses the
    link it was given. *)
Lemma mkdir_undo s dir ino e m md k : vfs_ok s -> dir <> ino -> node s ino = Some (ino, m, 2) -> S_ISDIR m = true ->
  multiplicity ino (v_count s) = 1%nat -> (forall n, (ino, n) ∉ v_lock s) -> node s dir = Some (dir, md, k) -> 0 < k < 2 ^ 32 ->
  pwp (_ ← dec_link_count ino; _ ← dec_link_count ino; _ ← iput evict ino; _ ← dec_link_count dir; mret (Some e : option errno)) s
    (fun err s' => err = Some e /\ name_frame s {[dir; ino]} s' /\ k_inodes (v_k s') !! ino = None /\
      (forall L, dir_ok s dir L -> dir_ok s' dir L) /\ node s' dir = Some (dir, md, k - 1) /\
      v_count s' = v_count s ∖ {[+ ino +]} /\ v_dentries s' = v_dentries s /\ evicted (evict := evict) ino s' /\ ~ im_used ino (v_k s')).
Proof using PL BM IM.
  intros V Hne (i & Hi & Hm & Hl)%node_inode Hdirm Hcnt Hlk (di & Hdi & Hmd & Hk)%node_inode Hkr.
  apply pwp_bind. eapply pwp_dec; [exact Hi|]. intros d1. apply pwp_bind. eapply pwp_dec; [apply lookup_put|]. intros d2.
  rewrite put_put. set (i2 := set_nlink _ _). set (s1 := node_put ino i2 d2 s). assert (SC : same_core i i2) by (by split).
  pose proof (put_frame ino i i2 d2 s V Hi SC) as F1. fold s1 in F1.
  assert (Hdi1 : k_inodes (v_k s1) !! dir = Some di) by (cbn; by rewrite lookup_insert_ne by done).
  apply pwp_bind. apply (pwp_iput_evict s1 dir ino i2); [apply F1|done|by eexists|apply lookup_put|done| | |done|].
  { unfold i2. cbn. by rewrite Hl. }
  { change (i_mode i2) with (i_mode i). rewrite Hm, Hdirm. by rewrite orb_true_r. }
  intros s2 G. assert (Hdi2 : k_inodes (v_k s2) !! dir = Some di) by (rewrite (gn_inodes _ _ _ G), lookup_delete_ne; done).
  apply pwp_bind. eapply pwp_dec; [exact Hdi2|]. intros d3. set (d' := set_nlink _ di). apply pwp_ret.
  assert (SCd : same_core di d') by (by split). pose proof (put_frame dir di d' d3 s2 (nf_ok _ _ _ (gn_frame _ _ _ G)) Hdi2 SCd) as F3.
  split; [done|]. split.
  { eapply nf_trans; [eapply nf_trans|]; eapply nf_mono; [exact F1| |exact (gn_frame _ _ _ G)| |exact F3|]; clear; set_solver. }
  split; [cbn; rewrite lookup_insert_ne by done; by rewrite (gn_inodes _ _ _ G), lookup_delete_eq|]. split.
  { intros L DL. eapply put_dir; [exact Hdi2|done|]. eapply dir_ok_other; [|exact (gn_frame _ _ _ G)|clear -Hne; set_solver].
    by eapply put_dir. }
  split; [|split; [apply G|split; [apply G|split]]].
  - rewrite node_put_eq. cbn. destruct (inode_number s dir di V Hdi) as [-> _]. rewrite Hmd, Hk, u32_small by lia. done.
  - destruct (gn_evicted _ _ _ G) as (x & k1 & k2 & A1 & A2 & A3 & A4). by exists x, k1, k2.
  - intros Hu%im_used_attr. by apply (gn_free _ _ _ G).
Qed.

(** The body of [gas_mkdir] between the new inode and the dentry: the new directory is filled, and if
    that succeeded the name is added. *)
Definition mkdir_filled (s : vfs) (dir ino : Z) (Ls : list (option (bytes * Z))) (name : bytes) (err : option errno) (s' : vfs) : Prop :=
  exists e1 s1, making (get_block := get_block) s ino ino dir e1 s1 /\
    match e1 with
    | Some e => err = Some e /\ dir_ok s' dir Ls
    | None => named get_block (v_k s1) dir Ls name ino err s'
    end.

Lemma mkdir_fill s dir ino Ls name i di : vfs_ok s -> dir_ok s dir Ls -> dir_room Ls -> valid_name name -> dir <> ino ->
  k_inodes (v_k s) !! ino = Some i -> i_size i = 0 -> k_inodes (v_k s) !! dir = Some di ->
  (forall n, shown s (ino, n) = zeroes PAGE_CACHE_SIZE) -> (forall n, (ino, n) ∉ v_lock s) ->
  pwp (err ← gas_make_empty get_block ino dir;
       match err with None => gas_add_link get_block (Dentry dir name) ino | Some e => mret (Some e) end) s
    (fun err s' => mkdir_filled s dir ino Ls name err s' /\ name_frame s {[dir; ino]} s' /\ (forall n, node s' n = node s n) /\
      v_count s' = v_count s /\ v_dentries s' = v_dentries s /\
      (err = None -> dir_ok s' ino [Some ([dot], ino); Some ([dot; dot], dir)])).
Proof using PL BM.
  intros V D Hroom Hname Hne Hi Hs Hdi Hz Hlk. destruct (inode_number s ino i V Hi) as [Ei Hir]. destruct (inode_number s dir di V Hdi) as [Ed Hdr].
  apply pwp_bind. eapply pwp_mono; [apply (gas_make_empty_run s ino dir i di); try done; [apply V; by eexists|by rewrite Ei|by rewrite Ed]|].
  rewrite Ei, Ed. intros err s1 M.
  assert (HM : dir_frame s ino s1 /\ (err = None -> dir_ok s1 ino [Some ([dot], ino); Some ([dot; dot], dir)])).
  { destruct M as [_|e s1 _ _ F _|s1 _ _ D1 F _]; (split; [|done]); [|done|done]. apply frame_refl. apply V. by eexists. }
  destruct HM as [F HD]. assert (Hino : is_Some (k_inodes (v_k s) !! ino)) by (by eexists).
  pose proof (dir_frame_name s ino s1 V Hino F) as NF. pose proof (fun n => dir_frame_node s ino s1 n F Hino) as Hn.
  assert (D1 : dir_ok s1 dir Ls) by (eapply dir_ok_other; [exact D|exact NF|clear -Hne; set_solver]).
  destruct err as [e|].
  - apply pwp_ret. split; [by exists (Some e), s1|]. split; [eapply nf_mono; [exact NF|clear; set_solver]|]. split; [done|].
    split; [apply F|]. split; [apply F|done].
  - destruct (df_dir _ _ _ F i Hi) as (i1 & Hi1 & _).
    eapply pwp_mono; [apply (add_link_run s1 dir Ls name ino (nf_ok _ _ _ NF) D1 Hroom Hname); by eexists|]. intros err s2 [N F2].
    assert (Hd1 : is_Some (k_inodes (v_k s1) !! dir)) by (rewrite (df_inodes _ _ _ F); [by eexists|done]).
    pose proof (dir_frame_name s1 dir s2 (nf_ok _ _ _ NF) Hd1 F2) as NF2.
    split; [by exists None, s1|]. split; [eapply nf_trans; eapply nf_mono; [exact NF| |exact NF2|]; clear; set_solver|].
    split; [intros n; by rewrite (dir_frame_node s1 dir s2 n F2 Hd1)|]. split; [by rewrite (df_count _ _ _ F2), (df_count _ _ _ F)|].
    split; [by rewrite (df_dentries _ _ _ F2), (df_dentries _ _ _ F)|]. intros _.
    eapply dir_ok_other; [by apply HD|exact NF2|clear -Hne; set_solver].
Qed.

Lemma mkdir_filled_map s dir ino Ls name err s1 s2 : (forall L, dir_ok s1 dir L -> dir_ok s2 dir L) ->
  mkdir_filled s dir ino Ls name err s1 -> mkdir_filled s dir ino Ls name err s2.
Proof using Type.
  intros HD (e1 & s' & M & H1). exists e1, s'. split; [done|]. destruct e1 as [e|]; [|by eapply named_map].
  destruct H1. auto.
Qed.

Lemma mkdir_type mode : Z.land mode S_IFMT = 0 -> Z.land (Z.lor S_IFDIR mode) S_IFMT = S_IFDIR.
Proof using Type. intros Hm. rewrite Z.land_lor_distr_l, Hm. done. Qed.

(** No inode for [gas_mkdir]: the parent has its links back. *)
Lemma mkdir_none s dir Ls di d1 e : vfs_ok s -> dir_ok s dir Ls -> k_inodes (v_k s) !! dir = Some di ->
  0 <= i_nlink di < 2 ^ 32 - 1 ->
  pwp (_ ← dec_link_count dir; mret (Some e : option errno)) (node_put dir (set_nlink (i_nlink di + 1) di) d1 s) (fun err s' => err = Some e /\
    name_frame s {[dir]} s' /\ dir_ok s' dir Ls /\ node s' dir = node s dir /\ v_dentries s' = v_dentries s /\ v_count s' = v_count s).
Proof using PL BM.
  intros V D Hdi Hl. apply pwp_bind. eapply pwp_dec; [apply lookup_put|]. intros d2. rewrite put_put. cbn [i_nlink set_nlink].
  rewrite u32_small by lia. set (di2 := set_nlink _ _). apply pwp_ret. split; [done|].
  assert (SC2 : same_core di di2) by (by split). pose proof (put_frame dir di di2 d2 s V Hdi SC2) as F2.
  split; [done|]. split; [by apply (put_dir dir di)|]. split; [|done].
  rewrite node_put_eq, (node_get s dir di Hdi). cbn. by replace (i_nlink di + 1 - 1) with (i_nlink di) by lia.
Qed.

(** The second link and the operations of a new inode. *)
Lemma mkdir_node s mode ino s1 rdev : created s mode ino s1 ->
  pwp (_ ← inc_link_count ino; edit_inode ino (fun i => gas_set_inode i rdev)) s1 (fun _ s2 =>
    name_frame s {[ino]} s2 /\ (exists i, k_inodes (v_k s2) !! ino = Some i /\ i_size i = 0 /\
      node s2 ino = Some (ino, i_mode i, 2) /\ Z.land (i_mode i) S_IFMT = Z.land mode S_IFMT) /\
    (forall n, shown s2 (ino, n) = zeroes PAGE_CACHE_SIZE) /\ v_count s2 = v_count s ⊎ {[+ ino +]} /\ v_dentries s2 = v_dentries s).
Proof using KL PL BM.
  intros [C1 _ _ C2 (i & Hi & Eino & Enl & Esz & Emode) C4 C5 C6]. apply pwp_bind. eapply pwp_inc; [exact Hi|]. intros d.
  eapply pwp_edit; [apply lookup_put|]. intros d'. rewrite put_put. set (x := set_nlink _ i).
  destruct (gas_set_inode_attrs x rdev) as (G1 & G2 & G3 & _ & _ & G6 & _ & _ & _ & G10 & _). set (i3 := gas_set_inode x rdev) in *.
  assert (SC : same_core i i3) by (by repeat split). pose proof (put_frame ino i i3 d' s1 (nf_ok _ _ _ C2) Hi SC) as F.
  split; [by eapply nf_trans|]. split; [|done]. exists i3. split; [apply lookup_put|]. split; [exact (eq_trans G6 Esz)|].
  rewrite node_put_eq, G1, G2, G3. split; [|done]. cbn. by rewrite Enl, Eino.
Qed.

(** C9: [gas_mkdir] answers ENOMEM or ENOSPC without a new inode, with the slots of the parent and its
    links as they were. Otherwise an inode is made, with a free number, the new directory is
    filled by [gas_make_empty], and when that succeeded the name is put in a free slot of the
    parent as [gas_add_link] does. On success the parent has one more link, the new
    directory holds [.] and [..] with the two numbers and has two links, and the dentry
    refers to it. When filling the directory or adding the name fails, that error is the
    answer; the parent has its links back, dentries and references are as before, and the new
    inode was evicted without links: it is not in memory and its number is free. The slots of
    the parent are then as before, with one exception: when only the synchronous write of
    the page of the new entry failed, the entry stays and names the inode that is gone. *)
Theorem gas_mkdir_spec s dir Ls name mode di :
  vfs_ok s -> dir_ok s dir Ls -> dir_room Ls -> valid_name name -> k_inodes (v_k s) !! dir = Some di ->
  0 <= i_nlink di < 2 ^ 32 - 1 -> Z.land mode S_IFMT = 0 ->
  pwp (gas_mkdir get_block gas_new_inode evict dir (Dentry dir name) mode) s (fun err s' =>
    (err = Some ENOMEM \/ err = Some ENOSPC) /\ name_frame s {[dir]} s' /\ dir_ok s' dir Ls /\ node s' dir = node s dir /\
      v_dentries s' = v_dentries s /\ v_count s' = v_count s \/
    exists ino, k_inodes (v_k s) !! ino = None /\ ~ im_used ino (v_k s) /\ name_frame s {[dir; ino]} s' /\
      (exists s2, name_frame s {[dir; ino]} s2 /\ new_node s2 ino S_IFDIR 2 /\ mkdir_filled s2 dir ino Ls name err s') /\
      match err with
      | None => dir_ok s' ino [Some ([dot], ino); Some ([dot; dot], dir)] /\ new_node s' ino S_IFDIR 2 /\
          node s' dir = Some (dir, i_mode di, i_nlink di + 1) /\
          v_dentries s' = <[(dir, name) := ino]> (v_dentries s) /\ v_count s' = v_count s ⊎ {[+ ino +]}
      | Some _ => k_inodes (v_k s') !! ino = None /\ ~ im_used ino (v_k s') /\ evicted (evict := evict) ino s' /\
          node s' dir = node s dir /\ v_dentries s' = v_dentries s /\ v_count s' = v_count s
      end).
Proof using KL PL BM IM.
  intros V D Hroom Hname Hdi Hl Hmode. destruct (inode_number s dir di V Hdi) as [Ed _].
  unfold gas_mkdir. apply pwp_bind. eapply pwp_inc; [exact Hdi|]. intros d1. rewrite u32_small by lia.
  set (di1 := set_nlink _ di). set (s1 := node_put dir di1 d1 s). assert (SC1 : same_core di di1) by (by split).
  pose proof (put_frame dir di di1 d1 s V Hdi SC1) as F1. fold s1 in F1. assert (D1 : dir_ok s1 dir Ls) by (by eapply put_dir).
  assert (Hdi1 : k_inodes (v_k s1) !! dir = Some di1) by apply lookup_put.
  assert (Hdir1 : is_Some (k_inodes (v_k s1) !! dir)) by (by eexists).
  apply pwp_bind. eapply pwp_mono; [apply (new_inode_run s1 dir (Z.lor S_IFDIR mode) (nf_ok _ _ _ F1) Hdir1)|].
  intros [[ino|] err] s2; cycle 1.
  { intros [-> He]. assert (exists e, err = Some e) as [e ->] by (destruct He as [-> | ->]; by eexists).
    eapply pwp_mono; [by apply (mkdir_none s dir Ls di d1 e)|]. intros err s' [-> HN]. by left. }
  intros (-> & C). pose proof (cr_fresh _ _ _ _ C) as Hfresh. assert (Hfree : ~ im_used ino (v_k s)).
  { intros Hu. apply (cr_free _ _ _ _ C). by apply im_used_attr. }
  unfold s1 in Hfresh. cbn in Hfresh. apply lookup_insert_None in Hfresh as [Hfresh Hne].
  destruct (vo_clean _ V ino Hfresh) as [Hcl Hcnt]. apply pwp_assoc, pwp_bind.
  eapply pwp_mono; [by apply (mkdir_node s1 (Z.lor S_IFDIR mode) ino s2 0)|].
  intros [] s3 (F3 & (i3 & Hi3 & Hsz3 & Hni3 & Emode) & Hz3 & Ec3 & Ed3). rewrite mkdir_type in Emode by done.
  assert (F13 : name_frame s {[dir; ino]} s3) by (eapply nf_trans; eapply nf_mono; [exact F1| |exact F3|]; clear; set_solver).
  assert (D3 : dir_ok s3 dir Ls) by (eapply dir_ok_other; [exact D1|exact F3|clear -Hne; set_solver]).
  assert (Hlk3 : forall n, (ino, n) ∉ v_lock s3) by (intros n; rewrite (nf_lock _ _ _ F13); apply Hcl).
  assert (Hdi3 : k_inodes (v_k s3) !! dir = Some di1) by (by rewrite (nf_inodes _ _ _ F3) by (clear -Hne; set_solver)).
  assert (Hn3 : node s3 dir = Some (dir, i_mode di, i_nlink di + 1)) by (rewrite (node_get s3 dir di1 Hdi3); cbn; by rewrite Ed).
  change (v_count s1) with (v_count s) in Ec3. change (v_dentries s1) with (v_dentries s) in Ed3.
  apply pwp_assoc, pwp_bind.
  eapply pwp_mono; [by apply (mkdir_fill s3 dir ino Ls name i3 di1 (nf_ok _ _ _ F3) D3 Hroom Hname Hne)|].
  assert (Hnew3 : new_node s3 ino S_IFDIR 2) by (by exists (i_mode i3)).
  intros err s4 (N4 & F4 & Hn4 & Ec4 & Ed4 & HD4). rewrite Ec3 in Ec4. rewrite Ed3 in Ed4. destruct err as [e|].
  - eapply pwp_mono; [apply (mkdir_undo s4 dir ino e (i_mode i3) (i_mode di) (i_nlink di + 1) (nf_ok _ _ _ F4) Hne);
      [by rewrite Hn4|unfold S_ISDIR; by rewrite Emode| |intros n; rewrite (nf_lock _ _ _ F4); apply Hlk3|by rewrite Hn4|lia]|].
    { by rewrite Ec4, multiplicity_disj_union, Hcnt, multiplicity_singleton, decide_True. }
    intros err s5 (-> & F5 & Hgone & HL5 & Hn5 & Ec5 & Ed5 & Hev & Hfr). right. exists ino. split; [done|]. split; [done|].
    split; [eapply nf_trans; [exact F13|]; eapply nf_trans; [exact F4|exact F5]|].
    split; [exists s3; split; [done|]; split; [done|]; eapply mkdir_filled_map; [exact HL5|exact N4]|].
    split; [done|]. split; [done|]. split; [done|].
    split; [rewrite Hn5, (node_get s dir di Hdi), Ed; by replace (i_nlink di + 1 - 1) with (i_nlink di) by lia|].
    rewrite Ed5, Ec5, Ec4, Ed4. split; [done|]. clear. multiset_solver.
  - apply pwp_bind, pwp_mod, pwp_ret. right. exists ino. split; [done|]. split; [done|].
    assert (Hd : forall dir' L, dir_ok s4 dir' L -> dir_ok (with_dentries (<[d_key (Dentry dir name) := ino]> (v_dentries s4)) s4) dir' L).
    { intros dir' L DL. apply (dir_ok_ext s4); [done|by eauto|done|apply DL]. }
    split; [eapply nf_trans; [exact F13|]; split; try apply F4; by apply dentries_ok, F4|].
    split; [exists s3; split; [done|]; split; [done|]; eapply mkdir_filled_map; [|exact N4]; by apply Hd|].
    split; [by apply Hd, HD4|]. split; [exists (i_mode i3); split; [exact (eq_trans (Hn4 ino) Hni3)|by rewrite Emode]|].
    split; [exact (eq_trans (Hn4 dir) Hn3)|]. cbn. rewrite Ed4, Ec4. done.
Qed.

(** ** Renaming *)

(** A reference to a page does not matter to the invariant and to directories. *)
Lemma pref_ok s r : vfs_ok s -> vfs_ok (with_pref r s).
Proof using Type. intros [V1 V2]. by split. Qed.

Lemma pref_dir s r dir L : dir_ok s dir L -> dir_ok (with_pref r s) dir L.
Proof using Type. intros D. apply (dir_ok_ext s); [done|by eauto|done|apply D]. Qed.

Lemma pref_swap s r : s = with_pref (v_pref s) (with_pref r s).
Proof using Type. by destruct s. Qed.

(** The end of [gas_rename] of something that is not a directory: the old slot is freed, unless
    preparing its page fails; the result does not matter. *)
Lemma rename_tail s dir Ls j ino i : vfs_ok s -> dir_ok s dir Ls -> 0 <= j < Z.of_nat (length Ls) ->
  k_inodes (v_k s) !! ino = Some i -> ino <> dir ->
  pwp (_ ← gas_delete_entry get_block ((dir, slot_page j), slot_off j); _ ← mark_dirty ino; mret (None : option errno))
    (with_pref (v_pref s ⊎ {[+ (dir, slot_page j) +]}) s)
    (fun err s' => err = None /\ (exists err2, unnamed get_block (v_k s) dir Ls j err2 s') /\ name_frame s {[dir]} s' /\
      (forall n, node s' n = node s n) /\ v_count s' = v_count s /\ v_dentries s' = v_dentries s).
Proof using PL BM.
  intros V D Hj Hi Hne. assert (Hdir : is_Some (k_inodes (v_k s) !! dir)) by (destruct (do_slots _ _ _ D) as (? & ? & _); by eexists).
  apply pwp_bind. eapply pwp_mono; [apply (gas_delete_entry_slot s dir Ls j D); [by apply V|done]|].
  intros err2 s1 [U F]%unlinking_unnamed. pose proof (dir_frame_name s dir s1 V Hdir F) as NF.
  assert (Hi1 : k_inodes (v_k s1) !! ino = Some i) by (by rewrite (df_inodes _ _ _ F)).
  apply pwp_bind. eapply pwp_dirty; [exact Hi1|]. intros d. apply pwp_ret. assert (SC : same_core i i) by (by split).
  pose proof (put_frame ino i i d s1 (nf_ok _ _ _ NF) Hi1 SC) as F2.
  split; [done|]. split; [exists err2; eapply unnamed_map; [|exact U]; intros L DL; by eapply put_dir|]. split.
  - split; try apply NF; [apply F2|]. intros n Hn. cbn. destruct (decide (n = ino)) as [->|Hni].
    + rewrite lookup_insert_eq. by rewrite <- Hi1, (df_inodes _ _ _ F).
    + rewrite lookup_insert_ne by done. by apply NF.
  - split; [|split; apply F]. intros n. rewrite <- (dir_frame_node s dir s1 n F Hdir). destruct (decide (n = ino)) as [->|Hni].
    + by rewrite node_put_eq, (node_get s1 ino i Hi1).
    + by apply node_put_ne.
Qed.

(** The beginning: the entry is found. *)
Lemma rename_head s old_dir old_name new_dir new_name Lo ino i j : dir_ok s old_dir Lo -> valid_name old_name ->
  v_dentries s !! (old_dir, old_name) = Some ino -> k_inodes (v_k s) !! ino = Some i -> S_ISDIR (i_mode i) = false ->
  is_first (found_at s old_dir old_name) 0 (Z.of_nat (length Lo)) j ->
  gas_rename get_block old_dir (Dentry old_dir old_name) new_dir (Dentry new_dir new_name) s =
    if j <? Z.of_nat (length Lo) then
      (err ← (match v_dentries s !! (new_dir, new_name) with
              | Some new_inode => rename_over get_block ino new_inode (Dentry new_dir new_name) false
              | None => rename_new get_block ino new_dir (Dentry new_dir new_name) false
              end);
       match err with
       | Some e => _ ← put_page (old_dir, slot_page j); mret (Some e)
       | None => _ ← gas_delete_entry get_block ((old_dir, slot_page j), slot_off j); _ ← mark_dirty ino; mret None
       end) (with_pref (v_pref s ⊎ {[+ (old_dir, slot_page j) +]}) s)
    else Some (Some ENOENT, s).
Proof using Type.
  intros D Hname Hd Hi Hm Hj. destruct (gas_find_entry_slot s old_dir Lo old_name D Hname) as (j' & Hj' & _ & E).
  rewrite (is_first_unique _ _ _ _ _ Hj' Hj) in E. unfold gas_rename. rewrite P_bind_eq. cbn [d_inode pget].
  rewrite P_bind_eq. cbn [d_inode pget d_key d_parent d_name]. rewrite P_bind_eq, E.
  destruct (j <? _); [|done]. rewrite (P_plift _ ino) by exact Hd. rewrite (P_iref _ i) by done.
  rewrite Hm. by rewrite P_bind_eq.
Qed.

Lemma dir_ok_fun s dir L1 L2 : dir_ok s dir L1 -> dir_ok s dir L2 -> L1 = L2.
Proof using Type. intros D1 D2. destruct (do_slots _ _ _ D1) as (i & Hi & _ & -> & _). destruct (do_slots _ _ _ D2) as (i' & Hi' & _ & -> & _). by simplify_eq. Qed.

Lemma set_slot_length Ls j v : (length Ls <= length (set_slot Ls j v))%nat.
Proof using Type. unfold set_slot. destruct (_ <? _); [by rewrite length_insert|rewrite length_app; lia]. Qed.

(** A step on another directory while a page is held. *)
Lemma held_frame s pg s2 X : name_frame (with_pref (v_pref s ⊎ {[+ pg +]}) s) X s2 ->
  name_frame s X (with_pref (v_pref s) s2) /\ s2 = with_pref (v_pref (with_pref (v_pref s) s2) ⊎ {[+ pg +]}) (with_pref (v_pref s) s2).
Proof using Type.
  intros F. split.
  - split; try apply F; [by apply pref_ok, F|done].
  - cbn. pose proof (nf_pref _ _ _ F) as E. cbn in E. rewrite <- E. by destruct s2.
Qed.

(** C14: [gas_rename] of something that is not a directory to a name that does not exist adds
    the new name, with the number of the inode, as [gas_add_link] does. If that fails the
    error is returned and the old name stays (the new one has been added only when the
    failure is that of its synchronous write). When the new name has been added,
    [gas_delete_entry] frees the slot of the old name: the old name is gone, unless preparing
    its page fails; the answer is ignored, so that the operation reports success even when
    the inode then has both names. Link counts, references and dentries do not change, and
    no page stays held. *)
Theorem gas_rename_move s old_dir old_name Lo new_dir new_name Ln ino i j :
  vfs_ok s -> dir_ok s old_dir Lo -> dir_ok s new_dir Ln -> dir_room Ln -> valid_name old_name -> valid_name new_name ->
  v_dentries s !! (old_dir, old_name) = Some ino -> v_dentries s !! (new_dir, new_name) = None ->
  k_inodes (v_k s) !! ino = Some i -> S_ISDIR (i_mode i) = false -> ino <> old_dir ->
  is_first (found_at s old_dir old_name) 0 (Z.of_nat (length Lo)) j -> j < Z.of_nat (length Lo) ->
  pwp (gas_rename get_block old_dir (Dentry old_dir old_name) new_dir (Dentry new_dir new_name)) s (fun err s' =>
    name_frame s {[old_dir; new_dir]} s' /\ (forall n, node s' n = node s n) /\
    v_count s' = v_count s /\ v_dentries s' = v_dentries s /\
    match err with
    | Some e => named get_block (v_k s) new_dir Ln new_name ino err s' /\ (old_dir <> new_dir -> dir_ok s' old_dir Lo)
    | None => exists jn s2 err2, link_outcome (get_block := get_block) (v_k s) new_dir Ln new_name None (Some jn) /\
        let Ln' := set_slot Ln jn (Some (new_name, ino)) in
        name_frame s {[new_dir]} s2 /\ dir_ok s2 new_dir Ln' /\
        if decide (old_dir = new_dir) then unnamed get_block (v_k s2) old_dir Ln' j err2 s'
        else dir_ok s' new_dir Ln' /\ unnamed get_block (v_k s2) old_dir Lo j err2 s'
    end).
Proof using PL BM.
  intros V Do Dn Hroom Ho Hn Hdo Hdn Hi Hm Hne Hj Hlt. assert (Hj0 : 0 <= j) by apply Hj.
  assert (Hdir : is_Some (k_inodes (v_k s) !! new_dir)) by (destruct (do_slots _ _ _ Dn) as (? & ? & _); by eexists).
  unfold pwp. rewrite (rename_head s old_dir old_name new_dir new_name Lo ino i j Do Ho Hdo Hi Hm Hj), Hdn.
  rewrite (proj2 (Z.ltb_lt _ _)) by done. apply pwp_bind. unfold rename_new. apply pwp_bind. set (pg := (old_dir, slot_page j)).
  set (s1 := with_pref _ s). assert (Vs1 : vfs_ok s1) by (by apply pref_ok).
  eapply pwp_mono; [apply (add_link_run s1 new_dir Ln new_name ino Vs1); [by apply pref_dir|done|done|by eexists]|].
  intros err s2 [N F]. pose proof (dir_frame_name s1 new_dir s2 Vs1 Hdir F) as NF.
  destruct (held_frame s pg s2 _ NF) as [F3 E2]. set (s3 := with_pref (v_pref s) s2) in *.
  assert (Hn3 : forall n, node s3 n = node s n) by (intros n; exact (dir_frame_node s1 new_dir s2 n F Hdir)).
  assert (N3 : named get_block (v_k s) new_dir Ln new_name ino err s3) by (eapply named_map; [|exact N]; intros L DL; by apply pref_dir).
  assert (Do3 : old_dir <> new_dir -> dir_ok s3 old_dir Lo) by (intros Hd; eapply dir_ok_other; [exact Do|exact F3|clear -Hd; set_solver]).
  destruct err as [e|].
  - apply pwp_ret, pwp_bind. rewrite E2. apply pwp_put; [apply pref_taken|]. apply pwp_ret. cbn [v_pref with_pref]. rewrite pref_take_drop.
    change (with_pref _ (with_pref _ s3)) with s3. split; [eapply nf_mono; [exact F3|clear; set_solver]|]. split; [done|].
    split; [apply (df_count _ _ _ F)|]. split; [apply (df_dentries _ _ _ F)|done].
  - apply pwp_bind, pwp_ret, pwp_ret. destruct N3 as (o & O3 & D3). destruct (link_outcome_done _ _ _ _ _ _ O3) as (jn & -> & _). cbn [link_slots] in D3.
    destruct (node_inode s3 ino (i_ino i) (i_mode i) (i_nlink i)) as (i3 & Hi3 & _); [by rewrite Hn3, (node_get s ino i Hi)|].
    set (L3 := if decide (old_dir = new_dir) then set_slot Ln jn (Some (new_name, ino)) else Lo).
    assert (DL3 : dir_ok s3 old_dir L3 /\ j < Z.of_nat (length L3)).
    { unfold L3. case_decide as Hd; [subst new_dir|by split; [apply Do3|]]. split; [done|].
      rewrite (dir_ok_fun s old_dir Lo Ln Do Dn) in Hlt. pose proof (set_slot_length Ln jn (Some (new_name, ino))). lia. }
    rewrite E2. eapply pwp_mono; [apply (rename_tail s3 old_dir L3 j ino i3 (nf_ok _ _ _ F3) (proj1 DL3)); [split; [done|apply DL3]|done|done]|].
    intros err s4 (-> & (err2 & U) & F4 & Hn4 & Hc4 & Hd4).
    split; [eapply nf_trans; eapply nf_mono; [exact F3| |exact F4|]; clear; set_solver|].
    split; [intros n; by rewrite Hn4|]. split; [rewrite Hc4; apply (df_count _ _ _ F)|]. split; [rewrite Hd4; apply (df_dentries _ _ _ F)|].
    exists jn, s3, err2. split; [done|]. cbv zeta. split; [done|]. split; [done|]. unfold L3 in U. case_decide as Hd; [done|]. split; [|done].
    eapply dir_ok_other; [exact D3|exact F4|clear -Hd; set_solver].
Qed.

(** [rename_over] with a page held: the entry keeps its number and the inode it named loses a
    link. *)
Lemma rename_over_run s dir Ls name ino nino ni j : vfs_ok s -> dir_ok s dir Ls -> valid_name name ->
  k_inodes (v_k s) !! nino = Some ni -> nino <> dir ->
  is_first (found_at s dir name) 0 (Z.of_nat (length Ls)) j -> j < Z.of_nat (length Ls) ->
  pwp (rename_over get_block ino nino (Dentry dir name) false) s (fun err s' =>
    err = None /\ name_frame s {[dir; nino]} s' /\ (forall n L, dir_ok s n L -> dir_ok s' n L) /\
    node s' nino = Some (nino, i_mode ni, u32 (i_nlink ni - 1)) /\ (forall n, n <> nino -> node s' n = node s n) /\
    v_count s' = v_count s /\ v_dentries s' = v_dentries s).
Proof using PL BM.
  intros V D Hname Hni Hne Hj Hlt. destruct (gas_find_entry_slot s dir Ls name D Hname) as (j' & Hj' & _ & E).
  rewrite (is_first_unique _ _ _ _ _ Hj' Hj), (proj2 (Z.ltb_lt _ _)) in E by done. destruct (do_slots _ _ _ D) as (i & Hi & Ds & HL & _).
  assert (HN : Z.of_nat (length Ls) = nslots (i_size i)) by (rewrite HL; by apply slots_length).
  assert (Hdir : is_Some (k_inodes (v_k s) !! dir)) by (by eexists). unfold rename_over. apply pwp_bind, pwp_ret. cbn [negb].
  apply pwp_bind. eexists _, _. split; [exact E|]. apply pwp_bind.
  eapply pwp_mono; [apply (gas_set_link_run s dir Ls i j ino D); [by apply V|done|destruct Hj; lia]|].
  intros [] s1 [K _]. destruct (kept_ok s dir Ls i _ s1 D Hi K) as [D1 F]. pose proof (dir_frame_name s dir s1 V Hdir F) as NF.
  assert (Hni1 : k_inodes (v_k s1) !! nino = Some ni) by (by rewrite (df_inodes _ _ _ F)).
  apply pwp_bind, pwp_lift, kwp_get. rewrite with_k_same. apply pwp_bind. eapply pwp_edit; [exact Hni1|]. intros d.
  apply pwp_bind, pwp_ret, pwp_bind. eapply pwp_dec; [apply lookup_put|]. intros d'. rewrite put_put. cbn [i_nlink set_ctime].
  set (ni' := set_nlink _ _). apply pwp_ret. assert (SC : same_core ni ni') by (by split).
  pose proof (put_frame nino ni ni' d' s1 (nf_ok _ _ _ NF) Hni1 SC) as F2.
  split; [done|]. split; [eapply nf_trans; eapply nf_mono; [exact NF| |exact F2|]; clear; set_solver|]. split.
  { intros n L DL. eapply put_dir; [exact Hni1|done|]. destruct (decide (n = dir)) as [->|Hnd].
    - by rewrite (dir_ok_fun s dir L Ls DL D).
    - eapply dir_ok_other; [exact DL|exact NF|clear -Hnd; set_solver]. }
  split; [rewrite node_put_eq; cbn; by destruct (inode_number s nino ni V Hni) as [-> _]|].
  split; [intros n Hn; rewrite node_put_ne by done; by apply (dir_frame_node s dir s1 n F Hdir)|]. split; apply F.
Qed.

(** C15: [gas_rename] over a name that exists loses the file that is renamed: the new name keeps
    the number of the file it named before, because [gas_set_link] does not store
    anything; the slot of the old name is freed, unless preparing its page fails; and a link
    is taken from the file that is still named. The operation reports success. *)
Theorem gas_rename_over_loses s old_dir old_name Lo new_dir new_name Ln ino i nino ni j jn :
  vfs_ok s -> dir_ok s old_dir Lo -> dir_ok s new_dir Ln -> valid_name old_name -> valid_name new_name -> old_name <> new_name ->
  v_dentries s !! (old_dir, old_name) = Some ino -> v_dentries s !! (new_dir, new_name) = Some nino ->
  k_inodes (v_k s) !! ino = Some i -> S_ISDIR (i_mode i) = false -> k_inodes (v_k s) !! nino = Some ni ->
  ino <> old_dir -> nino <> new_dir -> nino <> old_dir ->
  is_first (found_at s old_dir old_name) 0 (Z.of_nat (length Lo)) j -> j < Z.of_nat (length Lo) ->
  is_first (found_at s new_dir new_name) 0 (Z.of_nat (length Ln)) jn -> jn < Z.of_nat (length Ln) ->
  pwp (gas_rename get_block old_dir (Dentry old_dir old_name) new_dir (Dentry new_dir new_name)) s (fun err s' =>
    err = None /\ name_frame s {[old_dir; new_dir; nino]} s' /\
    (exists s2 err2, name_frame s {[new_dir; nino]} s2 /\ dir_ok s2 old_dir Lo /\ unnamed get_block (v_k s2) old_dir Lo j err2 s') /\
    (exists Ln' x, dir_ok s' new_dir Ln' /\ Ln !! Z.to_nat jn = Some (Some (new_name, x)) /\
       Ln' !! Z.to_nat jn = Some (Some (new_name, x))) /\
    node s' nino = Some (nino, i_mode ni, u32 (i_nlink ni - 1)) /\ (forall n, n <> nino -> node s' n = node s n) /\
    v_count s' = v_count s /\ v_dentries s' = v_dentries s).
Proof using PL BM.
  intros V Do Dn Ho Hn Hnames Hdo Hdn Hi Hm Hni Hne Hne2 Hne3 Hj Hlt Hjn Hltn. assert (Hj0 : 0 <= j) by apply Hj.
  destruct (gas_find_entry_slot s new_dir Ln new_name Dn Hn) as (jn' & Hjn' & Hx & _).
  rewrite (is_first_unique _ _ _ _ _ Hjn' Hjn) in Hx. destruct (Hx Hltn) as (x & Ex & _). clear Hx jn' Hjn'.
  destruct (gas_find_entry_slot s old_dir Lo old_name Do Ho) as (j' & Hj' & Hy & _).
  rewrite (is_first_unique _ _ _ _ _ Hj' Hj) in Hy. destruct (Hy Hlt) as (y & Ey & _). clear Hy j' Hj'.
  unfold pwp. rewrite (rename_head s old_dir old_name new_dir new_name Lo ino i j Do Ho Hdo Hi Hm Hj), Hdn.
  rewrite (proj2 (Z.ltb_lt _ _)) by done. apply pwp_bind. set (pg := (old_dir, slot_page j)). set (s1 := with_pref _ s).
  eapply pwp_mono; [apply (rename_over_run s1 new_dir Ln new_name ino nino ni jn); try done; [by apply pref_ok|by apply pref_dir]|].
  intros err s2 (-> & NF & HD & Hn1 & Hn2 & Hc & Hd). destruct (held_frame s pg s2 _ NF) as [F3 E2]. set (s3 := with_pref (v_pref s) s2) in *.
  assert (HD3 : forall n L, dir_ok s n L -> dir_ok s3 n L) by (intros n L DL; by apply pref_dir, HD, pref_dir).
  assert (Hino : is_Some (k_inodes (v_k s3) !! ino)).
  { destruct (decide (ino = nino)) as [->|Hd']; [destruct (node_inode s3 _ _ _ _ Hn1) as (k & -> & _); by eexists|].
    destruct (node_inode s3 ino (i_ino i) (i_mode i) (i_nlink i)) as (k & -> & _); [|by eexists].
    refine (eq_trans (Hn2 ino Hd') _). by apply (node_get s). }
  destruct Hino as [i3 Hi3]. rewrite E2.
  eapply pwp_mono; [apply (rename_tail s3 old_dir Lo j ino i3 (nf_ok _ _ _ F3) (HD3 _ _ Do)); [done|done|done]|].
  intros err s4 (-> & (err2 & U) & F4 & Hn4 & Hc4 & Hd4). split; [done|].
  split; [eapply nf_trans; eapply nf_mono; [exact F3| |exact F4|]; clear; set_solver|].
  split; [exists s3, err2; split; [done|]; split; [by apply HD3|done]|]. split; [|split; [|split; [|split]]].
  - destruct (decide (new_dir = old_dir)) as [->|Hdd].
    + rewrite (dir_ok_fun s old_dir Ln Lo Dn Do) in *. destruct U as ([|] & _ & D4); cbn [unlink_slots] in D4; [|by exists Lo, x].
      eexists _, x. split; [exact D4|]. split; [done|]. rewrite list_lookup_insert_ne; [done|]. intros Ej. congruence.
    + exists Ln, x. split; [|done]. eapply dir_ok_other; [by apply HD3|exact F4|clear -Hdd; set_solver].
  - rewrite Hn4. exact Hn1.
  - intros n Hnn. rewrite Hn4. exact (Hn2 n Hnn).
  - by rewrite Hc4.
  - by rewrite Hd4.
Qed.

(** ** Looking up *)

(** The state after [d_add] of an inode just referenced. *)
Definition found (dir : Z) (name : bytes) (ino : Z) (s : vfs) : vfs :=
  with_dentries (<[(dir, name) := ino]> (v_dentries s)) (with_count (v_count s ⊎ {[+ ino +]}) s).

(** What [gas_iget] makes of the number in the slot is what [gas_lookup] makes of the name. *)
Lemma lookup_iget s dir name sbi ino : mounted (v_k s) sbi -> 0 <= ino < s_ninodes sbi ->
  pwp (r ← iget gas_iget ino;
       match r with inl e => mret (Some e) | inr inode => _ ← d_add (Dentry dir name) inode; mret (None : option errno) end) s
    (fun err s' =>
      match k_inodes (v_k s) !! ino, alloc_inode (v_k s) with
      | Some _, _ => err = None /\ s' = found dir name ino s
      | None, None => err = Some ENOMEM /\ s' = s
      | None, Some info =>
          if negb (read_ok (inode_blk sbi ino)) then err = Some EIO /\ s' = s
          else err = None /\ exists m i dev, k_buf (v_k s) !! inode_blk sbi ino = Some m /\
            gas_inode_fill (set_ino ino info) m (inode_off sbi ino) = Some i /\ blkaddr i !! 0%nat = Some dev /\
            s' = found dir name ino (with_k (with_inodes (<[ino := gas_set_inode i (new_decode_dev dev)]> (k_inodes (v_k s))) (v_k s)) s)
      end).
Proof using KL.
  intros M Hr. unfold iget. apply pwp_bind, pwp_bind, pwp_lift.
  eapply kwp_mono; [by apply (gas_iget_cases (v_k s) sbi ino)|]. intros r k'.
  destruct (k_inodes (v_k s) !! ino) as [io|]; [|destruct (alloc_inode (v_k s)) as [info|]; [destruct (read_ok _); cbn [negb]|]].
  - intros [-> ->]. rewrite with_k_same. apply pwp_bind, pwp_mod, pwp_ret, pwp_bind, pwp_mod, pwp_ret. done.
  - intros (-> & m & i & dev & H1' & H2 & H3 & ->). apply pwp_bind, pwp_mod, pwp_ret, pwp_bind, pwp_mod, pwp_ret.
    split; [done|]. by exists m, i, dev.
  - intros [-> ->]. rewrite with_k_same. apply pwp_bind, pwp_ret, pwp_ret, pwp_ret. done.
  - intros [-> ->]. rewrite with_k_same. apply pwp_bind, pwp_ret, pwp_ret, pwp_ret. done.
Qed.

(** C17: [gas_lookup] refuses names of 256 bytes and more with ENAMETOOLONG. A directory whose first
    page cannot be read looks empty: the error is lost and the name reported as absent.
    Otherwise the first of the first fifteen slots that has the name decides, with what
    [gas_iget] makes of its number: an inode in memory, or one that could be read, gets the
    dentry and one more reference; without memory the answer is ENOMEM, with an unreadable
    inode table EIO, and nothing has changed. When none of these slots has the name, a
    directory of at most fifteen entries answers that it is absent and changes nothing; in a
    larger one, also in one of exactly one page, the search reads past the end of the page. *)
Theorem gas_lookup_spec s dir Ls i name sbi :
  dir_ok s dir Ls -> k_inodes (v_k s) !! dir = Some i -> mounted (v_k s) sbi ->
  (forall nm x, Some (nm, x) ∈ Ls -> 0 <= x < s_ninodes sbi) ->
  if GAS_MAX_NAME_LEN <=? blen name then gas_lookup gas_iget dir (Dentry dir name) s = Some (Some ENAMETOOLONG, s)
  else if bool_decide (is_Some (page_err dir 0)) then gas_lookup gas_iget dir (Dentry dir name) s = Some (None, s)
  else
    let K := Z.min (Z.of_nat (length Ls)) 15 in
    exists j, is_first (name_at s dir name) 0 K j /\
      if j <? K then exists ino, Ls !! Z.to_nat j = Some (Some (name, ino)) /\
        pwp (gas_lookup gas_iget dir (Dentry dir name)) s (fun err s' =>
          match k_inodes (v_k s) !! ino, alloc_inode (v_k s) with
          | Some _, _ => err = None /\ s' = found dir name ino s
          | None, None => err = Some ENOMEM /\ s' = s
          | None, Some info =>
              if negb (read_ok (inode_blk sbi ino)) then err = Some EIO /\ s' = s
              else err = None /\ exists m i dev, k_buf (v_k s) !! inode_blk sbi ino = Some m /\
                gas_inode_fill (set_ino ino info) m (inode_off sbi ino) = Some i /\ blkaddr i !! 0%nat = Some dev /\
                s' = found dir name ino (with_k (with_inodes (<[ino := gas_set_inode i (new_decode_dev dev)]> (k_inodes (v_k s))) (v_k s)) s)
          end)
      else gas_lookup gas_iget dir (Dentry dir name) s = if i_size i <=? 15 * DE.sizeof then Some (None, s) else None.
Proof using KL.
  intros D Hi M Hnum. destruct (GAS_MAX_NAME_LEN <=? blen name) eqn:El.
  { unfold gas_lookup. cbn [d_name]. by rewrite El. }
  destruct (gas_inode_by_name_run s dir Ls i name D Hi) as (j & Hj & E). case_bool_decide as He.
  { destruct He as [e He]. rewrite He in E. unfold gas_lookup. cbn [d_name]. by rewrite El, P_bind_eq, E. }
  apply eq_None_not_Some in He. rewrite He in E. intros K. fold K in Hj, E. exists j. split; [done|].
  unfold gas_lookup. cbn [d_name]. rewrite El. destruct (Z.ltb_spec j K) as [Hlt|Hge].
  2: { rewrite P_bind_eq, E. by destruct (i_size i <=? 15 * DE.sizeof). }
  assert (Hj0 : 0 <= j) by apply Hj. pose proof (proj2 (proj2 Hj) Hlt) as Hn. unfold name_at in Hn.
  destruct (slot s dir j) as [[nm ino]|] eqn:Es; [|done]. apply bool_decide_eq_true in Hn as ->. exists ino.
  destruct (do_slots _ _ _ D) as (i' & Hi' & Ds & HL & _). simplify_eq.
  assert (EL : dir_slots s dir (i_size i) !! Z.to_nat j = Some (Some (name, ino))).
  { rewrite slots_lookup, Es; [done|]. rewrite <- (slots_length s dir _ Ds). unfold K in Hlt. lia. }
  split; [done|]. rewrite EL in E. destruct (slot_reads s dir _ j D) as (ino' & _ & _ & Es'). rewrite Es in Es'.
  destruct (Z.eqb_spec ino' 0); [done|]. injection Es' as _ <-. apply pwp_bind. eexists _, _. split; [exact E|].
  rewrite (proj2 (Z.eqb_neq ino 0)) by done. cbn [negb].
  apply (lookup_iget s dir name sbi ino M). eapply Hnum, list_elem_of_lookup_2, EL.
Qed.
End spec.
