(* ===== verification/NameTree.v ===== *)
(** * The name space on the mounted file system

    The inode allocator and [gas_evict_inode] implement the interface of NameBase.v, so that
    the theorems of NameSpec.v hold for the file system of this module. The witnesses run
    on the directory of DirTree.v with two files in it. *)

From S2P Require Import Prelude Mem Layout Kernel InodeTab Alloc KBitmap Itree Tree TreeEdit Trunc Truncate Files FileSys TreeDemo.
From S2P Require Import Vfs Dir DirSlots DirEdit DirOps DirSpec DirRead DirTree Namei NameBase NameSpec.

Section manager.
Context `{KL : KernelLaws}.
Variables (other : K unit) (fuel : nat).
Hypothesis other_idle : forall st, other st = Some (tt, st).
Context (truncate_inode_pages invalidate_inode_buffers clear_inode : Z -> K unit) (block_truncate_page : Z -> Z -> K unit).
Hypothesis pages_truncated : forall ino st, truncate_inode_pages ino st = Some (tt, st).
Hypothesis buffers_invalidated : forall ino st, invalidate_inode_buffers ino st = Some (tt, st).
Hypothesis inode_cleared : forall ino st, clear_inode ino st = Some (tt, st).
Hypothesis page_truncated : forall (BA : BlockAllocator gas_new_block gas_free_block) sbi ino l size st,
  tree_at (BA := BA) sbi ino st l -> kwp (block_truncate_page ino size) st (fun _ s1 => data_only st l s1).
Hypothesis all_readable : forall x, read_ok x = true.

(** The number is taken in the inode map. *)
Definition number_used (ino : Z) (st : kst) : Prop :=
  exists sbi, s_fs_info st = Some sbi /\ iam_used sbi st ino = true.

Lemma number_attr ino m d st : number_used ino (with_idirty d (with_inodes m st)) <-> number_used ino st.
Proof using Type. done. Qed.

Lemma number_free sbi ino st : s_fs_info st = Some sbi -> iam_used sbi st ino = false -> ~ number_used ino st.
Proof using Type. intros E Hf (sbi' & E' & Hu). congruence. Qed.

Lemma manager_new dir mode st : file_ok dir st -> is_Some (k_inodes st !! dir) ->
  kwp (gas_new_inode dir mode) st (fun '(r, err) st' =>
    match r with
    | None => st' = st /\ (err = Some ENOMEM \/ err = Some ENOSPC)
    | Some ino => err = None /\ new_file mode ino st st' /\ file_ok dir st' /\ ~ number_used ino st /\ number_used ino st'
    end).
Proof using KL.
  intros [_ (sbi & F)] Hd. eapply kwp_mono; [by apply (fs_new_inode sbi st dir mode)|]. intros [[ino|] err] st'; [|done].
  intros (-> & Hfresh & sbi' & I & F'). split; [done|]. destruct (im_inodes _ _ _ _ _ _ I) as (i & Ei & H1 & H2 & H3 & _ & H5).
  split; [split; [done|apply I|by exists i]|]. split; [split; [|by exists sbi']|split].
  - rewrite Ei. destruct Hd as [d Hd]. exists d. rewrite lookup_insert_ne; [done|congruence].
  - eapply number_free; [apply (fs_mounted _ _ F)|apply I].
  - assert (M' := im_mounted _ _ _ _ _ _ I). exists sbi'. split; [apply M'|]. pose proof (im_range _ _ _ _ _ _ I) as Hr.
    assert (G := mt_geom _ _ (fs_mounted _ _ F)). pose proof (g_iam_room _ _ G). unfold GAS_ROOT_INO in Hr.
    rewrite (im_iam _ _ _ _ _ _ I) by lia. by rewrite Z.eqb_refl.
Qed.

Lemma manager_evict dir ino i st : file_ok dir st -> dir <> ino -> is_Some (k_inodes st !! dir) ->
  k_inodes st !! ino = Some i -> i_nlink i = 0 -> S_ISREG (i_mode i) || S_ISDIR (i_mode i) || S_ISLNK (i_mode i) = true ->
  kwp (evict other truncate_inode_pages invalidate_inode_buffers clear_inode block_truncate_page ino) st (fun _ st' =>
    let st2 := with_inodes (delete ino (k_inodes st')) st' in
    file_ok dir st2 /\ k_ref st2 = k_ref st /\ k_inodes st2 = delete ino (k_inodes st) /\ ~ number_used ino st2).
Proof using All.
  intros [_ (sbi & F)] Hne Hd Hi Hnl Hm.
  eapply kwp_mono; [by apply (fs_evict other fuel other_idle truncate_inode_pages invalidate_inode_buffers clear_inode block_truncate_page
    pages_truncated buffers_invalidated inode_cleared page_truncated sbi st ino i (fun x _ => all_readable x))|].
  intros [] st' (F' & Hr & Ein & Hu). split; [|split; [exact Hr|split; [exact Ein|]]].
  2: { eapply number_free; [apply (fs_mounted _ _ F')|exact Hu]. }
  split; [|by exists sbi].
  cbn. rewrite Ein, lookup_delete_ne by done. exact Hd.
Qed.

Definition gas_inode_manager : @InodeManager (gas_get_block gas_new_block gas_free_block other (S fuel))
    (get_block_mapper other fuel other_idle) gas_new_inode
    (evict other truncate_inode_pages invalidate_inode_buffers clear_inode block_truncate_page).
Proof using All.
  refine {| im_used := number_used; im_used_attr := number_attr |}; [exact manager_new|exact manager_evict].
Defined.
End manager.

(** ** A directory with two files *)

#[local] Existing Instance good_api.
#[local] Existing Instance good_laws.
#[local] Instance demo_page_api : PageApi := demo_pages 9 (fun _ _ => None) false.
#[local] Instance demo_page_api_laws : PageLaws := demo_page_laws 9 (fun _ _ => None) false ltac:(lia).
#[local] Instance demo_mapper : BlockMapper demo_get_block := get_block_mapper quiet_tasks 0 quiet_ok.

Definition demo_evict : Z -> K unit := evict quiet_tasks keep_inode keep_inode keep_inode keep_page.

#[local] Instance demo_manager : InodeManager demo_get_block gas_new_inode demo_evict :=
  gas_inode_manager quiet_tasks 0 quiet_ok keep_inode keep_inode keep_inode keep_page (fun _ _ => eq_refl)
    (fun _ _ => eq_refl) (fun _ _ => eq_refl) keep_any_page (fun _ => eq_refl).

(** A file [a] with inode 2 and an empty directory [b] with inode 3. *)
Definition name_a : bytes := [Byte.x61].
Definition name_b : bytes := [Byte.x62].
Definition name_c : bytes := [Byte.x63].

Definition names_page : bytes :=
  default [] (m ← f_set demo_page (2 * DE.sizeof) DE.de_inode 2; m ← store_bytes m (2 * DE.sizeof + DE.de_name) (name_a ++ [Byte.x00]);
              m ← f_set m (3 * DE.sizeof) DE.de_inode 3; store_bytes m (3 * DE.sizeof + DE.de_name) (name_b ++ [Byte.x00])).

Definition parent_inode : inode := set_size 1040 demo_dir_inode.
Definition file_a : inode := Inode 2 S_IFREG 1 0 0 0 0 0 0 0 (replicate 9 0) (Some gas_a_ops) (Some gas_file_inode_ops) (Some gas_file_ops).
Definition dir_b : inode := Inode 3 S_IFDIR 2 0 0 0 0 0 0 0 (replicate 9 0) (Some gas_a_ops) (Some gas_dir_inode_ops) (Some gas_dir_ops).

Definition names_k1 : kst := with_inodes (<[1 := parent_inode]> (k_inodes demo_tree)) demo_tree.
Definition names_k2 : kst := with_inodes (<[2 := file_a]> (k_inodes names_k1)) names_k1.
Definition names_k : kst := with_inodes (<[3 := dir_b]> (k_inodes names_k2)) names_k2.

Definition demo_names : vfs :=
  Vfs names_k {[(1, 0) := names_page]} ∅ ∅ ∅ {[+ 2; 3 +]} {[(1, name_a) := 2; (1, name_b) := 3]}.

Definition names_slots : list (option (bytes * Z)) :=
  [Some ([dot], 1); Some ([dot; dot], 1); Some (name_a, 2); Some (name_b, 3)].

Lemma names_fs_ok : fs_ok demo_sbi names_k.
Proof.
  apply fs_ok_add; [|reflexivity|reflexivity|vm_compute; split; congruence|vm_compute; reflexivity|reflexivity].
  apply fs_ok_add; [|reflexivity|reflexivity|vm_compute; split; congruence|vm_compute; reflexivity|reflexivity].
  by apply (fs_attr demo_sbi demo_tree _ 1 demo_dir_inode parent_inode demo_fs_ok).
Qed.

Lemma names_absent n : k_inodes names_k !! n = None -> n <> 1 /\ n <> 2 /\ n <> 3.
Proof. intros E. repeat split; intros ->; discriminate. Qed.

Lemma names_ok : vfs_ok demo_names.
Proof.
  split.
  - intros n Hn. split; [exact Hn|]. exists demo_sbi. exact names_fs_ok.
  - intros n (H1 & H2 & H3)%names_absent. split.
    + intros k. split; [|clear; set_solver]. unfold shown. cbn. by rewrite lookup_singleton_ne by congruence.
    + change (multiplicity n ({[+ 2 +]} ⊎ {[+ 3 +]} : gmultiset Z) = 0%nat). rewrite multiplicity_disj_union, !multiplicity_singleton_ne by done. done.
Qed.

Lemma names_valid name : name ∈ names names_slots -> valid_name name.
Proof.
  change (names names_slots) with [[dot]; [dot; dot]; name_a; name_b].
  intros [->|[->|[->|[->|[]%elem_of_nil]%elem_of_cons]%elem_of_cons]%elem_of_cons]%elem_of_cons; (split; [cbn; lia|by repeat constructor]).
Qed.

Lemma names_dir : dir_ok demo_names 1 names_slots.
Proof.
  assert (Hz : forall n, n <> 0 -> shown demo_names (1, n) = zeroes PAGE_CACHE_SIZE).
  { intros n Hn. unfold shown. cbn. by rewrite lookup_singleton_ne by congruence. }
  split.
  - exists parent_inode. split; [reflexivity|]. split; [vm_compute; repeat split; congruence|]. split; [vm_compute; reflexivity|].
    intros n Hn. change (gas_dir_pages parent_inode) with 1 in Hn. rewrite Hz by lia. by apply load_zeroes.
  - intros n. destruct (decide (n = 0)) as [->|Hne]; [vm_compute; reflexivity|]. rewrite Hz by done. by apply blen_zeroes.
  - exact names_valid.
  - intros j Hj. change (Z.of_nat (length names_slots)) with 4 in Hj.
    assert (j = 0 \/ j = 1 \/ j = 2 \/ j = 3) as [->|[->|[->| ->]]] by lia; vm_compute; reflexivity.
  - intros n. cbn. clear. set_solver.
Qed.

Lemma names_dir_b : dir_ok demo_names 3 [].
Proof.
  assert (Hz : forall n, shown demo_names (3, n) = zeroes PAGE_CACHE_SIZE).
  { intros n. unfold shown. cbn. by rewrite lookup_singleton_ne by congruence. }
  split.
  - exists dir_b. split; [reflexivity|]. split; [vm_compute; repeat split; congruence|]. split; [reflexivity|].
    intros n _. rewrite Hz. by apply load_zeroes.
  - intros n. rewrite Hz. by apply blen_zeroes.
  - intros name []%elem_of_nil.
  - cbn. lia.
  - intros n. cbn. clear. set_solver.
Qed.

Lemma names_room : dir_room names_slots.
Proof. vm_compute. reflexivity. Qed.

Lemma valid_a : valid_name name_a.
Proof. split; [cbn; lia|by repeat constructor]. Qed.
Lemma valid_b : valid_name name_b.
Proof. split; [cbn; lia|by repeat constructor]. Qed.
Lemma valid_c : valid_name name_c.
Proof. split; [cbn; lia|by repeat constructor]. Qed.

Lemma found_a : is_first (found_at demo_names 1 name_a) 0 4 2.
Proof.
  split; [lia|]. split; [|intros _; vm_compute; reflexivity]. intros k Hk.
  assert (k = 0 \/ k = 1) as [->| ->] by lia; vm_compute; reflexivity.
Qed.

Lemma found_b : is_first (found_at demo_names 1 name_b) 0 4 3.
Proof.
  split; [lia|]. split; [|intros _; vm_compute; reflexivity]. intros k Hk.
  assert (k = 0 \/ k = 1 \/ k = 2) as [->|[->| ->]] by lia; vm_compute; reflexivity.
Qed.

(** ** Witnesses *)

Lemma gas_create_spec_witness :
  pwp (gas_create demo_get_block gas_new_inode demo_evict 1 (Dentry 1 name_c) S_IFREG) demo_names
    (fun err s' => err = None -> exists ino, v_dentries s' !! (1, name_c) = Some ino /\ k_inodes names_k !! ino = None).
Proof.
  eapply pwp_mono.
  { apply (gas_create_spec (get_block := demo_get_block) (evict := demo_evict) demo_names 1 names_slots name_c S_IFREG 0
      (fun d => gas_create demo_get_block gas_new_inode demo_evict 1 d S_IFREG));
      [left; reflexivity|exact names_ok|exact names_dir|exact names_room|exact valid_c]. }
  intros err s' H He. rewrite He in H. destruct H as [[_ [Hf|Hf]]|(ino & Hfresh & _ & _ & _ & _ & E & _)]; [discriminate Hf|discriminate Hf|].
  exists ino. split; [rewrite E; apply lookup_insert_eq|exact Hfresh].
Defined.

Lemma gas_link_spec_witness :
  pwp (gas_link demo_get_block demo_evict (Dentry 1 name_a) 1 (Dentry 1 name_c)) demo_names
    (fun _ s' => node s' 2 = Some (2, S_IFREG, 2)).
Proof.
  eapply pwp_mono.
  { apply (gas_link_spec (get_block := demo_get_block) (gas_new_inode := gas_new_inode) (evict := demo_evict) demo_names 1 names_slots name_c (Dentry 1 name_a) 2 file_a);
      [exact names_ok|exact names_dir|exact names_room|exact valid_c|reflexivity|reflexivity|lia|cbn; lia]. }
  intros err s' (_ & _ & _ & H & _). exact H.
Defined.

Lemma gas_unlink_spec_witness :
  pwp (gas_unlink demo_get_block 1 (Dentry 1 name_a)) demo_names
    (fun err s' => err = None -> node s' 2 = Some (2, S_IFREG, 0)).
Proof.
  destruct (gas_unlink_spec (get_block := demo_get_block) demo_names 1 names_slots name_a 2 file_a)
    as (j & Hj & H); [exact names_ok|exact names_dir|exact valid_a|reflexivity|reflexivity|lia|].
  rewrite (is_first_unique _ _ _ _ _ Hj found_a) in H. change (2 <? Z.of_nat (length names_slots)) with true in H.
  eapply pwp_mono; [exact H|]. intros err s' (_ & _ & _ & Hn & _) He. rewrite He in Hn. exact Hn.
Defined.

Lemma gas_rmdir_spec_witness :
  pwp (gas_rmdir demo_get_block 1 (Dentry 1 name_b)) demo_names
    (fun err s' => err = None -> node s' 3 = Some (3, S_IFDIR, 0) /\ v_count s' = {[+ 2; 3 +]}).
Proof.
  destruct (gas_rmdir_spec (get_block := demo_get_block) demo_names 1 names_slots name_b 3 dir_b [] parent_inode)
    as (j & empty & Hj & He & H);
    [exact names_ok|exact names_dir|exact valid_b|exact names_dir_b|reflexivity|reflexivity|lia|reflexivity|vm_compute; split; congruence|cbn; lia|].
  assert (Ee : empty = true) by (apply He; intros k nm x _ Hk; rewrite lookup_nil in Hk; discriminate Hk).
  rewrite (is_first_unique _ _ _ _ _ Hj found_b), Ee in H. change (3 <? Z.of_nat (length names_slots)) with true in H.
  eapply pwp_mono; [exact H|]. intros err s' (_ & _ & _ & _ & Hc & Hn) Hnone. rewrite Hnone in Hn. split; [apply Hn|exact Hc].
Defined.

Lemma gas_mkdir_spec_witness :
  pwp (gas_mkdir demo_get_block gas_new_inode demo_evict 1 (Dentry 1 name_c) 0x1ED) demo_names
    (fun err s' => node s' 1 = Some (1, i_mode parent_inode, match err with Some _ => 2 | None => 3 end)).
Proof.
  eapply pwp_mono.
  { apply (gas_mkdir_spec (get_block := demo_get_block) (evict := demo_evict) demo_names 1 names_slots name_c 0x1ED parent_inode);
      [exact names_ok|exact names_dir|exact names_room|exact valid_c|reflexivity|vm_compute; split; congruence|reflexivity]. }
  intros err s' [(He & _ & _ & H & _)|(ino & _ & _ & _ & _ & H)].
  - destruct He as [-> | ->]; exact H.
  - destruct err; [exact (proj1 (proj2 (proj2 (proj2 H))))|exact (proj1 (proj2 (proj2 H)))].
Defined.

Lemma gas_rename_move_witness :
  pwp (gas_rename demo_get_block 1 (Dentry 1 name_a) 1 (Dentry 1 name_c)) demo_names
    (fun _ s' => node s' 2 = Some (2, S_IFREG, 1) /\ v_pref s' = ∅).
Proof.
  eapply pwp_mono.
  { apply (gas_rename_move (get_block := demo_get_block) demo_names 1 name_a names_slots 1 name_c names_slots 2 file_a 2);
      [exact names_ok|exact names_dir|exact names_dir|exact names_room|exact valid_a|exact valid_c|reflexivity|reflexivity|reflexivity|
       reflexivity|lia|exact found_a|reflexivity]. }
  intros err s' (F & Hn & _). split; [rewrite Hn; reflexivity|exact (nf_pref _ _ _ F)].
Defined.

Lemma gas_rename_over_loses_witness :
  pwp (gas_rename demo_get_block 1 (Dentry 1 name_a) 1 (Dentry 1 name_b)) demo_names
    (fun err s' => err = None /\ exists Ls, dir_ok s' 1 Ls /\ Ls !! 3%nat = Some (Some (name_b, 3)) /\ node s' 3 = Some (3, S_IFDIR, 1)).
Proof.
  eapply pwp_mono.
  { apply (gas_rename_over_loses (get_block := demo_get_block) demo_names 1 name_a names_slots 1 name_b names_slots 2 file_a 3 dir_b 2 3);
      [exact names_ok|exact names_dir|exact names_dir|exact valid_a|exact valid_b|discriminate|reflexivity|reflexivity|reflexivity|
       reflexivity|reflexivity|lia|lia|lia|exact found_a|reflexivity|exact found_b|reflexivity]. }
  intros err s' (-> & _ & _ & (Ls & x & D & Ex & El) & Hn & _). split; [reflexivity|]. exists Ls. split; [exact D|].
  split; [|exact Hn]. change (names_slots !! Z.to_nat 3) with (Some (Some (name_b, 3))) in Ex. injection Ex as <-. exact El.
Defined.

Lemma names_numbers nm x : Some (nm, x) ∈ names_slots -> 0 <= x < s_ninodes demo_sbi.
Proof.
  intros Hin. assert (Hx : x = 1 \/ x = 2 \/ x = 3).
  { unfold names_slots in Hin. repeat (apply elem_of_cons in Hin as [Hin|Hin]; [injection Hin as _ ->; lia|]). by apply elem_of_nil in Hin. }
  change (s_ninodes demo_sbi) with 8. lia.
Qed.

Lemma gas_lookup_spec_witness :
  exists s', gas_lookup gas_iget 1 (Dentry 1 name_a) demo_names = Some (None, s') /\ v_dentries s' !! (1, name_a) = Some 2.
Proof.
  pose proof (gas_lookup_spec demo_names 1 names_slots parent_inode name_a demo_sbi names_dir eq_refl
    (fs_mounted _ _ names_fs_ok) names_numbers) as H.
  change (GAS_MAX_NAME_LEN <=? blen name_a) with false in H. cbn match in H.
  rewrite bool_decide_eq_false_2 in H by (intros [e He]; discriminate He). destruct H as (j & Hj & H).
  change (Z.min (Z.of_nat (length names_slots)) 15) with 4 in *.
  assert (F : is_first (name_at demo_names 1 name_a) 0 4 2).
  { split; [lia|]. split; [|intros _; vm_compute; reflexivity]. intros k Hk.
    assert (k = 0 \/ k = 1) as [->| ->] by lia; vm_compute; reflexivity. }
  rewrite (is_first_unique _ _ _ _ _ Hj F) in H. change (2 <? 4) with true in H. cbn match in H.
  destruct H as (ino & Ei & E). change (names_slots !! Z.to_nat 2) with (Some (Some (name_a, 2))) in Ei. injection Ei as <-.
  change (k_inodes (v_k demo_names) !! 2) with (Some file_a) in E. cbn match in E. destruct E as (err & s' & E & -> & ->).
  exists (found 1 name_a 2 demo_names). split; [exact E|]. unfold found. cbn [v_dentries with_dentries]. apply lookup_insert_eq.
Defined.
